(** * libvncserver WebSocket transport: frame decoder and handshake dispatch

    A shallow embedding of [src/libvncserver/ws_decode.c] (the RFC 6455
    frame decoder) and of the parts of [src/libvncserver/websockets.c]
    that dispatch a new connection and negotiate the sub-protocol.

    Conventions of the embedding.
    - C integers are [Z].  The two [uint64_t] fields ([payloadLen],
      [nReadPayload]) wrap modulo 2^64 where the source computes with
      them ([remaining], [+=]); [int] values are small in every state the
      decoder reaches and are kept as mathematical integers.
    - A byte is a [Z] in [0, 256); [char] arrays are [list Z].
    - A pointer into [codeBufDecode] is its offset from the start of the
      array; [NULL] is an offset outside of it.  An access outside an
      array is undefined in C: here a read yields 0 and a write is dropped.
    - [errno] and the socket are threaded explicitly ([world]).
    - Logging ([rfbErr], [rfbLog], [ws_dbg]) is not modelled. *)

From Stdlib Require Import String Ascii ZArith List Lia Bool.
Import ListNotations.
Open Scope Z_scope.

(** ** Arrays of bytes *)

Definition is_byte (b : Z) : Prop := 0 <= b < 256.

Definition ARRAYSIZE (a : list Z) : Z := Z.of_nat (length a).

Definition buf_get (buf : list Z) (i : Z) : Z :=
  if i <? 0 then 0 else nth (Z.to_nat i) buf 0.

Fixpoint buf_set_nat (buf : list Z) (i : nat) (v : Z) : list Z :=
  match buf, i with
  | [], _ => []
  | _ :: t, O => v :: t
  | h :: t, S j => h :: buf_set_nat t j v
  end.

Definition buf_set (buf : list Z) (i : Z) (v : Z) : list Z :=
  if i <? 0 then buf else buf_set_nat buf (Z.to_nat i) v.

(** [memcpy (buf + off, src, length src)] *)
Fixpoint memcpy (buf : list Z) (off : Z) (src : list Z) : list Z :=
  match src with
  | [] => buf
  | b :: bs => memcpy (buf_set buf off b) (off + 1) bs
  end.

(** the [n] bytes at [buf + off] *)
Definition buf_read (buf : list Z) (off n : Z) : list Z :=
  map (fun k => buf_get buf (off + Z.of_nat k)) (seq 0 (Z.to_nat n)).

(** the C string at [buf + off]: the bytes before the first NUL *)
Fixpoint cstring (l : list Z) : list Z :=
  match l with
  | [] => []
  | b :: t => if b =? 0 then [] else b :: cstring t
  end.

Definition cstring_at (buf : list Z) (off : Z) : list Z :=
  cstring (buf_read buf off (ARRAYSIZE buf - off)).

(** ** Machine integers *)

Definition u64 (x : Z) : Z := x mod 2 ^ 64.
Definition s32 (x : Z) : Z := (x + 2 ^ 31) mod 2 ^ 32 - 2 ^ 31.

(** A [uint32_t] read from / stored to four bytes of memory (host order:
    little endian; the mask XOR does not depend on the choice). *)
Definition word32 (c : list Z) : Z :=
  Z.lor (nth 0 c 0)
    (Z.lor (Z.shiftl (nth 1 c 0) 8)
       (Z.lor (Z.shiftl (nth 2 c 0) 16) (Z.shiftl (nth 3 c 0) 24))).

Definition bytes32 (w : Z) : list Z :=
  [Z.land w 255; Z.land (Z.shiftr w 8) 255;
   Z.land (Z.shiftr w 16) 255; Z.land (Z.shiftr w 24) 255].

Definition load32 (buf : list Z) (off : Z) : Z := word32 (buf_read buf off 4).
Definition store32 (buf : list Z) (off : Z) (w : Z) : list Z :=
  memcpy buf off (bytes32 w).

(** Modelled from the spec: the network-to-host macros [WS_NTOH16] and
    [WS_NTOH64] of the header file websockets.h, which is not part of the
    sources at hand; the length fields are in network byte order. *)
Definition WS_NTOH (bs : list Z) : Z :=
  fold_left (fun acc b => acc * 256 + b) bs 0.
Definition WS_NTOH16 (buf : list Z) (off : Z) : Z := WS_NTOH (buf_read buf off 2).
Definition WS_NTOH64 (buf : list Z) (off : Z) : Z := WS_NTOH (buf_read buf off 8).

(** ** Constants of websockets.h

    Modelled from the spec: the header file is not part of the sources at
    hand.  Header lengths are those of the short, extended and long masked
    layouts; opcodes are those of RFC 6455; [WS_OPCODE_INVALID] is a value
    no four-bit opcode takes. *)
Definition WSHLENMAX : Z := 14.
Definition WS_HYBI_HEADER_LEN_SHORT_MASKED : Z := 6.
Definition WS_HYBI_HEADER_LEN_EXTENDED_MASKED : Z := 8.
Definition WS_HYBI_HEADER_LEN_LONG_MASKED : Z := 14.

Definition WS_OPCODE_CONTINUATION : Z := 0.
Definition WS_OPCODE_TEXT_FRAME : Z := 1.
Definition WS_OPCODE_BINARY_FRAME : Z := 2.
Definition WS_OPCODE_CLOSE : Z := 8.
Definition WS_OPCODE_PING : Z := 9.
Definition WS_OPCODE_PONG : Z := 10.
Definition WS_OPCODE_INVALID : Z := 255.

Definition NULL : Z := -1.

Inductive ws_state : Set :=
| WS_STATE_DECODING_HEADER_PENDING
| WS_STATE_DECODING_DATA_AVAILABLE
| WS_STATE_DECODING_DATA_NEEDED
| WS_STATE_DECODING_FRAME_COMPLETE
| WS_STATE_DECODING_CLOSE_REASON_PENDING
| WS_STATE_ERR.

Definition ws_state_eqb (a b : ws_state) : bool :=
  match a, b with
  | WS_STATE_DECODING_HEADER_PENDING, WS_STATE_DECODING_HEADER_PENDING
  | WS_STATE_DECODING_DATA_AVAILABLE, WS_STATE_DECODING_DATA_AVAILABLE
  | WS_STATE_DECODING_DATA_NEEDED, WS_STATE_DECODING_DATA_NEEDED
  | WS_STATE_DECODING_FRAME_COMPLETE, WS_STATE_DECODING_FRAME_COMPLETE
  | WS_STATE_DECODING_CLOSE_REASON_PENDING, WS_STATE_DECODING_CLOSE_REASON_PENDING
  | WS_STATE_ERR, WS_STATE_ERR => true
  | _, _ => false
  end.

Inductive errno_t : Set :=
| EAGAIN | EPROTO | ECONNRESET | EIO | ETIMEDOUT
| EOTHER (code : Z).

(** ** The decoding context *)

(** [ws_header_data_t]; [data] points to the start of [codeBufDecode] once
    two header bytes are there; [mask] is the union [ws_mask_t], kept as
    its four bytes [c], with [u] their [uint32_t] reading. *)
Record ws_header_data_t : Set := mk_header {
  data : Z;
  nDone : Z;
  mask : list Z;
  headerLen : Z;
  payloadLen : Z;
  opcode : Z;
  fin : Z
}.

Record ws_decoding_ctx_t : Set := mk_dec {
  codeBufDecode : list Z;
  writePos : Z;
  readPos : Z;
  readlen : Z;
  header : ws_header_data_t;
  nReadPayload : Z;
  carryBuf : list Z;
  carrylen : Z;
  continuation_opcode : Z;
  state : ws_state
}.

(** [ws_ctx_t]: the decoder, and the flag set by the handshake.  The
    encoder context and the I/O callbacks ([ctxInfo]) are left out: the
    socket behind [readFunc] is part of the [world]. *)
Record ws_ctx_t : Set := mk_ctx {
  dec : ws_decoding_ctx_t;
  base64 : bool
}.

Definition mask_u (h : ws_header_data_t) : Z := word32 (mask h).
Definition mask_c (h : ws_header_data_t) (i : Z) : Z := buf_get (mask h) i.

Definition set_nDone (v : Z) (h : ws_header_data_t) : ws_header_data_t :=
  mk_header (data h) v (mask h) (headerLen h) (payloadLen h) (opcode h) (fin h).
Definition set_data (v : Z) (h : ws_header_data_t) : ws_header_data_t :=
  mk_header v (nDone h) (mask h) (headerLen h) (payloadLen h) (opcode h) (fin h).
Definition set_mask (v : list Z) (h : ws_header_data_t) : ws_header_data_t :=
  mk_header (data h) (nDone h) v (headerLen h) (payloadLen h) (opcode h) (fin h).
Definition set_headerLen (v : Z) (h : ws_header_data_t) : ws_header_data_t :=
  mk_header (data h) (nDone h) (mask h) v (payloadLen h) (opcode h) (fin h).
Definition set_payloadLen (v : Z) (h : ws_header_data_t) : ws_header_data_t :=
  mk_header (data h) (nDone h) (mask h) (headerLen h) v (opcode h) (fin h).
Definition set_opcode (v : Z) (h : ws_header_data_t) : ws_header_data_t :=
  mk_header (data h) (nDone h) (mask h) (headerLen h) (payloadLen h) v (fin h).
Definition set_fin (v : Z) (h : ws_header_data_t) : ws_header_data_t :=
  mk_header (data h) (nDone h) (mask h) (headerLen h) (payloadLen h) (opcode h) v.

Definition set_codeBufDecode (v : list Z) (c : ws_decoding_ctx_t) :=
  mk_dec v (writePos c) (readPos c) (readlen c) (header c) (nReadPayload c)
    (carryBuf c) (carrylen c) (continuation_opcode c) (state c).
Definition set_writePos (v : Z) (c : ws_decoding_ctx_t) :=
  mk_dec (codeBufDecode c) v (readPos c) (readlen c) (header c) (nReadPayload c)
    (carryBuf c) (carrylen c) (continuation_opcode c) (state c).
Definition set_readPos (v : Z) (c : ws_decoding_ctx_t) :=
  mk_dec (codeBufDecode c) (writePos c) v (readlen c) (header c) (nReadPayload c)
    (carryBuf c) (carrylen c) (continuation_opcode c) (state c).
Definition set_readlen (v : Z) (c : ws_decoding_ctx_t) :=
  mk_dec (codeBufDecode c) (writePos c) (readPos c) v (header c) (nReadPayload c)
    (carryBuf c) (carrylen c) (continuation_opcode c) (state c).
Definition set_header (v : ws_header_data_t) (c : ws_decoding_ctx_t) :=
  mk_dec (codeBufDecode c) (writePos c) (readPos c) (readlen c) v (nReadPayload c)
    (carryBuf c) (carrylen c) (continuation_opcode c) (state c).
Definition set_nReadPayload (v : Z) (c : ws_decoding_ctx_t) :=
  mk_dec (codeBufDecode c) (writePos c) (readPos c) (readlen c) (header c) v
    (carryBuf c) (carrylen c) (continuation_opcode c) (state c).
Definition set_carryBuf (v : list Z) (c : ws_decoding_ctx_t) :=
  mk_dec (codeBufDecode c) (writePos c) (readPos c) (readlen c) (header c)
    (nReadPayload c) v (carrylen c) (continuation_opcode c) (state c).
Definition set_carrylen (v : Z) (c : ws_decoding_ctx_t) :=
  mk_dec (codeBufDecode c) (writePos c) (readPos c) (readlen c) (header c)
    (nReadPayload c) (carryBuf c) v (continuation_opcode c) (state c).
Definition set_continuation_opcode (v : Z) (c : ws_decoding_ctx_t) :=
  mk_dec (codeBufDecode c) (writePos c) (readPos c) (readlen c) (header c)
    (nReadPayload c) (carryBuf c) (carrylen c) v (state c).
Definition set_state (v : ws_state) (c : ws_decoding_ctx_t) :=
  mk_dec (codeBufDecode c) (writePos c) (readPos c) (readlen c) (header c)
    (nReadPayload c) (carryBuf c) (carrylen c) (continuation_opcode c) v.

Definition upd_header (f : ws_header_data_t -> ws_header_data_t)
    (c : ws_decoding_ctx_t) : ws_decoding_ctx_t :=
  set_header (f (header c)) c.

(** ** The socket behind [readFunc], and [errno] *)

(** What the next [read] on the socket finds: some bytes (at least one), an
    error, or the end of the stream.  With nothing scripted a read would
    block: it fails with [EAGAIN]. *)
Inductive sock_event : Set :=
| Chunk (b : Z) (bs : list Z)
| Fails (e : errno_t)
| Closed.

Record world : Set := mk_world {
  sock : list sock_event;
  errno : errno_t
}.

Definition set_errno (e : errno_t) (w : world) : world := mk_world (sock w) e.

Definition rest_chunk (bs : list Z) (s : list sock_event) : list sock_event :=
  match bs with
  | [] => s
  | b :: t => Chunk b t :: s
  end.

(** [lowerRead (ctxPtr, buf, len)] of websockets.c: [read(2)] on the socket
    (or [rfbssl_read]).  Returns the return value, the bytes stored to
    [buf], and the world after the call; [len] is a [size_t]. *)
Definition lowerRead (w : world) (len : Z) : Z * list Z * world :=
  match sock w with
  | [] => (-1, [], set_errno EAGAIN w)
  | Fails e :: s => (-1, [], mk_world s e)
  | Closed :: s => (0, [], mk_world s (errno w))
  | Chunk b bs :: s =>
      let want := Z.to_nat (u64 len) in
      let got := firstn want (b :: bs) in
      (Z.of_nat (length got), got,
       mk_world (rest_chunk (skipn want (b :: bs)) s) (errno w))
  end.

(** ** ws_decode.c *)

Definition wsHeaderCleanup (h : ws_header_data_t) : ws_header_data_t :=
  set_nDone 0
    (set_data NULL
       (set_headerLen 0
          (set_mask [0; 0; 0; 0]
             (set_payloadLen 0 (set_opcode WS_OPCODE_INVALID h))))).

Definition isControlFrame (head : ws_header_data_t) : bool :=
  negb (0 =? Z.land (opcode head) 8).

Definition remaining (wsctx : ws_decoding_ctx_t) : Z :=
  u64 (payloadLen (header wsctx) - nReadPayload wsctx).

Definition wsDecodeCleanupBasics (wsctx : ws_decoding_ctx_t) : ws_decoding_ctx_t :=
  let wsctx := upd_header wsHeaderCleanup wsctx in
  let wsctx := set_nReadPayload 0 wsctx in
  let wsctx := set_carrylen 0 wsctx in
  let wsctx := set_readPos 0 wsctx in
  let wsctx := set_readlen 0 wsctx in
  let wsctx := set_state WS_STATE_DECODING_HEADER_PENDING wsctx in
  set_writePos NULL wsctx.

Definition wsDecodeCleanupForContinuation (wsctx : ws_decoding_ctx_t) :=
  wsDecodeCleanupBasics wsctx.

Definition wsDecodeCleanupComplete (wsctx : ws_decoding_ctx_t) :=
  set_continuation_opcode WS_OPCODE_INVALID (wsDecodeCleanupBasics wsctx).

(** [returnData (dst, len, wsctx, &nWritten)]: the next state, and what it
    leaves in [dst], in the context, in [*nWritten] and in [errno]. *)
Definition returnData (dst : list Z) (len : Z) (wsctx : ws_decoding_ctx_t)
    (nWritten : Z) (w : world)
  : ws_state * list Z * ws_decoding_ctx_t * Z * world :=
  if readlen wsctx >? 0 then
    if readlen wsctx >? len then
      let dst := memcpy dst 0 (buf_read (codeBufDecode wsctx) (readPos wsctx) len) in
      let nWritten := len in
      let wsctx := set_readlen (readlen wsctx - len) wsctx in
      let wsctx := set_readPos (readPos wsctx + len) wsctx in
      (WS_STATE_DECODING_DATA_AVAILABLE, dst, wsctx, nWritten, w)
    else
      let dst :=
        memcpy dst 0 (buf_read (codeBufDecode wsctx) (readPos wsctx) (readlen wsctx)) in
      let nWritten := readlen wsctx in
      let wsctx := set_readlen 0 wsctx in
      let wsctx := set_readPos NULL wsctx in
      if remaining wsctx =? 0
      then (WS_STATE_DECODING_FRAME_COMPLETE, dst, wsctx, nWritten, w)
      else (WS_STATE_DECODING_DATA_NEEDED, dst, wsctx, nWritten, w)
  else
    (state wsctx, dst, wsctx, -1, set_errno EAGAIN w).

(** The three labels [readHeader] leaves through. *)
Definition ret_header_pending (wsctx : ws_decoding_ctx_t) (w : world) (nPayload : Z)
  : ws_state * ws_decoding_ctx_t * world * Z * Z :=
  (WS_STATE_DECODING_HEADER_PENDING, wsctx, set_errno EAGAIN w, -1, nPayload).

Definition err_cleanup_state_sock_closed (wsctx : ws_decoding_ctx_t) (w : world)
    (sockRet nPayload : Z) : ws_state * ws_decoding_ctx_t * world * Z * Z :=
  (WS_STATE_ERR, wsDecodeCleanupComplete wsctx, w, sockRet, nPayload).

Definition err_cleanup_state (wsctx : ws_decoding_ctx_t) (w : world) (nPayload : Z)
  : ws_state * ws_decoding_ctx_t * world * Z * Z :=
  err_cleanup_state_sock_closed wsctx w (-1) nPayload.

(** [readHeader], from the check of the length encoding on (the header is
    complete: [headerLen], [payloadLen] and [mask] are set). *)
Definition readHeader_complete (wsctx : ws_decoding_ctx_t) (w : world)
    (sockRet nPayload : Z) : ws_state * ws_decoding_ctx_t * world * Z * Z :=
  if ((headerLen (header wsctx) >? WS_HYBI_HEADER_LEN_SHORT_MASKED)
        && (payloadLen (header wsctx) <? 126))
     || ((headerLen (header wsctx) >? WS_HYBI_HEADER_LEN_EXTENDED_MASKED)
           && (payloadLen (header wsctx) <? 65536))
  then err_cleanup_state wsctx (set_errno EPROTO w) nPayload
  else
    let wsctx := set_writePos (nDone (header wsctx)) wsctx in
    let wsctx := set_readPos (headerLen (header wsctx)) wsctx in
    let nPayload := nDone (header wsctx) - headerLen (header wsctx) in
    let wsctx := set_nReadPayload (u64 nPayload) wsctx in
    (WS_STATE_DECODING_DATA_NEEDED, wsctx, w, sockRet, nPayload).

(** [readHeader], from the second assignment of [payloadLen] on (the
    opcode has been accepted). *)
Definition readHeader_length (wsctx : ws_decoding_ctx_t) (w : world)
    (sockRet nPayload : Z) : ws_state * ws_decoding_ctx_t * world * Z * Z :=
  let b1 := buf_get (codeBufDecode wsctx) 1 in
  let wsctx := upd_header (set_payloadLen (Z.land b1 127)) wsctx in
  if Z.land b1 128 =? 0 then err_cleanup_state wsctx (set_errno EPROTO w) nPayload
  else if (payloadLen (header wsctx) <? 126) && (nDone (header wsctx) >=? 6) then
    let wsctx := upd_header (set_headerLen WS_HYBI_HEADER_LEN_SHORT_MASKED) wsctx in
    let wsctx := upd_header (set_mask (buf_read (codeBufDecode wsctx) 2 4)) wsctx in
    readHeader_complete wsctx w sockRet nPayload
  else if (payloadLen (header wsctx) =? 126) && (8 <=? nDone (header wsctx)) then
    let wsctx := upd_header (set_headerLen WS_HYBI_HEADER_LEN_EXTENDED_MASKED) wsctx in
    let wsctx := upd_header (set_payloadLen (WS_NTOH16 (codeBufDecode wsctx) 2)) wsctx in
    let wsctx := upd_header (set_mask (buf_read (codeBufDecode wsctx) 4 4)) wsctx in
    readHeader_complete wsctx w sockRet nPayload
  else if (payloadLen (header wsctx) =? 127) && (14 <=? nDone (header wsctx)) then
    let wsctx := upd_header (set_headerLen WS_HYBI_HEADER_LEN_LONG_MASKED) wsctx in
    let wsctx := upd_header (set_payloadLen (WS_NTOH64 (codeBufDecode wsctx) 2)) wsctx in
    let wsctx := upd_header (set_mask (buf_read (codeBufDecode wsctx) 10 4)) wsctx in
    readHeader_complete wsctx w sockRet nPayload
  else ret_header_pending wsctx w nPayload.

Definition readHeader (wsctx : ws_decoding_ctx_t) (w : world) (sockRet nPayload : Z)
  : ws_state * ws_decoding_ctx_t * world * Z * Z :=
  let headerDst := nDone (header wsctx) in
  let n := WSHLENMAX - nDone (header wsctx) in
  let '(ret, bytes, w) := lowerRead w n in
  let wsctx := set_codeBufDecode (memcpy (codeBufDecode wsctx) headerDst bytes) wsctx in
  if ret <=? 0 then
    if -1 =? ret then err_cleanup_state wsctx w nPayload
    else err_cleanup_state_sock_closed wsctx w 0 nPayload
  else
    let wsctx := upd_header (set_nDone (nDone (header wsctx) + ret)) wsctx in
    if nDone (header wsctx) <? 2 then ret_header_pending wsctx w nPayload
    else
      let wsctx := upd_header (set_data 0) wsctx in
      let b0 := buf_get (codeBufDecode wsctx) 0 in
      let wsctx := upd_header (set_opcode (Z.land b0 15)) wsctx in
      let wsctx := upd_header (set_fin (Z.shiftr (Z.land b0 128) 7)) wsctx in
      if isControlFrame (header wsctx) then
        if fin (header wsctx) =? 0
        then err_cleanup_state wsctx (set_errno EPROTO w) nPayload
        else readHeader_length wsctx w sockRet nPayload
      else if opcode (header wsctx) =? WS_OPCODE_CONTINUATION then
        if continuation_opcode wsctx =? WS_OPCODE_INVALID
        then err_cleanup_state wsctx (set_errno EPROTO w) nPayload
        else
          let wsctx := upd_header (set_opcode (continuation_opcode wsctx)) wsctx in
          readHeader_length wsctx w sockRet nPayload
      else
        let wsctx :=
          if fin (header wsctx) =? 0
          then set_continuation_opcode (opcode (header wsctx)) wsctx
          else set_continuation_opcode WS_OPCODE_INVALID wsctx in
        readHeader_length wsctx w sockRet nPayload.

Definition wsFrameComplete (wsctx : ws_decoding_ctx_t) : bool :=
  remaining wsctx =? 0.

Definition payloadStart (wsctx : ws_decoding_ctx_t) : Z :=
  headerLen (header wsctx).

(** [for (i = i0; i < i0 + count; i++) data32[i] ^= mask.u] *)
Fixpoint xor_words (buf : list Z) (datap u : Z) (i : Z) (count : nat) : list Z :=
  match count with
  | O => buf
  | S k =>
      xor_words (store32 buf (datap + 4 * i) (Z.lxor (load32 buf (datap + 4 * i)) u))
        datap u (i + 1) k
  end.

(** [for (i = i0; i < i0 + count; i++) data[i] ^= mask.c[i % 4]] *)
Fixpoint xor_bytes (buf : list Z) (datap : Z) (c : list Z) (i : Z) (count : nat)
  : list Z :=
  match count with
  | O => buf
  | S k =>
      xor_bytes
        (buf_set buf (datap + i) (Z.lxor (buf_get buf (datap + i)) (buf_get c (i mod 4))))
        datap c (i + 1) k
  end.

Section Decoder.

(** [b64_pton (src, target, targsize)] is an external primitive (the
    resolver library's Base64 decoder): from the C string [src] and the
    size of the target it yields its return value (the number of bytes
    decoded, or -1) and the bytes it has stored to [target]. *)
Variable b64_pton : list Z -> Z -> Z * list Z.

(** [readAndDecode], the unmasking of the [toDecode] bytes that end at
    [writePos]: whole words against [mask.u]; then, when the frame is
    complete, the bytes left against [mask.c[i % 4]], and otherwise these
    bytes go to the carry buffer.  The flag tells that the sanity check of
    the carry size passed. *)
Definition unmask (dec_ctx : ws_decoding_ctx_t) (toDecode : Z)
  : ws_decoding_ctx_t * bool :=
  let datap := writePos dec_ctx - toDecode in
  let i := Z.shiftr toDecode 2 in
  let dec_ctx :=
    set_codeBufDecode
      (xor_words (codeBufDecode dec_ctx) datap (mask_u (header dec_ctx)) 0
         (Z.to_nat i)) dec_ctx in
  if ws_state_eqb (state dec_ctx) WS_STATE_DECODING_FRAME_COMPLETE then
    (* process the remaining bytes (if any) *)
    let dec_ctx :=
      set_codeBufDecode
        (xor_bytes (codeBufDecode dec_ctx) datap (mask (header dec_ctx))
           (i * 4) (Z.to_nat (toDecode - i * 4))) dec_ctx in
    (* all data is here, no carrying *)
    (set_carrylen 0 dec_ctx, true)
  else
    (* carry over remaining, non-multiple-of-four bytes *)
    let dec_ctx := set_carrylen (toDecode - i * 4) dec_ctx in
    if (carrylen dec_ctx <? 0) || (carrylen dec_ctx >? ARRAYSIZE (carryBuf dec_ctx))
    then (dec_ctx, false)
    else
      let dec_ctx :=
        set_carryBuf
          (memcpy (carryBuf dec_ctx) 0
             (buf_read (codeBufDecode dec_ctx) (datap + i * 4) (carrylen dec_ctx)))
          dec_ctx in
      (set_writePos (writePos dec_ctx - carrylen dec_ctx) dec_ctx, true).

(** [readAndDecode], the cases of the [switch] on the opcode that go on to
    [returnData]: TEXT, BINARY and [default]. *)
Definition decode_by_opcode (dec_ctx : ws_decoding_ctx_t) (datap toReturn bufsize : Z)
  : ws_decoding_ctx_t :=
  if opcode (header dec_ctx) =? WS_OPCODE_TEXT_FRAME then
    let dec_ctx :=
      set_codeBufDecode (buf_set (codeBufDecode dec_ctx) (datap + toReturn) 0) dec_ctx in
    let '(r, out) := b64_pton (cstring_at (codeBufDecode dec_ctx) datap) bufsize in
    let dec_ctx :=
      set_codeBufDecode (memcpy (codeBufDecode dec_ctx) datap out) dec_ctx in
    let dec_ctx := set_readlen r dec_ctx in
    set_writePos (payloadStart dec_ctx) dec_ctx
  else if opcode (header dec_ctx) =? WS_OPCODE_BINARY_FRAME then
    let dec_ctx := set_readlen toReturn dec_ctx in
    set_writePos (payloadStart dec_ctx) dec_ctx
  else dec_ctx.

(** [readAndDecode], from [dec_ctx->nReadPayload += n] on: the socket has
    delivered [n] bytes to [writePos] ([n = 0] when nothing was left to
    read); [bufsize] is the room computed before the read. *)
Definition readAndDecode_payload (wsctx : ws_ctx_t) (dst : list Z) (len : Z)
    (w : world) (sockRet : Z) (nInBuf bufsize n : Z)
  : ws_state * list Z * ws_ctx_t * Z * world :=
  let back (d : ws_decoding_ctx_t) := mk_ctx d (base64 wsctx) in
  let dec_ctx := dec wsctx in
  let dec_ctx := set_nReadPayload (u64 (nReadPayload dec_ctx + n)) dec_ctx in
  let dec_ctx := set_writePos (writePos dec_ctx + n) dec_ctx in
  let dec_ctx :=
    if remaining dec_ctx =? 0
    then set_state WS_STATE_DECODING_FRAME_COMPLETE dec_ctx else dec_ctx in
  (* number of not yet unmasked payload bytes: what we read here + what was
     carried over + what was read with the header *)
  let toDecode := n + carrylen dec_ctx + nInBuf in
  if toDecode <? 0 then
    (WS_STATE_ERR, dst, back dec_ctx, -1, set_errno EIO w)
  else
    let datap := writePos dec_ctx - toDecode in
    let '(dec_ctx, ok) := unmask dec_ctx toDecode in
    if negb ok then
      (WS_STATE_ERR, dst, back dec_ctx, -1, set_errno EIO w)
    else
      let toReturn := toDecode - carrylen dec_ctx in
      if opcode (header dec_ctx) =? WS_OPCODE_CLOSE then
        (* this data is not returned as payload data *)
        if wsFrameComplete dec_ctx then
          let dec_ctx :=
            set_codeBufDecode (buf_set (codeBufDecode dec_ctx) (writePos dec_ctx) 0)
              dec_ctx in
          (WS_STATE_DECODING_FRAME_COMPLETE, dst, back dec_ctx, -1,
           set_errno ECONNRESET w)
        else
          (WS_STATE_DECODING_CLOSE_REASON_PENDING, dst, back dec_ctx, -1,
           set_errno EAGAIN w)
      else
        let dec_ctx := decode_by_opcode dec_ctx datap toReturn bufsize in
        let dec_ctx := set_readPos datap dec_ctx in
        let '(nextState, dst, dec_ctx, sockRet, w) :=
          returnData dst len dec_ctx sockRet w in
        (nextState, dst, back dec_ctx, sockRet, w).

(** [readAndDecode (wsctx, dst, len, &sockRet, nInBuf)]: the next state,
    and what it leaves in [dst], in the context, in [*sockRet] and in the
    world. *)
Definition readAndDecode (wsctx : ws_ctx_t) (dst : list Z) (len : Z) (w : world)
    (sockRet : Z) (nInBuf : Z)
  : ws_state * list Z * ws_ctx_t * Z * world :=
  let back (d : ws_decoding_ctx_t) := mk_ctx d (base64 wsctx) in
  let dec_ctx := dec wsctx in
  (* if data was carried over, copy to start of buffer *)
  let dec_ctx :=
    set_codeBufDecode
      (memcpy (codeBufDecode dec_ctx) (writePos dec_ctx)
         (buf_read (carryBuf dec_ctx) 0 (carrylen dec_ctx))) dec_ctx in
  let dec_ctx := set_writePos (writePos dec_ctx + carrylen dec_ctx) dec_ctx in
  (* -1 accounts for potential NUL terminator for base64 decoding *)
  let bufsize := ARRAYSIZE (codeBufDecode dec_ctx) - writePos dec_ctx - 1 in
  let nextRead :=
    if remaining dec_ctx >? u64 bufsize then bufsize else s32 (remaining dec_ctx) in
  if nextRead >? 0 then
    (* decode more data *)
    let '(n, bytes, w) := lowerRead w nextRead in
    let dec_ctx :=
      set_codeBufDecode (memcpy (codeBufDecode dec_ctx) (writePos dec_ctx) bytes)
        dec_ctx in
    if -1 =? n then (WS_STATE_ERR, dst, back dec_ctx, -1, w)
    else if n =? 0 then (WS_STATE_ERR, dst, back dec_ctx, 0, w)
    else readAndDecode_payload (back dec_ctx) dst len w sockRet nInBuf bufsize n
  else
    readAndDecode_payload (back dec_ctx) dst len w sockRet nInBuf bufsize 0.

(** [_webSocketsDecode], the [switch] on the state: the result, and what
    the branch leaves in [dst], in the context and in the world. *)
Definition decode_switch (wsctx : ws_ctx_t) (dst : list Z) (len : Z) (w : world)
  : Z * list Z * ws_ctx_t * world :=
  let result := -1 in
  let with_state (s : ws_state) (c : ws_ctx_t) :=
    mk_ctx (set_state s (dec c)) (base64 c) in
  match state (dec wsctx) with
  | WS_STATE_DECODING_HEADER_PENDING =>
      let '(s, d, w, result, nInBuf) := readHeader (dec wsctx) w result 0 in
      let wsctx := with_state s (mk_ctx d (base64 wsctx)) in
      match s with
      | WS_STATE_ERR => (result, dst, wsctx, w)
      | WS_STATE_DECODING_HEADER_PENDING => (result, dst, wsctx, w)
      | _ =>
          (* when header is complete, try to read some more data *)
          let '(s, dst, wsctx, result, w) :=
            readAndDecode wsctx dst len w result nInBuf in
          (result, dst, with_state s wsctx, w)
      end
  | WS_STATE_DECODING_DATA_AVAILABLE =>
      let '(s, dst, d, result, w) := returnData dst len (dec wsctx) result w in
      (result, dst, with_state s (mk_ctx d (base64 wsctx)), w)
  | WS_STATE_DECODING_DATA_NEEDED
  | WS_STATE_DECODING_CLOSE_REASON_PENDING =>
      let '(s, dst, wsctx, result, w) := readAndDecode wsctx dst len w result 0 in
      (result, dst, with_state s wsctx, w)
  | _ =>
      (* invalid state *)
      (-1, dst, with_state WS_STATE_ERR wsctx, set_errno EIO w)
  end.

(** [_webSocketsDecode], the single point of return (label [spor]). *)
Definition decode_spor (dec_ctx : ws_decoding_ctx_t) : ws_decoding_ctx_t :=
  match state dec_ctx with
  | WS_STATE_DECODING_FRAME_COMPLETE =>
      if negb (fin (header dec_ctx) =? 0) && negb (isControlFrame (header dec_ctx))
      then (* frame finished, cleanup state *)
        wsDecodeCleanupComplete dec_ctx
      else (* always retain continuation opcode for unfinished data frames
              or control frames, which may interleave with data frames *)
        wsDecodeCleanupForContinuation dec_ctx
  | WS_STATE_ERR => wsDecodeCleanupComplete dec_ctx
  | _ => dec_ctx
  end.

(** [_webSocketsDecode (wsctx, dst, len)]: the emulated [recv].  Returns
    the result, and what the call leaves in [dst], in the context and in
    the world. *)
Definition _webSocketsDecode (wsctx : ws_ctx_t) (dst : list Z) (len : Z) (w : world)
  : Z * list Z * ws_ctx_t * world :=
  let '(result, dst, wsctx, w) := decode_switch wsctx dst len w in
  (result, dst, mk_ctx (decode_spor (dec wsctx)) (base64 wsctx), w).

End Decoder.

(** ** websockets.c *)

Definition dquote : string := String (ascii_of_nat 34) EmptyString.
Definition newline : string := String (ascii_of_nat 10) EmptyString.

Definition FLASH_POLICY_RESPONSE : string :=
  ("<cross-domain-policy><allow-access-from domain=" ++ dquote ++ "*" ++ dquote
   ++ " to-ports=" ++ dquote ++ "*" ++ dquote
   ++ " /></cross-domain-policy>" ++ newline)%string.
Definition SZ_FLASH_POLICY_RESPONSE : Z := 93.

Definition bytes_of_string (s : string) : list Z :=
  map (fun a => Z.of_nat (nat_of_ascii a)) (list_ascii_of_string s).

(** The array a string literal denotes: its characters and a final NUL. *)
Definition literal (s : string) : list Z := bytes_of_string s ++ [0].

(** A call [rfbWriteExact (cl, buf, len)]: the object [buf] points to and
    the length asked for. *)
Inductive write_call : Set :=
| WriteExact (buf : list Z) (len : Z).

(** The bytes such a call takes from memory; [None] stands for a byte
    past the end of the object. *)
Definition bytes_taken (c : write_call) : list (option Z) :=
  match c with
  | WriteExact buf len => map (fun k => nth_error buf k) (seq 0 (Z.to_nat len))
  end.

(** What [rfbPeekExactTimeout (cl, bbuf, 4, ms)] finds: its return value,
    [errno], and the content of [bbuf]. *)
Record peek_result : Set := mk_peek {
  peek_ret : Z;
  peek_errno : errno_t;
  peek_buf : list Z
}.

(** The part of [rfbClientRec] the dispatch touches: what the successive
    peeks will find, whether [rfbssl_init] succeeds, the calls of
    [rfbWriteExact] so far, and the session ([wsctx], [NULL] at first). *)
Record rfbClient : Set := mk_client {
  peeks : list peek_result;
  ssl_init_ok : bool;
  written : list write_call;
  wsctx_of : option ws_ctx_t;
  wspath : option string
}.

Definition rfbPeekExactTimeout (cl : rfbClient) (bbuf : list Z)
  : Z * errno_t * list Z * rfbClient :=
  match peeks cl with
  | [] => (-1, ETIMEDOUT, bbuf, cl)
  | p :: ps =>
      (peek_ret p, peek_errno p,
       if peek_ret p >? 0 then peek_buf p else bbuf,
       mk_client ps (ssl_init_ok cl) (written cl) (wsctx_of cl) (wspath cl))
  end.

Definition rfbWriteExact (cl : rfbClient) (buf : list Z) (len : Z) : rfbClient :=
  mk_client (peeks cl) (ssl_init_ok cl) (written cl ++ [WriteExact buf len])
    (wsctx_of cl) (wspath cl).

Definition errno_is_ETIMEDOUT (e : errno_t) : bool :=
  match e with ETIMEDOUT => true | _ => false end.

(** [strncmp (a, b, n) == 0] on byte arrays (both at least [n] long or
    NUL-terminated before). *)
Fixpoint strncmp_eq (a b : list Z) (n : nat) {struct n} : bool :=
  match n with
  | O => true
  | S k =>
      match a, b with
      | x :: a', y :: b' =>
          if x =? y then (if x =? 0 then true else strncmp_eq a' b' k) else false
      | _, _ => false
      end
  end.

Section Check.

(** [webSocketsHandshake (cl, scheme)] parses the HTTP request and creates
    the session; the dispatch below only calls it. *)
Variable webSocketsHandshake : rfbClient -> string -> bool * rfbClient.

Definition webSocketsCheck (cl : rfbClient) : bool * rfbClient :=
  let '(ret, err, bbuf, cl) := rfbPeekExactTimeout cl [0; 0; 0; 0] in
  if (ret <? 0) && errno_is_ETIMEDOUT err then (true, cl)
  else if ret <=? 0 then (false, cl)
  else if strncmp_eq bbuf (literal "<") 1 then
    (* Got Flash policy request, sending response *)
    let cl := rfbWriteExact cl (literal FLASH_POLICY_RESPONSE) SZ_FLASH_POLICY_RESPONSE in
    (false, cl)
  else
    let tls := strncmp_eq bbuf [22; 0] 1 || strncmp_eq bbuf [128; 0] 1 in
    if tls && negb (ssl_init_ok cl) then (false, cl)
    else
      let '(bbuf, cl, scheme) :=
        if tls then
          let '(_, _, bbuf, cl) := rfbPeekExactTimeout cl bbuf in (bbuf, cl, "wss"%string)
        else (bbuf, cl, "ws"%string) in
      if negb (strncmp_eq bbuf (literal "GET ") 4) then (false, cl)
      else webSocketsHandshake cl scheme.

End Check.

(** [strstr (hay, needle) != NULL] *)
Fixpoint strstr (hay needle : string) : bool :=
  if String.prefix needle hay then true
  else match hay with
       | EmptyString => false
       | String _ t => strstr t needle
       end.

(** [webSocketsHandshake], the choice of the sub-protocol from the
    client's Sec-WebSocket-Protocol header ([None]: no such header):
    the [base64] flag and the protocol named in the reply. *)
Definition select_protocol (protocol : option string) : bool * string :=
  match protocol with
  | Some p =>
      if strstr p "binary" then (false, "binary"%string)
      else if strstr p "base64" then (true, "base64"%string)
      else (true, EmptyString)
  | None => (true, EmptyString)
  end.

(** [webSocketsHandshake], the creation of the session:
    [calloc], the flag, and [wsDecodeCleanupComplete].  The size of
    [codeBufDecode] is fixed in websockets.h, which is not part of the
    sources at hand: it is a parameter here. *)
Definition calloc_dec (cap : nat) : ws_decoding_ctx_t :=
  mk_dec (repeat 0 cap) NULL NULL 0 (mk_header NULL 0 [0; 0; 0; 0] 0 0 0 0) 0
    [0; 0; 0] 0 0 WS_STATE_DECODING_HEADER_PENDING.

Definition new_session (cap : nat) (b64 : bool) : ws_ctx_t :=
  mk_ctx (wsDecodeCleanupComplete (calloc_dec cap)) b64.

(** ** Clients, callers and reference definitions *)

(** The bytes a call of the emulated recv hands to its caller. *)
Definition delivered (r : Z) (dst : list Z) : list Z :=
  if r >? 0 then firstn (Z.to_nat r) dst else [].

(** The caller of the emulated [recv]: [calls] calls in a row, each with a
    fresh destination buffer of [len] bytes; the bytes each call hands
    over (the first [n] bytes of [dst] when it returns [n > 0]) are
    collected in order. *)
Fixpoint recv_loop (b64_pton : list Z -> Z -> Z * list Z) (calls : nat)
    (wsctx : ws_ctx_t) (len : Z) (w : world) : list Z * ws_ctx_t * world :=
  match calls with
  | O => ([], wsctx, w)
  | S k =>
      let '(r, dst, wsctx, w) :=
        _webSocketsDecode b64_pton wsctx (repeat 0 (Z.to_nat len)) len w in
      let '(out, wsctx, w) := recv_loop b64_pton k wsctx len w in
      (delivered r dst ++ out, wsctx, w)
  end.

Definition recv_output (b64_pton : list Z -> Z -> Z * list Z) (calls : nat)
    (wsctx : ws_ctx_t) (len : Z) (w : world) : list Z :=
  fst (fst (recv_loop b64_pton calls wsctx len w)).

(** A stream that arrives in one piece, and one that arrives byte by byte. *)
Definition one_chunk (l : list Z) : list sock_event := rest_chunk l [].
Definition bytewise (l : list Z) : list sock_event := map (fun b => Chunk b []) l.

(** An arbitrary split of a stream into pieces. *)
Definition chunks (ls : list (list Z)) : list sock_event :=
  fold_right rest_chunk [] ls.

(** The per-byte reference definition of masking (RFC 6455, 5.3): byte [j]
    of the payload is XORed with [mask[j % 4]]. *)
Fixpoint xor_mask_from (c : list Z) (j : Z) (l : list Z) : list Z :=
  match l with
  | [] => []
  | b :: t => Z.lxor b (buf_get c (j mod 4)) :: xor_mask_from c (j + 1) t
  end.

Definition xor_mask (c : list Z) (l : list Z) : list Z := xor_mask_from c 0 l.

(** [n] bytes of [x], most significant first. *)
Fixpoint be_bytes (n : nat) (x : Z) : list Z :=
  match n with
  | O => []
  | S k => (x / 256 ^ Z.of_nat k) mod 256 :: be_bytes k x
  end.

(** A frame as a client sends it: masked, with the length encoded
    minimally. *)
Definition frame_header (fin_bit opc : Z) (c : list Z) (len : Z) : list Z :=
  [128 * fin_bit + opc]
  ++ (if len <? 126 then [128 + len]
      else if len <? 65536 then (128 + 126) :: be_bytes 2 len
      else (128 + 127) :: be_bytes 8 len)
  ++ c.

Definition client_frame (fin_bit opc : Z) (c : list Z) (payload : list Z) : list Z :=
  frame_header fin_bit opc c (Z.of_nat (length payload)) ++ xor_mask c payload.

(** Modelled from the spec: the Base64 decoding primitive ([b64_pton] is
    not part of the sources at hand), for the standard alphabet with [=]
    padding; -1 when the text is not Base64 or does not fit the target. *)
Definition b64_value (c : Z) : option Z :=
  if (65 <=? c) && (c <=? 90) then Some (c - 65)
  else if (97 <=? c) && (c <=? 122) then Some (c - 71)
  else if (48 <=? c) && (c <=? 57) then Some (c + 4)
  else if c =? 43 then Some 62
  else if c =? 47 then Some 63
  else None.

Definition b64_quad (a b c d : Z) : option (list Z) :=
  match b64_value a, b64_value b with
  | Some x, Some y =>
      let o1 := x * 4 + y / 16 in
      if (c =? 61) && (d =? 61) then Some [o1]
      else match b64_value c with
           | Some z =>
               let o2 := (y mod 16) * 16 + z / 4 in
               if d =? 61 then Some [o1; o2]
               else match b64_value d with
                    | Some v => Some [o1; o2; (z mod 4) * 64 + v]
                    | None => None
                    end
           | None => None
           end
  | _, _ => None
  end.

Fixpoint b64_decode (src : list Z) : option (list Z) :=
  match src with
  | [] => Some []
  | a :: b :: c :: d :: rest =>
      match b64_quad a b c d with
      | Some o =>
          if (d =? 61) then (match rest with [] => Some o | _ => None end)
          else match b64_decode rest with
               | Some os => Some (o ++ os)
               | None => None
               end
      | None => None
      end
  | _ => None
  end.

Definition b64_pton_ref (src : list Z) (targsize : Z) : Z * list Z :=
  match b64_decode src with
  | Some out =>
      if Z.of_nat (length out) <=? targsize then (Z.of_nat (length out), out)
      else (-1, [])
  | None => (-1, [])
  end.

(** A decoder with no Base64 text to expect (binary sessions). *)
Definition b64_pton_none (src : list Z) (targsize : Z) : Z * list Z := (-1, []).

(** Frames of the scenarios. *)
Definition frame_hello : list Z :=
  [0x82; 0x85; 0x37; 0xFA; 0x21; 0x3D; 0x7F; 0x9F; 0x4D; 0x51; 0x58].
Definition frame_unmasked : list Z := [0x82; 0x05; 72; 101; 108; 108; 111].
Definition three_short_frames : list Z :=
  client_frame 1 WS_OPCODE_BINARY_FRAME [1; 2; 3; 4] [97]
  ++ client_frame 1 WS_OPCODE_BINARY_FRAME [1; 2; 3; 4] [98]
  ++ client_frame 1 WS_OPCODE_BINARY_FRAME [1; 2; 3; 4] [99].

Definition frame_text_QUJD : list Z :=
  client_frame 1 WS_OPCODE_TEXT_FRAME [1; 2; 3; 4] (bytes_of_string "QUJD").
Definition frame_fragment_a : list Z :=
  client_frame 0 WS_OPCODE_BINARY_FRAME [1; 2; 3; 4] [97].
Definition frame_final_b : list Z :=
  client_frame 1 WS_OPCODE_BINARY_FRAME [1; 2; 3; 4] [98].
(** Five bytes of payload, with the length in the 16-bit form. *)
Definition frame_non_minimal : list Z :=
  [0x82; 0xFE; 0x00; 0x05; 0x37; 0xFA; 0x21; 0x3D; 0x7F; 0x9F; 0x4D; 0x51; 0x58].

(** A client whose first four bytes are [<pol]. *)
Definition flash_probe : rfbClient :=
  mk_client [mk_peek 4 (EOTHER 0) (bytes_of_string "<pol")] true [] None None.

(** Sockets of the scenarios. *)
Definition socket_with (s : list sock_event) : world := mk_world s (EOTHER 0).
Definition no_handshake (cl : rfbClient) (scheme : string) : bool * rfbClient :=
  (false, cl).

(** What a call may do to the caller's buffer when it returns [r]: nothing
    when [r <= 0]; otherwise it has written the first [r] bytes, and
    these only. *)
Definition dst_effect (dst : list Z) (len r : Z) (dst' : list Z) : Prop :=
  -1 <= r <= len
  /\ (r <= 0 -> dst' = dst)
  /\ (0 < r ->
      exists bytes, length bytes = Z.to_nat r /\ dst' = bytes ++ skipn (Z.to_nat r) dst).

(** The socket holds what is left of the stream [S] from position [pos]
    on, split in some way. *)
Definition stream_at (S : list Z) (pos : Z) (w : world) : Prop :=
  exists ls, sock w = chunks ls /\ concat ls = skipn (Z.to_nat pos) S.

(** The [n] bytes of [l] from [a] on are those of [l'] from [b] on. *)
Definition same_bytes (l : list Z) (a : Z) (l' : list Z) (b n : Z) : Prop :=
  forall i, 0 <= i < n -> buf_get l (a + i) = buf_get l' (b + i).

(** What unmasking leaves in the buffer: the [n] bytes from [p] on are
    XORed with the mask byte of their offset, the others are as before. *)
Definition unmasked (c buf buf' : list Z) (p n : Z) : Prop :=
  length buf' = length buf
  /\ forall j, buf_get buf' j
               = if (p <=? j) && (j <? p + n)
                 then Z.lxor (buf_get buf j) (buf_get c ((j - p) mod 4))
                 else buf_get buf j.

(** The invariant of the decoder while one BINARY frame is in flight.
    [S] is the frame as sent (a header of [H] bytes and [L] bytes of
    masked payload), [c] its mask, [u] its payload unmasked, [cap] the
    size of the decode buffer and [dl] the number of payload bytes handed
    to the caller so far. *)
Definition header_is (H L : Z) (c : list Z) (opc : Z) (d : ws_decoding_ctx_t) : Prop :=
  headerLen (header d) = H /\ payloadLen (header d) = L
  /\ mask (header d) = c /\ opcode (header d) = opc.

Definition sizes_are (cap : Z) (d : ws_decoding_ctx_t) : Prop :=
  ARRAYSIZE (codeBufDecode d) = cap /\ ARRAYSIZE (carryBuf d) = 3.

(** The header is arriving: [a] bytes of it are in the buffer. *)
Definition header_phase (S : list Z) (cap a : Z) (d : ws_decoding_ctx_t) (w : world)
  : Prop :=
  state d = WS_STATE_DECODING_HEADER_PENDING
  /\ nDone (header d) = a /\ carrylen d = 0 /\ sizes_are cap d
  /\ same_bytes (codeBufDecode d) 0 S 0 a /\ stream_at S a w.

(** The payload is arriving: of the [nReadPayload] bytes received, [dl]
    are with the caller, [readlen] are unmasked in the buffer at
    [readPos], and [carrylen] are still masked in the carry buffer. *)
Definition payload_phase (S u : list Z) (cap H L : Z) (c : list Z) (dl : Z)
    (d : ws_decoding_ctx_t) (w : world) : Prop :=
  (state d = WS_STATE_DECODING_DATA_NEEDED \/ state d = WS_STATE_DECODING_DATA_AVAILABLE)
  /\ header_is H L c WS_OPCODE_BINARY_FRAME d /\ sizes_are cap d
  /\ writePos d = H
  /\ 0 <= carrylen d <= 3 /\ 0 <= readlen d /\ 0 <= dl
  /\ nReadPayload d = dl + readlen d + carrylen d /\ nReadPayload d <= L
  /\ (nReadPayload d < L -> (dl + readlen d) mod 4 = 0)
  /\ (nReadPayload d = L -> carrylen d = 0)
  /\ same_bytes (carryBuf d) 0 S (H + dl + readlen d) (carrylen d)
  /\ (state d = WS_STATE_DECODING_DATA_AVAILABLE ->
      0 < readlen d /\ 0 <= readPos d /\ readPos d + readlen d <= cap
      /\ same_bytes (codeBufDecode d) (readPos d) u dl (readlen d))
  /\ (state d = WS_STATE_DECODING_DATA_NEEDED -> readlen d = 0 /\ nReadPayload d < L)
  /\ stream_at S (H + nReadPayload d) w.

(** [mu] bounds the number of calls the frame still takes. *)
Definition frame_inv (S u : list Z) (cap H L : Z) (c : list Z) (dl mu : Z)
    (d : ws_decoding_ctx_t) (w : world) : Prop :=
  (exists a, 0 <= a < H /\ header_phase S cap a d w /\ dl = 0
             /\ mu = 2 * (H + L - a))
  \/ (payload_phase S u cap H L c dl d w
      /\ mu = 2 * (L - nReadPayload d) + readlen d + carrylen d)
  \/ (state d = WS_STATE_DECODING_HEADER_PENDING /\ sock w = [] /\ dl = L /\ mu = 0).

(** What the single point of return makes of the state and the context
    the switch has come to. *)
Definition finish (s : ws_state) (d : ws_decoding_ctx_t) : ws_decoding_ctx_t :=
  decode_spor (set_state s d).

(** How the stream [S] starts: the header of a BINARY frame with bit [fin]
    equal to [fin_bit], a payload of [L] bytes and mask [c], in the one of
    the three layouts that [L] asks for; [H] is the length of that
    header. *)
Definition header_layout (S : list Z) (H L : Z) (c : list Z) (fin_bit : Z) : Prop :=
  (fin_bit = 0 \/ fin_bit = 1)
  /\ buf_get S 0 = 128 * fin_bit + WS_OPCODE_BINARY_FRAME
  /\ ((L < 126 /\ H = 6 /\ buf_get S 1 = 128 + L /\ buf_read S 2 4 = c)
      \/ (126 <= L < 65536 /\ H = 8 /\ buf_get S 1 = 254
          /\ WS_NTOH (buf_read S 2 2) = L /\ buf_read S 4 4 = c)
      \/ (65536 <= L /\ H = 14 /\ buf_get S 1 = 255
          /\ WS_NTOH (buf_read S 2 8) = L /\ buf_read S 10 4 = c)).


(** ** Steps of the payload decoding, named *)

(** [readAndDecode], the three statements after the read: the [n] bytes
    read are counted and the write position moves behind them; the state
    becomes FRAME_COMPLETE when nothing of the frame remains. *)
Definition payload_counted (dec_ctx : ws_decoding_ctx_t) (n : Z) : ws_decoding_ctx_t :=
  let dec_ctx := set_nReadPayload (u64 (nReadPayload dec_ctx + n)) dec_ctx in
  let dec_ctx := set_writePos (writePos dec_ctx + n) dec_ctx in
  if remaining dec_ctx =? 0
  then set_state WS_STATE_DECODING_FRAME_COMPLETE dec_ctx else dec_ctx.

(** The states in which a call of [_webSocketsDecode] leaves the decoder. *)
Definition waiting_state (s : ws_state) : Prop :=
  s = WS_STATE_DECODING_HEADER_PENDING \/ s = WS_STATE_DECODING_DATA_AVAILABLE
  \/ s = WS_STATE_DECODING_DATA_NEEDED \/ s = WS_STATE_DECODING_CLOSE_REASON_PENDING.

(** A session of the scenarios, which has three bytes of a header. *)
Definition session_with_partial_header : ws_ctx_t :=
  mk_ctx (upd_header (set_nDone 3) (dec (new_session 32 false))) false.
(** A PING frame with the FIN bit clear. *)
Definition frame_ping_no_fin : list Z := [0x09; 0x80; 1; 2; 3; 4].

(** ** websockets.c, the buffered data test *)

(** [webSocketsHasDataInBuffer (cl)]: of the client it reads [cl->wsctx]
    (NULL before the handshake), whether [cl->sslctx] is set, and what
    [rfbssl_pending (cl)] returns. *)
Definition webSocketsHasDataInBuffer (wsctx : option ws_ctx_t) (sslctx : bool)
    (rfbssl_pending : Z) : bool :=
  if match wsctx with
     | Some c => negb (readlen (dec c) =? 0)
     | None => false
     end
  then true
  else sslctx && (rfbssl_pending >? 0).

(** [s] occurs in [p]. *)
Definition occurs_in (s p : string) : Prop :=
  exists pre post, p = (pre ++ s ++ post)%string.

(** The invariant of the decoder between calls: decoded bytes wait
    exactly in state DATA_AVAILABLE. *)
Definition readlen_agrees (d : ws_decoding_ctx_t) : Prop :=
  (state d = WS_STATE_DECODING_DATA_AVAILABLE -> 0 < readlen d)
  /\ (state d <> WS_STATE_DECODING_DATA_AVAILABLE -> readlen d <= 0)
  /\ (state d = WS_STATE_DECODING_HEADER_PENDING -> readlen d = 0).

(** ** websockets.c, the handshake *)

Definition WEBSOCKETS_MAX_HANDSHAKE_LEN : Z := 4096.

Definition cr : string := String (ascii_of_nat 13) EmptyString.
Definition crlf : string := (cr ++ newline)%string.

Definition GUID : string := "258EAFA5-E914-47DA-95CA-C5AB0DC85B11".

(** [SERVER_HANDSHAKE_HYBI] and [SERVER_HANDSHAKE_HYBI_NO_PROTOCOL], with
    the strings that [snprintf] puts for their [%s]. *)
Definition SERVER_HANDSHAKE_HYBI (accept protocol : list Z) : list Z :=
  bytes_of_string
    ("HTTP/1.1 101 Switching Protocols" ++ crlf ++ "Upgrade: websocket" ++ crlf
     ++ "Connection: Upgrade" ++ crlf ++ "Sec-WebSocket-Accept: ")
  ++ accept
  ++ bytes_of_string (crlf ++ "Sec-WebSocket-Protocol: ")
  ++ protocol
  ++ bytes_of_string (crlf ++ crlf).

Definition SERVER_HANDSHAKE_HYBI_NO_PROTOCOL (accept : list Z) : list Z :=
  bytes_of_string
    ("HTTP/1.1 101 Switching Protocols" ++ crlf ++ "Upgrade: websocket" ++ crlf
     ++ "Connection: Upgrade" ++ crlf ++ "Sec-WebSocket-Accept: ")
  ++ accept
  ++ bytes_of_string (crlf ++ crlf).

(** Modelled from the spec: [B64LEN (SHA1_HASH_SIZE) + 1], the size of the
    array [accept] (the two macros are in headers that are not part of
    the sources at hand): the Base64 text of a 20-byte hash and its NUL. *)
Definition SZ_ACCEPT : Z := 29.

Definition string_of_bytes (l : list Z) : string :=
  string_of_list_ascii (map (fun b => ascii_of_nat (Z.to_nat b)) l).

(** *** The C library, in the C locale *)

Definition min (a b : Z) : Z := if a <? b then a else b.

Definition tolower (c : Z) : Z := if (65 <=? c) && (c <=? 90) then c + 32 else c.

Definition isspace (c : Z) : bool := (c =? 32) || ((9 <=? c) && (c <=? 13)).

Definition isdigit (c : Z) : bool := (48 <=? c) && (c <=? 57).

(** [strncasecmp (a, b, n) == 0] *)
Fixpoint strncasecmp_eq (a b : list Z) (n : nat) {struct n} : bool :=
  match n with
  | O => true
  | S k =>
      match a, b with
      | x :: a', y :: b' =>
          if tolower x =? tolower y
          then (if x =? 0 then true else strncasecmp_eq a' b' k)
          else false
      | _, _ => false
      end
  end.

Fixpoint skip_space (s : list Z) : list Z :=
  match s with
  | c :: t => if isspace c then skip_space t else s
  | [] => []
  end.

Fixpoint digits_value (acc : Z) (s : list Z) : Z :=
  match s with
  | c :: t => if isdigit c then digits_value (acc * 10 + (c - 48)) t else acc
  | [] => acc
  end.

Definition LONG_MAX : Z := 2 ^ 63 - 1.
Definition LONG_MIN : Z := - 2 ^ 63.

(** [strtol (s, NULL, 10)], for a 64-bit [long]: white space, an optional
    sign, decimal digits; 0 when there is no digit; out of range values
    are clamped. *)
Definition strtol (s : list Z) : Z :=
  let s := skip_space s in
  let '(neg, s) :=
    match s with
    | 45 :: t => (true, t)
    | 43 :: t => (false, t)
    | _ => (false, s)
    end in
  let v := digits_value 0 s in
  if neg then Z.max LONG_MIN (- v) else Z.min LONG_MAX v.

(** The conversion of a [long] to [char] (8 bits, signed). *)
Definition to_char (x : Z) : Z := (x + 128) mod 256 - 128.

(** *** Reading the request *)

(** What the connection delivers, byte by byte. *)
Inductive read_event : Set :=
| ReadByte (b : Z)
| ReadClosed
| ReadFails (e : errno_t).

(** Modelled from the spec: [rfbReadExact (cl, buf, n)] and
    [rfbReadExactTimeout (cl, buf, n, ms)] of sockets.c (not part of the
    sources at hand) return 1 when [n] bytes have been read, 0 when the
    peer has closed, and -1 on an error, with [errno] set; nothing in time
    is the error ETIMEDOUT.  The result: the return value, [errno], the
    bytes stored to [buf] before that, and what is left on the
    connection. *)
Fixpoint rfbReadExact (n : nat) (reads : list read_event) (e : errno_t)
  : Z * errno_t * list Z * list read_event :=
  match n with
  | O => (1, e, [], reads)
  | S k =>
      match reads with
      | [] => (-1, ETIMEDOUT, [], [])
      | ReadByte b :: r =>
          let '(ret, e', bs, r') := rfbReadExact k r e in (ret, e', b :: bs, r')
      | ReadClosed :: r => (0, e, [], r)
      | ReadFails x :: r => (-1, x, [], r)
      end
  end.

(** The local variables of [webSocketsHandshake] that the loop uses, with
    [cl->wspath], [errno] and the connection.  A pointer into [buf] is its
    offset; [None] is NULL. *)
Record hs_vars : Set := mk_hs {
  hs_buf : list Z;
  hs_len : Z;
  hs_linestart : Z;
  hs_path : option Z;
  hs_host : option Z;
  hs_origin : option Z;
  hs_protocol : option Z;
  hs_key1 : option Z;
  hs_key2 : option Z;
  hs_key3 : option Z;
  hs_sec_ws_origin : option Z;
  hs_sec_ws_key : option Z;
  hs_sec_ws_version : Z;
  hs_wspath : option string;
  hs_errno : errno_t;
  hs_reads : list read_event
}.

Definition hs_set_buf (v : list Z) (s : hs_vars) : hs_vars :=
  mk_hs v (hs_len s) (hs_linestart s) (hs_path s) (hs_host s) (hs_origin s)
    (hs_protocol s) (hs_key1 s) (hs_key2 s) (hs_key3 s) (hs_sec_ws_origin s)
    (hs_sec_ws_key s) (hs_sec_ws_version s) (hs_wspath s) (hs_errno s) (hs_reads s).
Definition hs_set_len (v : Z) (s : hs_vars) : hs_vars :=
  mk_hs (hs_buf s) v (hs_linestart s) (hs_path s) (hs_host s) (hs_origin s)
    (hs_protocol s) (hs_key1 s) (hs_key2 s) (hs_key3 s) (hs_sec_ws_origin s)
    (hs_sec_ws_key s) (hs_sec_ws_version s) (hs_wspath s) (hs_errno s) (hs_reads s).
Definition hs_set_linestart (v : Z) (s : hs_vars) : hs_vars :=
  mk_hs (hs_buf s) (hs_len s) v (hs_path s) (hs_host s) (hs_origin s)
    (hs_protocol s) (hs_key1 s) (hs_key2 s) (hs_key3 s) (hs_sec_ws_origin s)
    (hs_sec_ws_key s) (hs_sec_ws_version s) (hs_wspath s) (hs_errno s) (hs_reads s).
Definition hs_set_path (v : option Z) (s : hs_vars) : hs_vars :=
  mk_hs (hs_buf s) (hs_len s) (hs_linestart s) v (hs_host s) (hs_origin s)
    (hs_protocol s) (hs_key1 s) (hs_key2 s) (hs_key3 s) (hs_sec_ws_origin s)
    (hs_sec_ws_key s) (hs_sec_ws_version s) (hs_wspath s) (hs_errno s) (hs_reads s).
Definition hs_set_host (v : option Z) (s : hs_vars) : hs_vars :=
  mk_hs (hs_buf s) (hs_len s) (hs_linestart s) (hs_path s) v (hs_origin s)
    (hs_protocol s) (hs_key1 s) (hs_key2 s) (hs_key3 s) (hs_sec_ws_origin s)
    (hs_sec_ws_key s) (hs_sec_ws_version s) (hs_wspath s) (hs_errno s) (hs_reads s).
Definition hs_set_origin (v : option Z) (s : hs_vars) : hs_vars :=
  mk_hs (hs_buf s) (hs_len s) (hs_linestart s) (hs_path s) (hs_host s) v
    (hs_protocol s) (hs_key1 s) (hs_key2 s) (hs_key3 s) (hs_sec_ws_origin s)
    (hs_sec_ws_key s) (hs_sec_ws_version s) (hs_wspath s) (hs_errno s) (hs_reads s).
Definition hs_set_protocol (v : option Z) (s : hs_vars) : hs_vars :=
  mk_hs (hs_buf s) (hs_len s) (hs_linestart s) (hs_path s) (hs_host s) (hs_origin s)
    v (hs_key1 s) (hs_key2 s) (hs_key3 s) (hs_sec_ws_origin s)
    (hs_sec_ws_key s) (hs_sec_ws_version s) (hs_wspath s) (hs_errno s) (hs_reads s).
Definition hs_set_key1 (v : option Z) (s : hs_vars) : hs_vars :=
  mk_hs (hs_buf s) (hs_len s) (hs_linestart s) (hs_path s) (hs_host s) (hs_origin s)
    (hs_protocol s) v (hs_key2 s) (hs_key3 s) (hs_sec_ws_origin s)
    (hs_sec_ws_key s) (hs_sec_ws_version s) (hs_wspath s) (hs_errno s) (hs_reads s).
Definition hs_set_key2 (v : option Z) (s : hs_vars) : hs_vars :=
  mk_hs (hs_buf s) (hs_len s) (hs_linestart s) (hs_path s) (hs_host s) (hs_origin s)
    (hs_protocol s) (hs_key1 s) v (hs_key3 s) (hs_sec_ws_origin s)
    (hs_sec_ws_key s) (hs_sec_ws_version s) (hs_wspath s) (hs_errno s) (hs_reads s).
Definition hs_set_key3 (v : option Z) (s : hs_vars) : hs_vars :=
  mk_hs (hs_buf s) (hs_len s) (hs_linestart s) (hs_path s) (hs_host s) (hs_origin s)
    (hs_protocol s) (hs_key1 s) (hs_key2 s) v (hs_sec_ws_origin s)
    (hs_sec_ws_key s) (hs_sec_ws_version s) (hs_wspath s) (hs_errno s) (hs_reads s).
Definition hs_set_sec_ws_origin (v : option Z) (s : hs_vars) : hs_vars :=
  mk_hs (hs_buf s) (hs_len s) (hs_linestart s) (hs_path s) (hs_host s) (hs_origin s)
    (hs_protocol s) (hs_key1 s) (hs_key2 s) (hs_key3 s) v
    (hs_sec_ws_key s) (hs_sec_ws_version s) (hs_wspath s) (hs_errno s) (hs_reads s).
Definition hs_set_sec_ws_key (v : option Z) (s : hs_vars) : hs_vars :=
  mk_hs (hs_buf s) (hs_len s) (hs_linestart s) (hs_path s) (hs_host s) (hs_origin s)
    (hs_protocol s) (hs_key1 s) (hs_key2 s) (hs_key3 s) (hs_sec_ws_origin s)
    v (hs_sec_ws_version s) (hs_wspath s) (hs_errno s) (hs_reads s).
Definition hs_set_sec_ws_version (v : Z) (s : hs_vars) : hs_vars :=
  mk_hs (hs_buf s) (hs_len s) (hs_linestart s) (hs_path s) (hs_host s) (hs_origin s)
    (hs_protocol s) (hs_key1 s) (hs_key2 s) (hs_key3 s) (hs_sec_ws_origin s)
    (hs_sec_ws_key s) v (hs_wspath s) (hs_errno s) (hs_reads s).
Definition hs_set_wspath (v : option string) (s : hs_vars) : hs_vars :=
  mk_hs (hs_buf s) (hs_len s) (hs_linestart s) (hs_path s) (hs_host s) (hs_origin s)
    (hs_protocol s) (hs_key1 s) (hs_key2 s) (hs_key3 s) (hs_sec_ws_origin s)
    (hs_sec_ws_key s) (hs_sec_ws_version s) v (hs_errno s) (hs_reads s).
Definition hs_set_io (e : errno_t) (r : list read_event) (s : hs_vars) : hs_vars :=
  mk_hs (hs_buf s) (hs_len s) (hs_linestart s) (hs_path s) (hs_host s) (hs_origin s)
    (hs_protocol s) (hs_key1 s) (hs_key2 s) (hs_key3 s) (hs_sec_ws_origin s)
    (hs_sec_ws_key s) (hs_sec_ws_version s) (hs_wspath s) e r.

(** [buf[i] = '\0'] *)
Definition hs_nul (i : Z) (s : hs_vars) : hs_vars :=
  hs_set_buf (buf_set (hs_buf s) i 0) s.

(** The bytes from [buf + off] on. *)
Definition buf_from (buf : list Z) (off : Z) : list Z :=
  if off <? 0 then [] else skipn (Z.to_nat off) buf.

Definition is_set (p : option Z) : bool :=
  match p with Some _ => true | None => false end.

(** How the loop body is left. *)
Inductive loop_exit : Set :=
| LoopNext
| LoopBreak
| LoopReturnFalse.

(** The loop body, the chain of tests on a line that is not empty
    ([line = buf + linestart], of [llen] bytes, the last one a newline). *)
Definition handshake_header (s : hs_vars) (llen : Z) : hs_vars :=
  let line := hs_linestart s in
  let at_line := buf_from (hs_buf s) line in
  let len := hs_len s in
  if (llen >=? 16) && strncmp_eq (literal "GET ") at_line (Z.to_nat (min llen 4)) then
    (* 16 = 4 ("GET ") + 1 ("/.*") + 11 (" HTTP/1.1\r\n") *)
    let s := hs_set_path (Some (line + 4)) s in
    let s := hs_nul (len - 11) s in (* Trim trailing " HTTP/1.1\r\n" *)
    hs_set_wspath (Some (string_of_bytes (cstring_at (hs_buf s) (line + 4)))) s
  else if strncasecmp_eq (literal "host: ") at_line (Z.to_nat (min llen 6)) then
    hs_nul (len - 2) (hs_set_host (Some (line + 6)) s)
  else if strncasecmp_eq (literal "origin: ") at_line (Z.to_nat (min llen 8)) then
    hs_nul (len - 2) (hs_set_origin (Some (line + 8)) s)
  else if strncasecmp_eq (literal "sec-websocket-key1: ") at_line
            (Z.to_nat (min llen 20)) then
    hs_nul (len - 2) (hs_set_key1 (Some (line + 20)) s)
  else if strncasecmp_eq (literal "sec-websocket-key2: ") at_line
            (Z.to_nat (min llen 20)) then
    hs_nul (len - 2) (hs_set_key2 (Some (line + 20)) s)
  else if strncasecmp_eq (literal "sec-websocket-protocol: ") at_line
            (Z.to_nat (min llen 24)) then
    hs_nul (len - 2) (hs_set_protocol (Some (line + 24)) s)
  else if strncasecmp_eq (literal "sec-websocket-origin: ") at_line
            (Z.to_nat (min llen 22)) then
    hs_nul (len - 2) (hs_set_sec_ws_origin (Some (line + 22)) s)
  else if strncasecmp_eq (literal "sec-websocket-key: ") at_line
            (Z.to_nat (min llen 19)) then
    hs_nul (len - 2) (hs_set_sec_ws_key (Some (line + 19)) s)
  else if strncasecmp_eq (literal "sec-websocket-version: ") at_line
            (Z.to_nat (min llen 23)) then
    let s :=
      hs_set_sec_ws_version (to_char (strtol (buf_from (hs_buf s) (line + 23)))) s in
    hs_nul (len - 2) s
  else s.

(** What a failed read makes of the loop: a timeout ends it, anything
    else ends the handshake. *)
Definition read_failed (n : Z) (e : errno_t) : loop_exit :=
  if (n <? 0) && errno_is_ETIMEDOUT e then LoopBreak else LoopReturnFalse.

(** The body of [while (len < WEBSOCKETS_MAX_HANDSHAKE_LEN-1)]. *)
Definition handshake_step (s : hs_vars) : loop_exit * hs_vars :=
  let '(n, e, bytes, reads) := rfbReadExact 1 (hs_reads s) (hs_errno s) in
  let s := hs_set_io e reads (hs_set_buf (memcpy (hs_buf s) (hs_len s) bytes) s) in
  if n <=? 0 then (read_failed n e, s)
  else
    let s := hs_set_len (hs_len s + 1) s in
    let llen := hs_len s - hs_linestart s in
    if (llen >=? 2) && (buf_get (hs_buf s) (hs_len s - 1) =? 10) then
      if (llen =? 2)
         && strncmp_eq (literal crlf) (buf_from (hs_buf s) (hs_linestart s)) 2 then
        if is_set (hs_key1 s) && is_set (hs_key2 s) then
          let '(n, e, bytes, reads) := rfbReadExact 8 (hs_reads s) (hs_errno s) in
          let s :=
            hs_set_io e reads (hs_set_buf (memcpy (hs_buf s) (hs_len s) bytes) s) in
          if n <=? 0 then (read_failed n e, s)
          else
            let s := hs_set_key3 (Some (hs_len s)) s in
            (LoopBreak, hs_set_len (hs_len s + 8) s)
        else (LoopBreak, hs_nul (hs_len s) s)
      else
        let s := handshake_header s llen in
        (LoopNext, hs_set_linestart (hs_len s) s)
    else (LoopNext, s).

(** The loop; it ends within [WEBSOCKETS_MAX_HANDSHAKE_LEN] rounds, as
    [len] grows by one in each.  The flag tells that the body has returned
    FALSE. *)
Fixpoint handshake_loop (rounds : nat) (s : hs_vars) : bool * hs_vars :=
  match rounds with
  | O => (false, s)
  | S k =>
      if hs_len s <? WEBSOCKETS_MAX_HANDSHAKE_LEN - 1 then
        match handshake_step s with
        | (LoopNext, s) => handshake_loop k s
        | (LoopBreak, s) => (false, s)
        | (LoopReturnFalse, s) => (true, s)
        end
      else (false, s)
  end.

(** What [webSocketsHandshake] returns: its value, the client, and what
    is left on the connection; or nothing defined, when it passes NULL to
    [strlen]. *)
Inductive hs_outcome : Set :=
| HsReturn (ret : bool) (cl : rfbClient) (unread : list read_event)
| HsUndefined.

Definition client_with (wsp : option string) (ws : option ws_ctx_t) (cl : rfbClient)
  : rfbClient :=
  mk_client (peeks cl) (ssl_init_ok cl) (written cl) ws wsp.

Section Handshake.

(** [digestsha1 (iov, n, hash)] of rfbcrypto, on the bytes the vector
    describes, and [b64_ntop (src, srclength, target, targsize)] of the
    resolver library, of which the return value and the bytes stored to
    [target] are taken: both are external. *)
Variable digestsha1 : list Z -> list Z.
Variable b64_ntop : list Z -> Z -> Z * list Z.

(** The size of [codeBufDecode], as for [new_session]. *)
Variable cap : nat.

(** [webSocketsGenSha1Key (target, size, key)]: what it leaves in
    [target]. *)
Definition webSocketsGenSha1Key (target : list Z) (size : Z) (key : list Z) : list Z :=
  let hash := digestsha1 (key ++ bytes_of_string GUID) in
  memcpy target 0 (snd (b64_ntop hash size)).

(** [webSocketsHandshake], after the loop. *)
Definition handshake_reply (response_block accept_block : list Z) (write_ok : bool)
    (cl : rfbClient) (s : hs_vars) : hs_outcome :=
  let cl := client_with (hs_wspath s) (wsctx_of cl) cl in
  (* older hixie handshake is no longer supported *)
  if hs_sec_ws_version s =? 0 then HsReturn false cl (hs_reads s)
  else if negb (is_set (hs_path s) && is_set (hs_host s)
                && (is_set (hs_origin s) || is_set (hs_sec_ws_origin s)))
  then HsReturn false cl (hs_reads s)
  else
    let '(base64, protocol) :=
      select_protocol
        (option_map (fun p => string_of_bytes (cstring_at (hs_buf s) p)) (hs_protocol s)) in
    match hs_sec_ws_key s with
    | None => HsUndefined
    | Some key =>
        let accept :=
          webSocketsGenSha1Key accept_block SZ_ACCEPT (cstring_at (hs_buf s) key) in
        let text :=
          if 0 <? Z.of_nat (String.length protocol)
          then SERVER_HANDSHAKE_HYBI (cstring accept) (bytes_of_string protocol)
          else SERVER_HANDSHAKE_HYBI_NO_PROTOCOL (cstring accept) in
        let len := Z.of_nat (length text) in
        let response :=
          memcpy response_block 0
            (firstn (Z.to_nat (WEBSOCKETS_MAX_HANDSHAKE_LEN - 1)) text ++ [0]) in
        let cl := rfbWriteExact cl response len in
        if negb write_ok then HsReturn false cl (hs_reads s)
        else
          HsReturn true (client_with (wspath cl) (Some (new_session cap base64)) cl)
            (hs_reads s)
    end.

(** [webSocketsHandshake (cl, scheme)].  What [malloc] returns for [buf]
    and for [response] ([None] is NULL; else a block of
    [WEBSOCKETS_MAX_HANDSHAKE_LEN] bytes of any content), the array
    [accept] as the stack has it, [errno] and the connection at entry,
    and whether the [rfbWriteExact] of the reply succeeds, are given. *)
Definition webSocketsHandshake (buf_block response_block : option (list Z))
    (accept_block : list Z) (e : errno_t) (reads : list read_event) (write_ok : bool)
    (cl : rfbClient) (scheme : string) : hs_outcome :=
  match buf_block with
  | None => HsReturn false cl reads
  | Some buf =>
      match response_block with
      | None => HsReturn false cl reads
      | Some response =>
          let s :=
            mk_hs buf 0 0 None None None None None None None None None 0 (wspath cl)
              e reads in
          let '(failed, s) :=
            handshake_loop (Z.to_nat WEBSOCKETS_MAX_HANDSHAKE_LEN) s in
          if failed
          then HsReturn false (client_with (hs_wspath s) (wsctx_of cl) cl) (hs_reads s)
          else handshake_reply response accept_block write_ok cl s
      end
  end.

End Handshake.

(** A request as a browser sends it, and the reads that deliver it. *)
Definition header_line (name value : list Z) : list Z :=
  name ++ bytes_of_string ": " ++ value ++ bytes_of_string crlf.

Definition request_line (path : list Z) : list Z :=
  bytes_of_string "GET " ++ path ++ bytes_of_string (" HTTP/1.1" ++ crlf).

Definition delivers (l : list Z) : list read_event := map ReadByte l.

Definition sample_request : list Z :=
  request_line (bytes_of_string "/websockify")
  ++ header_line (bytes_of_string "Host") (bytes_of_string "example.com:5900")
  ++ header_line (bytes_of_string "Upgrade") (bytes_of_string "websocket")
  ++ header_line (bytes_of_string "Sec-WebSocket-Key")
       (bytes_of_string "dGhlIHNhbXBsZSBub25jZQ==")
  ++ header_line (bytes_of_string "Origin") (bytes_of_string "http://example.com")
  ++ header_line (bytes_of_string "Sec-WebSocket-Protocol")
       (bytes_of_string "base64, binary")
  ++ header_line (bytes_of_string "Sec-WebSocket-Version") (bytes_of_string "13")
  ++ bytes_of_string crlf.

(** Stand-ins for the two external primitives in the scenarios: a hash
    that keeps the first 20 bytes, and an encoder that stores its source
    and a NUL when that fits. *)
Definition digest_first20 (l : list Z) : list Z := firstn 20 l.
Definition ntop_copy (src : list Z) (targsize : Z) : Z * list Z :=
  if Z.of_nat (length src) <? targsize then (Z.of_nat (length src), src ++ [0])
  else (-1, []).

(** The loop variables when [line], read to [buf + len] byte by byte, is
    complete and its last byte has been dealt with. *)
Definition line_done (s : hs_vars) (line : list Z) : hs_vars :=
  let s :=
    hs_set_len (hs_len s + Z.of_nat (length line))
      (hs_set_buf (memcpy (hs_buf s) (hs_len s) line) s) in
  hs_set_linestart (hs_len s) (handshake_header s (hs_len s - hs_linestart s)).

(** The bytes a connection delivers before its first event that is no
    byte. *)
Fixpoint bytes_before_stop (reads : list read_event) : list Z :=
  match reads with
  | ReadByte b :: r => b :: bytes_before_stop r
  | _ => []
  end.

(** Somewhere in [req] there are bytes that [strncasecmp] takes for
    [name]. *)
Fixpoint mentions (name : string) (req : list Z) : bool :=
  strncasecmp_eq (literal name) req (String.length name)
  || match req with
     | [] => false
     | _ :: t => mentions name t
     end.

(** While the handshake loop runs on the request [req]: the version is
    unset, and the line that is being read is a part of the request. *)
Definition no_version_yet (req : list Z) (s : hs_vars) : Prop :=
  hs_sec_ws_version s = 0
  /\ 0 <= hs_linestart s <= hs_len s
  /\ hs_len s <= WEBSOCKETS_MAX_HANDSHAKE_LEN - 1
  /\ length (hs_buf s) = Z.to_nat WEBSOCKETS_MAX_HANDSHAKE_LEN
  /\ exists pre,
       req = pre
             ++ firstn (Z.to_nat (hs_len s - hs_linestart s))
                  (skipn (Z.to_nat (hs_linestart s)) (hs_buf s))
             ++ bytes_before_stop (hs_reads s).

(** A line of the request without its newline: no newline in it, not
    empty, and not the CR of the empty line. *)
Definition is_line (l : list Z) : bool :=
  forallb (fun b => negb (b =? 10)) l
  && match l with
     | [] => false
     | [b] => negb (b =? 13)
     | _ => true
     end.

(** The bytes of a request that is made of the lines [lines]. *)
Definition bytes_of_lines (lines : list (list Z)) : list Z :=
  concat (map (fun l => l ++ [10]) lines).

(** The C string [v] is at [buf + p]: its bytes, and a NUL after them. *)
Definition stored (buf : list Z) (p : Z) (v : list Z) : Prop :=
  (forall i, (i < length v)%nat -> buf_get buf (p + Z.of_nat i) = nth i v 0)
  /\ buf_get buf (p + Z.of_nat (length v)) = 0.

(** What a header may have as its value: bytes that are no NUL and no
    newline. *)
Definition is_value (v : list Z) : bool :=
  forallb (fun b => negb (b =? 0) && negb (b =? 10)) v.

(** A version as a client writes it: decimal digits, at least one. *)
Definition is_number (v : list Z) : bool :=
  match v with
  | [] => false
  | _ => forallb isdigit v
  end.

(** The lines of a request for the version [ver] of the protocol: the
    request line, the headers Host, Origin, Sec-WebSocket-Version and
    Sec-WebSocket-Protocol, and the header Sec-WebSocket-Key when there is
    a key. *)
Definition hybi_headers (path host origin ver proto : list Z) (key : option (list Z))
  : list Z :=
  request_line path
  ++ header_line (bytes_of_string "Host") host
  ++ header_line (bytes_of_string "Origin") origin
  ++ header_line (bytes_of_string "Sec-WebSocket-Version") ver
  ++ header_line (bytes_of_string "Sec-WebSocket-Protocol") proto
  ++ match key with
     | Some k => header_line (bytes_of_string "Sec-WebSocket-Key") k
     | None => []
     end.

(** The request: these lines and the empty line. *)
Definition hybi_request (path host origin ver proto : list Z) (key : option (list Z))
  : list Z :=
  hybi_headers path host origin ver proto key ++ bytes_of_string crlf.

(** The reply to a request with the key [key] and the protocols [proto],
    as [snprintf] makes it. *)
Definition hybi_reply (accept : list Z) (proto : list Z) : list Z :=
  let protocol := snd (select_protocol (Some (string_of_bytes proto))) in
  if 0 <? Z.of_nat (String.length protocol)
  then SERVER_HANDSHAKE_HYBI accept (bytes_of_string protocol)
  else SERVER_HANDSHAKE_HYBI_NO_PROTOCOL accept.

(** Scenarios: what [malloc] gives (a block of [n] bytes, each 0xAA), a
    client that nothing has been done with, and requests. *)
Definition fresh_block (n : nat) : list Z := repeat 170 n.

Definition new_client : rfbClient := mk_client [] true [] None None.

Definition sample_key : list Z := bytes_of_string "dGhlIHNhbXBsZSBub25jZQ==".

Definition sample_lines : list (list Z) :=
  [bytes_of_string ("GET /websockify HTTP/1.1" ++ cr);
   bytes_of_string ("Host: example.com:5900" ++ cr);
   bytes_of_string ("Upgrade: websocket" ++ cr)].

Definition request_without_version : list Z :=
  request_line (bytes_of_string "/websockify")
  ++ header_line (bytes_of_string "Host") (bytes_of_string "example.com:5900")
  ++ header_line (bytes_of_string "Origin") (bytes_of_string "http://example.com")
  ++ header_line (bytes_of_string "Sec-WebSocket-Key") sample_key
  ++ bytes_of_string crlf.

Definition handshake_start (buf : list Z) (reads : list read_event) : hs_vars :=
  mk_hs buf 0 0 None None None None None None None None None 0 None (EOTHER 0) reads.


(** ** Calls in progress *)

(** The context [_webSocketsDecode] hands to [readAndDecode] when the
    header read of a call on a new session (with a buffer of 32 bytes) has
    found [bytes] on the socket: the header is parsed, the payload bytes
    that came with it are in the buffer, and the state is the one
    [readHeader] returned. *)
Definition after_header (bytes : list Z) : ws_ctx_t :=
  let '(s, d, _, _, _) :=
    readHeader (dec (new_session 32 false)) (socket_with (one_chunk bytes)) (-1) 0 in
  mk_ctx (set_state s d) false.

(** The context [readAndDecode] hands to its payload step when nothing
    was carried over and its read has stored [bytes] at the write
    position. *)
Definition payload_read (wsctx : ws_ctx_t) (bytes : list Z) : ws_ctx_t :=
  mk_ctx
    (set_codeBufDecode
       (memcpy (codeBufDecode (dec wsctx)) (writePos (dec wsctx)) bytes) (dec wsctx))
    (base64 wsctx).

(** Further frames of the scenarios: a PING with two bytes of payload, a
    TEXT frame whose payload is not Base64, and two BINARY frames of one
    byte each, one behind the other. *)
Definition frame_ping : list Z :=
  client_frame 1 WS_OPCODE_PING [1; 2; 3; 4] [104; 105].
Definition frame_text_bad : list Z :=
  client_frame 1 WS_OPCODE_TEXT_FRAME [1; 2; 3; 4] [33; 33; 33; 33].
Definition two_short_frames : list Z :=
  client_frame 1 WS_OPCODE_BINARY_FRAME [1; 2; 3; 4] [97]
  ++ client_frame 1 WS_OPCODE_BINARY_FRAME [1; 2; 3; 4] [98].

(** A TEXT frame with the FIN bit clear. *)
Definition frame_fragment_text : list Z :=
  client_frame 0 WS_OPCODE_TEXT_FRAME [1; 2; 3; 4] (bytes_of_string "QUJD").

(** The session and the socket after two calls on a new session: the
    first has delivered the payload of [frame_fragment_a], which leaves a
    fragmented message open; the second has read the first byte of
    [frame_fragment_text], which arrives byte by byte. *)
Definition fragment_open : ws_ctx_t * world :=
  let '(_, c, w) :=
    recv_loop b64_pton_none 2 (new_session 32 false) 8
      (socket_with (chunks [frame_fragment_a] ++ bytewise frame_fragment_text)) in
  (c, w).


(** The session and the socket after one call with [len = 2] on a new
    session that has found [frame_hello]: two of the five bytes are with
    the caller, three wait in the buffer. *)
Definition data_waiting : ws_ctx_t * world :=
  let '(_, c, w) :=
    recv_loop b64_pton_none 1 (new_session 32 false) 2
      (socket_with (one_chunk frame_hello)) in
  (c, w).


(** * Properties *)

(** ** Arrays *)

Lemma buf_set_nat_length (buf : list Z) (i : nat) (v : Z) :
  length (buf_set_nat buf i v) = length buf.
Proof.
  revert i; induction buf as [|h t IH]; intros [|i]; simpl; auto.
Qed.

Lemma buf_set_length (buf : list Z) (i v : Z) :
  length (buf_set buf i v) = length buf.
Proof.
  unfold buf_set; destruct (i <? 0); auto using buf_set_nat_length.
Qed.

Lemma memcpy_length (src buf : list Z) (off : Z) :
  length (memcpy buf off src) = length buf.
Proof.
  revert buf off; induction src as [|b bs IH]; intros; simpl; auto.
  rewrite IH; apply buf_set_length.
Qed.

Lemma buf_read_length (buf : list Z) (off n : Z) :
  length (buf_read buf off n) = Z.to_nat n.
Proof. unfold buf_read; now rewrite length_map, length_seq. Qed.

Lemma buf_set_nat_app (l1 l2 : list Z) (x v : Z) :
  buf_set_nat (l1 ++ x :: l2) (length l1) v = l1 ++ v :: l2.
Proof. induction l1; simpl; congruence. Qed.

(** A copy that stays inside the array replaces a slice of it. *)
Lemma memcpy_app (src l1 l2 l3 : list Z) :
  length l2 = length src ->
  memcpy (l1 ++ l2 ++ l3) (Z.of_nat (length l1)) src = l1 ++ src ++ l3.
Proof.
  revert l1 l2; induction src as [|b bs IH]; intros l1 l2 Hl.
  - destruct l2; [reflexivity | discriminate].
  - destruct l2 as [|x l2]; [discriminate|]. simpl in Hl.
    simpl memcpy. unfold buf_set.
    destruct (Z.ltb_spec (Z.of_nat (length l1)) 0); [lia|].
    rewrite Nat2Z.id. simpl app. rewrite buf_set_nat_app.
    replace (Z.of_nat (length l1) + 1) with (Z.of_nat (length (l1 ++ [b])))
      by (rewrite length_app; simpl; lia).
    change (l1 ++ b :: l2 ++ l3) with (l1 ++ [b] ++ l2 ++ l3).
    rewrite app_assoc. rewrite IH by lia.
    now rewrite <- app_assoc.
Qed.

Lemma memcpy_slice (buf src : list Z) (off : Z) :
  0 <= off -> off + Z.of_nat (length src) <= Z.of_nat (length buf) ->
  memcpy buf off src
  = firstn (Z.to_nat off) buf ++ src
    ++ skipn (Z.to_nat off + length src) buf.
Proof.
  intros H0 H1.
  assert (L1 : Z.of_nat (length (firstn (Z.to_nat off) buf)) = off)
    by (rewrite length_firstn; lia).
  assert (L2 : length (firstn (length src) (skipn (Z.to_nat off) buf)) = length src)
    by (rewrite length_firstn, length_skipn; lia).
  pose proof (memcpy_app src (firstn (Z.to_nat off) buf) _
                (skipn (Z.to_nat off + length src) buf) L2) as M.
  rewrite L1 in M. rewrite <- M.
  f_equal. rewrite <- (firstn_skipn (Z.to_nat off) buf) at 1. f_equal.
  rewrite <- (firstn_skipn (length src) (skipn (Z.to_nat off) buf)) at 1.
  f_equal. now rewrite skipn_skipn, Nat.add_comm.
Qed.

Lemma memcpy_head (dst src : list Z) :
  (length src <= length dst)%nat ->
  memcpy dst 0 src = src ++ skipn (length src) dst.
Proof.
  intros H. rewrite memcpy_slice by lia. reflexivity.
Qed.

Lemma buf_get_nth (buf : list Z) (i : Z) :
  0 <= i -> buf_get buf i = nth (Z.to_nat i) buf 0.
Proof. intros H; unfold buf_get; destruct (Z.ltb_spec i 0); [lia | reflexivity]. Qed.

Lemma buf_read_slice (buf : list Z) (off n : Z) :
  0 <= off -> 0 <= n -> off + n <= Z.of_nat (length buf) ->
  buf_read buf off n = firstn (Z.to_nat n) (skipn (Z.to_nat off) buf).
Proof.
  intros H0 H1 H2. unfold buf_read.
  apply nth_ext with (d := 0) (d' := 0).
  - rewrite length_map, length_seq, length_firstn, length_skipn. lia.
  - intros k Hk. rewrite length_map, length_seq in Hk.
    rewrite (nth_indep _ 0 (buf_get buf (off + Z.of_nat 0))) by (rewrite length_map, length_seq; lia).
    rewrite (map_nth (fun k => buf_get buf (off + Z.of_nat k))).
    rewrite seq_nth by lia. simpl.
    rewrite buf_get_nth by lia.
    rewrite nth_firstn. destruct (k <? Z.to_nat n)%nat eqn:E.
    + rewrite nth_skipn. f_equal. lia.
    + apply Nat.ltb_ge in E. lia.
Qed.

(** ** The decoder *)

Ltac break_if :=
  match goal with
  | |- context [if ?b then _ else _] => destruct b eqn:?
  | |- context [let '(_, _) := ?p in _] => destruct p eqn:?
  end.

Ltac inv_pair :=
  repeat match goal with
  | H : (_, _) = (_, _) |- _ => inversion H; clear H; subst
  end.

(** Unfold the field updates of the two records, and nothing else. *)
Ltac rsimpl :=
  cbn [dec base64 codeBufDecode writePos readPos readlen header nReadPayload
       carryBuf carrylen continuation_opcode state
       data nDone mask headerLen payloadLen opcode fin
       set_codeBufDecode set_writePos set_readPos set_readlen set_header
       set_nReadPayload set_carryBuf set_carrylen set_continuation_opcode set_state
       set_data set_nDone set_mask set_headerLen set_payloadLen set_opcode set_fin
       upd_header wsHeaderCleanup wsDecodeCleanupBasics wsDecodeCleanupComplete
       wsDecodeCleanupForContinuation sock errno set_errno fst snd] in *.

Lemma shiftr2_bounds (t : Z) : 0 <= t -> 0 <= t - 4 * Z.shiftr t 2 <= 3.
Proof.
  intros H. rewrite Z.shiftr_div_pow2 by lia. change (2 ^ 2) with 4.
  pose proof (Z.div_mod t 4 ltac:(lia)). pose proof (Z.mod_pos_bound t 4 ltac:(lia)). lia.
Qed.

Section DecoderProperties.

Variable b64_pton : list Z -> Z -> Z * list Z.

Lemma returnData_carrylen dst len c nW w s dst' c' r w' :
  returnData dst len c nW w = (s, dst', c', r, w') -> carrylen c' = carrylen c.
Proof.
  unfold returnData. repeat break_if; intros H; inv_pair; reflexivity.
Qed.

Lemma unmask_carrylen d t d' ok :
  unmask d t = (d', ok) ->
  carrylen d'
  = if ws_state_eqb (state d) WS_STATE_DECODING_FRAME_COMPLETE then 0
    else t - 4 * Z.shiftr t 2.
Proof.
  unfold unmask. cbn zeta. rsimpl.
  repeat break_if; intros H; inv_pair; rsimpl; lia.
Qed.

Lemma unmask_fields d t d' ok :
  unmask d t = (d', ok) ->
  state d' = state d /\ header d' = header d /\ nReadPayload d' = nReadPayload d
  /\ readlen d' = readlen d /\ continuation_opcode d' = continuation_opcode d
  /\ length (codeBufDecode d') = length (codeBufDecode d).
Proof.
  assert (L : forall k buf p u i, length (xor_words buf p u i k) = length buf).
  { induction k; intros; simpl; auto. rewrite IHk. unfold store32. apply memcpy_length. }
  assert (M : forall k buf p c i, length (xor_bytes buf p c i k) = length buf).
  { induction k; intros; simpl; auto. rewrite IHk. apply buf_set_length. }
  unfold unmask. cbn zeta. rsimpl.
  repeat break_if; intros H; inv_pair; rsimpl; repeat split;
    rewrite ?M, ?L; reflexivity.
Qed.

Lemma decode_by_opcode_fields d p t b :
  let d' := decode_by_opcode b64_pton d p t b in
  state d' = state d /\ header d' = header d /\ nReadPayload d' = nReadPayload d
  /\ carrylen d' = carrylen d /\ continuation_opcode d' = continuation_opcode d
  /\ length (codeBufDecode d') = length (codeBufDecode d).
Proof.
  unfold decode_by_opcode. cbn zeta. rsimpl.
  repeat break_if; rsimpl; repeat split;
    rewrite ?memcpy_length, ?buf_set_length; reflexivity.
Qed.

Lemma readAndDecode_payload_carrylen wsctx dst len w sockRet nInBuf bufsize n
    s dst' c' r w' :
  readAndDecode_payload b64_pton wsctx dst len w sockRet nInBuf bufsize n
  = (s, dst', c', r, w') ->
  (n + carrylen (dec wsctx) + nInBuf < 0 -> carrylen (dec c') = carrylen (dec wsctx))
  /\ (0 <= n + carrylen (dec wsctx) + nInBuf ->
      carrylen (dec c')
      = if (remaining (set_nReadPayload (u64 (nReadPayload (dec wsctx) + n)) (dec wsctx))
            =? 0)
           || ws_state_eqb (state (dec wsctx)) WS_STATE_DECODING_FRAME_COMPLETE
        then 0
        else n + carrylen (dec wsctx) + nInBuf
             - 4 * Z.shiftr (n + carrylen (dec wsctx) + nInBuf) 2).
Proof.
  unfold readAndDecode_payload, remaining. cbn zeta. rsimpl.
  set (d1 := if _ =? 0 then _ else _).
  assert (C1 : carrylen d1 = carrylen (dec wsctx))
    by (subst d1; destruct (_ =? 0); reflexivity).
  assert (S1 : ws_state_eqb (state d1) WS_STATE_DECODING_FRAME_COMPLETE
               = (u64 (payloadLen (header (dec wsctx)) - u64 (nReadPayload (dec wsctx) + n))
                  =? 0)
                 || ws_state_eqb (state (dec wsctx)) WS_STATE_DECODING_FRAME_COMPLETE)
    by (subst d1; destruct (_ =? 0); reflexivity).
  rewrite C1. rewrite <- S1. clearbody d1.
  destruct (Z.ltb_spec (n + carrylen (dec wsctx) + nInBuf) 0) as [Hneg|Hpos].
  - intros H; inv_pair; rsimpl. split; [intros _; assumption | lia].
  - destruct (unmask d1 _) as [d2 ok] eqn:U. apply unmask_carrylen in U.
    destruct ok; cbn [negb].
    + destruct (_ =? WS_OPCODE_CLOSE).
      * destruct (wsFrameComplete d2); intros H; inv_pair; rsimpl; (split; [lia|auto]).
      * destruct (returnData _ _ _ _ _) as [[[[s' dd] cc] rr] ww] eqn:RD.
        apply returnData_carrylen in RD. rsimpl.
        destruct (decode_by_opcode_fields d2 (writePos d1 - (n + carrylen (dec wsctx) + nInBuf))
                    (n + carrylen (dec wsctx) + nInBuf - carrylen d2) bufsize)
          as (_ & _ & _ & E & _).
        intros H; inv_pair; rsimpl. split; [lia | intros _; congruence].
    + intros H; inv_pair; rsimpl. split; [lia|auto].
Qed.

Lemma readAndDecode_payload_carrylen_bound wsctx dst len w sockRet nInBuf bufsize n
    s dst' c' r w' :
  0 <= carrylen (dec wsctx) <= 3 ->
  readAndDecode_payload b64_pton wsctx dst len w sockRet nInBuf bufsize n
  = (s, dst', c', r, w') ->
  0 <= carrylen (dec c') <= 3.
Proof.
  intros Hc H. apply readAndDecode_payload_carrylen in H. destruct H as [H1 H2].
  destruct (Z.ltb_spec (n + carrylen (dec wsctx) + nInBuf) 0) as [Hneg|Hpos].
  - rewrite H1; assumption.
  - rewrite H2 by assumption.
    destruct (_ || _); [lia | now apply shiftr2_bounds].
Qed.

Lemma readAndDecode_carrylen_bound wsctx dst len w sockRet nInBuf s dst' c' r w' :
  0 <= carrylen (dec wsctx) <= 3 ->
  readAndDecode b64_pton wsctx dst len w sockRet nInBuf = (s, dst', c', r, w') ->
  0 <= carrylen (dec c') <= 3.
Proof.
  intros Hc. unfold readAndDecode. cbn zeta.
  destruct (_ >? 0).
  - destruct (lowerRead _ _) as [[n bytes] w1].
    destruct (-1 =? n); [intros H; inv_pair; rsimpl; assumption|].
    destruct (n =? 0); [intros H; inv_pair; rsimpl; assumption|].
    apply readAndDecode_payload_carrylen_bound; rsimpl; assumption.
  - apply readAndDecode_payload_carrylen_bound; rsimpl; assumption.
Qed.

Lemma readHeader_complete_carrylen c w sr np s c' w' sr' np' :
  readHeader_complete c w sr np = (s, c', w', sr', np') ->
  carrylen c' = carrylen c \/ carrylen c' = 0.
Proof.
  unfold readHeader_complete, err_cleanup_state, err_cleanup_state_sock_closed.
  rsimpl. repeat break_if; intros H; inv_pair; rsimpl; auto.
Qed.

Lemma readHeader_length_carrylen c w sr np s c' w' sr' np' :
  readHeader_length c w sr np = (s, c', w', sr', np') ->
  carrylen c' = carrylen c \/ carrylen c' = 0.
Proof.
  unfold readHeader_length, err_cleanup_state, err_cleanup_state_sock_closed,
    ret_header_pending.
  cbn zeta. rsimpl. repeat break_if; intros H; inv_pair; rsimpl; auto;
    apply readHeader_complete_carrylen in H; rsimpl; assumption.
Qed.

Lemma readHeader_carrylen c w sr np s c' w' sr' np' :
  readHeader c w sr np = (s, c', w', sr', np') ->
  carrylen c' = carrylen c \/ carrylen c' = 0.
Proof.
  unfold readHeader, err_cleanup_state, err_cleanup_state_sock_closed,
    ret_header_pending.
  cbn zeta. destruct (lowerRead _ _) as [[ret bytes] w1]. rsimpl.
  repeat break_if; intros H; inv_pair; rsimpl; auto;
    apply readHeader_length_carrylen in H; rsimpl; assumption.
Qed.

Lemma readHeader_states c w sr np s c' w' sr' np' :
  readHeader c w sr np = (s, c', w', sr', np') ->
  s = WS_STATE_ERR \/ s = WS_STATE_DECODING_HEADER_PENDING
  \/ s = WS_STATE_DECODING_DATA_NEEDED.
Proof.
  unfold readHeader, readHeader_length, readHeader_complete, err_cleanup_state,
    err_cleanup_state_sock_closed, ret_header_pending.
  cbn zeta. destruct (lowerRead _ _) as [[ret bytes] w1]. rsimpl.
  repeat break_if; intros H; inv_pair; auto.
Qed.

Lemma decode_spor_carrylen d :
  carrylen (decode_spor d) = carrylen d \/ carrylen (decode_spor d) = 0.
Proof. unfold decode_spor. destruct (state d); try break_if; rsimpl; auto. Qed.

Lemma decode_spor_state d :
  state (decode_spor d) <> WS_STATE_ERR
  /\ state (decode_spor d) <> WS_STATE_DECODING_FRAME_COMPLETE.
Proof.
  unfold decode_spor. destruct (state d) eqn:E; try break_if; rsimpl; try rewrite E;
    split; discriminate.
Qed.

Lemma decode_switch_carrylen_bound wsctx dst len w r dst' c' w' :
  0 <= carrylen (dec wsctx) <= 3 ->
  decode_switch b64_pton wsctx dst len w = (r, dst', c', w') ->
  0 <= carrylen (dec c') <= 3.
Proof.
  intros Hc. unfold decode_switch. cbn zeta.
  destruct (state (dec wsctx)).
  - destruct (readHeader _ _ _ _) as [[[[s d] w2] r2] n2] eqn:RH.
    pose proof (readHeader_carrylen _ _ _ _ _ _ _ _ _ RH) as Hd.
    destruct (readHeader_states _ _ _ _ _ _ _ _ _ RH) as [E|[E|E]]; subst s;
      try (intros H; inv_pair; rsimpl; lia).
    destruct (readAndDecode _ _ _ _ _ _ _) as [[[[s' dd] cc] rr] ww] eqn:RD.
    apply readAndDecode_carrylen_bound in RD; [|rsimpl; lia].
    intros H; inv_pair; rsimpl; lia.
  - destruct (returnData _ _ _ _ _) as [[[[s' dd] cc] rr] ww] eqn:RD.
    apply returnData_carrylen in RD.
    intros H; inv_pair; rsimpl; lia.
  - destruct (readAndDecode _ _ _ _ _ _ _) as [[[[s' dd] cc] rr] ww] eqn:RD.
    apply readAndDecode_carrylen_bound in RD; [|rsimpl; lia].
    intros H; inv_pair; rsimpl; lia.
  - intros H; inv_pair; rsimpl; lia.
  - destruct (readAndDecode _ _ _ _ _ _ _) as [[[[s' dd] cc] rr] ww] eqn:RD.
    apply readAndDecode_carrylen_bound in RD; [|rsimpl; lia].
    intros H; inv_pair; rsimpl; lia.
  - intros H; inv_pair; rsimpl; lia.
Qed.

Lemma webSocketsDecode_carrylen_bound wsctx dst len w r dst' c' w' :
  0 <= carrylen (dec wsctx) <= 3 ->
  _webSocketsDecode b64_pton wsctx dst len w = (r, dst', c', w') ->
  0 <= carrylen (dec c') <= 3.
Proof.
  intros Hc. unfold _webSocketsDecode.
  destruct (decode_switch _ _ _ _ _) as [[[r1 d1] c1] w1] eqn:SW.
  apply decode_switch_carrylen_bound in SW; [|assumption].
  intros H; inv_pair. rsimpl.
  destruct (decode_spor_carrylen (dec c1)); lia.
Qed.

Lemma recv_loop_carrylen_bound calls wsctx len w :
  0 <= carrylen (dec wsctx) <= 3 ->
  0 <= carrylen (dec (snd (fst (recv_loop b64_pton calls wsctx len w)))) <= 3.
Proof.
  revert wsctx w; induction calls as [|k IH]; intros wsctx w Hc; [exact Hc|].
  cbn [recv_loop].
  destruct (_webSocketsDecode _ _ _ _ _) as [[[r d] c] w1] eqn:E.
  apply webSocketsDecode_carrylen_bound in E; [|assumption].
  specialize (IH c w1 E).
  destruct (recv_loop b64_pton k c len w1) as [[o c2] w2]. exact IH.
Qed.


(** *** What a call does to the destination buffer *)

Lemma dst_effect_error dst len r : 0 <= len -> r = -1 \/ r = 0 -> dst_effect dst len r dst.
Proof. intros Hl Hr. repeat split; try lia; auto. Qed.

Lemma dst_effect_copy dst len r buf off :
  0 <= r <= len -> len <= Z.of_nat (length dst) ->
  dst_effect dst len r (memcpy dst 0 (buf_read buf off r)).
Proof.
  intros Hr Hl. repeat split; try lia.
  - intros H0. replace r with 0 by lia. reflexivity.
  - intros H0. exists (buf_read buf off r). split; [apply buf_read_length|].
    rewrite memcpy_head by (rewrite buf_read_length; lia).
    now rewrite buf_read_length.
Qed.

Lemma returnData_dst dst len c nW w s dst' c' r w' :
  0 <= len <= Z.of_nat (length dst) ->
  returnData dst len c nW w = (s, dst', c', r, w') ->
  dst_effect dst len r dst'.
Proof.
  intros Hl. unfold returnData.
  destruct (Z.gtb_spec (readlen c) 0) as [Hp|Hn].
  - destruct (Z.gtb_spec (readlen c) len) as [Hg|Hg].
    + intros H; inv_pair. apply dst_effect_copy; lia.
    + rsimpl. destruct (remaining _ =? 0); intros H; inv_pair;
        apply dst_effect_copy; lia.
  - intros H; inv_pair. apply dst_effect_error; [lia | auto].
Qed.

Lemma readAndDecode_payload_dst wsctx dst len w sockRet nInBuf bufsize n
    s dst' c' r w' :
  0 <= len <= Z.of_nat (length dst) ->
  readAndDecode_payload b64_pton wsctx dst len w sockRet nInBuf bufsize n
  = (s, dst', c', r, w') ->
  dst_effect dst len r dst'.
Proof.
  intros Hl. unfold readAndDecode_payload. cbn zeta.
  destruct (_ <? 0); [intros H; inv_pair; apply dst_effect_error; [lia | auto]|].
  destruct (unmask _ _) as [d2 ok].
  destruct ok; cbn [negb];
    [|intros H; inv_pair; apply dst_effect_error; [lia | auto]].
  destruct (_ =? WS_OPCODE_CLOSE).
  - destruct (wsFrameComplete d2); intros H; inv_pair;
      apply dst_effect_error; (lia || auto).
  - destruct (returnData _ _ _ _ _) as [[[[s' dd] cc] rr] ww] eqn:RD.
    apply returnData_dst in RD; [|assumption].
    intros H; inv_pair; assumption.
Qed.

Lemma readAndDecode_dst wsctx dst len w sockRet nInBuf s dst' c' r w' :
  0 <= len <= Z.of_nat (length dst) ->
  readAndDecode b64_pton wsctx dst len w sockRet nInBuf = (s, dst', c', r, w') ->
  dst_effect dst len r dst'.
Proof.
  intros Hl. unfold readAndDecode. cbn zeta.
  destruct (_ >? 0).
  - destruct (lowerRead _ _) as [[n bytes] w1].
    destruct (-1 =? n); [intros H; inv_pair; apply dst_effect_error; [lia|auto]|].
    destruct (n =? 0); [intros H; inv_pair; apply dst_effect_error; [lia|auto]|].
    now apply readAndDecode_payload_dst.
  - now apply readAndDecode_payload_dst.
Qed.

Lemma readHeader_sockRet c w np s c' w' sr' np' :
  readHeader c w (-1) np = (s, c', w', sr', np') -> sr' = -1 \/ sr' = 0.
Proof.
  unfold readHeader, readHeader_length, readHeader_complete, err_cleanup_state,
    err_cleanup_state_sock_closed, ret_header_pending.
  cbn zeta. destruct (lowerRead _ _) as [[ret bytes] w1]. rsimpl.
  repeat break_if; intros H; inv_pair; auto.
Qed.

Lemma decode_switch_dst wsctx dst len w r dst' c' w' :
  0 <= len <= Z.of_nat (length dst) ->
  decode_switch b64_pton wsctx dst len w = (r, dst', c', w') ->
  dst_effect dst len r dst'.
Proof.
  intros Hl. unfold decode_switch. cbn zeta.
  destruct (state (dec wsctx)).
  - destruct (readHeader _ _ _ _) as [[[[s d] w2] r2] n2] eqn:RH.
    pose proof (readHeader_sockRet _ _ _ _ _ _ _ _ RH) as Hr.
    destruct (readHeader_states _ _ _ _ _ _ _ _ _ RH) as [E|[E|E]]; subst s;
      try (intros H; inv_pair; apply dst_effect_error; [lia|auto]).
    destruct (readAndDecode _ _ _ _ _ _ _) as [[[[s' dd] cc] rr] ww] eqn:RD.
    apply readAndDecode_dst in RD; [|assumption].
    intros H; inv_pair; assumption.
  - destruct (returnData _ _ _ _ _) as [[[[s' dd] cc] rr] ww] eqn:RD.
    apply returnData_dst in RD; [|assumption].
    intros H; inv_pair; assumption.
  - destruct (readAndDecode _ _ _ _ _ _ _) as [[[[s' dd] cc] rr] ww] eqn:RD.
    apply readAndDecode_dst in RD; [|assumption].
    intros H; inv_pair; assumption.
  - intros H; inv_pair; apply dst_effect_error; [lia|auto].
  - destruct (readAndDecode _ _ _ _ _ _ _) as [[[[s' dd] cc] rr] ww] eqn:RD.
    apply readAndDecode_dst in RD; [|assumption].
    intros H; inv_pair; assumption.
  - intros H; inv_pair; apply dst_effect_error; [lia|auto].
Qed.

(** C10.  Whenever the emulated recv returns -1 or 0 the destination
    buffer is as it was; whenever it returns [r > 0], [r] is at most [len],
    the first [r] bytes of the buffer are written and the rest of it is as
    it was. *)
Theorem C10_recv_writes_only_what_it_returns wsctx dst len w r dst' wsctx' w' :
  0 <= len <= Z.of_nat (length dst) ->
  _webSocketsDecode b64_pton wsctx dst len w = (r, dst', wsctx', w') ->
  -1 <= r <= len
  /\ (r <= 0 -> dst' = dst)
  /\ (0 < r ->
      exists bytes, length bytes = Z.to_nat r /\ dst' = bytes ++ skipn (Z.to_nat r) dst).
Proof.
  intros Hl. unfold _webSocketsDecode.
  destruct (decode_switch _ _ _ _ _) as [[[r1 d1] c1] w1] eqn:SW.
  apply decode_switch_dst in SW; [|assumption].
  intros H; inv_pair. exact SW.
Qed.

(** *** The carry length *)

(** C9.  The carry length stays within [0, 3]: at the exit of a call of
    the emulated recv entered with it in range, hence after any number of
    calls in a row, whatever the socket delivers, and at the exit of each
    of the steps inside a call ([readHeader], [readAndDecode],
    [returnData]); a new session starts with 0.  Where the payload step
    goes on to unmask [toDecode] bytes, it sets the carry length to 0 when
    the frame is complete and to [toDecode - 4 * (toDecode >> 2)]
    otherwise. *)
Theorem C9_carrylen_in_range wsctx dst len w sockRet nInBuf bufsize n calls cap b :
  0 <= carrylen (dec wsctx) <= 3 ->
  carrylen (dec (new_session cap b)) = 0
  /\ (let '(_, _, c, _) := _webSocketsDecode b64_pton wsctx dst len w in
      0 <= carrylen (dec c) <= 3)
  /\ (let '(_, c, _) := recv_loop b64_pton calls wsctx len w in
      0 <= carrylen (dec c) <= 3)
  /\ (let '(_, c, _, _, _) := readHeader (dec wsctx) w sockRet nInBuf in
      0 <= carrylen c <= 3)
  /\ (let '(_, _, c, _, _) := readAndDecode b64_pton wsctx dst len w sockRet nInBuf in
      0 <= carrylen (dec c) <= 3)
  /\ (let '(_, _, c, _, _) := returnData dst len (dec wsctx) sockRet w in
      0 <= carrylen c <= 3)
  /\ (let toDecode := n + carrylen (dec wsctx) + nInBuf in
      0 <= toDecode ->
      let '(_, _, c, _, _) :=
        readAndDecode_payload b64_pton wsctx dst len w sockRet nInBuf bufsize n in
      carrylen (dec c)
      = if (remaining (set_nReadPayload (u64 (nReadPayload (dec wsctx) + n)) (dec wsctx))
            =? 0)
           || ws_state_eqb (state (dec wsctx)) WS_STATE_DECODING_FRAME_COMPLETE
        then 0
        else toDecode - 4 * Z.shiftr toDecode 2).
Proof.
  intros Hc. split; [reflexivity|]. split; [|split; [|split; [|split; [|split]]]].
  - destruct (_webSocketsDecode _ _ _ _ _) as [[[r d] c] w1] eqn:E.
    now apply webSocketsDecode_carrylen_bound in E.
  - pose proof (recv_loop_carrylen_bound calls wsctx len w Hc) as H.
    destruct (recv_loop _ _ _ _ _) as [[o c] w1]. exact H.
  - destruct (readHeader _ _ _ _) as [[[[s d] w2] r2] n2] eqn:E.
    apply readHeader_carrylen in E. lia.
  - destruct (readAndDecode _ _ _ _ _ _ _) as [[[[s' dd] cc] rr] ww] eqn:E.
    now apply readAndDecode_carrylen_bound in E.
  - destruct (returnData _ _ _ _ _) as [[[[s' dd] cc] rr] ww] eqn:E.
    apply returnData_carrylen in E. lia.
  - cbn zeta. intros Ht.
    destruct (readAndDecode_payload _ _ _ _ _ _ _ _ _) as [[[[s' dd] cc] rr] ww] eqn:E.
    apply readAndDecode_payload_carrylen in E. now apply E.
Qed.

(** *** Frame headers *)

Lemma buf_get_memcpy_in (src buf : list Z) (off i : Z) :
  0 <= off -> off + Z.of_nat (length src) <= Z.of_nat (length buf) ->
  off <= i < off + Z.of_nat (length src) ->
  buf_get (memcpy buf off src) i = nth (Z.to_nat (i - off)) src 0.
Proof.
  intros H0 H1 H2. rewrite memcpy_slice by lia. rewrite buf_get_nth by lia.
  rewrite app_nth2 by (rewrite length_firstn; lia).
  rewrite length_firstn. rewrite app_nth1 by lia. f_equal. lia.
Qed.

Lemma buf_get_memcpy_out (src buf : list Z) (off i : Z) :
  i < off \/ off + Z.of_nat (length src) <= i ->
  buf_get (memcpy buf off src) i = buf_get buf i.
Proof.
  revert buf off. induction src as [|b bs IH]; intros buf off H; [reflexivity|].
  simpl memcpy. simpl length in H. rewrite IH by lia.
  unfold buf_set, buf_get. destruct (Z.ltb_spec off 0); [reflexivity|].
  destruct (Z.ltb_spec i 0); [reflexivity|].
  assert (N : Z.to_nat i <> Z.to_nat off) by lia.
  revert N. generalize (Z.to_nat i) (Z.to_nat off). clear.
  induction buf as [|h t IHt]; intros [|k] [|j] N; simpl; auto; try lia.
Qed.


Lemma readHeader_complete_non_minimal c w sr np :
  (headerLen (header c) = 8 /\ payloadLen (header c) < 126)
  \/ (headerLen (header c) = 14 /\ payloadLen (header c) < 65536) ->
  readHeader_complete c w sr np
  = (WS_STATE_ERR, wsDecodeCleanupComplete c, set_errno EPROTO w, -1, np).
Proof.
  intros H. unfold readHeader_complete.
  replace (_ || _) with true; [reflexivity|].
  symmetry. apply orb_true_iff.
  unfold WS_HYBI_HEADER_LEN_SHORT_MASKED, WS_HYBI_HEADER_LEN_EXTENDED_MASKED.
  destruct H as [[-> H]|[-> H]]; [left | right]; apply andb_true_iff; split;
    try reflexivity; apply Z.ltb_lt; assumption.
Qed.

Lemma readHeader_length_non_minimal c w sr np :
  (Z.land (buf_get (codeBufDecode c) 1) 127 = 126 /\ 8 <= nDone (header c)
   /\ WS_NTOH16 (codeBufDecode c) 2 < 126)
  \/ (Z.land (buf_get (codeBufDecode c) 1) 127 = 127 /\ 14 <= nDone (header c)
      /\ WS_NTOH64 (codeBufDecode c) 2 < 65536) ->
  exists c',
    readHeader_length c w sr np
    = (WS_STATE_ERR, wsDecodeCleanupComplete c', set_errno EPROTO w, -1, np).
Proof.
  intros H. unfold readHeader_length. cbn zeta. rsimpl.
  destruct (_ =? 0); [eexists; reflexivity|].
  destruct H as [(E & N & L)|(E & N & L)]; rewrite E;
    [ change (126 <? 126) with false; change (126 =? 126) with true
    | change (127 <? 126) with false; change (127 =? 126) with false;
      change (127 =? 127) with true ];
    cbn [andb];
    [ replace (8 <=? nDone (header c)) with true by (symmetry; apply Z.leb_le; lia)
    | replace (14 <=? nDone (header c)) with true by (symmetry; apply Z.leb_le; lia) ];
    rewrite readHeader_complete_non_minimal
      by (rsimpl; ((left; split; [reflexivity | assumption])
                   || (right; split; [reflexivity | assumption])));
    eexists; reflexivity.
Qed.

(** C7.  A frame whose length field is not minimal - the 16-bit form for
    a length below 126, or the 64-bit form for a length below 65536 - is
    answered with -1 and errno EPROTO by the call whose header read makes
    the full masked header (8, or 14, bytes) available; the destination is
    not touched and the decoder is reset. *)
Theorem C7_non_minimal_length_is_EPROTO wsctx dst len w ret bytes w1 :
  state (dec wsctx) = WS_STATE_DECODING_HEADER_PENDING ->
  lowerRead w (WSHLENMAX - nDone (header (dec wsctx))) = (ret, bytes, w1) ->
  0 < ret ->
  (let buf := memcpy (codeBufDecode (dec wsctx)) (nDone (header (dec wsctx))) bytes in
   let have := nDone (header (dec wsctx)) + ret in
   (Z.land (buf_get buf 1) 127 = 126 /\ 8 <= have /\ WS_NTOH16 buf 2 < 126)
   \/ (Z.land (buf_get buf 1) 127 = 127 /\ 14 <= have /\ WS_NTOH64 buf 2 < 65536)) ->
  exists wsctx' w',
    _webSocketsDecode b64_pton wsctx dst len w = (-1, dst, wsctx', w')
    /\ errno w' = EPROTO
    /\ state (dec wsctx') = WS_STATE_DECODING_HEADER_PENDING.
Proof.
  intros Hs Hr Hpos Hnm. cbn zeta in Hnm.
  assert (RH : exists c',
    readHeader (dec wsctx) w (-1) 0
    = (WS_STATE_ERR, wsDecodeCleanupComplete c', set_errno EPROTO w1, -1, 0)).
  { unfold readHeader. cbn zeta. rewrite Hr. rsimpl.
    destruct (Z.leb_spec ret 0); [lia|].
    destruct (Z.ltb_spec (nDone (header (dec wsctx)) + ret) 2); [lia|].
    unfold err_cleanup_state, err_cleanup_state_sock_closed.
    repeat break_if; try (eexists; reflexivity);
      apply readHeader_length_non_minimal; rsimpl; exact Hnm. }
  destruct RH as [c' RH].
  unfold _webSocketsDecode, decode_switch. rewrite Hs. cbn zeta. rewrite RH.
  do 2 eexists. split; [reflexivity|]. split; reflexivity.
Qed.

Lemma lowerRead_chunk w b bs rest n :
  sock w = Chunk b bs :: rest -> 0 <= n < 2 ^ 64 ->
  lowerRead w n
  = (Z.of_nat (length (firstn (Z.to_nat n) (b :: bs))), firstn (Z.to_nat n) (b :: bs),
     mk_world (rest_chunk (skipn (Z.to_nat n) (b :: bs)) rest) (errno w)).
Proof.
  intros Hs Hn. unfold lowerRead. rewrite Hs. unfold u64.
  rewrite Z.mod_small by lia. reflexivity.
Qed.

End DecoderProperties.


(** ** Words and bytes *)

Lemma byte_testbit_high (a n : Z) : is_byte a -> 8 <= n -> Z.testbit a n = false.
Proof.
  intros [H0 H1] Hn. destruct (Z.eq_dec a 0) as [->|Hz]; [apply Z.testbit_0_l|].
  apply Z.bits_above_log2; [lia|].
  assert (Z.log2 a < 8) by (apply Z.log2_lt_pow2; lia). lia.
Qed.

Lemma testbit_word32 (a b c d n : Z) :
  0 <= n ->
  Z.testbit (word32 [a; b; c; d]) n
  = Z.testbit a n || (Z.testbit b (n - 8) || (Z.testbit c (n - 16) || Z.testbit d (n - 24))).
Proof.
  intros Hn. unfold word32. cbn [nth].
  now rewrite !Z.lor_spec, !Z.shiftl_spec by assumption.
Qed.

Lemma testbit_byte_of (w k n : Z) :
  0 <= k -> 0 <= n ->
  Z.testbit (Z.land (Z.shiftr w k) (Z.ones 8)) n = Z.testbit w (n + k) && (n <? 8).
Proof.
  intros Hk Hn.
  rewrite Z.land_spec, Z.shiftr_spec, Z.testbit_ones_nonneg by lia. reflexivity.
Qed.

Lemma byte_of_word32 (a b c d : Z) :
  is_byte a -> is_byte b -> is_byte c -> is_byte d ->
  Z.land (Z.shiftr (word32 [a; b; c; d]) 0) (Z.ones 8) = a
  /\ Z.land (Z.shiftr (word32 [a; b; c; d]) 8) (Z.ones 8) = b
  /\ Z.land (Z.shiftr (word32 [a; b; c; d]) 16) (Z.ones 8) = c
  /\ Z.land (Z.shiftr (word32 [a; b; c; d]) 24) (Z.ones 8) = d.
Proof.
  intros Ha Hb Hc Hd.
  assert (N : forall x i, i < 0 -> Z.testbit x i = false) by (intros; now apply Z.testbit_neg_r).
  assert (A := byte_testbit_high a). assert (B := byte_testbit_high b).
  assert (C := byte_testbit_high c). assert (D := byte_testbit_high d).
  repeat split; apply Z.bits_inj'; intros n Hn;
    rewrite testbit_byte_of, testbit_word32 by lia;
    destruct (Z.ltb_spec n 8).
  - rewrite (N b), (N c), (N d) by lia. rewrite Z.add_0_r. now rewrite !orb_false_r, andb_true_r.
  - rewrite (A n) by (assumption || lia). apply andb_false_r.
  - rewrite (A (n + 8)), (N c), (N d) by (assumption || lia).
    replace (n + 8 - 8) with n by lia. now rewrite orb_false_r, andb_true_r.
  - rewrite (B n) by (assumption || lia). apply andb_false_r.
  - rewrite (A (n + 16)), (B (n + 16 - 8)), (N d) by (assumption || lia).
    replace (n + 16 - 16) with n by lia. now rewrite orb_false_r, andb_true_r.
  - rewrite (C n) by (assumption || lia). apply andb_false_r.
  - rewrite (A (n + 24)), (B (n + 24 - 8)), (C (n + 24 - 16)) by (assumption || lia).
    replace (n + 24 - 24) with n by lia. now rewrite andb_true_r.
  - rewrite (D n) by (assumption || lia). apply andb_false_r.
Qed.

Lemma bytes32_word32 (a b c d : Z) :
  is_byte a -> is_byte b -> is_byte c -> is_byte d ->
  bytes32 (word32 [a; b; c; d]) = [a; b; c; d].
Proof.
  intros Ha Hb Hc Hd.
  destruct (byte_of_word32 a b c d Ha Hb Hc Hd) as (E0 & E1 & E2 & E3).
  rewrite Z.shiftr_0_r in E0.
  unfold bytes32. change 255 with (Z.ones 8). now rewrite E0, E1, E2, E3.
Qed.

Lemma land_lxor_255 (x y : Z) :
  Z.land (Z.lxor x y) 255 = Z.lxor (Z.land x 255) (Z.land y 255).
Proof.
  apply Z.bits_inj'; intros n Hn.
  rewrite !Z.land_spec, !Z.lxor_spec, !Z.land_spec.
  destruct (Z.testbit x n), (Z.testbit y n), (Z.testbit 255 n); reflexivity.
Qed.

Lemma xor_word (a b d e m0 m1 m2 m3 : Z) :
  is_byte a -> is_byte b -> is_byte d -> is_byte e ->
  is_byte m0 -> is_byte m1 -> is_byte m2 -> is_byte m3 ->
  bytes32 (Z.lxor (word32 [a; b; d; e]) (word32 [m0; m1; m2; m3]))
  = [Z.lxor a m0; Z.lxor b m1; Z.lxor d m2; Z.lxor e m3].
Proof.
  intros Ha Hb Hd He H0 H1 H2 H3.
  destruct (byte_of_word32 a b d e Ha Hb Hd He) as (X0 & X1 & X2 & X3).
  destruct (byte_of_word32 m0 m1 m2 m3 H0 H1 H2 H3) as (Y0 & Y1 & Y2 & Y3).
  rewrite Z.shiftr_0_r in X0, Y0.
  generalize dependent (word32 [a; b; d; e]).
  generalize dependent (word32 [m0; m1; m2; m3]).
  intros M Y0 Y1 Y2 Y3 A X0 X1 X2 X3.
  unfold bytes32.
  rewrite !Z.shiftr_lxor, !land_lxor_255.
  change 255 with (Z.ones 8).
  now rewrite X0, X1, X2, X3, Y0, Y1, Y2, Y3.
Qed.

(** ** Pointwise reasoning on arrays *)

Lemma buf_get_out (l : list Z) (i : Z) :
  i < 0 \/ Z.of_nat (length l) <= i -> buf_get l i = 0.
Proof.
  intros H. unfold buf_get. destruct (Z.ltb_spec i 0); [reflexivity|].
  apply nth_overflow. lia.
Qed.

Lemma buf_get_buf_read (l : list Z) (a n i : Z) :
  0 <= i < n -> buf_get (buf_read l a n) i = buf_get l (a + i).
Proof.
  intros H. unfold buf_read. rewrite buf_get_nth by lia.
  rewrite (nth_indep _ 0 (buf_get l (a + Z.of_nat 0)))
    by (rewrite length_map, length_seq; lia).
  rewrite (map_nth (fun k => buf_get l (a + Z.of_nat k))).
  rewrite seq_nth by lia. f_equal. lia.
Qed.

Lemma list_ext_buf_get (l1 l2 : list Z) :
  length l1 = length l2 ->
  (forall i, 0 <= i < Z.of_nat (length l1) -> buf_get l1 i = buf_get l2 i) ->
  l1 = l2.
Proof.
  intros Hl H. apply nth_ext with (d := 0) (d' := 0); [assumption|].
  intros k Hk. specialize (H (Z.of_nat k) ltac:(lia)).
  rewrite !buf_get_nth, Nat2Z.id in H by lia. exact H.
Qed.

Lemma buf_read_ext (l1 l2 : list Z) (a b n : Z) :
  (forall i, 0 <= i < n -> buf_get l1 (a + i) = buf_get l2 (b + i)) ->
  buf_read l1 a n = buf_read l2 b n.
Proof.
  intros H. apply list_ext_buf_get; [now rewrite !buf_read_length|].
  intros i Hi. rewrite buf_read_length in Hi.
  rewrite !buf_get_buf_read by lia. apply H. lia.
Qed.

Lemma buf_read_all (l : list Z) : buf_read l 0 (Z.of_nat (length l)) = l.
Proof.
  apply list_ext_buf_get; [rewrite buf_read_length; lia|].
  intros i Hi. rewrite buf_read_length in Hi. now rewrite buf_get_buf_read by lia.
Qed.

Lemma buf_get_app_l (l1 l2 : list Z) (i : Z) :
  i < Z.of_nat (length l1) -> buf_get (l1 ++ l2) i = buf_get l1 i.
Proof.
  intros H. unfold buf_get. destruct (Z.ltb_spec i 0); [reflexivity|].
  apply app_nth1. lia.
Qed.

Lemma buf_get_app_r (l1 l2 : list Z) (i : Z) :
  Z.of_nat (length l1) <= i ->
  buf_get (l1 ++ l2) i = buf_get l2 (i - Z.of_nat (length l1)).
Proof.
  intros H. unfold buf_get.
  destruct (Z.ltb_spec i 0); [lia|]. destruct (Z.ltb_spec (i - Z.of_nat (length l1)) 0); [lia|].
  rewrite app_nth2 by lia. f_equal. lia.
Qed.

Lemma buf_read_app (l : list Z) (a n m : Z) :
  0 <= n -> 0 <= m ->
  buf_read l a (n + m) = buf_read l a n ++ buf_read l (a + n) m.
Proof.
  intros Hn Hm. apply list_ext_buf_get.
  - rewrite length_app, !buf_read_length. lia.
  - intros i Hi. rewrite buf_read_length in Hi.
    rewrite buf_get_buf_read by lia.
    destruct (Z.lt_ge_cases i n).
    + rewrite buf_get_app_l by (rewrite buf_read_length; lia).
      now rewrite buf_get_buf_read by lia.
    + rewrite buf_get_app_r by (rewrite buf_read_length; lia).
      rewrite buf_read_length, buf_get_buf_read by lia. f_equal. lia.
Qed.

Lemma buf_get_set (buf : list Z) (i j v : Z) :
  buf_get (buf_set buf i v) j
  = if (j =? i) && (0 <=? i) && (i <? Z.of_nat (length buf)) then v else buf_get buf j.
Proof.
  unfold buf_set, buf_get.
  destruct (Z.ltb_spec i 0).
  - replace (0 <=? i) with false by (symmetry; apply Z.leb_gt; lia).
    now rewrite andb_false_r.
  - replace (0 <=? i) with true by (symmetry; apply Z.leb_le; lia).
    rewrite andb_true_r.
    destruct (Z.eqb_spec j i) as [->|N]; cbn [andb].
    + destruct (Z.ltb_spec i 0); [lia|].
      destruct (Z.ltb_spec i (Z.of_nat (length buf))).
      * assert (Hi : (Z.to_nat i < length buf)%nat) by lia.
        revert Hi. generalize (Z.to_nat i). clear.
        induction buf as [|h t IH]; intros [|k] Hk; simpl in *; auto; try lia.
        apply IH. lia.
      * assert (Hi : (length buf <= Z.to_nat i)%nat) by lia.
        revert Hi. generalize (Z.to_nat i). clear.
        induction buf as [|h t IH]; intros [|k] Hk; simpl in *; auto; try lia.
        apply IH. lia.
    + destruct (Z.ltb_spec j 0); [reflexivity|].
      assert (Hn : Z.to_nat j <> Z.to_nat i) by lia.
      revert Hn. generalize (Z.to_nat j) (Z.to_nat i). clear.
      induction buf as [|h t IH]; intros [|k] [|m] Hn; simpl; auto; try lia.
Qed.

Lemma buf_get_memcpy (src buf : list Z) (off i : Z) :
  0 <= off -> off + Z.of_nat (length src) <= Z.of_nat (length buf) ->
  buf_get (memcpy buf off src) i
  = if (off <=? i) && (i <? off + Z.of_nat (length src)) then buf_get src (i - off)
    else buf_get buf i.
Proof.
  intros H0 H1.
  destruct (Z.leb_spec off i); cbn [andb];
    [destruct (Z.ltb_spec i (off + Z.of_nat (length src)))|].
  - rewrite buf_get_memcpy_in by lia. now rewrite buf_get_nth by lia.
  - apply buf_get_memcpy_out. lia.
  - apply buf_get_memcpy_out. lia.
Qed.

(** ** Unmasking, pointwise *)

Lemma xor_mask_from_length (c l : list Z) (j : Z) :
  length (xor_mask_from c j l) = length l.
Proof. revert j; induction l; intros; simpl; auto. Qed.

Lemma buf_get_cons (x : Z) (l : list Z) (i : Z) :
  0 <= i -> buf_get (x :: l) i = if i =? 0 then x else buf_get l (i - 1).
Proof.
  intros H. unfold buf_get. destruct (Z.ltb_spec i 0); [lia|].
  destruct (Z.eqb_spec i 0) as [->|N]; [reflexivity|].
  destruct (Z.ltb_spec (i - 1) 0); [lia|].
  replace (Z.to_nat i) with (S (Z.to_nat (i - 1))) by lia. reflexivity.
Qed.

Lemma buf_get_xor_mask_from (c l : list Z) (j i : Z) :
  0 <= i < Z.of_nat (length l) ->
  buf_get (xor_mask_from c j l) i
  = Z.lxor (buf_get l i) (buf_get c ((j + i) mod 4)).
Proof.
  revert j i; induction l as [|b t IH]; intros j i Hi; simpl in Hi; [lia|].
  cbn [xor_mask_from]. rewrite !buf_get_cons by lia.
  destruct (Z.eqb_spec i 0) as [->|N].
  - now rewrite Z.add_0_r.
  - rewrite IH by lia. do 2 f_equal. f_equal. lia.
Qed.

Lemma buf_read4 (buf : list Z) (o : Z) :
  buf_read buf o 4
  = [buf_get buf o; buf_get buf (o + 1); buf_get buf (o + 2); buf_get buf (o + 3)].
Proof.
  unfold buf_read. change (Z.to_nat 4) with 4%nat. cbn [seq map Z.of_nat Pos.of_succ_nat Pos.succ].
  now rewrite Z.add_0_r.
Qed.

Lemma xor_words_length (k : nat) (buf : list Z) (p u i : Z) :
  length (xor_words buf p u i k) = length buf.
Proof.
  revert buf i; induction k; intros; simpl; auto.
  rewrite IHk. unfold store32. apply memcpy_length.
Qed.

Lemma xor_bytes_length (k : nat) (buf : list Z) (p : Z) (c : list Z) (i : Z) :
  length (xor_bytes buf p c i k) = length buf.
Proof.
  revert buf i; induction k; intros; simpl; auto.
  rewrite IHk. apply buf_set_length.
Qed.

Lemma mod4_cases (i r : Z) : 0 <= r < 4 -> (4 * i + r) mod 4 = r.
Proof.
  intros H. rewrite Z.add_comm, Z.mul_comm, Z_mod_plus_full. apply Z.mod_small. lia.
Qed.

Section Mask.

Variables c0 c1 c2 c3 : Z.
Hypothesis Hc0 : is_byte c0.
Hypothesis Hc1 : is_byte c1.
Hypothesis Hc2 : is_byte c2.
Hypothesis Hc3 : is_byte c3.

Let c := [c0; c1; c2; c3].

(** One word of the source's first loop does what four steps of the
    per-byte definition do. *)
Lemma buf_get_store_xor_word (buf : list Z) (o j : Z) :
  0 <= o -> o + 4 <= Z.of_nat (length buf) ->
  (forall x, o <= x < o + 4 -> is_byte (buf_get buf x)) ->
  buf_get (store32 buf o (Z.lxor (load32 buf o) (word32 c))) j
  = if (o <=? j) && (j <? o + 4)
    then Z.lxor (buf_get buf j) (buf_get c (j - o))
    else buf_get buf j.
Proof.
  intros Ho Hl Hb. unfold store32, load32. rewrite buf_read4.
  subst c. rewrite xor_word by (auto; apply Hb; lia).
  rewrite buf_get_memcpy by (cbn [length]; lia). cbn [length].
  change (Z.of_nat 4) with 4.
  destruct (Z.leb_spec o j); cbn [andb]; [|reflexivity].
  destruct (Z.ltb_spec j (o + 4)); [|reflexivity].
  assert (E : j = o \/ j = o + 1 \/ j = o + 2 \/ j = o + 3) by lia.
  destruct E as [->|[->|[->| ->]]].
  - replace (o - o) with 0 by lia. reflexivity.
  - replace (o + 1 - o) with 1 by lia. reflexivity.
  - replace (o + 2 - o) with 2 by lia. reflexivity.
  - replace (o + 3 - o) with 3 by lia. reflexivity.
Qed.

Lemma buf_get_xor_words (k : nat) : forall (buf : list Z) (p i j : Z),
  0 <= p -> 0 <= i -> p + 4 * (i + Z.of_nat k) <= Z.of_nat (length buf) ->
  (forall x, p + 4 * i <= x < p + 4 * (i + Z.of_nat k) -> is_byte (buf_get buf x)) ->
  buf_get (xor_words buf p (word32 c) i k) j
  = if (p + 4 * i <=? j) && (j <? p + 4 * (i + Z.of_nat k))
    then Z.lxor (buf_get buf j) (buf_get c ((j - p) mod 4))
    else buf_get buf j.
Proof.
  induction k as [|k IH]; intros buf p i j Hp Hi Hl Hb.
  - cbn [xor_words].
    destruct (Z.leb_spec (p + 4 * i) j); cbn [andb]; [|reflexivity].
    destruct (Z.ltb_spec j (p + 4 * (i + Z.of_nat 0))); [lia | reflexivity].
  - cbn [xor_words].
    assert (W : forall y,
      buf_get (store32 buf (p + 4 * i) (Z.lxor (load32 buf (p + 4 * i)) (word32 c))) y
      = if (p + 4 * i <=? y) && (y <? p + 4 * i + 4)
        then Z.lxor (buf_get buf y) (buf_get c (y - (p + 4 * i)))
        else buf_get buf y).
    { intros y. apply buf_get_store_xor_word; try lia. intros x Hx. apply Hb. lia. }
    rewrite IH; try lia.
    + rewrite !W.
      destruct (Z.leb_spec (p + 4 * (i + 1)) j); cbn [andb].
      * destruct (Z.ltb_spec j (p + 4 * (i + 1 + Z.of_nat k)));
          destruct (Z.leb_spec (p + 4 * i) j); try lia; cbn [andb];
          destruct (Z.ltb_spec j (p + 4 * i + 4)); try lia;
          destruct (Z.ltb_spec j (p + 4 * (i + Z.of_nat (S k)))); try lia; reflexivity.
      * destruct (Z.leb_spec (p + 4 * i) j); cbn [andb]; [|reflexivity].
        destruct (Z.ltb_spec j (p + 4 * i + 4)); try lia.
        destruct (Z.ltb_spec j (p + 4 * (i + Z.of_nat (S k)))); try lia.
        do 2 f_equal. replace (j - p) with (4 * i + (j - (p + 4 * i))) by lia.
        symmetry. apply mod4_cases. lia.
    + unfold store32. rewrite memcpy_length. lia.
    + intros x Hx. rewrite W.
      destruct (Z.leb_spec (p + 4 * i) x); cbn [andb]; [|apply Hb; lia].
      destruct (Z.ltb_spec x (p + 4 * i + 4)); [lia|]. apply Hb; lia.
Qed.

Lemma buf_get_xor_bytes (k : nat) : forall (buf : list Z) (p i j : Z),
  0 <= p + i -> p + i + Z.of_nat k <= Z.of_nat (length buf) ->
  buf_get (xor_bytes buf p c i k) j
  = if (p + i <=? j) && (j <? p + i + Z.of_nat k)
    then Z.lxor (buf_get buf j) (buf_get c ((j - p) mod 4))
    else buf_get buf j.
Proof.
  induction k as [|k IH]; intros buf p i j Hp Hl.
  - cbn [xor_bytes].
    destruct (Z.leb_spec (p + i) j); cbn [andb]; [|reflexivity].
    destruct (Z.ltb_spec j (p + i + Z.of_nat 0)); [lia | reflexivity].
  - cbn [xor_bytes]. rewrite IH by (rewrite ?buf_set_length; lia).
    rewrite !buf_get_set.
    destruct (Z.leb_spec (p + (i + 1)) j); cbn [andb].
    + destruct (Z.eqb_spec j (p + i)); [lia|]. cbn [andb].
      destruct (Z.leb_spec (p + i) j); try lia; cbn [andb].
      destruct (Z.ltb_spec j (p + (i + 1) + Z.of_nat k));
        destruct (Z.ltb_spec j (p + i + Z.of_nat (S k))); try lia; reflexivity.
    + destruct (Z.eqb_spec j (p + i)) as [->|N]; cbn [andb].
      * destruct (Z.leb_spec 0 (p + i)); [|lia].
        destruct (Z.ltb_spec (p + i) (Z.of_nat (length buf))); [|lia]. cbn [andb].
        destruct (Z.leb_spec (p + i) (p + i)); [|lia].
        destruct (Z.ltb_spec (p + i) (p + i + Z.of_nat (S k))); [|lia]. cbn [andb].
        do 3 f_equal. lia.
      * destruct (Z.leb_spec (p + i) j); [lia|]. reflexivity.
Qed.

End Mask.

(** ** Reading a stream that arrives in pieces *)

Lemma chunks_cons (l : list Z) (ls : list (list Z)) :
  chunks (l :: ls) = rest_chunk l (chunks ls).
Proof. reflexivity. Qed.

Lemma chunks_nil (ls : list (list Z)) : concat ls = [] -> chunks ls = [].
Proof.
  induction ls as [|l ls IH]; [reflexivity|]. cbn [concat].
  intros H. apply app_eq_nil in H. destruct H as [-> H].
  rewrite chunks_cons. cbn [rest_chunk]. auto.
Qed.

Lemma lowerRead_chunks (ls : list (list Z)) (w : world) (n : Z) :
  sock w = chunks ls -> concat ls <> [] -> 0 < n < 2 ^ 64 ->
  exists k ls',
    0 < k <= n /\ k <= Z.of_nat (length (concat ls))
    /\ lowerRead w n
       = (k, firstn (Z.to_nat k) (concat ls), mk_world (chunks ls') (errno w))
    /\ concat ls' = skipn (Z.to_nat k) (concat ls).
Proof.
  revert w. induction ls as [|l ls IH]; intros w Hs Hne Hn; [now destruct Hne|].
  destruct l as [|b t].
  - apply IH; assumption.
  - rewrite chunks_cons in Hs. cbn [rest_chunk] in Hs.
    rewrite (lowerRead_chunk w b t (chunks ls) n Hs) by lia.
    set (got := firstn (Z.to_nat n) (b :: t)).
    exists (Z.of_nat (length got)), (skipn (Z.to_nat n) (b :: t) :: ls).
    assert (G : (1 <= length got <= Z.to_nat n)%nat).
    { subst got. rewrite length_firstn. cbn [length]. lia. }
    assert (G2 : (length got <= length (b :: t))%nat)
      by (subst got; rewrite length_firstn; lia).
    cbn [concat]. rewrite length_app. repeat split; try lia.
    + rewrite Nat2Z.id. f_equal. f_equal.
      subst got. rewrite length_firstn.
      rewrite firstn_app.
      replace (Nat.min (Z.to_nat n) (length (b :: t)) - length (b :: t))%nat with 0%nat by lia.
      rewrite firstn_O, app_nil_r.
      destruct (Nat.le_gt_cases (Z.to_nat n) (length (b :: t))).
      * now rewrite Nat.min_l by assumption.
      * rewrite Nat.min_r by lia. rewrite !firstn_all2 by lia. reflexivity.
    + rewrite Nat2Z.id. subst got. rewrite length_firstn.
      rewrite skipn_app.
      replace (Nat.min (Z.to_nat n) (length (b :: t)) - length (b :: t))%nat with 0%nat by lia.
      rewrite skipn_O. f_equal.
      destruct (Nat.le_gt_cases (Z.to_nat n) (length (b :: t))).
      * now rewrite Nat.min_l by assumption.
      * rewrite Nat.min_r by lia. rewrite !skipn_all2 by lia. reflexivity.
Qed.

Lemma stream_at_read (S : list Z) (pos n : Z) (w : world) :
  stream_at S pos w -> 0 <= pos < Z.of_nat (length S) -> 0 < n < 2 ^ 64 ->
  exists k w',
    0 < k <= n /\ pos + k <= Z.of_nat (length S)
    /\ lowerRead w n = (k, buf_read S pos k, w')
    /\ stream_at S (pos + k) w' /\ errno w' = errno w.
Proof.
  intros (ls & Hs & Hc) Hp Hn.
  assert (Hne : concat ls <> []).
  { rewrite Hc. intros E. apply (f_equal (@length Z)) in E.
    rewrite length_skipn in E. cbn [length] in E. lia. }
  destruct (lowerRead_chunks ls w n Hs Hne Hn) as (k & ls' & Hk & Hk2 & Hr & Hc').
  rewrite Hc, length_skipn in Hk2.
  exists k, (mk_world (chunks ls') (errno w)). repeat split; try lia.
  - rewrite Hr. f_equal. f_equal. rewrite Hc. symmetry. apply buf_read_slice; lia.
  - exists ls'. split; [reflexivity|]. rewrite Hc', Hc, skipn_skipn. f_equal. lia.
Qed.

Lemma stream_at_start (S : list Z) (ls : list (list Z)) (e : errno_t) :
  concat ls = S -> stream_at S 0 (mk_world (chunks ls) e).
Proof. intros H. exists ls. split; [reflexivity | exact H]. Qed.

Lemma stream_at_end (S : list Z) (w : world) :
  stream_at S (Z.of_nat (length S)) w -> sock w = [].
Proof.
  intros (ls & Hs & Hc). rewrite Hs. apply chunks_nil.
  rewrite Hc. apply skipn_all2. lia.
Qed.

(** ** Lengths in network byte order *)

Lemma fold_be_bytes (n : nat) (x acc : Z) :
  0 <= x ->
  fold_left (fun a b => a * 256 + b) (be_bytes n x) acc
  = acc * 256 ^ Z.of_nat n + x mod 256 ^ Z.of_nat n.
Proof.
  intros Hx. revert acc. induction n as [|k IH]; intros acc.
  - cbn [be_bytes fold_left]. change (256 ^ Z.of_nat 0) with 1. rewrite Z.mod_1_r. lia.
  - cbn [be_bytes fold_left]. rewrite IH.
    replace (Z.of_nat (S k)) with (Z.of_nat k + 1) by lia.
    rewrite Z.pow_add_r by lia. change (256 ^ 1) with 256.
    rewrite (Z.rem_mul_r x (256 ^ Z.of_nat k) 256) by lia.
    lia.
Qed.

Lemma WS_NTOH_be_bytes (n : nat) (x : Z) :
  0 <= x < 256 ^ Z.of_nat n -> WS_NTOH (be_bytes n x) = x.
Proof.
  intros H. unfold WS_NTOH. rewrite fold_be_bytes by lia.
  rewrite Z.mod_small by lia. lia.
Qed.

Lemma be_bytes_length (n : nat) (x : Z) : length (be_bytes n x) = n.
Proof. induction n; simpl; auto. Qed.

Lemma be_bytes_is_byte (n : nat) (x : Z) : Forall is_byte (be_bytes n x).
Proof.
  induction n; simpl; constructor; auto.
  apply Z.mod_pos_bound. lia.
Qed.


(** ** The steps of [readAndDecode] on a well-formed context *)

Lemma shiftr2_div4 (t : Z) : Z.shiftr t 2 = t / 4.
Proof. now rewrite Z.shiftr_div_pow2 by lia. Qed.

Lemma returnData_none dst len d nW w :
  readlen d <= 0 ->
  returnData dst len d nW w = (state d, dst, d, -1, set_errno EAGAIN w).
Proof.
  intros H. unfold returnData. destruct (Z.gtb_spec (readlen d) 0); [lia | reflexivity].
Qed.

Lemma returnData_some dst len d nW w :
  0 < readlen d ->
  exists s d',
    returnData dst len d nW w
    = (s, memcpy dst 0 (buf_read (codeBufDecode d) (readPos d) (Z.min (readlen d) len)),
       d', Z.min (readlen d) len, w)
    /\ readlen d' = readlen d - Z.min (readlen d) len
    /\ (len < readlen d ->
        s = WS_STATE_DECODING_DATA_AVAILABLE /\ readPos d' = readPos d + len)
    /\ (readlen d <= len ->
        s = if remaining d =? 0 then WS_STATE_DECODING_FRAME_COMPLETE
            else WS_STATE_DECODING_DATA_NEEDED)
    /\ codeBufDecode d' = codeBufDecode d /\ header d' = header d
    /\ nReadPayload d' = nReadPayload d /\ carryBuf d' = carryBuf d
    /\ carrylen d' = carrylen d /\ writePos d' = writePos d
    /\ continuation_opcode d' = continuation_opcode d.
Proof.
  intros H. unfold returnData. destruct (Z.gtb_spec (readlen d) 0); [|lia].
  destruct (Z.gtb_spec (readlen d) len).
  - rewrite Z.min_r by lia. do 2 eexists. split; [reflexivity|]. rsimpl.
    repeat split; auto; lia.
  - rewrite Z.min_l by lia. unfold remaining. rsimpl.
    destruct (_ =? 0); do 2 eexists; (split; [reflexivity|]); rsimpl;
      repeat split; auto; lia.
Qed.

Section Mask.

Variables c0 c1 c2 c3 : Z.
Hypothesis Hc0 : is_byte c0.
Hypothesis Hc1 : is_byte c1.
Hypothesis Hc2 : is_byte c2.
Hypothesis Hc3 : is_byte c3.

Let c := [c0; c1; c2; c3].

Lemma unmask_complete d t :
  state d = WS_STATE_DECODING_FRAME_COMPLETE ->
  mask (header d) = c ->
  0 <= t -> 0 <= writePos d - t -> writePos d <= ARRAYSIZE (codeBufDecode d) ->
  (forall x, writePos d - t <= x < writePos d -> is_byte (buf_get (codeBufDecode d) x)) ->
  exists d',
    unmask d t = (d', true)
    /\ unmasked c (codeBufDecode d) (codeBufDecode d') (writePos d - t) t
    /\ carrylen d' = 0 /\ writePos d' = writePos d /\ carryBuf d' = carryBuf d
    /\ state d' = state d /\ header d' = header d /\ nReadPayload d' = nReadPayload d
    /\ continuation_opcode d' = continuation_opcode d.
Proof.
  intros Hs Hm Ht Hp Hw Hb. unfold unmask. cbn zeta. rsimpl. rewrite Hs.
  cbn [ws_state_eqb]. eexists. split; [reflexivity|]. rsimpl.
  repeat split; auto.
  - now rewrite xor_bytes_length, xor_words_length.
  - intros j. unfold mask_u. rewrite Hm. rewrite shiftr2_div4.
    unfold ARRAYSIZE in Hw.
    pose proof (Z.div_mod t 4 ltac:(lia)) as Hdm.
    pose proof (Z.mod_pos_bound t 4 ltac:(lia)) as Hmod.
    set (i := t / 4) in *. set (p := writePos d - t) in *.
    assert (Hi : 0 <= i) by (subst i; apply Z.div_pos; lia).
    rewrite (buf_get_xor_bytes c0 c1 c2 c3)
      by (rewrite ?xor_words_length; lia).
    rewrite !(buf_get_xor_words c0 c1 c2 c3 Hc0 Hc1 Hc2 Hc3 (Z.to_nat i))
      by (try lia; intros x Hx; apply Hb; lia).
    rewrite Z2Nat.id by lia. rewrite Z2Nat.id by lia.
    replace (p + 4 * (0 + i)) with (p + 4 * i) by lia.
    replace (p + 4 * 0) with p by lia.
    replace (p + i * 4 + (t - i * 4)) with (p + t) by lia.
    replace (p + i * 4) with (p + 4 * i) by lia.
    destruct (Z.leb_spec (p + 4 * i) j); cbn [andb].
    + destruct (Z.ltb_spec j (p + t)).
      * destruct (Z.leb_spec p j); [|lia]. cbn [andb].
        destruct (Z.ltb_spec j (p + 4 * i)); [lia|]. reflexivity.
      * destruct (Z.leb_spec p j); [|lia]. cbn [andb].
        destruct (Z.ltb_spec j (p + 4 * i)); [lia|]. reflexivity.
    + destruct (Z.leb_spec p j); cbn [andb]; [|reflexivity].
      destruct (Z.ltb_spec j (p + 4 * i)); destruct (Z.ltb_spec j (p + t)); try lia;
        reflexivity.
Qed.

Lemma unmask_incomplete d t :
  state d <> WS_STATE_DECODING_FRAME_COMPLETE ->
  mask (header d) = c ->
  ARRAYSIZE (carryBuf d) = 3 ->
  0 <= t -> 0 <= writePos d - t -> writePos d <= ARRAYSIZE (codeBufDecode d) ->
  (forall x, writePos d - t <= x < writePos d -> is_byte (buf_get (codeBufDecode d) x)) ->
  exists d',
    unmask d t = (d', true)
    /\ unmasked c (codeBufDecode d) (codeBufDecode d') (writePos d - t) (4 * (t / 4))
    /\ carrylen d' = t mod 4 /\ writePos d' = writePos d - t mod 4
    /\ ARRAYSIZE (carryBuf d') = 3
    /\ same_bytes (carryBuf d') 0 (codeBufDecode d) (writePos d - t mod 4) (t mod 4)
    /\ state d' = state d /\ header d' = header d /\ nReadPayload d' = nReadPayload d
    /\ continuation_opcode d' = continuation_opcode d.
Proof.
  intros Hs Hm Hcb Ht Hp Hw Hb. unfold unmask. cbn zeta. rsimpl.
  destruct (ws_state_eqb (state d) WS_STATE_DECODING_FRAME_COMPLETE) eqn:E;
    [destruct (state d); try discriminate; now destruct Hs|].
  rewrite shiftr2_div4. rewrite Hcb.
  pose proof (Z.div_mod t 4 ltac:(lia)) as Hdm.
  pose proof (Z.mod_pos_bound t 4 ltac:(lia)) as Hmod.
  replace (t - t / 4 * 4) with (t mod 4) by lia.
  destruct (Z.ltb_spec (t mod 4) 0); [lia|].
  destruct (Z.gtb_spec (t mod 4) 3); [lia|]. cbn [orb].
  eexists. split; [reflexivity|]. rsimpl.
  unfold ARRAYSIZE in *.
  set (i := t / 4) in *. set (p := writePos d - t) in *.
  assert (Hi : 0 <= i) by (subst i; apply Z.div_pos; lia).
  assert (X : forall j,
    buf_get (xor_words (codeBufDecode d) p (mask_u (header d)) 0 (Z.to_nat i)) j
    = if (p <=? j) && (j <? p + 4 * i)
      then Z.lxor (buf_get (codeBufDecode d) j) (buf_get c ((j - p) mod 4))
      else buf_get (codeBufDecode d) j).
  { intros j. unfold mask_u. rewrite Hm.
    rewrite (buf_get_xor_words c0 c1 c2 c3 Hc0 Hc1 Hc2 Hc3 (Z.to_nat i))
      by (try lia; intros x Hx; apply Hb; lia).
    rewrite Z2Nat.id by lia.
    replace (p + 4 * (0 + i)) with (p + 4 * i) by lia.
    replace (p + 4 * 0) with p by lia. reflexivity. }
  repeat split; auto.
  - now rewrite xor_words_length.
  - rewrite memcpy_length. exact Hcb.
  - intros k Hk. rewrite buf_get_memcpy by (rewrite ?buf_read_length; lia).
    rewrite buf_read_length.
    destruct (Z.leb_spec 0 (0 + k)); [|lia].
    destruct (Z.ltb_spec (0 + k) (0 + Z.of_nat (Z.to_nat (t mod 4)))); [|lia].
    cbn [andb]. rewrite buf_get_buf_read by lia. rewrite X.
    destruct (Z.leb_spec p (p + i * 4 + (0 + k - 0))); cbn [andb].
    + destruct (Z.ltb_spec (p + i * 4 + (0 + k - 0)) (p + 4 * i)); [lia|].
      f_equal. lia.
    + f_equal. lia.
Qed.

Lemma unmask_spec d t :
  mask (header d) = c ->
  ARRAYSIZE (carryBuf d) = 3 ->
  0 <= t -> 0 <= writePos d - t -> writePos d <= ARRAYSIZE (codeBufDecode d) ->
  (forall x, writePos d - t <= x < writePos d -> is_byte (buf_get (codeBufDecode d) x)) ->
  exists d' cl,
    unmask d t = (d', true)
    /\ cl = (if ws_state_eqb (state d) WS_STATE_DECODING_FRAME_COMPLETE then 0
             else t mod 4)
    /\ unmasked c (codeBufDecode d) (codeBufDecode d') (writePos d - t) (t - cl)
    /\ carrylen d' = cl /\ writePos d' = writePos d - cl
    /\ ARRAYSIZE (carryBuf d') = 3
    /\ same_bytes (carryBuf d') 0 (codeBufDecode d) (writePos d - cl) cl
    /\ state d' = state d /\ header d' = header d /\ nReadPayload d' = nReadPayload d
    /\ continuation_opcode d' = continuation_opcode d.
Proof.
  intros Hm Hcb Ht Hp Hw Hb.
  destruct (ws_state_eqb (state d) WS_STATE_DECODING_FRAME_COMPLETE) eqn:E.
  - assert (Hs : state d = WS_STATE_DECODING_FRAME_COMPLETE)
      by (destruct (state d); try discriminate; reflexivity).
    destruct (unmask_complete d t Hs Hm Ht Hp Hw Hb)
      as (d' & U & X & C & W & CB & R).
    exists d', 0. rewrite Z.sub_0_r. repeat split; try tauto; try lia.
    + apply X.
    + apply X.
    + rewrite CB. exact Hcb.
    + intros i Hi. lia.
  - assert (Hs : state d <> WS_STATE_DECODING_FRAME_COMPLETE)
      by (intros Hs; rewrite Hs in E; discriminate).
    destruct (unmask_incomplete d t Hs Hm Hcb Ht Hp Hw Hb)
      as (d' & U & X & C & W & CB & SB & R).
    pose proof (Z.div_mod t 4 ltac:(lia)) as Hdm.
    exists d', (t mod 4).
    replace (t - t mod 4) with (4 * (t / 4)) by lia.
    repeat split; try tauto; try lia; apply X.
Qed.

End Mask.


(** ** One BINARY frame through the decoder *)

Lemma u64_small (x : Z) : 0 <= x < 2 ^ 64 -> u64 x = x.
Proof. intros H. unfold u64. apply Z.mod_small. exact H. Qed.

Lemma s32_small (x : Z) : - 2 ^ 31 <= x < 2 ^ 31 -> s32 x = x.
Proof. intros H. unfold s32. rewrite Z.mod_small; lia. Qed.

Lemma is_byte_buf_get (l : list Z) (x : Z) : Forall is_byte l -> is_byte (buf_get l x).
Proof.
  intros H. unfold buf_get. destruct (x <? 0); [unfold is_byte; lia|].
  destruct (Nat.lt_ge_cases (Z.to_nat x) (length l)).
  - rewrite Forall_forall in H. apply H. now apply nth_In.
  - rewrite nth_overflow by assumption. unfold is_byte; lia.
Qed.

Lemma delivered_memcpy (len m : Z) (bytes : list Z) :
  0 < m <= len -> length bytes = Z.to_nat m ->
  delivered m (memcpy (repeat 0 (Z.to_nat len)) 0 bytes) = bytes.
Proof.
  intros Hm Hb. unfold delivered. destruct (Z.gtb_spec m 0); [|lia].
  rewrite memcpy_head by (rewrite repeat_length; lia).
  rewrite <- Hb. rewrite firstn_app, Nat.sub_diag, firstn_O, app_nil_r.
  apply firstn_all.
Qed.

Ltac case_eqb x y :=
  let E := fresh "Ecmp" in
  destruct (Z.eq_dec x y) as [?Ec|?Ec];
  [ assert (E : (x =? y) = true) by (apply Z.eqb_eq; assumption)
  | assert (E : (x =? y) = false) by (apply Z.eqb_neq; assumption) ];
  rewrite ?E in *; clear E.

Section Frame.

Variable b64_pton : list Z -> Z -> Z * list Z.
Variables c0 c1 c2 c3 : Z.
Variable S : list Z.
Variables H L cap len : Z.
Variable b : bool.
Variable fin_bit : Z.

Hypothesis Hc0 : is_byte c0.
Hypothesis Hc1 : is_byte c1.
Hypothesis Hc2 : is_byte c2.
Hypothesis Hc3 : is_byte c3.
Hypothesis HS : Forall is_byte S.
Hypothesis HSl : Z.of_nat (length S) = H + L.
Hypothesis HL : 0 <= L < 2 ^ 63.
Hypothesis HH : 6 <= H <= 14.
Hypothesis Hcap : 19 <= cap < 2 ^ 31.
Hypothesis Hlen : 0 < len.

Let c := [c0; c1; c2; c3].
Let u := xor_mask c (skipn (Z.to_nat H) S).

Hypothesis Hlay : header_layout S H L c fin_bit.

Lemma u_length : Z.of_nat (length u) = L.
Proof. subst u. unfold xor_mask. rewrite xor_mask_from_length, length_skipn. lia. Qed.

Lemma u_get (x : Z) :
  0 <= x < L -> buf_get u x = Z.lxor (buf_get S (H + x)) (buf_get c (x mod 4)).
Proof.
  intros Hx. subst u. unfold xor_mask.
  rewrite buf_get_xor_mask_from by (rewrite length_skipn; lia).
  rewrite Z.add_0_l. f_equal.
  rewrite !buf_get_nth by lia. rewrite nth_skipn. f_equal. lia.
Qed.

Lemma stream_at_errno (p : Z) (e : errno_t) (w : world) :
  stream_at S p w -> stream_at S p (set_errno e w).
Proof. intros (ls & A & B). exists ls. split; assumption. Qed.

Lemma aligned_plus (s0 t : Z) : s0 mod 4 = 0 -> (s0 + (t - t mod 4)) mod 4 = 0.
Proof.
  intros Hs. pose proof (Z.div_mod t 4 ltac:(lia)).
  replace (t - t mod 4) with (t / 4 * 4) by lia.
  now rewrite Z_mod_plus_full.
Qed.

Lemma finish_complete d :
  state (finish WS_STATE_DECODING_FRAME_COMPLETE d) = WS_STATE_DECODING_HEADER_PENDING.
Proof. unfold finish, decode_spor. rsimpl. destruct (_ && _); reflexivity. Qed.

Lemma finish_needed d :
  finish WS_STATE_DECODING_DATA_NEEDED d = set_state WS_STATE_DECODING_DATA_NEEDED d.
Proof. reflexivity. Qed.

Lemma finish_available d :
  finish WS_STATE_DECODING_DATA_AVAILABLE d
  = set_state WS_STATE_DECODING_DATA_AVAILABLE d.
Proof. reflexivity. Qed.

Lemma payload_step d w sockRet nInBuf bufsize n :
  state d = WS_STATE_DECODING_DATA_NEEDED ->
  header_is H L c WS_OPCODE_BINARY_FRAME d -> sizes_are cap d ->
  0 <= carrylen d -> 0 <= nInBuf -> 0 <= n ->
  0 <= nReadPayload d - (carrylen d + nInBuf) ->
  (nReadPayload d - (carrylen d + nInBuf)) mod 4 = 0 ->
  nReadPayload d + n <= L ->
  writePos d = H + (carrylen d + nInBuf) ->
  H + (n + carrylen d + nInBuf) < cap ->
  same_bytes (codeBufDecode d) H S (H + (nReadPayload d - (carrylen d + nInBuf)))
    (n + carrylen d + nInBuf) ->
  stream_at S (H + (nReadPayload d + n)) w ->
  exists s dst' d' r w' m,
    readAndDecode_payload b64_pton (mk_ctx d b) (repeat 0 (Z.to_nat len)) len w sockRet
      nInBuf bufsize n
    = (s, dst', mk_ctx d' b, r, w')
    /\ 0 <= m
    /\ delivered r dst' = buf_read u (nReadPayload d - (carrylen d + nInBuf)) m
    /\ frame_inv S u cap H L c (nReadPayload d - (carrylen d + nInBuf) + m)
         (2 * (L - nReadPayload d) + carrylen d + nInBuf - n - m)
         (finish s d') w'.
Proof.
  intros Hst (HhL & HpL & Hmk & Hop) (Hsz & Hcb) Hcl HnI Hn Hs0 Hal Hpr Hwp Hfit Hsame Hstr.
  set (cl := carrylen d) in *. set (pr := nReadPayload d) in *.
  set (t := n + cl + nInBuf) in *. set (s0 := pr - (cl + nInBuf)) in *.
  assert (Hpos : H + L = Z.of_nat (length S)) by lia.
  unfold readAndDecode_payload. cbn zeta. unfold remaining. rsimpl.
  fold cl pr. rewrite HpL.
  rewrite (u64_small (pr + n)) by lia. rewrite (u64_small (L - (pr + n))) by lia.
  set (d1 := if _ =? 0 then _ else _).
  assert (F1 : carrylen d1 = cl /\ writePos d1 = H + t /\ nReadPayload d1 = pr + n
               /\ header d1 = header d /\ codeBufDecode d1 = codeBufDecode d
               /\ carryBuf d1 = carryBuf d
               /\ ws_state_eqb (state d1) WS_STATE_DECODING_FRAME_COMPLETE
                  = (L - (pr + n) =? 0)
               /\ state d1 = (if L - (pr + n) =? 0 then WS_STATE_DECODING_FRAME_COMPLETE
                              else WS_STATE_DECODING_DATA_NEEDED)).
  { subst d1. destruct (_ =? 0); rsimpl; rewrite ?Hst; repeat split; auto; lia. }
  clearbody d1. destruct F1 as (F1c & F1w & F1n & F1h & F1b & F1cb & F1e & F1s).
  rewrite F1c. fold t.
  destruct (Z.ltb_spec t 0); [lia|].
  destruct (unmask_spec c0 c1 c2 c3 Hc0 Hc1 Hc2 Hc3 d1 t) as
    (d2 & cl' & U & Ecl & (Xl & X) & F2c & F2w & F2cs & F2cb & F2s & F2h & F2n & F2o).
  { now rewrite F1h. }
  { now rewrite F1cb. }
  { lia. }
  { lia. }
  { rewrite F1b, Hsz. lia. }
  { intros x Hx. rewrite F1b.
    replace x with (H + (x - H)) by lia. rewrite Hsame by lia.
    now apply is_byte_buf_get. }
  rewrite F1e in Ecl. rewrite F1w, F1b in *.
  replace (H + t - t) with H in * by lia.
  rewrite U. cbn [negb]. rewrite F2h, F1h, Hop.
  change (WS_OPCODE_BINARY_FRAME =? WS_OPCODE_CLOSE) with false. cbn iota.
  unfold decode_by_opcode. rewrite F2h, F1h, Hop.
  change (WS_OPCODE_BINARY_FRAME =? WS_OPCODE_TEXT_FRAME) with false.
  change (WS_OPCODE_BINARY_FRAME =? WS_OPCODE_BINARY_FRAME) with true.
  cbn zeta iota. unfold payloadStart. rsimpl. rewrite F2h, F1h, HhL, F2c.
  set (d3 := set_readPos _ _).
  assert (F3 : readlen d3 = t - cl' /\ readPos d3 = H /\ writePos d3 = H
               /\ codeBufDecode d3 = codeBufDecode d2 /\ header d3 = header d
               /\ nReadPayload d3 = pr + n /\ carryBuf d3 = carryBuf d2
               /\ carrylen d3 = cl' /\ state d3 = state d1).
  { subst d3. rsimpl. repeat split; congruence. }
  clearbody d3. destruct F3 as (F3r & F3p & F3w & F3b & F3h & F3n & F3cb & F3c & F3s).
  pose proof (Z.mod_pos_bound t 4 ltac:(lia)) as Hmod.
  pose proof (Z.div_mod t 4 ltac:(lia)) as Hdm.
  assert (Hcl' : 0 <= cl' <= 3 /\ cl' <= t)
    by (rewrite Ecl; destruct (_ =? 0); lia).
  (* the unmasked bytes are those of [u] *)
  assert (DATA : same_bytes (codeBufDecode d2) H u s0 (t - cl')).
  { intros i Hi. rewrite X.
    destruct (Z.leb_spec H (H + i)); [|lia].
    destruct (Z.ltb_spec (H + i) (H + (t - cl'))); [|lia]. cbn [andb].
    rewrite Hsame by lia. rewrite u_get by lia.
    replace (H + (s0 + i)) with (H + s0 + i) by lia. f_equal. f_equal.
    replace (H + i - H) with i by lia.
    rewrite <- Zplus_mod_idemp_l, Hal. reflexivity. }
  assert (CARRY : same_bytes (carryBuf d2) 0 S (H + s0 + (t - cl')) cl').
  { intros i Hi. rewrite F2cb by lia.
    replace (H + t - cl' + i) with (H + (t - cl' + i)) by lia.
    rewrite Hsame by lia. f_equal. lia. }
  assert (REM : u64 (payloadLen (header d3) - nReadPayload d3) = L - (pr + n)).
  { rewrite F3h, HpL, F3n. apply u64_small. lia. }
  destruct (Z.le_gt_cases (t - cl') 0) as [Hz|Hp].
  - (* nothing to hand over yet *)
    rewrite returnData_none by lia. rewrite F3s, F1s.
    exists (if L - (pr + n) =? 0 then WS_STATE_DECODING_FRAME_COMPLETE
            else WS_STATE_DECODING_DATA_NEEDED).
    exists (repeat 0 (Z.to_nat len)), d3, (-1), (set_errno EAGAIN w), 0.
    split; [reflexivity|]. split; [lia|]. split; [reflexivity|].
    case_eqb (L - (pr + n)) 0.
    + right; right. split; [apply finish_complete|].
      split; [|lia]. cbn [sock set_errno]. apply (stream_at_end S).
      replace (Z.of_nat (length S)) with (H + (pr + n)) by lia. exact Hstr.
    + right; left. rewrite finish_needed.
      unfold payload_phase, header_is, sizes_are. rsimpl.
      rewrite F3h, F3b, F3cb, F3w, F3c, F3r, F3n. unfold ARRAYSIZE in *. rewrite Xl.
      repeat split; auto; try lia; try discriminate.
      * intros _. replace (s0 + 0 + (t - cl')) with (s0 + (t - t mod 4)) by lia.
        now apply aligned_plus.
      * replace (H + (s0 + 0) + (t - cl')) with (H + s0 + (t - cl')) by lia. exact CARRY.
  - (* some bytes go to the caller *)
    destruct (returnData_some (repeat 0 (Z.to_nat len)) len d3 sockRet w)
      as (s & d4 & RD & F4r & F4a & F4n & F4b & F4h & F4np & F4cb & F4c & F4w & F4o);
      [lia|].
    rewrite RD. rewrite F3r, F3p, F3b in *.
    set (m := Z.min (t - cl') len) in *.
    exists s, (memcpy (repeat 0 (Z.to_nat len)) 0 (buf_read (codeBufDecode d2) H m)),
      d4, m, w, m.
    split; [reflexivity|]. split; [lia|]. split.
    { rewrite delivered_memcpy by (rewrite ?buf_read_length; lia).
      apply buf_read_ext. intros i Hi. apply DATA. lia. }
    unfold remaining in F4n. rewrite REM in F4n.
    destruct (Z.lt_ge_cases len (t - cl')) as [Hlt|Hge].
    + (* the caller's buffer is full: DATA_AVAILABLE *)
      destruct (F4a Hlt) as (-> & F4p). right; left. rewrite finish_available.
      unfold payload_phase, header_is, sizes_are. rsimpl.
      rewrite F4h, F3h, F4b, F4cb, F3cb, F4w, F3w, F4c, F3c, F4r, F4np, F3n, F4p.
      unfold ARRAYSIZE in *. rewrite Xl.
      replace m with len in * by lia.
      case_eqb (L - (pr + n)) 0;
        repeat split; auto; try lia; try discriminate.
      * replace (H + (s0 + len) + (t - cl' - len)) with (H + s0 + (t - cl')) by lia.
        exact CARRY.
      * intros i Hi. replace (H + len + i) with (H + (len + i)) by lia.
        rewrite DATA by lia. f_equal. lia.
      * intros _. replace (s0 + len + (t - cl' - len)) with (s0 + (t - t mod 4)) by lia.
        now apply aligned_plus.
      * replace (H + (s0 + len) + (t - cl' - len)) with (H + s0 + (t - cl')) by lia.
        exact CARRY.
      * intros i Hi. replace (H + len + i) with (H + (len + i)) by lia.
        rewrite DATA by lia. f_equal. lia.
    + (* all of it fits *)
      rewrite (F4n Hge). replace m with (t - cl') in * by lia.
      case_eqb (L - (pr + n)) 0.
      * right; right. split; [apply finish_complete|].
        split; [|lia].
        apply (stream_at_end S).
        replace (Z.of_nat (length S)) with (H + (pr + n)) by lia. exact Hstr.
      * right; left. rewrite finish_needed.
        unfold payload_phase, header_is, sizes_are. rsimpl.
        rewrite F4h, F3h, F4b, F4cb, F3cb, F4w, F3w, F4c, F3c, F4r, F4np, F3n.
        unfold ARRAYSIZE in *. rewrite Xl.
        repeat split; auto; try lia; try discriminate.
        -- intros _.
           replace (s0 + (t - cl') + (t - cl' - (t - cl'))) with (s0 + (t - t mod 4)) by lia.
           now apply aligned_plus.
        -- replace (H + (s0 + (t - cl')) + (t - cl' - (t - cl')))
             with (H + s0 + (t - cl')) by lia.
           exact CARRY.
Qed.

Lemma land_mask_bit (x : Z) : 0 <= x < 128 -> (Z.land (128 + x) 128 =? 0) = false.
Proof.
  intros Hx. apply Z.eqb_neq. intros E.
  assert (T : Z.testbit (Z.land (128 + x) 128) 7 = false) by (rewrite E; apply Z.testbit_0_l).
  rewrite Z.land_spec in T. change (Z.testbit 128 7) with true in T.
  rewrite andb_true_r in T.
  assert (T' : Z.testbit (128 + x) 7 = true).
  { apply Z.testbit_true; [lia|]. change (2 ^ 7) with 128.
    replace ((128 + x) / 128) with 1; [reflexivity|].
    apply Z.div_unique with (r := x); lia. }
  congruence.
Qed.

Lemma land_len7 (x : Z) : 0 <= x < 128 -> Z.land (128 + x) 127 = x.
Proof.
  intros Hx. change 127 with (Z.ones 7). rewrite Z.land_ones by lia.
  change (2 ^ 7) with 128. symmetry. apply Z.mod_unique with (q := 1); lia.
Qed.

(** [readHeader_length] while the header is short of [H] bytes. *)
Lemma readHeader_length_pending d w sr np :
  2 <= nDone (header d) < H ->
  same_bytes (codeBufDecode d) 0 S 0 (nDone (header d)) ->
  exists d',
    readHeader_length d w sr np
    = (WS_STATE_DECODING_HEADER_PENDING, d', set_errno EAGAIN w, -1, np)
    /\ nDone (header d') = nDone (header d)
    /\ codeBufDecode d' = codeBufDecode d /\ carryBuf d' = carryBuf d
    /\ carrylen d' = carrylen d /\ state d' = state d.
Proof.
  intros Ha Hsame. destruct Hlay as (_ & _ & Lay).
  assert (B1 : buf_get (codeBufDecode d) 1 = buf_get S 1) by (apply (Hsame 1); lia).
  unfold readHeader_length, ret_header_pending. cbn zeta. rsimpl. rewrite B1.
  destruct Lay as [(Hl & HHe & E1 & _)|[(Hl & HHe & E1 & _)|(Hl & HHe & E1 & _)]];
    rewrite E1.
  - rewrite land_mask_bit, land_len7 by lia.
    destruct (Z.ltb_spec L 126); [|lia].
    destruct (Z.geb_spec (nDone (header d)) 6); [lia|]. cbn [andb].
    destruct (Z.eqb_spec L 126); [lia|]. destruct (Z.eqb_spec L 127); [lia|].
    cbn [andb]. eexists. split; [reflexivity|]. rsimpl. auto.
  - change (Z.land 254 128 =? 0) with false. change (Z.land 254 127) with 126.
    change (126 <? 126) with false. change (126 =? 126) with true.
    change (126 =? 127) with false.
    destruct (Z.leb_spec 8 (nDone (header d))); [lia|]. cbn [andb].
    eexists. split; [reflexivity|]. rsimpl. auto.
  - change (Z.land 255 128 =? 0) with false. change (Z.land 255 127) with 127.
    change (127 <? 126) with false. change (127 =? 126) with false.
    change (127 =? 127) with true.
    destruct (Z.leb_spec 14 (nDone (header d))); [lia|]. cbn [andb].
    eexists. split; [reflexivity|]. rsimpl. auto.
Qed.

(** [readHeader_length] once the [H] bytes of the header are there. *)
Lemma readHeader_length_complete d w sr np :
  H <= nDone (header d) <= 14 ->
  nDone (header d) <= H + L ->
  same_bytes (codeBufDecode d) 0 S 0 (nDone (header d)) ->
  exists d',
    readHeader_length d w sr np
    = (WS_STATE_DECODING_DATA_NEEDED, d', w, sr, nDone (header d) - H)
    /\ headerLen (header d') = H /\ payloadLen (header d') = L
    /\ mask (header d') = c /\ opcode (header d') = opcode (header d)
    /\ writePos d' = nDone (header d) /\ nReadPayload d' = nDone (header d) - H
    /\ codeBufDecode d' = codeBufDecode d /\ carryBuf d' = carryBuf d
    /\ carrylen d' = carrylen d.
Proof.
  intros Ha Hfr Hsame. destruct Hlay as (_ & _ & Lay).
  assert (B1 : buf_get (codeBufDecode d) 1 = buf_get S 1) by (apply (Hsame 1); lia).
  assert (R : forall o n, 0 <= o -> 0 <= n -> o + n <= nDone (header d) ->
              buf_read (codeBufDecode d) o n = buf_read S o n).
  { intros o n Ho Hn Hon. apply buf_read_ext. intros i Hi.
    apply (Hsame (o + i)). lia. }
  unfold readHeader_length, readHeader_complete. cbn zeta. rsimpl. rewrite B1.
  unfold WS_NTOH16, WS_NTOH64.
  destruct Lay as [(Hl & HHe & E1 & Ec)|[(Hl & HHe & E1 & En & Ec)|(Hl & HHe & E1 & En & Ec)]];
    rewrite E1.
  - rewrite land_mask_bit, land_len7 by lia.
    destruct (Z.ltb_spec L 126); [|lia].
    destruct (Z.geb_spec (nDone (header d)) 6); [|lia]. cbn [andb]. rsimpl.
    change (WS_HYBI_HEADER_LEN_SHORT_MASKED >? WS_HYBI_HEADER_LEN_SHORT_MASKED) with false.
    change (WS_HYBI_HEADER_LEN_SHORT_MASKED >? WS_HYBI_HEADER_LEN_EXTENDED_MASKED) with false.
    cbn [andb orb]. rsimpl. rewrite R by lia. rewrite Ec.
    rewrite u64_small by (unfold WS_HYBI_HEADER_LEN_SHORT_MASKED; lia).
    eexists. split; [rewrite HHe; reflexivity|]. rsimpl.
    unfold WS_HYBI_HEADER_LEN_SHORT_MASKED. repeat split; auto; lia.
  - change (Z.land 254 128 =? 0) with false. change (Z.land 254 127) with 126.
    change (126 <? 126) with false. change (126 =? 126) with true.
    destruct (Z.leb_spec 8 (nDone (header d))); [|lia]. cbn [andb]. rsimpl.
    rewrite !R by lia. rewrite En, Ec.
    change (WS_HYBI_HEADER_LEN_EXTENDED_MASKED >? WS_HYBI_HEADER_LEN_SHORT_MASKED) with true.
    change (WS_HYBI_HEADER_LEN_EXTENDED_MASKED >? WS_HYBI_HEADER_LEN_EXTENDED_MASKED)
      with false.
    destruct (Z.ltb_spec L 126); [lia|]. cbn [andb orb]. rsimpl.
    rewrite u64_small by (unfold WS_HYBI_HEADER_LEN_EXTENDED_MASKED; lia).
    eexists. split; [rewrite HHe; reflexivity|]. rsimpl.
    unfold WS_HYBI_HEADER_LEN_EXTENDED_MASKED. repeat split; auto; lia.
  - change (Z.land 255 128 =? 0) with false. change (Z.land 255 127) with 127.
    change (127 <? 126) with false. change (127 =? 126) with false.
    change (127 =? 127) with true.
    destruct (Z.leb_spec 14 (nDone (header d))); [|lia]. cbn [andb]. rsimpl.
    rewrite !R by lia. rewrite En, Ec.
    change (WS_HYBI_HEADER_LEN_LONG_MASKED >? WS_HYBI_HEADER_LEN_SHORT_MASKED) with true.
    change (WS_HYBI_HEADER_LEN_LONG_MASKED >? WS_HYBI_HEADER_LEN_EXTENDED_MASKED) with true.
    destruct (Z.ltb_spec L 126); [lia|]. destruct (Z.ltb_spec L 65536); [lia|].
    cbn [andb orb]. rsimpl.
    rewrite u64_small by (unfold WS_HYBI_HEADER_LEN_LONG_MASKED; lia).
    eexists. split; [rewrite HHe; reflexivity|]. rsimpl.
    unfold WS_HYBI_HEADER_LEN_LONG_MASKED. repeat split; auto; lia.
Qed.

(** [readHeader] on a header of which [a] bytes are there: it takes up to
    [WSHLENMAX - a] bytes more, and either still waits for the header or
    has it, with what it read past it counted as payload. *)
Lemma header_step d w a :
  header_phase S cap a d w -> 0 <= a < H ->
  exists k w',
    0 < k /\ a + k <= 14 /\ a + k <= H + L /\ stream_at S (a + k) w'
    /\ ((a + k < H
         /\ exists d',
             readHeader d w (-1) 0
             = (WS_STATE_DECODING_HEADER_PENDING, d', set_errno EAGAIN w', -1, 0)
             /\ header_phase S cap (a + k) d' (set_errno EAGAIN w'))
        \/ (H <= a + k
            /\ exists d',
                readHeader d w (-1) 0
                = (WS_STATE_DECODING_DATA_NEEDED, d', w', -1, a + k - H)
                /\ header_is H L c WS_OPCODE_BINARY_FRAME d' /\ sizes_are cap d'
                /\ carrylen d' = 0 /\ writePos d' = a + k
                /\ nReadPayload d' = a + k - H
                /\ same_bytes (codeBufDecode d') 0 S 0 (a + k))).
Proof.
  intros (Hst & Hnd & Hcl & (Hsz1 & Hsz2) & Hsame & Hstr) Ha.
  destruct (stream_at_read S a (WSHLENMAX - a) w Hstr) as (k & w' & Hk & Hk2 & Hr & Hstr' & He);
    [lia | unfold WSHLENMAX; lia |].
  unfold WSHLENMAX in *.
  exists k, w'. split; [lia|]. split; [lia|]. split; [lia|]. split; [exact Hstr'|].
  unfold readHeader. cbn zeta. unfold WSHLENMAX. rewrite Hnd, Hr.
  destruct (Z.leb_spec k 0); [lia|]. rsimpl. rewrite Hnd.
  set (buf' := memcpy (codeBufDecode d) a (buf_read S a k)).
  assert (Hlen' : ARRAYSIZE buf' = cap).
  { unfold ARRAYSIZE, buf'. rewrite memcpy_length. exact Hsz1. }
  assert (Hsame' : same_bytes buf' 0 S 0 (a + k)).
  { intros i Hi. unfold buf'. rewrite buf_get_memcpy;
      [| lia | rewrite buf_read_length by lia; unfold ARRAYSIZE in Hsz1; lia].
    rewrite buf_read_length, Z2Nat.id by lia.
    destruct (Z.leb_spec a (0 + i)); destruct (Z.ltb_spec (0 + i) (a + k)); cbn [andb];
      try lia.
    - rewrite buf_get_buf_read by lia. f_equal. lia.
    - apply Hsame. lia. }
  destruct (Z.ltb_spec (a + k) 2) as [Hlt2|Hge2].
  { left. split; [lia|]. unfold ret_header_pending. eexists. split; [reflexivity|].
    unfold header_phase, sizes_are. rsimpl. repeat split; auto. }
  destruct Hlay as (Hfin & Hb0 & _).
  assert (B0 : buf_get buf' 0 = 128 * fin_bit + WS_OPCODE_BINARY_FRAME).
  { rewrite <- Hb0. apply (Hsame' 0). lia. }
  rewrite B0.
  assert (Hop : Z.land (128 * fin_bit + WS_OPCODE_BINARY_FRAME) 15 = WS_OPCODE_BINARY_FRAME)
    by (destruct Hfin as [-> | ->]; reflexivity).
  rewrite Hop. unfold isControlFrame. rsimpl.
  change (negb (0 =? Z.land WS_OPCODE_BINARY_FRAME 8)) with false.
  change (WS_OPCODE_BINARY_FRAME =? WS_OPCODE_CONTINUATION) with false. cbn iota.
  match goal with
  | |- context [readHeader_length ?d0 w' (-1) 0] => set (d1 := d0)
  end.
  assert (F1 : nDone (header d1) = a + k /\ codeBufDecode d1 = buf'
               /\ carryBuf d1 = carryBuf d /\ carrylen d1 = 0
               /\ state d1 = WS_STATE_DECODING_HEADER_PENDING
               /\ opcode (header d1) = WS_OPCODE_BINARY_FRAME).
  { unfold d1. destruct (_ =? 0); rsimpl; repeat split; auto. }
  clearbody d1. destruct F1 as (F1 & F2 & F3 & F4 & F5 & F6).
  destruct (Z.lt_ge_cases (a + k) H) as [Hlt|Hge].
  - left. split; [exact Hlt|].
    destruct (readHeader_length_pending d1 w' (-1) 0) as (d' & E & G1 & G2 & G3 & G4 & G5).
    + lia.
    + rewrite F1, F2. exact Hsame'.
    + exists d'. split; [exact E|].
      unfold header_phase, sizes_are. rewrite G1, G2, G3, G4, G5, F1, F2, F3.
      repeat split; auto.
  - right. split; [exact Hge|].
    destruct (readHeader_length_complete d1 w' (-1) 0)
      as (d' & E & G1 & G2 & G3 & G4 & G5 & G6 & G7 & G8 & G9).
    + lia.
    + lia.
    + rewrite F1, F2. exact Hsame'.
    + exists d'. rewrite F1 in E. split; [exact E|].
      unfold header_is, sizes_are. rewrite G1, G2, G3, G4, G5, G6, G7, G8, G9, F1, F2, F3.
      repeat split; auto.
Qed.

(** [readAndDecode] on a BINARY frame whose header is complete: the carry
    is put back in front, the socket is read, and the payload step
    follows. *)
Lemma decode_step d w sockRet nInBuf :
  state d = WS_STATE_DECODING_DATA_NEEDED ->
  header_is H L c WS_OPCODE_BINARY_FRAME d -> sizes_are cap d ->
  0 <= carrylen d <= 3 -> 0 <= nInBuf -> (carrylen d = 0 \/ nInBuf = 0) ->
  H + nInBuf <= 14 ->
  0 <= nReadPayload d - (carrylen d + nInBuf) ->
  (nReadPayload d - (carrylen d + nInBuf)) mod 4 = 0 ->
  nReadPayload d <= L ->
  writePos d = H + nInBuf ->
  same_bytes (codeBufDecode d) H S (H + (nReadPayload d - (carrylen d + nInBuf))) nInBuf ->
  same_bytes (carryBuf d) 0 S (H + (nReadPayload d - (carrylen d + nInBuf))) (carrylen d) ->
  stream_at S (H + nReadPayload d) w ->
  exists s dst' d' r w' m n,
    readAndDecode b64_pton (mk_ctx d b) (repeat 0 (Z.to_nat len)) len w sockRet nInBuf
    = (s, dst', mk_ctx d' b, r, w')
    /\ 0 <= m /\ 0 <= n /\ (nReadPayload d < L -> 0 < n)
    /\ delivered r dst' = buf_read u (nReadPayload d - (carrylen d + nInBuf)) m
    /\ frame_inv S u cap H L c (nReadPayload d - (carrylen d + nInBuf) + m)
         (2 * (L - nReadPayload d) + carrylen d + nInBuf - n - m)
         (finish s d') w'.
Proof.
  intros Hst Hhd Hsz Hcl Hn Hexcl H14 Hs0 Hmod HprL Hwp Hsb Hsc Hstr.
  pose proof Hhd as (Hh1 & Hh2 & Hh3 & Hh4). pose proof Hsz as (Hsz1 & Hsz2).
  unfold readAndDecode. cbn zeta. cbn [dec base64].
  set (buf1 := memcpy (codeBufDecode d) (writePos d)
                 (buf_read (carryBuf d) 0 (carrylen d))).
  set (d1 := set_writePos _ (set_codeBufDecode _ d)).
  assert (F : state d1 = WS_STATE_DECODING_DATA_NEEDED /\ header d1 = header d
              /\ codeBufDecode d1 = buf1 /\ carryBuf d1 = carryBuf d
              /\ carrylen d1 = carrylen d /\ nReadPayload d1 = nReadPayload d
              /\ writePos d1 = H + (carrylen d + nInBuf)).
  { unfold d1. rsimpl. repeat split; auto. lia. }
  clearbody d1. destruct F as (F1 & F2 & F3 & F4 & F5 & F6 & F7).
  assert (Hb1 : ARRAYSIZE buf1 = cap).
  { unfold ARRAYSIZE, buf1. rewrite memcpy_length. exact Hsz1. }
  assert (Hsb1 : same_bytes buf1 H S (H + (nReadPayload d - (carrylen d + nInBuf)))
                   (carrylen d + nInBuf)).
  { intros i Hi. unfold buf1. rewrite buf_get_memcpy;
      [| lia | rewrite buf_read_length, Z2Nat.id by lia; unfold ARRAYSIZE in Hsz1; lia].
    rewrite buf_read_length, Z2Nat.id by lia. rewrite Hwp.
    destruct (Z.leb_spec (H + nInBuf) (H + i));
      destruct (Z.ltb_spec (H + i) (H + nInBuf + carrylen d)); cbn [andb]; try lia.
    - rewrite buf_get_buf_read by lia.
      replace (0 + (H + i - (H + nInBuf))) with (0 + (i - nInBuf)) by lia.
      rewrite (Hsc (i - nInBuf)) by lia. f_equal. lia.
    - apply Hsb. lia. }
  unfold remaining. rewrite F2, F3, F6, F7, Hh2, Hb1.
  set (bufsize := cap - (H + (carrylen d + nInBuf)) - 1).
  assert (Hbs : 1 <= bufsize < 2 ^ 31) by (unfold bufsize; lia).
  rewrite (u64_small (L - nReadPayload d)) by lia.
  rewrite (u64_small bufsize) by lia.
  set (nextRead := if L - nReadPayload d >? bufsize then bufsize
                   else s32 (L - nReadPayload d)).
  assert (Hnr : nextRead = Z.min (L - nReadPayload d) bufsize).
  { unfold nextRead. destruct (Z.gtb_spec (L - nReadPayload d) bufsize); [lia|].
    rewrite s32_small by lia. lia. }
  clearbody nextRead.
  destruct (Z.gtb_spec nextRead 0) as [Hpos|Hzero].
  - destruct (stream_at_read S (H + nReadPayload d) nextRead w Hstr)
      as (k & w' & Hk & Hk2 & Hr & Hstr' & He); [lia | lia |].
    rewrite Hr.
    set (d2 := set_codeBufDecode _ d1).
    assert (G : state d2 = WS_STATE_DECODING_DATA_NEEDED /\ header d2 = header d
                /\ codeBufDecode d2
                   = memcpy buf1 (H + (carrylen d + nInBuf))
                       (buf_read S (H + nReadPayload d) k)
                /\ carryBuf d2 = carryBuf d
                /\ carrylen d2 = carrylen d /\ nReadPayload d2 = nReadPayload d
                /\ writePos d2 = H + (carrylen d + nInBuf)).
    { unfold d2. rsimpl. repeat split; auto. }
    clearbody d2. destruct G as (G1 & G2 & G3 & G4 & G5 & G6 & G7).
    destruct (Z.eqb_spec (-1) k); [lia|]. destruct (Z.eqb_spec k 0); [lia|].
    destruct (payload_step d2 w' sockRet nInBuf bufsize k)
      as (s & dst' & d' & r & w'' & m & E & Hm & Hdel & Hinv).
    + exact G1.
    + unfold header_is. rewrite G2. exact Hhd.
    + unfold sizes_are, ARRAYSIZE. rewrite G3, G4, memcpy_length. split; assumption.
    + lia.
    + lia.
    + lia.
    + rewrite G5, G6. exact Hs0.
    + rewrite G5, G6. exact Hmod.
    + lia.
    + rewrite G5, G7. reflexivity.
    + rewrite G5. lia.
    + rewrite G3, G5, G6. intros i Hi. rewrite buf_get_memcpy;
        [| lia | rewrite buf_read_length, Z2Nat.id by lia; unfold ARRAYSIZE in Hb1; lia].
      rewrite buf_read_length, Z2Nat.id by lia.
      destruct (Z.leb_spec (H + (carrylen d + nInBuf)) (H + i));
        destruct (Z.ltb_spec (H + i) (H + (carrylen d + nInBuf) + k)); cbn [andb];
        try lia.
      * rewrite buf_get_buf_read by lia. f_equal. lia.
      * apply Hsb1. lia.
    + rewrite G6. replace (H + (nReadPayload d + k)) with (H + nReadPayload d + k) by lia.
      exact Hstr'.
    + rewrite G5, G6 in *. exists s, dst', d', r, w'', m, k.
      repeat split; try assumption; lia.
  - assert (HpL : nReadPayload d = L) by lia.
    destruct (payload_step d1 w sockRet nInBuf bufsize 0)
      as (s & dst' & d' & r & w'' & m & E & Hm & Hdel & Hinv).
    + exact F1.
    + unfold header_is. rewrite F2. exact Hhd.
    + unfold sizes_are. rewrite F3, F4. split; assumption.
    + lia.
    + lia.
    + lia.
    + rewrite F5, F6. exact Hs0.
    + rewrite F5, F6. exact Hmod.
    + lia.
    + rewrite F5, F7. reflexivity.
    + rewrite F5. lia.
    + rewrite F3, F5, F6. intros i Hi. apply Hsb1. lia.
    + rewrite F6, Z.add_0_r. exact Hstr.
    + rewrite F5, F6 in *. exists s, dst', d', r, w'', m, 0.
      repeat split; try assumption; lia.
Qed.

(** [returnData] on unmasked payload that waits in the buffer. *)
Lemma available_step dl d w :
  payload_phase S u cap H L c dl d w ->
  state d = WS_STATE_DECODING_DATA_AVAILABLE ->
  exists s dst' d' r w' m,
    returnData (repeat 0 (Z.to_nat len)) len d (-1) w = (s, dst', d', r, w')
    /\ 0 < m
    /\ delivered r dst' = buf_read u dl m
    /\ frame_inv S u cap H L c (dl + m)
         (2 * (L - nReadPayload d) + readlen d + carrylen d - m) (finish s d') w'.
Proof.
  intros (_ & Hhd & Hsz & Hwp & Hcl & Hrl & Hdl & Hpr & HprL & Hmod & Hfull & Hsc
          & Hav & _ & Hstr) Hst.
  destruct (Hav Hst) as (Hrl0 & Hrp & Hrpc & Hsu).
  pose proof Hhd as (Hh1 & Hh2 & Hh3 & Hh4). pose proof Hsz as (Hsz1 & Hsz2).
  destruct (returnData_some (repeat 0 (Z.to_nat len)) len d (-1) w Hrl0)
    as (s & d' & E & Erl & Elt & Ege & E1 & E2 & E3 & E4 & E5 & E6 & E7).
  exists s, (memcpy (repeat 0 (Z.to_nat len)) 0
               (buf_read (codeBufDecode d) (readPos d) (Z.min (readlen d) len))),
    d', (Z.min (readlen d) len), w, (Z.min (readlen d) len).
  split; [exact E|]. split; [lia|]. split.
  { rewrite delivered_memcpy by (rewrite ?buf_read_length; lia).
    apply buf_read_ext. intros i Hi. apply Hsu. lia. }
  assert (Hhd' : header_is H L c WS_OPCODE_BINARY_FRAME d')
    by (unfold header_is; rewrite E2; exact Hhd).
  assert (Hsz' : sizes_are cap d') by (unfold sizes_are; rewrite E1, E4; exact Hsz).
  destruct (Z.lt_ge_cases len (readlen d)) as [Hlt|Hge].
  - destruct (Elt Hlt) as (-> & Erp). rewrite finish_available.
    rewrite Z.min_r in * by lia.
    right; left. split.
    + unfold payload_phase. rsimpl. rewrite E3, E5, E6, Erl.
      split; [right; reflexivity|]. split; [exact Hhd'|]. split; [exact Hsz'|].
      split; [exact Hwp|]. split; [exact Hcl|]. split; [lia|]. split; [lia|].
      split; [lia|]. split; [exact HprL|]. split.
      { intros Hx. replace (dl + len + (readlen d - len)) with (dl + readlen d) by lia.
        auto. }
      split; [exact Hfull|]. split.
      { rewrite E4. replace (H + (dl + len) + (readlen d - len)) with (H + dl + readlen d)
          by lia. exact Hsc. }
      split.
      { intros _. rewrite Erp, E1. split; [lia|]. split; [lia|]. split; [lia|].
        intros i Hi. replace (readPos d + len + i) with (readPos d + (len + i)) by lia.
        replace (dl + len + i) with (dl + (len + i)) by lia. apply Hsu. lia. }
      split; [discriminate|]. exact Hstr.
    + rsimpl. rewrite E3, E5, Erl. lia.
  - rewrite (Ege Hge). rewrite Z.min_l in * by lia. unfold remaining.
    rewrite Hh2, u64_small by lia.
    destruct (Z.eqb_spec (L - nReadPayload d) 0) as [Hz|Hnz].
    + right; right. split; [apply finish_complete|].
      assert (Hcl0 : carrylen d = 0) by (apply Hfull; lia).
      split; [|lia].
      apply (stream_at_end S). replace (Z.of_nat (length S)) with (H + nReadPayload d) by lia.
      exact Hstr.
    + rewrite finish_needed. right; left. split.
      * unfold payload_phase. rsimpl. rewrite E3, E5, E6, Erl.
        split; [left; reflexivity|]. split; [exact Hhd'|]. split; [exact Hsz'|].
        split; [exact Hwp|]. split; [exact Hcl|]. split; [lia|]. split; [lia|].
        split; [lia|]. split; [exact HprL|]. split.
        { intros Hx. replace (dl + readlen d + (readlen d - readlen d))
            with (dl + readlen d) by lia. auto. }
        split; [exact Hfull|]. split.
        { rewrite E4. replace (H + (dl + readlen d) + (readlen d - readlen d))
            with (H + dl + readlen d) by lia. exact Hsc. }
        split; [discriminate|]. split; [|exact Hstr]. intros _. lia.
      * rsimpl. rewrite E3, E5, Erl. lia.
Qed.

Lemma frame_inv_bounds dl mu d w :
  frame_inv S u cap H L c dl mu d w -> 0 <= dl <= L /\ 0 <= mu.
Proof.
  intros [(a & Ha & _ & -> & ->) | [(P & ->) | (_ & _ & -> & ->)]]; [lia | | lia].
  destruct P as (_ & _ & _ & _ & Hcl & Hrl & Hdl & Hpr & HprL & _). lia.
Qed.

(** One call of the emulated recv while the frame arrives: the bytes it
    hands over are the next ones of the unmasked payload, and the measure
    goes down. *)
Lemma recv_step dl mu d w :
  frame_inv S u cap H L c dl mu d w ->
  exists r dst' d' w' dl' mu',
    _webSocketsDecode b64_pton (mk_ctx d b) (repeat 0 (Z.to_nat len)) len w
    = (r, dst', mk_ctx d' b, w')
    /\ dl <= dl'
    /\ delivered r dst' = buf_read u dl (dl' - dl)
    /\ frame_inv S u cap H L c dl' mu' d' w'
    /\ mu' <= Z.max 0 (mu - 1).
Proof.
  intros [(a & Ha & P & -> & ->) | [(P & ->) | (Hst & Hso & -> & ->)]].
  - (* the header is arriving *)
    pose proof P as (Hst & _).
    destruct (header_step d w a P Ha) as (k & w' & Hk & Hk14 & HkL & Hstr' & Hcase).
    unfold _webSocketsDecode, decode_switch. cbn zeta. rsimpl. rewrite Hst.
    destruct Hcase as [(Hlt & d' & E & P') | (Hge & d' & E & Hhd & Hsz & Hcl & Hwp & Hpr & Hsb)].
    + rewrite E.
      exists (-1), (repeat 0 (Z.to_nat len)),
        (decode_spor (set_state WS_STATE_DECODING_HEADER_PENDING d')),
        (set_errno EAGAIN w'), 0, (2 * (H + L - (a + k))).
      split; [reflexivity|]. split; [lia|]. split; [reflexivity|]. split; [|lia].
      left. exists (a + k). split; [lia|]. split; [|split; reflexivity].
      destruct P' as (Q1 & Q2 & Q3 & Q4 & Q5 & Q6).
      unfold header_phase, sizes_are, decode_spor. rsimpl. repeat split; auto; apply Q4.
    + rewrite E.
      destruct (decode_step (set_state WS_STATE_DECODING_DATA_NEEDED d') w' (-1) (a + k - H))
        as (s & dst' & d'' & r & w'' & m & n & E' & Hm & Hn & Hn' & Hdel & Hinv);
        rsimpl; rewrite ?Hcl, ?Hpr, ?Hwp; try lia; try assumption; try reflexivity.
      * replace (a + k - H - (0 + (a + k - H))) with 0 by lia. reflexivity.
      * replace (a + k - H - (0 + (a + k - H))) with 0 by lia.
        intros i Hi. replace (H + 0 + i) with (0 + (H + i)) by lia.
        apply (Hsb (H + i)). lia.
      * intros i Hi. lia.
      * replace (H + (a + k - H)) with (a + k) by lia. exact Hstr'.
      * rsimpl. rewrite E'. rewrite Hcl, Hpr in *.
        replace (a + k - H - (0 + (a + k - H))) with 0 in * by lia.
        exists r, dst', (finish s d''), w'', (0 + m),
          (2 * (L - (a + k - H)) + 0 + (a + k - H) - n - m).
        split; [reflexivity|]. split; [lia|]. split.
        { rewrite Hdel. f_equal. lia. }
        split; [exact Hinv|]. lia.
  - (* the payload is arriving *)
    pose proof P as (Hst & Hhd & Hsz & Hwp & Hcl & Hrl & Hdl & Hpr & HprL & Hmod & Hfull
                     & Hsc & Hav & Hne & Hstr).
    unfold _webSocketsDecode, decode_switch. cbn zeta. rsimpl.
    destruct Hst as [Hst|Hst]; rewrite Hst.
    + destruct (Hne Hst) as (Hrl0 & HprLt).
      destruct (decode_step d w (-1) 0)
        as (s & dst' & d'' & r & w'' & m & n & E' & Hm & Hn & Hn' & Hdel & Hinv);
        try lia; try assumption.
      * replace (nReadPayload d - (carrylen d + 0)) with (dl + readlen d) by lia. auto.
      * intros i Hi. lia.
      * replace (H + (nReadPayload d - (carrylen d + 0))) with (H + dl + readlen d) by lia.
        exact Hsc.
      * rewrite E'.
        replace (nReadPayload d - (carrylen d + 0)) with dl in * by lia.
        exists r, dst', (finish s d''), w'', (dl + m),
          (2 * (L - nReadPayload d) + carrylen d + 0 - n - m).
        split; [reflexivity|]. split; [lia|]. split.
        { rewrite Hdel. f_equal. lia. }
        split; [exact Hinv|]. specialize (Hn' HprLt). lia.
    + destruct (available_step dl d w P Hst)
        as (s & dst' & d' & r & w' & m & E & Hm & Hdel & Hinv).
      rewrite E.
      exists r, dst', (finish s d'), w', (dl + m),
        (2 * (L - nReadPayload d) + readlen d + carrylen d - m).
      split; [reflexivity|]. split; [lia|]. split.
      { rewrite Hdel. f_equal. lia. }
      split; [exact Hinv|]. lia.
  - (* the frame is through and the socket is empty *)
    unfold _webSocketsDecode, decode_switch. cbn zeta. rsimpl. rewrite Hst.
    unfold readHeader, lowerRead. rewrite Hso. cbn zeta.
    change (-1 <=? 0) with true. change (-1 =? -1) with true. cbn iota.
    unfold err_cleanup_state, err_cleanup_state_sock_closed.
    eexists (-1), _, _, _, L, 0.
    split; [reflexivity|]. split; [lia|]. split.
    { rewrite Z.sub_diag. reflexivity. }
    split; [|lia]. right; right. unfold decode_spor. rsimpl. auto.
Qed.

(** [calls] calls of the emulated recv in a row hand over what is left of
    the unmasked payload, once [calls] is at least the measure. *)
Lemma recv_loop_frame (calls : nat) : forall dl mu d w,
  frame_inv S u cap H L c dl mu d w -> mu <= Z.of_nat calls ->
  recv_output b64_pton calls (mk_ctx d b) len w = buf_read u dl (L - dl).
Proof.
  unfold recv_output.
  induction calls as [|k IH]; intros dl mu d w Hinv Hmu.
  - pose proof (frame_inv_bounds _ _ _ _ Hinv) as (Hdl & Hmu0).
    assert (mu = 0) by lia. subst mu. cbn [recv_loop fst].
    destruct Hinv as [(a & Ha & _ & _ & Hm) | [(P & Hm) | (_ & _ & -> & _)]].
    + lia.
    + destruct P as (Hst & _ & _ & _ & Hcl & Hrl & _ & Hpr & HprL & _ & _ & _ & Hav & Hne & _).
      destruct Hst as [Hst|Hst]; [destruct (Hne Hst) | destruct (Hav Hst)]; lia.
    + rewrite Z.sub_diag. reflexivity.
  - pose proof (frame_inv_bounds _ _ _ _ Hinv) as (Hdl & Hmu0).
    destruct (recv_step dl mu d w Hinv)
      as (r & dst' & d' & w' & dl' & mu' & E & Hle & Hdel & Hinv' & Hmu').
    pose proof (frame_inv_bounds _ _ _ _ Hinv') as (Hdl' & Hmu0').
    cbn [recv_loop]. rewrite E.
    specialize (IH dl' mu' d' w' Hinv' ltac:(lia)).
    destruct (recv_loop b64_pton k (mk_ctx d' b) len w') as [[out ctx'] w''].
    cbn [fst] in *. rewrite Hdel, IH.
    replace (L - dl) with ((dl' - dl) + (L - dl')) by lia.
    rewrite buf_read_app by lia. do 2 f_equal. lia.
Qed.

End Frame.


(** ** A BINARY frame, end to end *)

Lemma lxor_is_byte (x y : Z) : is_byte x -> is_byte y -> is_byte (Z.lxor x y).
Proof.
  unfold is_byte. intros Hx Hy.
  assert (H0 : 0 <= Z.lxor x y) by (apply Z.lxor_nonneg; lia).
  split; [exact H0|].
  destruct (Z.eq_dec (Z.lxor x y) 0) as [E|E]; [lia|].
  change 256 with (2 ^ 8). apply Z.log2_lt_pow2; [lia|].
  assert (B : forall z, 0 <= z < 256 -> Z.log2 z < 8).
  { intros z Hz. destruct (Z.eq_dec z 0) as [->|Hn]; [reflexivity|].
    apply Z.log2_lt_pow2; [lia|]. change (2 ^ 8) with 256. lia. }
  pose proof (Z.log2_lxor x y ltac:(lia) ltac:(lia)).
  pose proof (B x Hx). pose proof (B y Hy). lia.
Qed.

Lemma xor_mask_from_is_byte (c l : list Z) : forall j,
  Forall is_byte c -> Forall is_byte l -> Forall is_byte (xor_mask_from c j l).
Proof.
  induction l as [|x t IH]; intros j Hc Hl; cbn [xor_mask_from]; [constructor|].
  inversion Hl; subst. constructor; [|apply IH; assumption].
  apply lxor_is_byte; [assumption | apply is_byte_buf_get; assumption].
Qed.

(** Masking twice with the same key gives the payload back. *)
Lemma xor_mask_from_involutive (c l : list Z) : forall j,
  xor_mask_from c j (xor_mask_from c j l) = l.
Proof.
  induction l as [|x t IH]; intros j; cbn [xor_mask_from]; [reflexivity|].
  rewrite IH. f_equal. rewrite Z.lxor_assoc, Z.lxor_nilpotent. apply Z.lxor_0_r.
Qed.

Lemma frame_header_length (fin_bit opc : Z) (c : list Z) (L : Z) :
  length c = 4%nat ->
  Z.of_nat (length (frame_header fin_bit opc c L))
  = if L <? 126 then 6 else if L <? 65536 then 8 else 14.
Proof.
  intros Hc. unfold frame_header.
  destruct (L <? 126); [|destruct (L <? 65536)];
    rewrite !length_app; cbn [length]; rewrite ?be_bytes_length, Hc; reflexivity.
Qed.

Lemma frame_header_is_byte (fin_bit : Z) (c : list Z) (L : Z) :
  fin_bit = 0 \/ fin_bit = 1 -> Forall is_byte c -> 0 <= L ->
  Forall is_byte (frame_header fin_bit WS_OPCODE_BINARY_FRAME c L).
Proof.
  intros Hf Hc HL. unfold frame_header.
  apply Forall_app. split.
  { constructor; [|constructor]. unfold is_byte, WS_OPCODE_BINARY_FRAME. lia. }
  apply Forall_app. split; [|exact Hc].
  destruct (Z.ltb_spec L 126); [|destruct (Z.ltb_spec L 65536)].
  - constructor; [|constructor]. unfold is_byte. lia.
  - constructor; [unfold is_byte; lia | apply be_bytes_is_byte].
  - constructor; [unfold is_byte; lia | apply be_bytes_is_byte].
Qed.

Lemma client_frame_layout (fin_bit c0 c1 c2 c3 : Z) (q : list Z) (L : Z) :
  fin_bit = 0 \/ fin_bit = 1 -> 0 <= L < 2 ^ 63 ->
  header_layout
    (frame_header fin_bit WS_OPCODE_BINARY_FRAME [c0; c1; c2; c3] L ++ q)
    (if L <? 126 then 6 else if L <? 65536 then 8 else 14) L [c0; c1; c2; c3] fin_bit.
Proof.
  intros Hf HL. unfold header_layout, frame_header.
  split; [exact Hf|]. split; [reflexivity|].
  destruct (Z.ltb_spec L 126); [|destruct (Z.ltb_spec L 65536)].
  - left. repeat split; try lia; reflexivity.
  - right; left. repeat split; try lia; try reflexivity.
    transitivity (WS_NTOH (be_bytes 2 L)); [reflexivity|].
    apply WS_NTOH_be_bytes. change (256 ^ Z.of_nat 2) with 65536. lia.
  - right; right. repeat split; try lia; try reflexivity.
    transitivity (WS_NTOH (be_bytes 8 L)); [reflexivity|].
    apply WS_NTOH_be_bytes. change (256 ^ Z.of_nat 8) with (2 ^ 64). lia.
Qed.

Lemma new_session_header_phase (S : list Z) (cap : nat) (ls : list (list Z))
    (e : errno_t) (b64 : bool) :
  concat ls = S ->
  header_phase S (Z.of_nat cap) 0 (dec (new_session cap b64)) (mk_world (chunks ls) e).
Proof.
  intros Hc. unfold header_phase, new_session, calloc_dec, sizes_are, ARRAYSIZE. rsimpl.
  rewrite repeat_length. repeat split.
  - intros i Hi. lia.
  - exists ls. split; [reflexivity|]. exact Hc.
Qed.

(** X19.  A masked BINARY frame that has a new connection to itself
    (nothing follows it on the socket, and no read fails while bytes of
    it are outstanding), split over the socket reads in any way, is handed
    to the caller of the emulated recv as its payload before masking:
    what the decoder does with 32-bit words, tail bytes and the carry
    buffer is the per-byte XOR with [mask[j % 4]] of the bytes received.
    This holds for every payload length below 2^63 (so for 0, 1, 2, 3, 4,
    5, 125, 126, 127, 65535, 65536 and 100000), for a decode buffer of at
    least 19 bytes, and once the caller has called often enough. *)
Theorem masked_binary_frame_alone_is_unmasked
    (b64_pton : list Z -> Z -> Z * list Z) (fin_bit : Z) (c payload : list Z)
    (ls : list (list Z)) (cap : nat) (len : Z) (b64 : bool) (e : errno_t)
    (calls : nat) :
  fin_bit = 0 \/ fin_bit = 1 ->
  length c = 4%nat -> Forall is_byte c -> Forall is_byte payload ->
  Z.of_nat (length payload) < 2 ^ 63 ->
  19 <= Z.of_nat cap < 2 ^ 31 -> 0 < len ->
  concat ls = client_frame fin_bit WS_OPCODE_BINARY_FRAME c payload ->
  2 * Z.of_nat (length (concat ls)) <= Z.of_nat calls ->
  recv_output b64_pton calls (new_session cap b64) len (mk_world (chunks ls) e)
  = xor_mask c (xor_mask c payload)
  /\ xor_mask c (xor_mask c payload) = payload.
Proof.
  intros Hf Hc4 Hcb Hpb HL Hcap Hlen Hls Hcalls.
  split; [|apply xor_mask_from_involutive].
  destruct c as [|c0 [|c1 [|c2 [|c3 [|? ?]]]]]; try discriminate Hc4.
  inversion Hcb as [|? ? Hc0 Hcb1]; subst.
  inversion Hcb1 as [|? ? Hc1 Hcb2]; subst.
  inversion Hcb2 as [|? ? Hc2 Hcb3]; subst.
  inversion Hcb3 as [|? ? Hc3 _]; subst.
  set (L := Z.of_nat (length payload)) in *.
  set (S := client_frame fin_bit WS_OPCODE_BINARY_FRAME [c0; c1; c2; c3] payload) in *.
  set (H := if L <? 126 then 6 else if L <? 65536 then 8 else 14).
  assert (HH : 6 <= H <= 14)
    by (unfold H; destruct (L <? 126); [|destruct (L <? 65536)]; lia).
  assert (Hhl : Z.of_nat (length (frame_header fin_bit WS_OPCODE_BINARY_FRAME
                                    [c0; c1; c2; c3] L)) = H)
    by (apply frame_header_length; reflexivity).
  assert (Hxl : Z.of_nat (length (xor_mask [c0; c1; c2; c3] payload)) = L)
    by (unfold xor_mask; rewrite xor_mask_from_length; reflexivity).
  assert (HSl : Z.of_nat (length S) = H + L).
  { unfold S, client_frame. fold L. rewrite length_app. lia. }
  assert (Hskip : skipn (Z.to_nat H) S = xor_mask [c0; c1; c2; c3] payload).
  { unfold S, client_frame. fold L. rewrite skipn_app.
    rewrite skipn_all2 by lia.
    replace (Z.to_nat H - length _)%nat with 0%nat by lia. reflexivity. }
  pose proof (recv_loop_frame b64_pton c0 c1 c2 c3 S H L (Z.of_nat cap) len b64 fin_bit
                Hc0 Hc1 Hc2 Hc3) as R.
  rewrite Hskip in R.
  unfold new_session in *.
  rewrite (R ltac:(unfold S, client_frame; apply Forall_app; split;
                   [apply frame_header_is_byte; [assumption | assumption | lia]
                   | apply xor_mask_from_is_byte; assumption])
             HSl ltac:(lia) HH Hcap Hlen
             ltac:(unfold S, client_frame; fold L; apply client_frame_layout; [assumption | lia])
             calls 0 (2 * (H + L))).
  - rewrite Z.sub_0_r.
    replace L with (Z.of_nat (length (xor_mask [c0; c1; c2; c3]
                                        (xor_mask [c0; c1; c2; c3] payload))));
      [apply buf_read_all|].
    unfold xor_mask. rewrite !xor_mask_from_length. reflexivity.
  - left. exists 0. split; [lia|]. split; [|split; [reflexivity | lia]].
    apply (new_session_header_phase S cap ls e b64). exact Hls.
  - rewrite Hls in Hcalls. fold S in Hcalls. lia.
Qed.

Lemma masked_binary_frame_alone_is_unmasked_witness :
  recv_output b64_pton_none 40 (new_session 32 false) 3
    (mk_world (chunks [[0x82; 0x85; 0x37]; [0xFA; 0x21; 0x3D; 0x7F; 0x9F; 0x4D]; [0x51; 0x58]])
       (EOTHER 0))
  = xor_mask [0x37; 0xFA; 0x21; 0x3D] (xor_mask [0x37; 0xFA; 0x21; 0x3D] [72; 101; 108; 108; 111])
  /\ xor_mask [0x37; 0xFA; 0x21; 0x3D] (xor_mask [0x37; 0xFA; 0x21; 0x3D] [72; 101; 108; 108; 111])
     = [72; 101; 108; 108; 111].
Proof.
  apply (masked_binary_frame_alone_is_unmasked b64_pton_none 1 [0x37; 0xFA; 0x21; 0x3D]
           [72; 101; 108; 108; 111]).
  - right; reflexivity.
  - reflexivity.
  - repeat constructor; unfold is_byte; lia.
  - repeat constructor; unfold is_byte; lia.
  - vm_compute; reflexivity.
  - lia.
  - lia.
  - reflexivity.
  - vm_compute. discriminate.
Defined.


(** ** The Base64 flag *)

Section Flag.

Variable b64_pton : list Z -> Z -> Z * list Z.

Lemma readAndDecode_payload_flag d b1 b2 dst len w sr ni bs n :
  readAndDecode_payload b64_pton (mk_ctx d b2) dst len w sr ni bs n
  = let '(s, dst', c, r, w') :=
      readAndDecode_payload b64_pton (mk_ctx d b1) dst len w sr ni bs n in
    (s, dst', mk_ctx (dec c) b2, r, w').
Proof.
  unfold readAndDecode_payload. cbn zeta. cbn [dec base64].
  repeat break_if; reflexivity.
Qed.

Lemma readAndDecode_flag d b1 b2 dst len w sr ni :
  readAndDecode b64_pton (mk_ctx d b2) dst len w sr ni
  = let '(s, dst', c, r, w') := readAndDecode b64_pton (mk_ctx d b1) dst len w sr ni in
    (s, dst', mk_ctx (dec c) b2, r, w').
Proof.
  unfold readAndDecode. cbn zeta. cbn [dec base64].
  repeat match goal with
  | |- context [lowerRead ?a ?b] => destruct (lowerRead a b) as [[? ?] ?]; cbn beta iota
  | |- context [if ?c then _ else _] => destruct c
  end; try reflexivity;
    rewrite (readAndDecode_payload_flag _ b1 b2);
    destruct (readAndDecode_payload b64_pton _ _ _ _ _ _ _ _) as [[[[s2 dst2] c2] r2] w2];
    reflexivity.
Qed.

Lemma decode_switch_flag d b1 b2 dst len w :
  decode_switch b64_pton (mk_ctx d b2) dst len w
  = let '(r, dst', c, w') := decode_switch b64_pton (mk_ctx d b1) dst len w in
    (r, dst', mk_ctx (dec c) b2, w').
Proof.
  unfold decode_switch. cbn zeta. cbn [dec base64].
  destruct (state d); try reflexivity;
    try (destruct (readHeader d w (-1) 0) as [[[[s d1] w1] r1] n1];
         destruct s; try reflexivity);
    try (rewrite (readAndDecode_flag _ b1 b2);
         destruct (readAndDecode b64_pton _ _ _ _ _ _) as [[[[s2 dst2] c2] r2] w2];
         reflexivity).
  all: destruct (returnData _ _ _ _ _) as [[[[s2 dst2] c2] r2] w2]; reflexivity.
Qed.

Lemma webSocketsDecode_flag d b1 b2 dst len w :
  _webSocketsDecode b64_pton (mk_ctx d b2) dst len w
  = let '(r, dst', c, w') := _webSocketsDecode b64_pton (mk_ctx d b1) dst len w in
    (r, dst', mk_ctx (dec c) b2, w').
Proof.
  unfold _webSocketsDecode. rewrite (decode_switch_flag d b1 b2).
  destruct (decode_switch b64_pton _ _ _ _) as [[[r dst'] c] w']. reflexivity.
Qed.

End Flag.

(** ** Chunking *)

(** C2.  Three one-byte BINARY frames in a row, fed byte by byte, come
    out as their three payload bytes; fed in one chunk, the header read of
    the first frame takes 14 bytes where the header has 6, the 8 bytes
    over are counted as payload of a frame that has 1, the count of what
    remains wraps around, and the emulated recv hands 12 bytes to the
    caller: the first payload byte and then bytes of the frames behind,
    headers included. *)
Theorem C2_one_chunk_differs_from_bytewise :
  recv_output b64_pton_none 40 (new_session 64 false) 100
    (socket_with (bytewise three_short_frames)) = [97; 98; 99]
  /\ recv_output b64_pton_none 40 (new_session 64 false) 100
       (socket_with (one_chunk three_short_frames))
     = [97; 128; 130; 5; 3; 1; 7; 103; 131; 131; 2; 6]
  /\ (let '(r, _, c, w) :=
        _webSocketsDecode b64_pton_none (new_session 64 false) (repeat 0 100%nat) 100
          (socket_with (one_chunk three_short_frames)) in
      r = 12 /\ sock w = [] /\ payloadLen (header (dec c)) = 1
      /\ nReadPayload (dec c) = 15 /\ remaining (dec c) = 2 ^ 64 - 14).
Proof. vm_compute. repeat split. Qed.

(** ** Witnesses and counterexamples *)

(** Against C3: the call that ends in ERR (a frame without mask; -1,
    EPROTO) resets the decoder, and the next call delivers the payload of
    the frame that follows. *)
Lemma C3_recv_after_error_delivers_data :
  let w0 := socket_with (chunks [frame_unmasked; frame_hello]) in
  let '(_, _, sw, _) :=
    decode_switch b64_pton_none (new_session 32 false) (repeat 0 8%nat) 8 w0 in
  let '(r1, _, c1, w1) :=
    _webSocketsDecode b64_pton_none (new_session 32 false) (repeat 0 8%nat) 8 w0 in
  let '(r2, dst2, _, _) := _webSocketsDecode b64_pton_none c1 (repeat 0 8%nat) 8 w1 in
  state (dec sw) = WS_STATE_ERR /\ r1 = -1 /\ errno w1 = EPROTO
  /\ r2 = 5 /\ firstn 5 dst2 = [72; 101; 108; 108; 111].
Proof. vm_compute. repeat split. Qed.

(** Against C4: a session without the Base64 flag receives a TEXT frame
    with the payload QUJD, and the caller gets ABC, which is that payload
    decoded. *)
Lemma C4_text_is_decoded_without_flag :
  base64 (new_session 64 false) = false
  /\ xor_mask [1; 2; 3; 4] (skipn 6 frame_text_QUJD) = bytes_of_string "QUJD"
  /\ recv_output b64_pton_ref 1 (new_session 64 false) 100
       (socket_with (one_chunk frame_text_QUJD)) = bytes_of_string "ABC".
Proof. vm_compute. repeat split. Qed.

(** Against C5: a BINARY frame with FIN clear opens a fragmented message;
    the fresh BINARY frame that follows is decoded and its payload
    delivered, with no error. *)
Lemma C5_fresh_frame_while_fragment_open :
  let w0 := socket_with (chunks [frame_fragment_a; frame_final_b]) in
  let '(r1, dst1, c1, w1) :=
    _webSocketsDecode b64_pton_none (new_session 32 false) (repeat 0 8%nat) 8 w0 in
  let '(r2, dst2, _, w2) := _webSocketsDecode b64_pton_none c1 (repeat 0 8%nat) 8 w1 in
  r1 = 1 /\ firstn 1 dst1 = [97]
  /\ continuation_opcode (dec c1) = WS_OPCODE_BINARY_FRAME
  /\ r2 = 1 /\ firstn 1 dst2 = [98] /\ errno w2 = EOTHER 0.
Proof. vm_compute. repeat split. Qed.

Lemma C7_non_minimal_length_is_EPROTO_witness :
  exists wsctx' w',
    _webSocketsDecode b64_pton_none (new_session 32 false) [7; 7; 7; 7] 4
      (socket_with (one_chunk frame_non_minimal))
    = (-1, [7; 7; 7; 7], wsctx', w')
    /\ errno w' = EPROTO
    /\ state (dec wsctx') = WS_STATE_DECODING_HEADER_PENDING.
Proof.
  apply (C7_non_minimal_length_is_EPROTO b64_pton_none (new_session 32 false) [7; 7; 7; 7] 4
           (socket_with (one_chunk frame_non_minimal)) 13 frame_non_minimal
           (socket_with [])).
  - reflexivity.
  - reflexivity.
  - lia.
  - left. vm_compute. repeat split; discriminate.
Defined.


Lemma C9_carrylen_in_range_witness :
  let '(_, c, _) :=
    recv_loop b64_pton_none 9 (new_session 32 false) 4
      (socket_with (bytewise frame_hello)) in
  0 <= carrylen (dec c) <= 3.
Proof.
  assert (H : 0 <= carrylen (dec (new_session 32 false)) <= 3)
    by (vm_compute; split; discriminate).
  pose proof (C9_carrylen_in_range b64_pton_none (new_session 32 false) [7; 7; 7; 7] 4
                (socket_with (bytewise frame_hello)) (-1) 0 25 0 9 32 false H) as P.
  destruct P as (_ & _ & P & _). exact P.
Defined.

Lemma C10_recv_writes_only_what_it_returns_witness :
  let res :=
    _webSocketsDecode b64_pton_none (new_session 32 false) [7; 7; 7; 7; 7; 7; 7; 7] 8
      (socket_with (one_chunk frame_hello)) in
  -1 <= 5 <= 8
  /\ (5 <= 0 -> snd (fst (fst res)) = [7; 7; 7; 7; 7; 7; 7; 7])
  /\ (0 < 5 ->
      exists bytes,
        length bytes = Z.to_nat 5
        /\ snd (fst (fst res)) = bytes ++ skipn (Z.to_nat 5) [7; 7; 7; 7; 7; 7; 7; 7]).
Proof.
  cbv zeta. set (res := _webSocketsDecode _ _ _ _ _).
  apply (C10_recv_writes_only_what_it_returns b64_pton_none (new_session 32 false)
           [7; 7; 7; 7; 7; 7; 7; 7] 8 (socket_with (one_chunk frame_hello))
           5 (snd (fst (fst res))) (snd (fst res)) (snd res)).
  - vm_compute. split; discriminate.
  - vm_compute. reflexivity.
Defined.

(** ** The Flash policy request *)

(** C6.  On a first peeked byte [<] the dispatch makes one call of
    [rfbWriteExact], on the policy literal and with the length
    [SZ_FLASH_POLICY_RESPONSE] = 93, and rejects the connection; no
    session is created.  The literal has 89 characters, and the array it
    denotes 90 bytes: the call asks for the 89 characters (the last is the
    newline), the terminating NUL, and 3 bytes past the end of the
    array. *)
Theorem C6_flash_policy_write_is_93_bytes_of_90
    (webSocketsHandshake : rfbClient -> string -> bool * rfbClient)
    (cl : rfbClient) (p : peek_result) (ps : list peek_result) (rest : list Z) :
  peeks cl = p :: ps -> 0 < peek_ret p -> peek_buf p = 60 :: rest ->
  webSocketsCheck webSocketsHandshake cl
  = (false,
     mk_client ps (ssl_init_ok cl)
       (written cl ++ [WriteExact (literal FLASH_POLICY_RESPONSE) SZ_FLASH_POLICY_RESPONSE])
       (wsctx_of cl) (wspath cl))
  /\ SZ_FLASH_POLICY_RESPONSE = 93
  /\ String.length FLASH_POLICY_RESPONSE = 89%nat
  /\ length (literal FLASH_POLICY_RESPONSE) = 90%nat
  /\ bytes_taken (WriteExact (literal FLASH_POLICY_RESPONSE) SZ_FLASH_POLICY_RESPONSE)
     = map Some (bytes_of_string FLASH_POLICY_RESPONSE) ++ [Some 0; None; None; None]
  /\ last (bytes_of_string FLASH_POLICY_RESPONSE) 0 = 10.
Proof.
  intros Hp Hret Hbuf. split; [|vm_compute; repeat split].
  unfold webSocketsCheck, rfbPeekExactTimeout. rewrite Hp.
  destruct (Z.ltb_spec (peek_ret p) 0); [lia|]. cbn [andb].
  destruct (Z.leb_spec (peek_ret p) 0); [lia|].
  destruct (Z.gtb_spec (peek_ret p) 0); [|lia].
  rewrite Hbuf. reflexivity.
Qed.

Lemma C6_flash_policy_write_is_93_bytes_of_90_witness :
  webSocketsCheck no_handshake flash_probe
  = (false,
     mk_client [] true
       [WriteExact (literal FLASH_POLICY_RESPONSE) SZ_FLASH_POLICY_RESPONSE] None None)
  /\ SZ_FLASH_POLICY_RESPONSE = 93
  /\ String.length FLASH_POLICY_RESPONSE = 89%nat
  /\ length (literal FLASH_POLICY_RESPONSE) = 90%nat
  /\ bytes_taken (WriteExact (literal FLASH_POLICY_RESPONSE) SZ_FLASH_POLICY_RESPONSE)
     = map Some (bytes_of_string FLASH_POLICY_RESPONSE) ++ [Some 0; None; None; None]
  /\ last (bytes_of_string FLASH_POLICY_RESPONSE) 0 = 10.
Proof.
  apply (C6_flash_policy_write_is_93_bytes_of_90 no_handshake flash_probe
           (mk_peek 4 (EOTHER 0) (bytes_of_string "<pol")) [] (bytes_of_string "pol")).
  - reflexivity.
  - reflexivity.
  - reflexivity.
Defined.


(** ** Further properties of the decoder *)

Section DecoderEdges.

Variable b64_pton : list Z -> Z -> Z * list Z.

(** How [readAndDecode] chooses the length of its read. *)
Lemma readAndDecode_reads d b dst len w sockRet nInBuf :
  0 < remaining d ->
  0 < ARRAYSIZE (codeBufDecode d) - (writePos d + carrylen d) - 1 < 2 ^ 31 ->
  exists nextRead d1,
    0 < nextRead
    /\ readAndDecode b64_pton (mk_ctx d b) dst len w sockRet nInBuf
       = (let '(n, bytes, w1) := lowerRead w nextRead in
          let d2 := set_codeBufDecode (memcpy (codeBufDecode d1) (writePos d1) bytes) d1 in
          if -1 =? n then (WS_STATE_ERR, dst, mk_ctx d2 b, -1, w1)
          else if n =? 0 then (WS_STATE_ERR, dst, mk_ctx d2 b, 0, w1)
          else readAndDecode_payload b64_pton (mk_ctx d2 b) dst len w1 sockRet nInBuf
                 (ARRAYSIZE (codeBufDecode d) - (writePos d + carrylen d) - 1) n).
Proof.
  intros Hrem Hbs. unfold readAndDecode. cbn zeta. rsimpl.
  set (bs := ARRAYSIZE _ - _ - 1).
  assert (Hbs' : bs = ARRAYSIZE (codeBufDecode d) - (writePos d + carrylen d) - 1).
  { unfold bs, ARRAYSIZE. rewrite memcpy_length. reflexivity. }
  clearbody bs. subst bs.
  set (bs := ARRAYSIZE (codeBufDecode d) - (writePos d + carrylen d) - 1) in *.
  set (d1 := set_writePos _ _).
  assert (R : remaining d1 = remaining d) by reflexivity.
  rewrite R. rewrite (u64_small bs) by lia.
  assert (Hr64 : 0 <= remaining d < 2 ^ 64)
    by (unfold remaining, u64; apply Z.mod_pos_bound; lia).
  set (nextRead := if remaining d >? bs then bs else s32 (remaining d)).
  assert (Hnr : 0 < nextRead).
  { unfold nextRead. destruct (Z.gtb_spec (remaining d) bs); [lia|].
    rewrite s32_small by lia. lia. }
  exists nextRead, d1. split; [exact Hnr|].
  destruct (Z.gtb_spec nextRead 0); [|lia].
  destruct (lowerRead w nextRead) as [[n bytes] w1]. reflexivity.
Qed.

(** X1.  The peer has closed the connection (the socket read returns 0):
    a call that waits for a header, or for payload that is still
    outstanding, returns 0, leaves the destination as it was, and resets
    the decoder completely. *)
Theorem recv_returns_0_when_peer_closed wsctx dst len w s :
  sock w = Closed :: s ->
  state (dec wsctx) = WS_STATE_DECODING_HEADER_PENDING
  \/ ((state (dec wsctx) = WS_STATE_DECODING_DATA_NEEDED
       \/ state (dec wsctx) = WS_STATE_DECODING_CLOSE_REASON_PENDING)
      /\ 0 < remaining (dec wsctx)
      /\ 0 < ARRAYSIZE (codeBufDecode (dec wsctx))
             - (writePos (dec wsctx) + carrylen (dec wsctx)) - 1 < 2 ^ 31) ->
  exists wsctx',
    _webSocketsDecode b64_pton wsctx dst len w = (0, dst, wsctx', mk_world s (errno w))
    /\ state (dec wsctx') = WS_STATE_DECODING_HEADER_PENDING
    /\ nDone (header (dec wsctx')) = 0 /\ nReadPayload (dec wsctx') = 0
    /\ readlen (dec wsctx') = 0 /\ carrylen (dec wsctx') = 0
    /\ continuation_opcode (dec wsctx') = WS_OPCODE_INVALID.
Proof.
  intros Hs Hst. destruct wsctx as [d b]. rsimpl.
  assert (LR : forall n, lowerRead w n = (0, [], mk_world s (errno w)))
    by (intros n; unfold lowerRead; rewrite Hs; reflexivity).
  unfold _webSocketsDecode, decode_switch. cbn zeta. rsimpl.
  destruct Hst as [Hst | ([Hst|Hst] & Hrem & Hbs)]; rewrite Hst.
  - unfold readHeader. cbn zeta. rewrite LR. rsimpl.
    change (0 <=? 0) with true. change (-1 =? 0) with false. cbn iota.
    unfold err_cleanup_state_sock_closed.
    eexists. split; [reflexivity|]. unfold decode_spor. rsimpl. auto 10.
  - destruct (readAndDecode_reads d b dst len w (-1) 0 Hrem Hbs) as (nr & d1 & Hnr & E).
    rewrite E, LR. change (-1 =? 0) with false. change (0 =? 0) with true. cbn iota.
    eexists. split; [reflexivity|]. unfold decode_spor. rsimpl. auto 10.
  - destruct (readAndDecode_reads d b dst len w (-1) 0 Hrem Hbs) as (nr & d1 & Hnr & E).
    rewrite E, LR. change (-1 =? 0) with false. change (0 =? 0) with true. cbn iota.
    eexists. split; [reflexivity|]. unfold decode_spor. rsimpl. auto 10.
Qed.

(** X2.  The read for a header fails (as it does with EAGAIN on a socket
    that has nothing to deliver): the call returns -1 with the errno of the
    read, leaves the destination as it was, and resets the decoder
    completely, so the bytes of a header received so far are dropped. *)
Theorem recv_failed_header_read_drops_header wsctx dst len w e s :
  state (dec wsctx) = WS_STATE_DECODING_HEADER_PENDING ->
  (sock w = [] /\ e = EAGAIN /\ s = []) \/ sock w = Fails e :: s ->
  exists wsctx',
    _webSocketsDecode b64_pton wsctx dst len w = (-1, dst, wsctx', mk_world s e)
    /\ state (dec wsctx') = WS_STATE_DECODING_HEADER_PENDING
    /\ nDone (header (dec wsctx')) = 0
    /\ continuation_opcode (dec wsctx') = WS_OPCODE_INVALID.
Proof.
  intros Hst Hs. destruct wsctx as [d b]. rsimpl.
  assert (LR : forall n, lowerRead w n = (-1, [], mk_world s e)).
  { intros n. unfold lowerRead, set_errno.
    destruct Hs as [(E1 & -> & ->) | E1]; rewrite E1; reflexivity. }
  unfold _webSocketsDecode, decode_switch. cbn zeta. rsimpl. rewrite Hst.
  unfold readHeader. cbn zeta. rewrite LR. rsimpl.
  change (-1 <=? 0) with true. change (-1 =? -1) with true. cbn iota.
  unfold err_cleanup_state, err_cleanup_state_sock_closed.
  eexists. split; [reflexivity|]. unfold decode_spor. rsimpl. auto.
Qed.

(** [readHeader] once its read has delivered and two bytes are there. *)
Lemma readHeader_parse d w sr np ret bytes w1 :
  lowerRead w (WSHLENMAX - nDone (header d)) = (ret, bytes, w1) ->
  0 < ret -> 2 <= nDone (header d) + ret ->
  let buf := memcpy (codeBufDecode d) (nDone (header d)) bytes in
  let b0 := buf_get buf 0 in
  let opc := Z.land b0 15 in
  let fin_bit := Z.shiftr (Z.land b0 128) 7 in
  let d1 :=
    upd_header (set_fin fin_bit)
      (upd_header (set_opcode opc)
         (upd_header (set_data 0)
            (upd_header (set_nDone (nDone (header d) + ret))
               (set_codeBufDecode buf d)))) in
  readHeader d w sr np
  = if negb (0 =? Z.land opc 8) then
      if fin_bit =? 0 then err_cleanup_state d1 (set_errno EPROTO w1) np
      else readHeader_length d1 w1 sr np
    else if opc =? WS_OPCODE_CONTINUATION then
      if continuation_opcode d =? WS_OPCODE_INVALID
      then err_cleanup_state d1 (set_errno EPROTO w1) np
      else readHeader_length (upd_header (set_opcode (continuation_opcode d)) d1) w1 sr np
    else
      readHeader_length
        (if fin_bit =? 0 then set_continuation_opcode opc d1
         else set_continuation_opcode WS_OPCODE_INVALID d1) w1 sr np.
Proof.
  intros Hr Hpos H2. cbn zeta. unfold readHeader. cbn zeta. rewrite Hr. rsimpl.
  destruct (Z.leb_spec ret 0); [lia|].
  destruct (Z.ltb_spec (nDone (header d) + ret) 2); [lia|].
  unfold isControlFrame. rsimpl. reflexivity.
Qed.

Lemma readHeader_length_unmasked d w sr np :
  Z.land (buf_get (codeBufDecode d) 1) 128 = 0 ->
  exists d',
    readHeader_length d w sr np
    = (WS_STATE_ERR, wsDecodeCleanupComplete d', set_errno EPROTO w, -1, np).
Proof.
  intros H. unfold readHeader_length. cbn zeta. rewrite H.
  change (0 =? 0) with true. cbn iota. eexists. reflexivity.
Qed.

Lemma recv_of_header_error d b dst len w d' w' :
  state d = WS_STATE_DECODING_HEADER_PENDING ->
  readHeader d w (-1) 0 = (WS_STATE_ERR, wsDecodeCleanupComplete d', w', -1, 0) ->
  exists wsctx',
    _webSocketsDecode b64_pton (mk_ctx d b) dst len w = (-1, dst, wsctx', w')
    /\ state (dec wsctx') = WS_STATE_DECODING_HEADER_PENDING
    /\ nDone (header (dec wsctx')) = 0
    /\ continuation_opcode (dec wsctx') = WS_OPCODE_INVALID.
Proof.
  intros Hst E. unfold _webSocketsDecode, decode_switch. cbn zeta. rsimpl.
  rewrite Hst, E. eexists. split; [reflexivity|]. unfold decode_spor. rsimpl. auto.
Qed.

(** X3.  A frame without the mask bit is a protocol error: the call whose
    header read brings the second header byte, with the mask bit clear,
    returns -1 with errno EPROTO, whatever the opcode and the length; the
    destination is as it was and the decoder is reset. *)
Theorem recv_unmasked_frame_is_EPROTO wsctx dst len w ret bytes w1 :
  state (dec wsctx) = WS_STATE_DECODING_HEADER_PENDING ->
  lowerRead w (WSHLENMAX - nDone (header (dec wsctx))) = (ret, bytes, w1) ->
  0 < ret -> 2 <= nDone (header (dec wsctx)) + ret ->
  Z.land (buf_get (memcpy (codeBufDecode (dec wsctx)) (nDone (header (dec wsctx))) bytes) 1)
    128 = 0 ->
  exists wsctx',
    _webSocketsDecode b64_pton wsctx dst len w
    = (-1, dst, wsctx', set_errno EPROTO w1)
    /\ state (dec wsctx') = WS_STATE_DECODING_HEADER_PENDING
    /\ nDone (header (dec wsctx')) = 0
    /\ continuation_opcode (dec wsctx') = WS_OPCODE_INVALID.
Proof.
  intros Hst Hr Hpos H2 Hm. destruct wsctx as [d b]. rsimpl.
  assert (E : exists d', readHeader d w (-1) 0
            = (WS_STATE_ERR, wsDecodeCleanupComplete d', set_errno EPROTO w1, -1, 0)).
  { rewrite (readHeader_parse d w (-1) 0 ret bytes w1 Hr Hpos H2).
    unfold err_cleanup_state, err_cleanup_state_sock_closed.
    repeat break_if; try (eexists; reflexivity);
      apply readHeader_length_unmasked; rsimpl; exact Hm. }
  destruct E as (d' & E). eapply recv_of_header_error; eassumption.
Qed.

(** X4.  Wrong fragmentation is a protocol error: a control frame with
    the FIN bit clear, and a CONT frame while no fragmented message is
    open, are answered with -1 and errno EPROTO by the call whose header
    read brings the second header byte; the decoder is reset. *)
Theorem recv_wrong_fragmentation_is_EPROTO wsctx dst len w ret bytes w1 :
  state (dec wsctx) = WS_STATE_DECODING_HEADER_PENDING ->
  lowerRead w (WSHLENMAX - nDone (header (dec wsctx))) = (ret, bytes, w1) ->
  0 < ret -> 2 <= nDone (header (dec wsctx)) + ret ->
  (let b0 :=
     buf_get (memcpy (codeBufDecode (dec wsctx)) (nDone (header (dec wsctx))) bytes) 0 in
   (Z.land b0 8 <> 0 /\ Z.land b0 128 = 0)
   \/ (Z.land b0 15 = WS_OPCODE_CONTINUATION
       /\ continuation_opcode (dec wsctx) = WS_OPCODE_INVALID)) ->
  exists wsctx',
    _webSocketsDecode b64_pton wsctx dst len w
    = (-1, dst, wsctx', set_errno EPROTO w1)
    /\ state (dec wsctx') = WS_STATE_DECODING_HEADER_PENDING
    /\ nDone (header (dec wsctx')) = 0
    /\ continuation_opcode (dec wsctx') = WS_OPCODE_INVALID.
Proof.
  intros Hst Hr Hpos H2 Hb. destruct wsctx as [d b]. rsimpl. cbn zeta in Hb.
  set (b0 := buf_get (memcpy (codeBufDecode d) (nDone (header d)) bytes) 0) in *.
  assert (E : exists d', readHeader d w (-1) 0
            = (WS_STATE_ERR, wsDecodeCleanupComplete d', set_errno EPROTO w1, -1, 0)).
  { rewrite (readHeader_parse d w (-1) 0 ret bytes w1 Hr Hpos H2). fold b0.
    unfold err_cleanup_state, err_cleanup_state_sock_closed.
    destruct Hb as [(Hc & Hf) | (Ho & Hco)].
    - assert (Hc' : Z.land (Z.land b0 15) 8 = Z.land b0 8).
      { rewrite <- Z.land_assoc. reflexivity. }
      rewrite Hc'. destruct (Z.eqb_spec 0 (Z.land b0 8)); [congruence|]. cbn [negb].
      rewrite Hf. change (Z.shiftr 0 7 =? 0) with true. cbn iota.
      eexists. reflexivity.
    - rewrite Ho, Hco.
      change (negb (0 =? Z.land WS_OPCODE_CONTINUATION 8)) with false.
      change (WS_OPCODE_CONTINUATION =? WS_OPCODE_CONTINUATION) with true.
      change (WS_OPCODE_INVALID =? WS_OPCODE_INVALID) with true. cbn iota.
      eexists. reflexivity. }
  destruct E as (d' & E). eapply recv_of_header_error; eassumption.
Qed.

(** X5.  Decoded data that waits in the buffer is served first: in state
    DATA_AVAILABLE a call with a destination of [len] bytes ([0 <= len])
    copies the next [min (readlen, len)] bytes from the read position to
    the destination and returns their number; it does not read the socket
    and does not touch errno.  The decoder stays in DATA_AVAILABLE while
    bytes are left, and otherwise goes on to the rest of the frame, or to
    the next header. *)
Theorem recv_serves_buffered_data_first wsctx dst len w :
  state (dec wsctx) = WS_STATE_DECODING_DATA_AVAILABLE ->
  0 < readlen (dec wsctx) ->
  0 <= len <= ARRAYSIZE dst ->
  exists wsctx',
    _webSocketsDecode b64_pton wsctx dst len w
    = (Z.min (readlen (dec wsctx)) len,
       memcpy dst 0
         (buf_read (codeBufDecode (dec wsctx)) (readPos (dec wsctx))
            (Z.min (readlen (dec wsctx)) len)),
       wsctx', w)
    /\ state (dec wsctx')
       = (if len <? readlen (dec wsctx) then WS_STATE_DECODING_DATA_AVAILABLE
          else if remaining (dec wsctx) =? 0 then WS_STATE_DECODING_HEADER_PENDING
          else WS_STATE_DECODING_DATA_NEEDED)
    /\ readlen (dec wsctx') = readlen (dec wsctx) - Z.min (readlen (dec wsctx)) len.
Proof.
  intros Hst Hrl _. destruct wsctx as [d b]. rsimpl.
  destruct (returnData_some dst len d (-1) w Hrl)
    as (s & d' & E & Erl & Elt & Ege & E1 & E2 & E3 & E4 & E5 & E6 & E7).
  unfold _webSocketsDecode, decode_switch. cbn zeta. rsimpl. rewrite Hst, E. rsimpl.
  eexists. split; [reflexivity|]. rsimpl.
  destruct (Z.ltb_spec len (readlen d)) as [Hlt|Hge].
  - destruct (Elt Hlt) as (-> & _). unfold decode_spor. rsimpl. auto.
  - rewrite (Ege Hge). unfold decode_spor. rsimpl.
    destruct (remaining d =? 0).
    + destruct (_ && _); rsimpl; (split; [reflexivity | lia]).
    + rsimpl. auto.
Qed.

(** *** The states between calls *)

Lemma returnData_state dst len c nW w s dst' c' r w' :
  returnData dst len c nW w = (s, dst', c', r, w') ->
  (s = WS_STATE_DECODING_DATA_AVAILABLE /\ 0 < readlen c')
  \/ s = WS_STATE_DECODING_FRAME_COMPLETE \/ s = WS_STATE_DECODING_DATA_NEEDED
  \/ (s = state c /\ c' = c /\ readlen c <= 0).
Proof.
  unfold returnData.
  destruct (Z.gtb_spec (readlen c) 0).
  - destruct (Z.gtb_spec (readlen c) len).
    + intros E; inv_pair. rsimpl. left. split; [reflexivity | lia].
    + rsimpl. destruct (remaining _ =? 0); intros E; inv_pair; auto.
  - intros E; inv_pair. auto 6.
Qed.

Lemma payload_counted_state d n :
  state (payload_counted d n) = WS_STATE_DECODING_FRAME_COMPLETE
  \/ state (payload_counted d n) = state d.
Proof. unfold payload_counted. cbn zeta. destruct (_ =? 0); rsimpl; auto. Qed.

Lemma readAndDecode_payload_state wsctx dst len w sockRet nInBuf bufsize n
    s dst' c' r w' :
  readAndDecode_payload b64_pton wsctx dst len w sockRet nInBuf bufsize n
  = (s, dst', c', r, w') ->
  s = WS_STATE_ERR \/ s = WS_STATE_DECODING_FRAME_COMPLETE
  \/ s = WS_STATE_DECODING_CLOSE_REASON_PENDING \/ s = WS_STATE_DECODING_DATA_NEEDED
  \/ (s = WS_STATE_DECODING_DATA_AVAILABLE /\ 0 < readlen (dec c'))
  \/ s = state (dec wsctx).
Proof.
  unfold readAndDecode_payload. cbn zeta.
  fold (payload_counted (dec wsctx) n).
  pose proof (payload_counted_state (dec wsctx) n) as P.
  set (d0 := payload_counted (dec wsctx) n) in *. clearbody d0.
  destruct (_ <? 0); [intros E; inv_pair; auto|].
  destruct (unmask d0 _) as [d4 ok] eqn:U.
  pose proof (unmask_fields _ _ _ _ U) as (G1 & _).
  destruct ok; cbn [negb]; [|intros E; inv_pair; auto].
  destruct (_ =? WS_OPCODE_CLOSE).
  - destruct (wsFrameComplete d4); intros E; inv_pair; auto.
  - match goal with
    | |- context [returnData dst len ?c sockRet w] =>
        pose proof (decode_by_opcode_fields b64_pton d4 (writePos d0 - (n + carrylen d0 + nInBuf))
                      (n + carrylen d0 + nInBuf - carrylen d4) bufsize) as (D1 & _);
        assert (Hc : state c = state d0) by (rsimpl; congruence);
        destruct (returnData dst len c sockRet w) as [[[[s1 dst1] c1] r1] w1] eqn:RD
    end.
    intros E; inv_pair. rsimpl.
    destruct (returnData_state _ _ _ _ _ _ _ _ _ _ RD) as [(-> & Hr) | [-> | [-> | (-> & _ & _)]]];
      auto 7.
    rsimpl. rewrite Hc. destruct P as [-> | ->]; auto 7.
Qed.

Lemma readAndDecode_state wsctx dst len w sockRet nInBuf s dst' c' r w' :
  readAndDecode b64_pton wsctx dst len w sockRet nInBuf = (s, dst', c', r, w') ->
  s = WS_STATE_ERR \/ s = WS_STATE_DECODING_FRAME_COMPLETE
  \/ s = WS_STATE_DECODING_CLOSE_REASON_PENDING \/ s = WS_STATE_DECODING_DATA_NEEDED
  \/ (s = WS_STATE_DECODING_DATA_AVAILABLE /\ 0 < readlen (dec c'))
  \/ s = state (dec wsctx).
Proof.
  unfold readAndDecode. cbn zeta.
  destruct (_ >? 0).
  - destruct (lowerRead _ _) as [[n bytes] w1].
    destruct (-1 =? n); [intros E; inv_pair; auto|].
    destruct (n =? 0); [intros E; inv_pair; auto|].
    intros E. apply readAndDecode_payload_state in E. exact E.
  - intros E. apply readAndDecode_payload_state in E. exact E.
Qed.

Lemma decode_switch_state wsctx dst len w r dst' c' w' :
  (state (dec wsctx) = WS_STATE_DECODING_DATA_AVAILABLE -> 0 < readlen (dec wsctx)) ->
  decode_switch b64_pton wsctx dst len w = (r, dst', c', w') ->
  state (dec c') = WS_STATE_ERR \/ state (dec c') = WS_STATE_DECODING_FRAME_COMPLETE
  \/ (waiting_state (state (dec c'))
      /\ (state (dec c') = WS_STATE_DECODING_DATA_AVAILABLE -> 0 < readlen (dec c'))).
Proof.
  intros Hinv. unfold decode_switch, waiting_state. cbn zeta.
  destruct (state (dec wsctx)) eqn:Hst.
  - destruct (readHeader _ _ _ _) as [[[[s d] w2] r2] n2] eqn:RH.
    destruct (readHeader_states _ _ _ _ _ _ _ _ _ RH) as [E|[E|E]]; subst s.
    + intros E; inv_pair. rsimpl. auto.
    + intros E; inv_pair. rsimpl. right; right. split; [auto | discriminate].
    + destruct (readAndDecode _ _ _ _ _ _ _) as [[[[s' dd] cc] rr] ww] eqn:RD.
      apply readAndDecode_state in RD. rsimpl.
      intros E; inv_pair. rsimpl.
      destruct RD as [E1 | [E1 | [E1 | [E1 | [(E1 & Hr) | E1]]]]]; subst s'; auto;
        right; right; (split; [auto 6 | try discriminate; auto]).
  - destruct (returnData _ _ _ _ _) as [[[[s' dd] cc] rr] ww] eqn:RD.
    intros E; inv_pair. rsimpl.
    destruct (returnData_state _ _ _ _ _ _ _ _ _ _ RD) as [(-> & Hr) | [-> | [-> | (-> & _ & Hr)]]];
      auto; try (right; right; (split; [auto 6 | try discriminate; auto])).
    specialize (Hinv eq_refl). lia.
  - destruct (readAndDecode _ _ _ _ _ _ _) as [[[[s' dd] cc] rr] ww] eqn:RD.
    apply readAndDecode_state in RD. rewrite Hst in RD.
    intros E; inv_pair. rsimpl.
    destruct RD as [E1 | [E1 | [E1 | [E1 | [(E1 & Hr) | E1]]]]]; subst s'; auto;
      right; right; (split; [auto 6 | try discriminate; auto]).
  - intros E; inv_pair. rsimpl. auto.
  - destruct (readAndDecode _ _ _ _ _ _ _) as [[[[s' dd] cc] rr] ww] eqn:RD.
    apply readAndDecode_state in RD. rewrite Hst in RD.
    intros E; inv_pair. rsimpl.
    destruct RD as [E1 | [E1 | [E1 | [E1 | [(E1 & Hr) | E1]]]]]; subst s'; auto;
      right; right; (split; [auto 6 | try discriminate; auto]).
  - intros E; inv_pair. rsimpl. auto.
Qed.

Lemma webSocketsDecode_state wsctx dst len w r dst' c' w' :
  (state (dec wsctx) = WS_STATE_DECODING_DATA_AVAILABLE -> 0 < readlen (dec wsctx)) ->
  _webSocketsDecode b64_pton wsctx dst len w = (r, dst', c', w') ->
  waiting_state (state (dec c'))
  /\ (state (dec c') = WS_STATE_DECODING_DATA_AVAILABLE -> 0 < readlen (dec c')).
Proof.
  intros Hinv. unfold _webSocketsDecode.
  destruct (decode_switch _ _ _ _ _) as [[[r1 d1] c1] w1] eqn:SW.
  apply decode_switch_state in SW; [|exact Hinv].
  intros E; inv_pair. rsimpl. unfold decode_spor, waiting_state in *.
  destruct SW as [-> | [-> | (Hw & Hr)]].
  - rsimpl. split; [auto | discriminate].
  - destruct (_ && _); rsimpl; (split; [auto | discriminate]).
  - destruct Hw as [Hs | [Hs | [Hs | Hs]]]; rewrite Hs; cbn iota;
      (split; [rewrite Hs; auto 6 | exact Hr]).
Qed.

(** X6.  Between calls the decoder is in one of four states:
    HEADER_PENDING, DATA_AVAILABLE, DATA_NEEDED or CLOSE_REASON_PENDING;
    a call never leaves it in ERR or FRAME_COMPLETE.  It is in
    DATA_AVAILABLE only with a positive number of decoded bytes to hand
    over, so a call in that state always delivers.  This holds after every
    call, for any number of calls on any socket, from a state that
    satisfies it (as a new session does). *)
Theorem recv_leaves_a_waiting_state (calls : nat) wsctx len w :
  (state (dec wsctx) = WS_STATE_DECODING_DATA_AVAILABLE -> 0 < readlen (dec wsctx)) ->
  let '(_, c, _) := recv_loop b64_pton (S calls) wsctx len w in
  waiting_state (state (dec c))
  /\ (state (dec c) = WS_STATE_DECODING_DATA_AVAILABLE -> 0 < readlen (dec c)).
Proof.
  revert wsctx w. induction calls as [|k IH]; intros wsctx w Hinv.
  - cbn [recv_loop].
    destruct (_webSocketsDecode _ _ _ _ _) as [[[r d] c] w1] eqn:E.
    eapply webSocketsDecode_state; eassumption.
  - change (recv_loop b64_pton (S (S k)) wsctx len w)
      with (let '(r, dst, wsctx, w) :=
              _webSocketsDecode b64_pton wsctx (repeat 0 (Z.to_nat len)) len w in
            let '(out, wsctx, w) := recv_loop b64_pton (S k) wsctx len w in
            (delivered r dst ++ out, wsctx, w)).
    destruct (_webSocketsDecode _ _ _ _ _) as [[[r d] c] w1] eqn:E.
    apply webSocketsDecode_state in E; [|exact Hinv].
    specialize (IH c w1 (proj2 E)).
    destruct (recv_loop b64_pton (S k) c len w1) as [[out c2] w2]. exact IH.
Qed.

(** *** Payload that is not handed over *)

Lemma unmask_ok d t :
  0 <= t -> 3 <= ARRAYSIZE (carryBuf d) -> snd (unmask d t) = true.
Proof.
  intros Ht Hc. unfold unmask. cbn zeta. rsimpl.
  pose proof (shiftr2_bounds t Ht).
  destruct (ws_state_eqb _ _); [reflexivity|].
  destruct (Z.ltb_spec (t - Z.shiftr t 2 * 4) 0); [lia|].
  destruct (Z.gtb_spec (t - Z.shiftr t 2 * 4) (ARRAYSIZE (carryBuf d))); [lia|].
  reflexivity.
Qed.

Lemma payload_counted_fields d n :
  header (payload_counted d n) = header d
  /\ carrylen (payload_counted d n) = carrylen d
  /\ carryBuf (payload_counted d n) = carryBuf d
  /\ writePos (payload_counted d n) = writePos d + n
  /\ readlen (payload_counted d n) = readlen d
  /\ continuation_opcode (payload_counted d n) = continuation_opcode d
  /\ nReadPayload (payload_counted d n) = u64 (nReadPayload d + n).
Proof.
  unfold payload_counted. cbn zeta. destruct (_ =? 0); rsimpl; auto 10.
Qed.

(** The payload step for a frame that is not a CLOSE frame. *)
Lemma readAndDecode_payload_data wsctx dst len w sockRet nInBuf bufsize n :
  0 <= n + carrylen (dec wsctx) + nInBuf ->
  3 <= ARRAYSIZE (carryBuf (dec wsctx)) ->
  opcode (header (dec wsctx)) <> WS_OPCODE_CLOSE ->
  let toDecode := n + carrylen (dec wsctx) + nInBuf in
  let d4 := fst (unmask (payload_counted (dec wsctx) n) toDecode) in
  let datap := writePos (dec wsctx) + n - toDecode in
  readAndDecode_payload b64_pton wsctx dst len w sockRet nInBuf bufsize n
  = (let d5 :=
       set_readPos datap
         (decode_by_opcode b64_pton d4 datap (toDecode - carrylen d4) bufsize) in
     let '(s, dst', d6, r, w') := returnData dst len d5 sockRet w in
     (s, dst', mk_ctx d6 (base64 wsctx), r, w')).
Proof.
  intros Ht Hc Hop. cbn zeta. unfold readAndDecode_payload. cbn zeta.
  fold (payload_counted (dec wsctx) n).
  pose proof (payload_counted_fields (dec wsctx) n) as (F1 & F2 & F3 & F4 & _).
  set (d0 := payload_counted (dec wsctx) n) in *. clearbody d0.
  rewrite F2, F4.
  destruct (Z.ltb_spec (n + carrylen (dec wsctx) + nInBuf) 0); [lia|].
  pose proof (unmask_ok d0 (n + carrylen (dec wsctx) + nInBuf) Ht ltac:(rewrite F3; exact Hc))
    as Hok.
  destruct (unmask d0 _) as [d4 ok] eqn:U. cbn [fst snd] in *. subst ok. cbn [negb].
  pose proof (unmask_fields _ _ _ _ U) as (_ & G2 & _).
  rewrite G2, F1.
  destruct (Z.eqb_spec (opcode (header (dec wsctx))) WS_OPCODE_CLOSE); [contradiction|].
  reflexivity.
Qed.

(** X7.  Frames the decoder has no case for - PING, PONG and the
    reserved opcodes - are read and dropped: the payload step returns -1
    with errno EAGAIN, hands nothing to the caller, and nothing is sent
    in reply; the state is that of a frame in progress, or
    FRAME_COMPLETE when the whole payload has been read. *)
Theorem payload_of_unhandled_opcode_is_dropped wsctx dst len w sockRet nInBuf bufsize n :
  opcode (header (dec wsctx)) <> WS_OPCODE_CLOSE ->
  opcode (header (dec wsctx)) <> WS_OPCODE_TEXT_FRAME ->
  opcode (header (dec wsctx)) <> WS_OPCODE_BINARY_FRAME ->
  readlen (dec wsctx) <= 0 ->
  0 <= n + carrylen (dec wsctx) + nInBuf ->
  3 <= ARRAYSIZE (carryBuf (dec wsctx)) ->
  exists wsctx',
    readAndDecode_payload b64_pton wsctx dst len w sockRet nInBuf bufsize n
    = (state (payload_counted (dec wsctx) n), dst, wsctx', -1, set_errno EAGAIN w)
    /\ readlen (dec wsctx') = readlen (dec wsctx)
    /\ continuation_opcode (dec wsctx') = continuation_opcode (dec wsctx).
Proof.
  intros H8 H1 H2 Hrl Ht Hc.
  rewrite (readAndDecode_payload_data wsctx dst len w sockRet nInBuf bufsize n Ht Hc H8).
  cbn zeta.
  pose proof (payload_counted_fields (dec wsctx) n) as (F1 & _ & _ & _ & F5 & F6 & _).
  destruct (unmask (payload_counted (dec wsctx) n) _) as [d4 ok] eqn:U. cbn [fst].
  pose proof (unmask_fields _ _ _ _ U) as (G1 & G2 & _ & G4 & G5 & _).
  unfold decode_by_opcode. rewrite G2, F1.
  destruct (Z.eqb_spec (opcode (header (dec wsctx))) WS_OPCODE_TEXT_FRAME); [contradiction|].
  destruct (Z.eqb_spec (opcode (header (dec wsctx))) WS_OPCODE_BINARY_FRAME);
    [contradiction|].
  rewrite returnData_none by (rsimpl; lia). rsimpl.
  eexists. split; [rewrite G1; reflexivity|]. rsimpl. split; congruence.
Qed.

(** What [unmask] leaves in the carry buffer when fewer than four bytes
    are to be decoded: the bytes before the write position, as they are. *)
Lemma unmask_carryBuf_small d t :
  0 <= t < 4 -> 3 <= ARRAYSIZE (carryBuf d) ->
  buf_read (carryBuf (fst (unmask d t))) 0 (carrylen (fst (unmask d t)))
  = buf_read (codeBufDecode d) (writePos d - t) (carrylen (fst (unmask d t))).
Proof.
  intros Ht Hc. unfold unmask. cbn zeta. rsimpl.
  assert (Hs : Z.shiftr t 2 = 0).
  { rewrite Z.shiftr_div_pow2 by lia. apply Z.div_small. change (2 ^ 2) with 4. lia. }
  rewrite Hs. cbn [Z.to_nat xor_words]. rewrite Z.mul_0_l, Z.sub_0_r, Z.add_0_r.
  destruct (ws_state_eqb _ _); rsimpl; [reflexivity|].
  destruct (Z.ltb_spec t 0); [lia|].
  destruct (Z.gtb_spec t (ARRAYSIZE (carryBuf d))); [lia|]. cbn [orb]. rsimpl.
  unfold ARRAYSIZE in *.
  apply buf_read_ext. intros i Hi.
  rewrite buf_get_memcpy by (rewrite ?buf_read_length; lia).
  rewrite buf_read_length.
  destruct (Z.leb_spec 0 (0 + i)); [|lia].
  destruct (Z.ltb_spec (0 + i) (0 + Z.of_nat (Z.to_nat t))); [|lia]. cbn [andb].
  rewrite buf_get_buf_read by lia. f_equal. lia.
Qed.

(** X8.  A BINARY frame with nothing to hand over yet: when no byte has
    arrived (as for a frame with an empty payload), or fewer than four
    bytes of a frame that is not complete, the payload step returns -1
    with errno EAGAIN and leaves the destination as it was; the bytes
    received are kept, as they came (still masked), in the carry buffer,
    and [carrylen] is their number.  An empty frame is thus consumed
    without the caller seeing 0. *)
Theorem binary_payload_step_with_nothing_to_return
    wsctx dst len w sockRet nInBuf bufsize n :
  opcode (header (dec wsctx)) = WS_OPCODE_BINARY_FRAME ->
  3 <= ARRAYSIZE (carryBuf (dec wsctx)) ->
  let toDecode := n + carrylen (dec wsctx) + nInBuf in
  toDecode = 0
  \/ (0 <= toDecode < 4
      /\ state (payload_counted (dec wsctx) n) <> WS_STATE_DECODING_FRAME_COMPLETE) ->
  exists wsctx',
    readAndDecode_payload b64_pton wsctx dst len w sockRet nInBuf bufsize n
    = (state (payload_counted (dec wsctx) n), dst, wsctx', -1, set_errno EAGAIN w)
    /\ readlen (dec wsctx') = 0
    /\ carrylen (dec wsctx') = toDecode
    /\ buf_read (carryBuf (dec wsctx')) 0 toDecode
       = buf_read (codeBufDecode (dec wsctx)) (writePos (dec wsctx) + n - toDecode)
           toDecode.
Proof.
  intros Hop Hc toDecode Ht. subst toDecode.
  assert (Ht0 : 0 <= n + carrylen (dec wsctx) + nInBuf) by lia.
  rewrite (readAndDecode_payload_data wsctx dst len w sockRet nInBuf bufsize n Ht0 Hc)
    by (rewrite Hop; discriminate).
  cbn zeta.
  pose proof (payload_counted_fields (dec wsctx) n) as (F1 & F2 & F3 & F4 & _).
  assert (F0 : codeBufDecode (payload_counted (dec wsctx) n) = codeBufDecode (dec wsctx)).
  { unfold payload_counted. cbn zeta. destruct (_ =? 0); reflexivity. }
  pose proof (unmask_carryBuf_small (payload_counted (dec wsctx) n)
                (n + carrylen (dec wsctx) + nInBuf)) as Hcb.
  destruct (unmask (payload_counted (dec wsctx) n) _) as [d4 ok] eqn:U. cbn [fst] in *.
  pose proof (unmask_fields _ _ _ _ U) as (G1 & G2 & _).
  assert (Hcl : carrylen d4 = n + carrylen (dec wsctx) + nInBuf).
  { pose proof (unmask_carrylen _ _ _ _ U) as Hu.
    pose proof (shiftr2_bounds _ Ht0).
    destruct (ws_state_eqb (state (payload_counted (dec wsctx) n))
                WS_STATE_DECODING_FRAME_COMPLETE) eqn:Es.
    - destruct Ht as [Hz | (_ & Hne)]; [lia|].
      exfalso. apply Hne. destruct (state (payload_counted (dec wsctx) n)); try discriminate.
      reflexivity.
    - rewrite Hu. assert (Z.shiftr (n + carrylen (dec wsctx) + nInBuf) 2 = 0).
      { rewrite Z.shiftr_div_pow2 by lia. apply Z.div_small. change (2 ^ 2) with 4. lia. }
      lia. }
  unfold decode_by_opcode. rewrite G2, F1, Hop.
  change (WS_OPCODE_BINARY_FRAME =? WS_OPCODE_TEXT_FRAME) with false.
  change (WS_OPCODE_BINARY_FRAME =? WS_OPCODE_BINARY_FRAME) with true. cbn iota.
  rewrite returnData_none by (rsimpl; lia). rsimpl.
  eexists. split; [rewrite G1; reflexivity|]. rsimpl.
  split; [lia|]. split; [exact Hcl|].
  rewrite Hcl, F0, F3, F4 in Hcb. apply Hcb; [lia | exact Hc].
Qed.

(** X9.  A TEXT frame whose bytes [b64_pton] does not decode (it returns
    -1, or 0) is not reported as an error: the payload step returns -1
    with errno EAGAIN, as when no data has arrived, hands nothing to the
    caller, and [readlen] is left at the value [b64_pton] returned. *)
Theorem text_payload_that_does_not_decode_is_dropped
    wsctx dst len w sockRet nInBuf bufsize n :
  opcode (header (dec wsctx)) = WS_OPCODE_TEXT_FRAME ->
  0 <= n + carrylen (dec wsctx) + nInBuf ->
  3 <= ARRAYSIZE (carryBuf (dec wsctx)) ->
  let toDecode := n + carrylen (dec wsctx) + nInBuf in
  let d4 := fst (unmask (payload_counted (dec wsctx) n) toDecode) in
  let datap := writePos (dec wsctx) + n - toDecode in
  let toReturn := toDecode - carrylen d4 in
  let decoded :=
    fst (b64_pton (cstring_at (buf_set (codeBufDecode d4) (datap + toReturn) 0) datap)
           bufsize) in
  decoded <= 0 ->
  exists wsctx',
    readAndDecode_payload b64_pton wsctx dst len w sockRet nInBuf bufsize n
    = (state (payload_counted (dec wsctx) n), dst, wsctx', -1, set_errno EAGAIN w)
    /\ readlen (dec wsctx') = decoded.
Proof.
  intros Hop Ht Hc toDecode d4 datap toReturn decoded Hb.
  subst decoded toReturn datap d4 toDecode.
  rewrite (readAndDecode_payload_data wsctx dst len w sockRet nInBuf bufsize n Ht Hc)
    by (rewrite Hop; discriminate).
  cbn zeta.
  pose proof (payload_counted_fields (dec wsctx) n) as (F1 & _).
  destruct (unmask (payload_counted (dec wsctx) n) _) as [d4 ok] eqn:U. cbn [fst] in *.
  pose proof (unmask_fields _ _ _ _ U) as (G1 & G2 & _).
  unfold decode_by_opcode. rewrite G2, F1, Hop.
  change (WS_OPCODE_TEXT_FRAME =? WS_OPCODE_TEXT_FRAME) with true. cbn iota. rsimpl.
  destruct (b64_pton _ _) as [r out]. cbn [fst] in Hb |- *.
  rewrite returnData_none by (rsimpl; lia). rsimpl.
  eexists. split; [rewrite G1; reflexivity|]. rsimpl. reflexivity.
Qed.

End DecoderEdges.

Lemma recv_returns_0_when_peer_closed_witness :
  exists wsctx',
    _webSocketsDecode b64_pton_none (new_session 32 false) [7; 7; 7; 7] 4
      (socket_with [Closed])
    = (0, [7; 7; 7; 7], wsctx', mk_world [] (errno (socket_with [Closed])))
    /\ state (dec wsctx') = WS_STATE_DECODING_HEADER_PENDING
    /\ nDone (header (dec wsctx')) = 0 /\ nReadPayload (dec wsctx') = 0
    /\ readlen (dec wsctx') = 0 /\ carrylen (dec wsctx') = 0
    /\ continuation_opcode (dec wsctx') = WS_OPCODE_INVALID.
Proof.
  apply (recv_returns_0_when_peer_closed b64_pton_none (new_session 32 false) [7; 7; 7; 7] 4
           (socket_with [Closed]) []).
  - reflexivity.
  - left. reflexivity.
Defined.

Lemma recv_failed_header_read_drops_header_witness :
  exists wsctx',
    _webSocketsDecode b64_pton_none session_with_partial_header [7; 7; 7; 7] 4
      (socket_with [])
    = (-1, [7; 7; 7; 7], wsctx', mk_world [] EAGAIN)
    /\ state (dec wsctx') = WS_STATE_DECODING_HEADER_PENDING
    /\ nDone (header (dec wsctx')) = 0
    /\ continuation_opcode (dec wsctx') = WS_OPCODE_INVALID.
Proof.
  apply (recv_failed_header_read_drops_header b64_pton_none session_with_partial_header
           [7; 7; 7; 7] 4 (socket_with []) EAGAIN []).
  - reflexivity.
  - left. repeat split.
Defined.

Lemma recv_unmasked_frame_is_EPROTO_witness :
  exists wsctx',
    _webSocketsDecode b64_pton_none (new_session 32 false) [7; 7; 7; 7] 4
      (socket_with (one_chunk frame_unmasked))
    = (-1, [7; 7; 7; 7], wsctx', set_errno EPROTO (socket_with []))
    /\ state (dec wsctx') = WS_STATE_DECODING_HEADER_PENDING
    /\ nDone (header (dec wsctx')) = 0
    /\ continuation_opcode (dec wsctx') = WS_OPCODE_INVALID.
Proof.
  apply (recv_unmasked_frame_is_EPROTO b64_pton_none (new_session 32 false) [7; 7; 7; 7] 4
           (socket_with (one_chunk frame_unmasked)) 7 frame_unmasked (socket_with [])).
  - reflexivity.
  - reflexivity.
  - lia.
  - vm_compute. discriminate.
  - reflexivity.
Defined.

Lemma recv_wrong_fragmentation_is_EPROTO_witness :
  exists wsctx',
    _webSocketsDecode b64_pton_none (new_session 32 false) [7; 7; 7; 7] 4
      (socket_with (one_chunk frame_ping_no_fin))
    = (-1, [7; 7; 7; 7], wsctx', set_errno EPROTO (socket_with []))
    /\ state (dec wsctx') = WS_STATE_DECODING_HEADER_PENDING
    /\ nDone (header (dec wsctx')) = 0
    /\ continuation_opcode (dec wsctx') = WS_OPCODE_INVALID.
Proof.
  apply (recv_wrong_fragmentation_is_EPROTO b64_pton_none (new_session 32 false)
           [7; 7; 7; 7] 4 (socket_with (one_chunk frame_ping_no_fin)) 6 frame_ping_no_fin
           (socket_with [])).
  - reflexivity.
  - reflexivity.
  - lia.
  - vm_compute. discriminate.
  - left. vm_compute. split; [discriminate | reflexivity].
Defined.

Lemma recv_serves_buffered_data_first_witness :
  exists wsctx',
    _webSocketsDecode b64_pton_none (fst data_waiting) [7; 7; 7; 7] 2 (snd data_waiting)
    = (Z.min (readlen (dec (fst data_waiting))) 2,
       memcpy [7; 7; 7; 7] 0
         (buf_read (codeBufDecode (dec (fst data_waiting)))
            (readPos (dec (fst data_waiting)))
            (Z.min (readlen (dec (fst data_waiting))) 2)),
       wsctx', snd data_waiting)
    /\ state (dec wsctx')
       = (if 2 <? readlen (dec (fst data_waiting)) then WS_STATE_DECODING_DATA_AVAILABLE
          else if remaining (dec (fst data_waiting)) =? 0
               then WS_STATE_DECODING_HEADER_PENDING
               else WS_STATE_DECODING_DATA_NEEDED)
    /\ readlen (dec wsctx')
       = readlen (dec (fst data_waiting)) - Z.min (readlen (dec (fst data_waiting))) 2.
Proof.
  apply (recv_serves_buffered_data_first b64_pton_none (fst data_waiting) [7; 7; 7; 7] 2
           (snd data_waiting)).
  - reflexivity.
  - reflexivity.
  - cbn. lia.
Defined.

Lemma recv_leaves_a_waiting_state_witness :
  let '(_, c, _) :=
    recv_loop b64_pton_none 8 (new_session 32 false) 2
      (socket_with (bytewise frame_hello)) in
  waiting_state (state (dec c))
  /\ (state (dec c) = WS_STATE_DECODING_DATA_AVAILABLE -> 0 < readlen (dec c)).
Proof.
  assert (H : state (dec (new_session 32 false)) = WS_STATE_DECODING_DATA_AVAILABLE ->
              0 < readlen (dec (new_session 32 false)))
    by (vm_compute; discriminate).
  pose proof (recv_leaves_a_waiting_state b64_pton_none 7 (new_session 32 false) 2
                (socket_with (bytewise frame_hello)) H) as P.
  exact P.
Defined.

(** The call on a new session that finds [frame_ping] on the socket comes
    to the payload step with the context [after_header frame_ping]: the
    two bytes of payload came with the header, nothing is left to read. *)
Lemma ping_step_is_reached :
  decode_switch b64_pton_none (new_session 32 false) [7; 7; 7; 7] 4
    (socket_with (one_chunk frame_ping))
  = (let '(s, dst, c, r, w) :=
       readAndDecode_payload b64_pton_none (after_header frame_ping) [7; 7; 7; 7] 4
         (socket_with []) (-1) 2 23 0 in
     (r, dst, mk_ctx (set_state s (dec c)) (base64 c), w)).
Proof. vm_compute. reflexivity. Qed.

Lemma payload_of_unhandled_opcode_is_dropped_witness :
  exists wsctx',
    readAndDecode_payload b64_pton_none (after_header frame_ping) [7; 7; 7; 7] 4
      (socket_with []) (-1) 2 23 0
    = (state (payload_counted (dec (after_header frame_ping)) 0), [7; 7; 7; 7], wsctx',
       -1, set_errno EAGAIN (socket_with []))
    /\ readlen (dec wsctx') = readlen (dec (after_header frame_ping))
    /\ continuation_opcode (dec wsctx')
       = continuation_opcode (dec (after_header frame_ping)).
Proof.
  apply (payload_of_unhandled_opcode_is_dropped b64_pton_none (after_header frame_ping)
           [7; 7; 7; 7] 4 (socket_with []) (-1) 2 23 0).
  - vm_compute. discriminate.
  - vm_compute. discriminate.
  - vm_compute. discriminate.
  - vm_compute. discriminate.
  - vm_compute. discriminate.
  - vm_compute. discriminate.
Defined.

(** The call on a new session that finds the first seven bytes of
    [frame_hello] (the header and one byte of payload), and then one byte
    more, comes to the payload step with the context below: two of the
    five bytes of payload are there. *)
Lemma carry_step_is_reached :
  decode_switch b64_pton_none (new_session 32 false) [7; 7; 7; 7] 4
    (socket_with (chunks [firstn 7 frame_hello; [0x9F]; [0x4D; 0x51; 0x58]]))
  = (let '(s, dst, c, r, w) :=
       readAndDecode_payload b64_pton_none
         (payload_read (after_header (firstn 7 frame_hello)) [0x9F]) [7; 7; 7; 7] 4
         (socket_with (chunks [[0x4D; 0x51; 0x58]])) (-1) 1 24 1 in
     (r, dst, mk_ctx (set_state s (dec c)) (base64 c), w)).
Proof. vm_compute. reflexivity. Qed.

Lemma binary_payload_step_with_nothing_to_return_witness :
  exists wsctx',
    readAndDecode_payload b64_pton_none
      (payload_read (after_header (firstn 7 frame_hello)) [0x9F]) [7; 7; 7; 7] 4
      (socket_with (chunks [[0x4D; 0x51; 0x58]])) (-1) 1 24 1
    = (state (payload_counted
                (dec (payload_read (after_header (firstn 7 frame_hello)) [0x9F])) 1),
       [7; 7; 7; 7], wsctx', -1,
       set_errno EAGAIN (socket_with (chunks [[0x4D; 0x51; 0x58]])))
    /\ readlen (dec wsctx') = 0
    /\ carrylen (dec wsctx') = 2
    /\ buf_read (carryBuf (dec wsctx')) 0 2 = [0x7F; 0x9F].
Proof.
  apply (binary_payload_step_with_nothing_to_return b64_pton_none
           (payload_read (after_header (firstn 7 frame_hello)) [0x9F]) [7; 7; 7; 7] 4
           (socket_with (chunks [[0x4D; 0x51; 0x58]])) (-1) 1 24 1).
  - reflexivity.
  - vm_compute. discriminate.
  - right. split; [vm_compute; split; [discriminate | reflexivity]|].
    vm_compute. discriminate.
Defined.

(** The call on a new session that finds [frame_text_bad] on the socket
    comes to the payload step with the context
    [after_header frame_text_bad]. *)
Lemma text_step_is_reached :
  decode_switch b64_pton_ref (new_session 32 false) [7; 7; 7; 7] 4
    (socket_with (one_chunk frame_text_bad))
  = (let '(s, dst, c, r, w) :=
       readAndDecode_payload b64_pton_ref (after_header frame_text_bad) [7; 7; 7; 7] 4
         (socket_with []) (-1) 4 21 0 in
     (r, dst, mk_ctx (set_state s (dec c)) (base64 c), w)).
Proof. vm_compute. reflexivity. Qed.

Lemma text_payload_that_does_not_decode_is_dropped_witness :
  exists wsctx',
    readAndDecode_payload b64_pton_ref (after_header frame_text_bad) [7; 7; 7; 7] 4
      (socket_with []) (-1) 4 21 0
    = (state (payload_counted (dec (after_header frame_text_bad)) 0), [7; 7; 7; 7],
       wsctx', -1, set_errno EAGAIN (socket_with []))
    /\ readlen (dec wsctx') = -1.
Proof.
  apply (text_payload_that_does_not_decode_is_dropped b64_pton_ref
           (after_header frame_text_bad) [7; 7; 7; 7] 4 (socket_with []) (-1) 4 21 0).
  - reflexivity.
  - vm_compute. discriminate.
  - vm_compute. discriminate.
  - vm_compute. discriminate.
Defined.


(** ** The choice of the sub-protocol *)

Lemma prefix_occurs (s p : string) :
  String.prefix s p = true <-> exists post, p = (s ++ post)%string.
Proof.
  revert p. induction s as [|a s IH]; intros p.
  - destruct p; cbn [String.prefix]; (split; [intros _; eexists; reflexivity | reflexivity]).
  - destruct p as [|b p]; cbn [String.prefix].
    + split; [discriminate | intros (post & E); discriminate E].
    + destruct (ascii_dec a b) as [->|N].
      * rewrite IH. split; intros (post & E); exists post.
        -- cbn. now rewrite E.
        -- cbn in E. now inversion E.
      * split; [discriminate|]. intros (post & E). cbn in E. inversion E. congruence.
Qed.

Lemma strstr_occurs (hay needle : string) :
  strstr hay needle = true <-> occurs_in needle hay.
Proof.
  unfold occurs_in. induction hay as [|b hay IH].
  - cbn [strstr]. destruct (String.prefix needle "") eqn:P.
    + apply prefix_occurs in P as (post & E). split; [|reflexivity].
      intros _. exists EmptyString, post. exact E.
    + split; [discriminate|]. intros (pre & post & E).
      destruct pre; [|discriminate E]. cbn in E.
      assert (String.prefix needle "" = true) by (apply prefix_occurs; eauto).
      congruence.
  - cbn [strstr]. destruct (String.prefix needle (String b hay)) eqn:P.
    + apply prefix_occurs in P as (post & E). split; [|reflexivity].
      intros _. exists EmptyString, post. exact E.
    + rewrite IH. split.
      * intros (pre & post & E). exists (String b pre), post. cbn. now rewrite E.
      * intros (pre & post & E). destruct pre as [|c pre].
        -- cbn in E.
           assert (String.prefix needle (String b hay) = true)
             by (apply prefix_occurs; eauto).
           congruence.
        -- cbn in E. inversion E. eauto.
Qed.

(** X10.  The sub-protocol is chosen by substring search in the client's
    Sec-WebSocket-Protocol header: binary (without Base64) exactly when
    the text binary occurs anywhere in it, also behind base64 or inside
    another word; otherwise always with Base64, naming base64 in the
    reply when that text occurs and no protocol when it does not or when
    the header is missing. *)
Theorem select_protocol_by_substring (protocol : option string) :
  (select_protocol protocol = (false, "binary"%string)
   <-> exists p, protocol = Some p /\ occurs_in "binary" p)
  /\ (select_protocol protocol = (true, "base64"%string)
      <-> exists p, protocol = Some p /\ ~ occurs_in "binary" p /\ occurs_in "base64" p)
  /\ (select_protocol protocol = (true, EmptyString)
      <-> protocol = None
          \/ exists p, protocol = Some p /\ ~ occurs_in "binary" p
                       /\ ~ occurs_in "base64" p).
Proof.
  destruct protocol as [p|]; cbn [select_protocol].
  - pose proof (strstr_occurs p "binary") as Hb.
    pose proof (strstr_occurs p "base64") as H6.
    assert (B : strstr p "binary" = true -> occurs_in "binary" p) by apply Hb.
    assert (B' : strstr p "binary" = false -> ~ occurs_in "binary" p)
      by (intros E X; apply Hb in X; congruence).
    assert (C : strstr p "base64" = true -> occurs_in "base64" p) by apply H6.
    assert (C' : strstr p "base64" = false -> ~ occurs_in "base64" p)
      by (intros E X; apply H6 in X; congruence).
    clear Hb H6.
    destruct (strstr p "binary"); [|destruct (strstr p "base64")];
      repeat split; intros;
      repeat match goal with
      | H : exists _, _ |- _ => destruct H
      | H : _ /\ _ |- _ => destruct H
      | H : _ \/ _ |- _ => destruct H
      | H : Some _ = Some _ |- _ => inversion H; subst; clear H
      | H : ?a = ?a -> _ |- _ => specialize (H eq_refl)
      end;
      try discriminate; try reflexivity; try contradiction;
      eauto 8.
  - repeat split; intros;
      repeat match goal with
      | H : exists _, _ |- _ => destruct H
      | H : _ /\ _ |- _ => destruct H
      | H : _ \/ _ |- _ => destruct H
      end;
      try discriminate; try reflexivity; auto.
Qed.

(** ** Decoded bytes between calls *)

Section Buffered.

Variable b64_pton : list Z -> Z -> Z * list Z.

Lemma returnData_readlen dst len c nW w s dst' c' r w' :
  returnData dst len c nW w = (s, dst', c', r, w') ->
  (s = WS_STATE_DECODING_DATA_AVAILABLE /\ 0 < readlen c')
  \/ (s = WS_STATE_DECODING_FRAME_COMPLETE /\ readlen c' = 0)
  \/ (s = WS_STATE_DECODING_DATA_NEEDED /\ readlen c' = 0)
  \/ (s = state c /\ c' = c /\ readlen c <= 0).
Proof.
  unfold returnData.
  destruct (Z.gtb_spec (readlen c) 0).
  - destruct (Z.gtb_spec (readlen c) len).
    + intros E; inv_pair. rsimpl. left. split; [reflexivity | lia].
    + rsimpl. destruct (remaining _ =? 0); intros E; inv_pair; rsimpl; auto.
  - intros E; inv_pair. auto 6.
Qed.

Lemma readHeader_readlen c w sr np s c' w' sr' np' :
  readHeader c w sr np = (s, c', w', sr', np') ->
  s = WS_STATE_ERR \/ readlen c' = readlen c.
Proof.
  unfold readHeader, readHeader_length, readHeader_complete, err_cleanup_state,
    err_cleanup_state_sock_closed, ret_header_pending.
  cbn zeta. destruct (lowerRead _ _) as [[ret bytes] w1]. rsimpl.
  repeat break_if; intros H; inv_pair; rsimpl; auto.
Qed.

Lemma readAndDecode_payload_readlen wsctx dst len w sockRet nInBuf bufsize n
    s dst' c' r w' :
  readAndDecode_payload b64_pton wsctx dst len w sockRet nInBuf bufsize n
  = (s, dst', c', r, w') ->
  s = WS_STATE_ERR \/ s = WS_STATE_DECODING_FRAME_COMPLETE
  \/ (s = WS_STATE_DECODING_CLOSE_REASON_PENDING
      /\ readlen (dec c') = readlen (dec wsctx))
  \/ (s = WS_STATE_DECODING_DATA_NEEDED /\ readlen (dec c') = 0)
  \/ (s = WS_STATE_DECODING_DATA_AVAILABLE /\ 0 < readlen (dec c'))
  \/ (s = state (dec wsctx) /\ readlen (dec c') <= 0).
Proof.
  unfold readAndDecode_payload. cbn zeta.
  fold (payload_counted (dec wsctx) n).
  pose proof (payload_counted_state (dec wsctx) n) as P.
  pose proof (payload_counted_fields (dec wsctx) n) as (_ & _ & _ & _ & F5 & _).
  set (d0 := payload_counted (dec wsctx) n) in *. clearbody d0.
  destruct (_ <? 0); [intros E; inv_pair; auto|].
  destruct (unmask d0 _) as [d4 ok] eqn:U.
  pose proof (unmask_fields _ _ _ _ U) as (G1 & _ & _ & G4 & _).
  destruct ok; cbn [negb]; [|intros E; inv_pair; auto].
  destruct (_ =? WS_OPCODE_CLOSE).
  - destruct (wsFrameComplete d4); intros E; inv_pair; rsimpl; auto.
    right; right; left. split; [reflexivity | congruence].
  - match goal with
    | |- context [returnData dst len ?c sockRet w] =>
        pose proof (decode_by_opcode_fields b64_pton d4 (writePos d0 - (n + carrylen d0 + nInBuf))
                      (n + carrylen d0 + nInBuf - carrylen d4) bufsize) as (D1 & _);
        assert (Hc : state c = state d0) by (rsimpl; congruence);
        destruct (returnData dst len c sockRet w) as [[[[s1 dst1] c1] r1] w1] eqn:RD
    end.
    intros E; inv_pair. rsimpl.
    destruct (returnData_readlen _ _ _ _ _ _ _ _ _ _ RD)
      as [(E1 & Hr) | [(E1 & Hr) | [(E1 & Hr) | (E1 & E2 & Hr)]]]; subst; auto 8.
    rsimpl. rewrite Hc. destruct P as [E1 | E1]; rewrite E1; auto 8.
Qed.

Lemma readAndDecode_readlen wsctx dst len w sockRet nInBuf s dst' c' r w' :
  readAndDecode b64_pton wsctx dst len w sockRet nInBuf = (s, dst', c', r, w') ->
  s = WS_STATE_ERR \/ s = WS_STATE_DECODING_FRAME_COMPLETE
  \/ (s = WS_STATE_DECODING_CLOSE_REASON_PENDING
      /\ readlen (dec c') = readlen (dec wsctx))
  \/ (s = WS_STATE_DECODING_DATA_NEEDED /\ readlen (dec c') = 0)
  \/ (s = WS_STATE_DECODING_DATA_AVAILABLE /\ 0 < readlen (dec c'))
  \/ (s = state (dec wsctx) /\ readlen (dec c') <= 0).
Proof.
  unfold readAndDecode. cbn zeta.
  destruct (_ >? 0).
  - destruct (lowerRead _ _) as [[n bytes] w1].
    destruct (-1 =? n); [intros E; inv_pair; auto|].
    destruct (n =? 0); [intros E; inv_pair; auto|].
    intros E. apply readAndDecode_payload_readlen in E. exact E.
  - intros E. apply readAndDecode_payload_readlen in E. exact E.
Qed.

Lemma spor_agrees s d :
  (s = WS_STATE_ERR \/ s = WS_STATE_DECODING_FRAME_COMPLETE)
  \/ (s = WS_STATE_DECODING_HEADER_PENDING /\ readlen d = 0)
  \/ (s = WS_STATE_DECODING_DATA_AVAILABLE /\ 0 < readlen d)
  \/ ((s = WS_STATE_DECODING_DATA_NEEDED \/ s = WS_STATE_DECODING_CLOSE_REASON_PENDING)
      /\ readlen d <= 0) ->
  readlen_agrees (decode_spor (set_state s d)).
Proof.
  unfold readlen_agrees, decode_spor. rsimpl.
  intros [[E | E] | [(E & H) | [(E & H) | ([E | E] & H)]]]; subst s;
    try (destruct (_ && _)); rsimpl;
    repeat split; intros; try discriminate; try congruence; try lia.
Qed.

Lemma webSocketsDecode_agrees wsctx dst len w r dst' c' w' :
  readlen_agrees (dec wsctx) ->
  _webSocketsDecode b64_pton wsctx dst len w = (r, dst', c', w') ->
  readlen_agrees (dec c').
Proof.
  intros (I1 & I2 & I3). unfold _webSocketsDecode, decode_switch. cbn zeta.
  destruct (state (dec wsctx)) eqn:Hst.
  - specialize (I3 eq_refl).
    destruct (readHeader _ _ _ _) as [[[[s d] w2] r2] n2] eqn:RH.
    destruct (readHeader_readlen _ _ _ _ _ _ _ _ _ RH) as [E | Hr];
      [subst s; intros E; inv_pair; rsimpl; apply spor_agrees; auto|].
    destruct (readHeader_states _ _ _ _ _ _ _ _ _ RH) as [E|[E|E]]; subst s.
    + intros E; inv_pair. rsimpl. apply spor_agrees. auto.
    + intros E; inv_pair. rsimpl. apply spor_agrees. right; left. split; [reflexivity | lia].
    + destruct (readAndDecode _ _ _ _ _ _ _) as [[[[s' dd] cc] rr] ww] eqn:RD.
      apply readAndDecode_readlen in RD. rsimpl.
      intros E; inv_pair. rsimpl. apply spor_agrees.
      destruct RD as [E1 | [E1 | [(E1 & Hr') | [(E1 & Hr') | [(E1 & Hr') | (E1 & Hr')]]]]];
        subst s'; auto 8; right; right; right; (split; [auto | lia]).
  - specialize (I1 eq_refl).
    destruct (returnData _ _ _ _ _) as [[[[s' dd] cc] rr] ww] eqn:RD.
    intros E; inv_pair. rsimpl. apply spor_agrees.
    destruct (returnData_readlen _ _ _ _ _ _ _ _ _ _ RD)
      as [(E1 & Hr) | [(E1 & Hr) | [(E1 & Hr) | (E1 & E2 & Hr)]]]; subst; auto 8;
      try lia; right; right; right; (split; [auto | lia]).
  - assert (I : readlen (dec wsctx) <= 0) by (apply I2; discriminate).
    destruct (readAndDecode _ _ _ _ _ _ _) as [[[[s' dd] cc] rr] ww] eqn:RD.
    apply readAndDecode_readlen in RD. rewrite Hst in RD.
    intros E; inv_pair. rsimpl. apply spor_agrees.
    destruct RD as [E1 | [E1 | [(E1 & Hr') | [(E1 & Hr') | [(E1 & Hr') | (E1 & Hr')]]]]];
      subst s'; auto 8; right; right; right; (split; [auto | lia]).
  - intros E; inv_pair. rsimpl. apply spor_agrees. auto.
  - assert (I : readlen (dec wsctx) <= 0) by (apply I2; discriminate).
    destruct (readAndDecode _ _ _ _ _ _ _) as [[[[s' dd] cc] rr] ww] eqn:RD.
    apply readAndDecode_readlen in RD. rewrite Hst in RD.
    intros E; inv_pair. rsimpl. apply spor_agrees.
    destruct RD as [E1 | [E1 | [(E1 & Hr') | [(E1 & Hr') | [(E1 & Hr') | (E1 & Hr')]]]]];
      subst s'; auto 8; right; right; right; (split; [auto | lia]).
  - intros E; inv_pair. rsimpl. apply spor_agrees. auto.
Qed.

(** X11.  Decoded bytes wait in the decoder exactly in state
    DATA_AVAILABLE: after any number of calls of the emulated recv on a
    session that starts in this relation (as a new session does), the
    number of decoded bytes is positive in DATA_AVAILABLE, is 0 while a
    header is awaited, and is never positive in the other states.  So
    [webSocketsHasDataInBuffer] answers TRUE whenever the decoder can
    deliver without reading, and, on a connection without TLS, FALSE
    whenever it waits for a header. *)
Theorem buffered_data_agrees_with_state (calls : nat) wsctx len w sslctx pending :
  readlen_agrees (dec wsctx) ->
  let '(_, c, _) := recv_loop b64_pton calls wsctx len w in
  readlen_agrees (dec c)
  /\ (state (dec c) = WS_STATE_DECODING_DATA_AVAILABLE ->
      webSocketsHasDataInBuffer (Some c) sslctx pending = true)
  /\ (state (dec c) = WS_STATE_DECODING_HEADER_PENDING ->
      webSocketsHasDataInBuffer (Some c) false pending = false).
Proof.
  revert wsctx w. induction calls as [|k IH]; intros wsctx w Hinv.
  - cbn [recv_loop]. split; [exact Hinv|].
    destruct Hinv as (I1 & I2 & I3). unfold webSocketsHasDataInBuffer.
    split; intros E.
    + specialize (I1 E). destruct (Z.eqb_spec (readlen (dec wsctx)) 0); [lia | reflexivity].
    + rewrite (I3 E). reflexivity.
  - cbn [recv_loop].
    destruct (_webSocketsDecode _ _ _ _ _) as [[[r d] c] w1] eqn:E.
    apply webSocketsDecode_agrees in E; [|exact Hinv].
    specialize (IH c w1 E).
    destruct (recv_loop b64_pton k c len w1) as [[out c2] w2]. exact IH.
Qed.

End Buffered.

Lemma buffered_data_agrees_with_state_witness :
  let '(_, c, _) :=
    recv_loop b64_pton_none 8 (new_session 32 false) 2
      (socket_with (bytewise frame_hello)) in
  readlen_agrees (dec c)
  /\ (state (dec c) = WS_STATE_DECODING_DATA_AVAILABLE ->
      webSocketsHasDataInBuffer (Some c) true 0 = true)
  /\ (state (dec c) = WS_STATE_DECODING_HEADER_PENDING ->
      webSocketsHasDataInBuffer (Some c) false 0 = false).
Proof.
  assert (H : readlen_agrees (dec (new_session 32 false))).
  { unfold readlen_agrees. vm_compute. repeat split; intros; try discriminate; reflexivity. }
  pose proof (buffered_data_agrees_with_state b64_pton_none 8 (new_session 32 false) 2
                (socket_with (bytewise frame_hello)) true 0 H) as P.
  exact P.
Defined.


(** ** The handshake *)

(** Unfold the updates of the loop variables, and nothing else. *)
Ltac hsimpl :=
  cbn [hs_buf hs_len hs_linestart hs_path hs_host hs_origin hs_protocol hs_key1 hs_key2
       hs_key3 hs_sec_ws_origin hs_sec_ws_key hs_sec_ws_version hs_wspath hs_errno
       hs_reads hs_set_buf hs_set_len hs_set_linestart hs_set_path hs_set_host
       hs_set_origin hs_set_protocol hs_set_key1 hs_set_key2 hs_set_key3
       hs_set_sec_ws_origin hs_set_sec_ws_key hs_set_sec_ws_version hs_set_wspath
       hs_set_io hs_nul fst snd] in *.

(** Two states of the loop with the same variables are the same state. *)
Lemma hs_vars_eq (s t : hs_vars) :
  hs_buf s = hs_buf t -> hs_len s = hs_len t -> hs_linestart s = hs_linestart t ->
  hs_path s = hs_path t -> hs_host s = hs_host t -> hs_origin s = hs_origin t ->
  hs_protocol s = hs_protocol t -> hs_key1 s = hs_key1 t -> hs_key2 s = hs_key2 t ->
  hs_key3 s = hs_key3 t -> hs_sec_ws_origin s = hs_sec_ws_origin t ->
  hs_sec_ws_key s = hs_sec_ws_key t -> hs_sec_ws_version s = hs_sec_ws_version t ->
  hs_wspath s = hs_wspath t -> hs_errno s = hs_errno t -> hs_reads s = hs_reads t ->
  s = t.
Proof.
  destruct s, t. cbn. intros. subst. reflexivity.
Qed.

Ltac hs_ext := apply hs_vars_eq; hsimpl; try reflexivity.

(** *** How much of the connection it reads *)

Lemma rfbReadExact_consumes n reads e ret e' bs rest :
  rfbReadExact n reads e = (ret, e', bs, rest) ->
  (length rest <= length reads)%nat
  /\ (length reads - length rest <= n)%nat
  /\ (length bs <= n)%nat
  /\ (0 < ret -> length bs = n /\ length reads = (length rest + n)%nat).
Proof.
  revert reads ret e' bs rest. induction n as [|k IH]; intros reads ret e' bs rest.
  - cbn [rfbReadExact]. intros E; inv_pair. cbn [length]. repeat split; lia.
  - cbn [rfbReadExact]. destruct reads as [|[b| |x] r].
    + intros E; inv_pair. cbn [length]. repeat split; lia.
    + destruct (rfbReadExact k r e) as [[[ret1 e1] bs1] r1] eqn:R.
      intros E; inv_pair. destruct (IH _ _ _ _ _ R) as (A & B & C & D).
      cbn [length]. repeat split; try lia; destruct (D ltac:(lia)); lia.
    + intros E; inv_pair. cbn [length]. repeat split; lia.
    + intros E; inv_pair. cbn [length]. repeat split; lia.
Qed.

Lemma handshake_header_io s llen :
  hs_reads (handshake_header s llen) = hs_reads s
  /\ hs_len (handshake_header s llen) = hs_len s
  /\ hs_key3 (handshake_header s llen) = hs_key3 s
  /\ length (hs_buf (handshake_header s llen)) = length (hs_buf s).
Proof.
  unfold handshake_header. cbn zeta.
  repeat match goal with
  | |- context [if ?c then _ else _] => destruct c
  end; hsimpl; rewrite ?buf_set_length; auto.
Qed.

Lemma handshake_step_consumes s x s' :
  handshake_step s = (x, s') ->
  hs_key3 s = None ->
  (length (hs_reads s') <= length (hs_reads s))%nat
  /\ length (hs_buf s') = length (hs_buf s)
  /\ match x with
     | LoopNext =>
         hs_len s' = hs_len s + 1 /\ hs_key3 s' = None
         /\ length (hs_reads s) = S (length (hs_reads s'))
     | LoopBreak =>
         (hs_key3 s' = None /\ hs_len s <= hs_len s' <= hs_len s + 1
          /\ (length (hs_reads s) - length (hs_reads s') <= 9)%nat)
         \/ (hs_key3 s' = Some (hs_len s + 1) /\ hs_len s' = hs_len s + 9
             /\ length (hs_reads s) = (length (hs_reads s') + 9)%nat)
     | LoopReturnFalse =>
         hs_key3 s' = None /\ hs_len s <= hs_len s' <= hs_len s + 1
         /\ (length (hs_reads s) - length (hs_reads s') <= 9)%nat
     end.
Proof.
  unfold handshake_step. intros E K.
  destruct (rfbReadExact 1 (hs_reads s) (hs_errno s)) as [[[n e] bytes] reads] eqn:R1.
  pose proof (rfbReadExact_consumes _ _ _ _ _ _ _ R1) as (A1 & B1 & C1 & D1).
  cbn zeta in E. hsimpl.
  destruct (Z.leb_spec n 0).
  - unfold read_failed in E. inv_pair. hsimpl. rewrite memcpy_length.
    split; [exact A1|]. split; [reflexivity|].
    destruct (_ && _); [left; split; [exact K|]; repeat split; lia |].
    split; [exact K|]. repeat split; lia.
  - destruct (D1 ltac:(lia)) as (D1a & D1b).
    destruct (_ && (buf_get _ _ =? 10)).
    + destruct (_ && strncmp_eq _ _ _).
      * destruct (is_set _ && is_set _).
        -- destruct (rfbReadExact 8 reads e) as [[[n2 e2] bytes2] reads2] eqn:R2.
           pose proof (rfbReadExact_consumes _ _ _ _ _ _ _ R2) as (A2 & B2 & C2 & D2).
           hsimpl. destruct (Z.leb_spec n2 0).
           ++ unfold read_failed in E. inv_pair. hsimpl. rewrite !memcpy_length.
              split; [lia|]. split; [reflexivity|].
              destruct (_ && _); [left; split; [exact K|]; repeat split; lia |].
              split; [exact K|]. repeat split; lia.
           ++ destruct (D2 ltac:(lia)) as (D2a & D2b). inv_pair. hsimpl.
              rewrite !memcpy_length. split; [lia|]. split; [reflexivity|].
              right. repeat split; lia.
        -- inv_pair. hsimpl. rewrite buf_set_length, memcpy_length.
           split; [lia|]. split; [reflexivity|]. left. repeat split; try lia. exact K.
      * inv_pair. hsimpl.
        match goal with
        | |- context [handshake_header ?a ?b] =>
            pose proof (handshake_header_io a b) as (H1 & H2 & H3 & H4)
        end.
        hsimpl. rewrite H1, H2, H3, H4, memcpy_length. repeat split; try lia. exact K.
    + inv_pair. hsimpl. rewrite memcpy_length. repeat split; try lia. exact K.
Qed.

Lemma handshake_loop_bounds rounds : forall s failed s',
  handshake_loop rounds s = (failed, s') ->
  hs_key3 s = None -> 0 <= hs_len s <= WEBSOCKETS_MAX_HANDSHAKE_LEN - 1 ->
  (length (hs_reads s') <= length (hs_reads s))%nat
  /\ length (hs_buf s') = length (hs_buf s)
  /\ (length (hs_reads s) - length (hs_reads s')
      <= Z.to_nat (WEBSOCKETS_MAX_HANDSHAKE_LEN - 1 - hs_len s) + 8)%nat
  /\ hs_len s <= hs_len s'
  /\ ((hs_key3 s' = None /\ hs_len s' <= WEBSOCKETS_MAX_HANDSHAKE_LEN - 1)
      \/ (exists k, hs_key3 s' = Some k /\ hs_len s' = k + 8
                    /\ k <= WEBSOCKETS_MAX_HANDSHAKE_LEN - 1)).
Proof.
  unfold WEBSOCKETS_MAX_HANDSHAKE_LEN.
  induction rounds as [|k IH]; intros s failed s' E K Hl.
  - cbn [handshake_loop] in E. inv_pair. repeat split; try lia. left. split; [exact K | lia].
  - cbn [handshake_loop] in E. unfold WEBSOCKETS_MAX_HANDSHAKE_LEN in E.
    destruct (Z.ltb_spec (hs_len s) (4096 - 1)).
    + destruct (handshake_step s) as [x s1] eqn:St.
      pose proof (handshake_step_consumes _ _ _ St K) as (A & B & C).
      destruct x.
      * destruct C as (C1 & C2 & C3).
        destruct (IH _ _ _ E C2 ltac:(lia)) as (I1 & I2 & I3 & I4 & I5).
        split; [lia|]. split; [congruence|]. split; [lia|]. split; [lia|]. exact I5.
      * inv_pair. split; [lia|]. split; [exact B|].
        destruct C as [(C1 & C2 & C3) | (C1 & C2 & C3)].
        -- split; [lia|]. split; [lia|]. left. split; [exact C1 | lia].
        -- split; [lia|]. split; [lia|]. right. exists (hs_len s + 1).
           repeat split; try lia. exact C1.
      * inv_pair. destruct C as (C1 & C2 & C3). split; [lia|]. split; [exact B|].
        split; [lia|]. split; [lia|]. left. split; [exact C1 | lia].
    + inv_pair. repeat split; try lia. left. split; [exact K | lia].
Qed.

(** *** The loop acts on complete lines *)

Lemma buf_get_memcpy_last (buf l : list Z) (p b : Z) :
  0 <= p -> p + Z.of_nat (length l) + 1 <= Z.of_nat (length buf) ->
  buf_get (memcpy buf p (l ++ [b])) (p + Z.of_nat (length l)) = b.
Proof.
  intros Hp Hl. rewrite buf_get_memcpy by (rewrite ?length_app; cbn [length]; lia).
  rewrite length_app. cbn [length].
  destruct (Z.leb_spec p (p + Z.of_nat (length l))); [|lia].
  destruct (Z.ltb_spec (p + Z.of_nat (length l)) (p + Z.of_nat (length l + 1))); [|lia].
  cbn [andb]. rewrite buf_get_nth by lia.
  replace (Z.to_nat (p + Z.of_nat (length l) - p)) with (length l) by lia.
  rewrite app_nth2 by lia. rewrite Nat.sub_diag. reflexivity.
Qed.

Lemma memcpy_snoc (buf l : list Z) (p b : Z) :
  memcpy buf p (l ++ [b]) = buf_set (memcpy buf p l) (p + Z.of_nat (length l)) b.
Proof.
  revert buf p. induction l as [|x l IH]; intros buf p.
  - cbn [app memcpy length]. rewrite Z.add_0_r. reflexivity.
  - cbn [app memcpy length]. rewrite IH. f_equal. lia.
Qed.

(** Bytes that are no newline are stored, and nothing else happens. *)
Lemma handshake_loop_bytes (rounds : nat) (l : list Z) : forall s rest,
  hs_reads s = delivers l ++ rest ->
  Forall (fun b => b <> 10) l ->
  0 <= hs_len s ->
  hs_len s + Z.of_nat (length l) <= WEBSOCKETS_MAX_HANDSHAKE_LEN - 1 ->
  hs_len s + Z.of_nat (length l) <= Z.of_nat (length (hs_buf s)) ->
  handshake_loop (length l + rounds) s
  = handshake_loop rounds
      (hs_set_io (hs_errno s) rest
         (hs_set_len (hs_len s + Z.of_nat (length l))
            (hs_set_buf (memcpy (hs_buf s) (hs_len s) l) s))).
Proof.
  unfold WEBSOCKETS_MAX_HANDSHAKE_LEN.
  induction l as [|b l IH]; intros s rest Hr Hn H0 H1 H2.
  - cbn [length Nat.add memcpy]. cbn [delivers map app] in Hr.
    f_equal. hs_ext; auto; lia.
  - inversion Hn as [|? ? Hb Hl]; subst. cbn [length] in *.
    cbn [Nat.add handshake_loop]. unfold WEBSOCKETS_MAX_HANDSHAKE_LEN.
    destruct (Z.ltb_spec (hs_len s) (4096 - 1)); [|lia].
    assert (St : handshake_step s
                 = (LoopNext,
                    hs_set_io (hs_errno s) (delivers l ++ rest)
                      (hs_set_len (hs_len s + 1)
                         (hs_set_buf (memcpy (hs_buf s) (hs_len s) [b]) s)))).
    { unfold handshake_step. rewrite Hr. cbn [delivers map app rfbReadExact].
      change (1 <=? 0) with false. cbn iota. hsimpl.
      replace (hs_len s + 1 - 1) with (hs_len s) by lia.
      pose proof (buf_get_memcpy_last (hs_buf s) [] (hs_len s) b H0
                    ltac:(cbn [length]; lia)) as G.
      cbn [app length] in G. rewrite Z.add_0_r in G. rewrite G.
      destruct (Z.eqb_spec b 10); [contradiction|].
      rewrite andb_false_r. reflexivity. }
    rewrite St. rewrite (IH _ rest); hsimpl; rewrite ?memcpy_length; try lia; auto.
    f_equal. hs_ext. lia.
Qed.

(** A line of at least two bytes that ends in its only newline and is not
    the empty line CR LF: the bytes are stored one by one and the chain of
    tests on header names runs once, when the newline is there. *)
Lemma handshake_loop_one_line (rounds : nat) (l : list Z) (s : hs_vars)
    (rest : list read_event) :
  hs_reads s = delivers (l ++ [10]) ++ rest ->
  Forall (fun b => b <> 10) l -> l <> [] -> l <> [13] ->
  hs_linestart s = hs_len s -> 0 <= hs_len s ->
  hs_len s + Z.of_nat (length l) + 1 <= WEBSOCKETS_MAX_HANDSHAKE_LEN - 1 ->
  hs_len s + Z.of_nat (length l) + 1 <= Z.of_nat (length (hs_buf s)) ->
  handshake_loop (length l + S rounds) s
  = handshake_loop rounds (line_done (hs_set_io (hs_errno s) rest s) (l ++ [10])).
Proof.
  unfold WEBSOCKETS_MAX_HANDSHAKE_LEN.
  intros Hr Hn Hne Hnb Hls H0 H1 H2.
  unfold delivers in Hr. rewrite map_app, <- app_assoc in Hr. fold (delivers l) in Hr.
  rewrite (handshake_loop_bytes (S rounds) l s _ Hr Hn H0)
    by (unfold WEBSOCKETS_MAX_HANDSHAKE_LEN; lia).
  cbn [handshake_loop]. hsimpl. unfold WEBSOCKETS_MAX_HANDSHAKE_LEN.
  destruct (Z.ltb_spec (hs_len s + Z.of_nat (length l)) (4096 - 1)); [|lia].
  unfold handshake_step. hsimpl. cbn [map app rfbReadExact]. hsimpl.
  change (1 <=? 0) with false. cbn iota.
  replace (hs_len s + Z.of_nat (length l) + 1 - 1) with (hs_len s + Z.of_nat (length l))
    by lia.
  change (memcpy (memcpy (hs_buf s) (hs_len s) l) (hs_len s + Z.of_nat (length l)) [10])
    with (buf_set (memcpy (hs_buf s) (hs_len s) l) (hs_len s + Z.of_nat (length l)) 10).
  rewrite <- memcpy_snoc.
  rewrite buf_get_memcpy_last by lia.
  change (10 =? 10) with true. rewrite andb_true_r.
  assert (Hlen : (1 <= length l)%nat) by (destruct l; [congruence | cbn; lia]).
  rewrite Hls.
  destruct (Z.geb_spec (hs_len s + Z.of_nat (length l) + 1 - hs_len s) 2); [|lia].
  assert (Hblank :
    (hs_len s + Z.of_nat (length l) + 1 - hs_len s =? 2)
    && strncmp_eq (literal crlf)
         (buf_from (memcpy (hs_buf s) (hs_len s) (l ++ [10])) (hs_len s)) 2 = false).
  { destruct (Z.eqb_spec (hs_len s + Z.of_nat (length l) + 1 - hs_len s) 2) as [E2|];
      [|reflexivity].
    cbn [andb]. destruct l as [|b [|c l']]; cbn [length] in *; try lia.
    unfold buf_from. destruct (Z.ltb_spec (hs_len s) 0); [lia|].
    rewrite memcpy_slice by (cbn [length app]; lia).
    rewrite skipn_app, skipn_all2 by (rewrite length_firstn; lia).
    rewrite length_firstn.
    replace (Z.to_nat (hs_len s) - Nat.min (Z.to_nat (hs_len s)) (length (hs_buf s)))%nat
      with 0%nat by lia.
    cbn [app skipn]. unfold literal, crlf, cr, newline.
    cbn [strncmp_eq bytes_of_string list_ascii_of_string map app String.append].
    change (Z.of_nat (nat_of_ascii (ascii_of_nat 13))) with 13.
    destruct (Z.eqb_spec 13 b); [|reflexivity].
    exfalso. apply Hnb. subst b. reflexivity. }
  rewrite Hblank. unfold line_done. hsimpl.
  rewrite length_app. cbn [length].
  replace (hs_len s + Z.of_nat (length l + 1)) with (hs_len s + Z.of_nat (length l) + 1)
    by lia.
  rewrite Hls. f_equal.
  match goal with
  | |- hs_set_linestart _ (handshake_header ?a _) = hs_set_linestart _ (handshake_header ?b _) =>
      assert (Es : a = b) by hs_ext; rewrite Es
  end.
  destruct (handshake_header_io
              (hs_set_len (hs_len s + Z.of_nat (length l) + 1)
                 (hs_set_buf (memcpy (hs_buf s) (hs_len s) (l ++ [10]))
                    (hs_set_io (hs_errno s) rest s)))
              (hs_len s + Z.of_nat (length l) + 1 - hs_len s)) as (_ & El & _).
  rewrite El. hsimpl. reflexivity.
Qed.

Lemma handshake_header_set_io e r s llen :
  handshake_header (hs_set_io e r s) llen = hs_set_io e r (handshake_header s llen).
Proof.
  unfold handshake_header. cbn zeta. hsimpl.
  repeat match goal with
  | |- context [if ?c then _ else _] => destruct c
  end; hs_ext.
Qed.

Lemma line_done_set_io e r s line :
  line_done (hs_set_io e r s) line = hs_set_io e r (line_done s line).
Proof.
  unfold line_done. cbn zeta. hsimpl.
  match goal with
  | |- hs_set_linestart _ (handshake_header ?a ?n) = _ =>
      replace a with (hs_set_io e r
                        (hs_set_len (hs_len s + Z.of_nat (length line))
                           (hs_set_buf (memcpy (hs_buf s) (hs_len s) line) s)))
        by hs_ext
  end.
  rewrite handshake_header_set_io. hs_ext.
Qed.

Lemma line_done_io s line :
  hs_reads (line_done s line) = hs_reads s
  /\ hs_errno (line_done s line) = hs_errno s
  /\ hs_len (line_done s line) = hs_len s + Z.of_nat (length line)
  /\ hs_linestart (line_done s line) = hs_len s + Z.of_nat (length line)
  /\ length (hs_buf (line_done s line)) = length (hs_buf s).
Proof.
  unfold line_done. cbn zeta. hsimpl.
  match goal with
  | |- context [handshake_header ?a ?n] =>
      pose proof (handshake_header_io a n) as (H1 & H2 & _ & H4);
      assert (H5 : hs_errno (handshake_header a n) = hs_errno a)
        by (unfold handshake_header; cbn zeta;
            repeat match goal with
            | |- context [if ?c then _ else _] => destruct c
            end; hsimpl; reflexivity)
  end.
  hsimpl. rewrite memcpy_length in H4. auto.
Qed.

Lemma is_line_spec (l : list Z) :
  is_line l = true -> Forall (fun b => b <> 10) l /\ l <> [] /\ l <> [13].
Proof.
  unfold is_line. intros H. apply andb_true_iff in H. destruct H as (F & N).
  split; [|split].
  - apply Forall_forall. intros b Hb. rewrite forallb_forall in F.
    specialize (F b Hb). destruct (Z.eqb_spec b 10); [discriminate | assumption].
  - destruct l; [discriminate | discriminate].
  - intros ->. discriminate.
Qed.

(** X12.  The loop of the handshake acts on complete lines: when the
    connection delivers, at the start of a line, lines of at least two
    bytes that end in their only newline, none of them the empty line
    CR LF, the bytes are stored one by one, and for each line in turn the
    chain of tests on header names runs once, on the whole line, when its
    newline is there. *)
Theorem handshake_loop_by_lines (lines : list (list Z)) :
  forall (rounds : nat) (s : hs_vars) (rest : list read_event),
  forallb is_line lines = true ->
  hs_reads s = delivers (bytes_of_lines lines) ++ rest ->
  hs_linestart s = hs_len s -> 0 <= hs_len s ->
  hs_len s + Z.of_nat (length (bytes_of_lines lines))
  <= WEBSOCKETS_MAX_HANDSHAKE_LEN - 1 ->
  hs_len s + Z.of_nat (length (bytes_of_lines lines)) <= Z.of_nat (length (hs_buf s)) ->
  handshake_loop (length (bytes_of_lines lines) + rounds) s
  = handshake_loop rounds
      (fold_left line_done (map (fun l => l ++ [10]) lines)
         (hs_set_io (hs_errno s) rest s)).
Proof.
  induction lines as [|l lines IH]; intros rounds s rest Ok Hr Hls H0 H1 H2.
  - cbn [bytes_of_lines map concat length Nat.add fold_left delivers app] in *.
    f_equal. hs_ext. exact Hr.
  - cbn [forallb] in Ok. apply andb_true_iff in Ok. destruct Ok as (Ol & Ok).
    destruct (is_line_spec l Ol) as (F & N1 & N2).
    unfold bytes_of_lines in *. cbn [map concat fold_left] in *.
    set (tl := concat (map (fun l => l ++ [10]) lines)) in *.
    rewrite !length_app in *. cbn [length] in *.
    unfold delivers in Hr. rewrite map_app, <- app_assoc in Hr.
    fold (delivers (l ++ [10])) in Hr. fold (delivers tl) in Hr.
    replace (length l + 1 + length tl + rounds)%nat
      with (length l + S (length tl + rounds))%nat by lia.
    unfold WEBSOCKETS_MAX_HANDSHAKE_LEN in *.
    rewrite (handshake_loop_one_line _ l s _ Hr F N1 N2 Hls H0)
      by (unfold WEBSOCKETS_MAX_HANDSHAKE_LEN; lia).
    set (s1 := line_done _ (l ++ [10])).
    destruct (line_done_io (hs_set_io (hs_errno s) (delivers tl ++ rest) s) (l ++ [10]))
      as (R1 & R2 & R3 & R4 & R5).
    fold s1 in R1, R2, R3, R4, R5. hsimpl.
    rewrite length_app in R3, R4. cbn [length] in R3, R4.
    rewrite (IH rounds s1 rest Ok R1) by lia.
    f_equal. f_equal. unfold s1. rewrite !line_done_set_io. hs_ext.
Qed.

(** *** What it takes from the connection *)

Lemma rfbReadExact_suffix n : forall reads e ret e' bs rest,
  rfbReadExact n reads e = (ret, e', bs, rest) ->
  exists taken, reads = taken ++ rest.
Proof.
  induction n as [|k IH]; intros reads e ret e' bs rest.
  - cbn [rfbReadExact]. intros E; inv_pair. exists []. reflexivity.
  - cbn [rfbReadExact]. destruct reads as [|[b| |x] r].
    + intros E; inv_pair. exists []. reflexivity.
    + destruct (rfbReadExact k r e) as [[[ret1 e1] bs1] r1] eqn:R.
      intros E; inv_pair. destruct (IH _ _ _ _ _ _ R) as (t & ->).
      exists (ReadByte b :: t). reflexivity.
    + intros E; inversion E; subst. exists [ReadClosed]. reflexivity.
    + intros E; inversion E; subst. exists [ReadFails e']. reflexivity.
Qed.

Lemma handshake_step_suffix s x s' :
  handshake_step s = (x, s') -> exists taken, hs_reads s = taken ++ hs_reads s'.
Proof.
  unfold handshake_step. intros E.
  destruct (rfbReadExact 1 (hs_reads s) (hs_errno s)) as [[[n e] bytes] reads] eqn:R1.
  destruct (rfbReadExact_suffix _ _ _ _ _ _ _ R1) as (t1 & E1).
  cbn zeta in E. hsimpl.
  destruct (n <=? 0); [inv_pair; hsimpl; eauto|].
  destruct (_ && (buf_get _ _ =? 10)); [|inv_pair; hsimpl; eauto].
  destruct (_ && strncmp_eq _ _ _).
  - destruct (is_set _ && is_set _); [|inv_pair; hsimpl; eauto].
    destruct (rfbReadExact 8 reads e) as [[[n2 e2] bytes2] reads2] eqn:R2.
    destruct (rfbReadExact_suffix _ _ _ _ _ _ _ R2) as (t2 & E2).
    hsimpl. exists (t1 ++ t2). rewrite <- app_assoc.
    destruct (n2 <=? 0); inv_pair; hsimpl; congruence.
  - inv_pair. hsimpl.
    match goal with
    | |- context [handshake_header ?a ?b] =>
        pose proof (handshake_header_io a b) as (H1 & _)
    end.
    rewrite H1. hsimpl. eauto.
Qed.

Lemma handshake_loop_suffix rounds : forall s failed s',
  handshake_loop rounds s = (failed, s') ->
  exists taken, hs_reads s = taken ++ hs_reads s'.
Proof.
  induction rounds as [|k IH]; intros s failed s' E; cbn [handshake_loop] in E.
  - inv_pair. exists []. reflexivity.
  - destruct (hs_len s <? _); [|inv_pair; exists []; reflexivity].
    destruct (handshake_step s) as [x s1] eqn:St.
    destruct (handshake_step_suffix _ _ _ St) as (t1 & E1).
    destruct x; inv_pair; eauto.
    destruct (IH _ _ _ E) as (t2 & E2). exists (t1 ++ t2).
    rewrite <- app_assoc. congruence.
Qed.

Section HandshakeFacts.

Variable digestsha1 : list Z -> list Z.
Variable b64_ntop : list Z -> Z -> Z * list Z.
Variable cap : nat.

Lemma handshake_reply_unread response accept_block write_ok cl s ret cl' unread :
  handshake_reply digestsha1 b64_ntop cap response accept_block write_ok cl s
  = HsReturn ret cl' unread ->
  unread = hs_reads s.
Proof.
  unfold handshake_reply.
  destruct (_ =? 0); [congruence|]. destruct (negb _); [congruence|].
  destruct (select_protocol _) as [b p]. destruct (hs_sec_ws_key s); [|discriminate].
  destruct (negb write_ok); congruence.
Qed.

(** X13.  Whatever the client sends, a call of [webSocketsHandshake]
    that returns has taken at most 4103 reads from the connection (4095
    single bytes, and the eight bytes of key3), and what it leaves unread
    is the rest of the connection in order. *)
Theorem handshake_takes_at_most_4103_reads buf_block response_block accept_block e reads
    write_ok cl scheme ret cl' unread :
  webSocketsHandshake digestsha1 b64_ntop cap buf_block response_block accept_block e
    reads write_ok cl scheme = HsReturn ret cl' unread ->
  exists taken, reads = taken ++ unread /\ (length taken <= 4103)%nat.
Proof.
  unfold webSocketsHandshake. intros E.
  destruct buf_block as [buf|]; [|inv_pair; inversion E; subst; exists []; split; [reflexivity | cbn; lia]].
  destruct response_block as [response|];
    [|inversion E; subst; exists []; split; [reflexivity | cbn; lia]].
  destruct (handshake_loop _ _) as [failed s] eqn:L.
  destruct (handshake_loop_suffix _ _ _ _ L) as (taken & Ht).
  pose proof (handshake_loop_bounds _ _ _ _ L eq_refl
                ltac:(unfold WEBSOCKETS_MAX_HANDSHAKE_LEN; cbn; lia)) as (B1 & _ & B3 & _).
  cbn [hs_reads hs_len] in Ht, B1, B3.
  assert (U : unread = hs_reads s).
  { destruct failed; [inversion E; reflexivity|].
    eapply handshake_reply_unread; eassumption. }
  subst unread. exists taken. split; [exact Ht|].
  rewrite Ht, length_app in B3. unfold WEBSOCKETS_MAX_HANDSHAKE_LEN in B3. lia.
Qed.

End HandshakeFacts.

(** *** A request without a version *)

Lemma mentions_split name pre : forall post,
  mentions name (pre ++ post) = false ->
  strncasecmp_eq (literal name) post (String.length name) = false.
Proof.
  induction pre as [|x pre IH]; intros post M.
  - cbn [app] in M. destruct post; cbn [mentions] in M;
      apply orb_false_iff in M; tauto.
  - cbn [app mentions] in M. apply orb_false_iff in M. apply IH. tauto.
Qed.

(** Only the first [n] bytes count. *)
Lemma strncasecmp_eq_prefix n : forall a x y z,
  (n <= length x)%nat ->
  strncasecmp_eq a (x ++ y) n = strncasecmp_eq a (x ++ z) n.
Proof.
  induction n as [|k IH]; intros a x y z L; [reflexivity|].
  destruct x as [|b x]; [cbn [length] in L; lia|].
  cbn [app strncasecmp_eq]. destruct a as [|c a]; [reflexivity|].
  destruct (tolower c =? tolower b); [|reflexivity].
  destruct (c =? 0); [reflexivity|]. apply IH. cbn [length] in L. lia.
Qed.

Lemma strncasecmp_eq_nth n : forall a b i,
  strncasecmp_eq a b n = true -> (i < n)%nat ->
  (forall j, (j <= i)%nat -> nth j a 0 <> 0) ->
  tolower (nth i a 0) = tolower (nth i b 0).
Proof.
  induction n as [|k IH]; intros a b i E Hi Hz; [lia|].
  cbn [strncasecmp_eq] in E. destruct a as [|x a]; [discriminate|].
  destruct b as [|y b]; [discriminate|].
  destruct (Z.eqb_spec (tolower x) (tolower y)) as [T|]; [|discriminate].
  destruct i as [|i]; [exact T|].
  destruct (Z.eqb_spec x 0) as [X|_]; [exfalso; apply (Hz 0%nat); [lia | exact X]|].
  cbn [nth]. apply IH; [exact E | lia |].
  intros j Hj. apply (Hz (S j)). lia.
Qed.

Lemma version_name_chars (i : nat) :
  (i < 23)%nat ->
  nth i (literal "sec-websocket-version: ") 0 <> 0
  /\ tolower (nth i (literal "sec-websocket-version: ") 0) <> 10.
Proof.
  intros Hi.
  do 23 (destruct i as [|i]; [vm_compute; split; discriminate|]). lia.
Qed.

Lemma handshake_header_version s llen :
  strncasecmp_eq (literal "sec-websocket-version: ")
    (buf_from (hs_buf s) (hs_linestart s)) (Z.to_nat (min llen 23)) = false ->
  hs_sec_ws_version (handshake_header s llen) = hs_sec_ws_version s.
Proof.
  intros T. unfold handshake_header. cbn zeta. rewrite T.
  repeat match goal with
  | |- context [if ?c then _ else _] => destruct c
  end; hsimpl; reflexivity.
Qed.

(** The bytes of the line that is being read. *)
Lemma line_bytes_snoc (buf : list Z) (ls len b : Z) :
  0 <= ls <= len -> len < Z.of_nat (length buf) ->
  firstn (Z.to_nat (len + 1 - ls)) (skipn (Z.to_nat ls) (buf_set buf len b))
  = firstn (Z.to_nat (len - ls)) (skipn (Z.to_nat ls) buf) ++ [b].
Proof.
  intros H0 H1.
  change (buf_set buf len b) with (memcpy buf len [b]).
  rewrite memcpy_slice by (cbn [length]; lia).
  rewrite skipn_app, length_firstn.
  replace (Z.to_nat ls - Nat.min (Z.to_nat len) (length buf))%nat with 0%nat by lia.
  cbn [skipn]. rewrite firstn_app, length_skipn, length_firstn.
  replace (Z.to_nat (len + 1 - ls) - (Nat.min (Z.to_nat len) (length buf) - Z.to_nat ls))%nat
    with 1%nat by lia.
  cbn [app firstn]. f_equal.
  rewrite firstn_all2 by (rewrite length_skipn, length_firstn; lia).
  rewrite firstn_skipn_comm. f_equal. f_equal. lia.
Qed.

Section NoVersion.

Variable req : list Z.
Hypothesis no_version : mentions "sec-websocket-version: " req = false.

Lemma handshake_step_no_version s x s' :
  no_version_yet req s -> hs_len s < WEBSOCKETS_MAX_HANDSHAKE_LEN - 1 ->
  handshake_step s = (x, s') ->
  hs_sec_ws_version s' = 0 /\ (x = LoopNext -> no_version_yet req s').
Proof.
  unfold no_version_yet, WEBSOCKETS_MAX_HANDSHAKE_LEN.
  intros (V & R & _ & B & pre & P) L. unfold handshake_step.
  set (read8 := rfbReadExact 8). clearbody read8.
  destruct (hs_reads s) as [|[b| |e] r] eqn:Hr; cbn [rfbReadExact];
    change (-1 <=? 0) with true; change (0 <=? 0) with true;
    change (1 <=? 0) with false; cbn iota; unfold read_failed;
    try (destruct (_ && _); intros E; injection E as <- <-; hsimpl;
         (split; [exact V | discriminate])).
  cbn [bytes_before_stop] in P. cbn [memcpy]. hsimpl.
  replace (hs_len s + 1 - 1) with (hs_len s) by lia.
  pose proof (line_bytes_snoc (hs_buf s) (hs_linestart s) (hs_len s) b R ltac:(lia)) as Seg.
  assert (Get : buf_get (buf_set (hs_buf s) (hs_len s) b) (hs_len s) = b).
  { pose proof (buf_get_memcpy_last (hs_buf s) [] (hs_len s) b ltac:(lia)
                  ltac:(cbn [length]; lia)) as G.
    cbn [app length memcpy] in G. rewrite Z.add_0_r in G. exact G. }
  rewrite Get.
  destruct (Z.geb_spec (hs_len s + 1 - hs_linestart s) 2) as [L2|L2]; cbn [andb].
  2:{ intros E; injection E as <- <-; hsimpl. split; [exact V|]. intros _.
      rewrite buf_set_length. repeat split; try lia.
      exists pre. rewrite Seg, <- app_assoc. exact P. }
  destruct (Z.eqb_spec b 10) as [->|Nb].
  2:{ intros E; injection E as <- <-; hsimpl. split; [exact V|]. intros _.
      rewrite buf_set_length. repeat split; try lia.
      exists pre. rewrite Seg, <- app_assoc. exact P. }
  destruct (_ && strncmp_eq _ _ _).
  { destruct (is_set _ && is_set _).
    - destruct (read8 r (hs_errno s)) as [[[n2 e2] bytes2] reads2].
      hsimpl. destruct (n2 <=? 0); [destruct ((n2 <? 0) && errno_is_ETIMEDOUT e2)|];
        cbn iota; intros E; injection E as <- <-; hsimpl; (split; [exact V | discriminate]).
    - intros E; injection E as <- <-; hsimpl; (split; [exact V | discriminate]). }
  intros E; injection E as <- <-. hsimpl.
  match goal with
  | |- context [handshake_header ?a ?b] =>
      pose proof (handshake_header_io a b) as (H1 & H2 & _ & H4);
      pose proof (handshake_header_version a b) as H5; set (hh := handshake_header a b) in *
  end.
  hsimpl. rewrite buf_set_length in H4.
  assert (hs_sec_ws_version hh = 0) as V'.
  { rewrite H5; [exact V|].
    unfold buf_from. destruct (Z.ltb_spec (hs_linestart s) 0); [lia|].
    set (llen := hs_len s + 1 - hs_linestart s) in *.
    set (at_line := skipn (Z.to_nat (hs_linestart s)) (buf_set (hs_buf s) (hs_len s) 10)) in *.
    assert (La : (Z.to_nat llen <= length at_line)%nat).
    { unfold at_line. rewrite length_skipn, buf_set_length. lia. }
    destruct (strncasecmp_eq _ at_line _) eqn:T; [exfalso | reflexivity].
    unfold min in T. destruct (Z.ltb_spec llen 23) as [Lt|Ge].
    - pose proof (strncasecmp_eq_nth _ _ _ (Z.to_nat llen - 1) T ltac:(lia)) as N.
      assert (Hn : nth (Z.to_nat llen - 1) at_line 0 = 10).
      { rewrite <- (firstn_skipn (Z.to_nat llen) at_line).
        rewrite app_nth1 by (rewrite length_firstn; lia).
        rewrite Seg. rewrite app_nth2 by (rewrite length_firstn, length_skipn; lia).
        rewrite length_firstn, length_skipn.
        replace (Z.to_nat llen - 1
                 - Nat.min (Z.to_nat (hs_len s - hs_linestart s))
                     (length (hs_buf s) - Z.to_nat (hs_linestart s)))%nat
          with 0%nat by lia.
        reflexivity. }
      rewrite Hn in N.
      destruct (version_name_chars (Z.to_nat llen - 1) ltac:(lia)) as (_ & C).
      apply C. apply N. intros j Hj.
      apply (version_name_chars j). lia.
    - rewrite <- (firstn_skipn (Z.to_nat llen) at_line) in T. rewrite Seg in T.
      pose proof no_version as NV. rewrite P in NV.
      apply mentions_split in NV.
      change (10 :: bytes_before_stop r) with ([10] ++ bytes_before_stop r) in NV.
      cbn [String.length] in NV.
      change (Z.to_nat 23) with 23%nat in T.
      rewrite app_assoc in NV.
      rewrite (strncasecmp_eq_prefix 23 _ _ _ (skipn (Z.to_nat llen) at_line)) in NV
        by (rewrite length_app, length_firstn, length_skipn; cbn [length]; lia).
      congruence. }
  split; [exact V'|]. intros _. split; [exact V'|].
  rewrite H2, H4. hsimpl. repeat split; try lia.
  exists (pre ++ firstn (Z.to_nat (hs_len s - hs_linestart s))
                   (skipn (Z.to_nat (hs_linestart s)) (hs_buf s)) ++ [10]).
  rewrite Z.sub_diag. cbn [Z.to_nat firstn app]. rewrite <- !app_assoc. rewrite H1.
  exact P.
Qed.

Lemma handshake_loop_no_version rounds : forall s failed s',
  no_version_yet req s -> handshake_loop rounds s = (failed, s') ->
  hs_sec_ws_version s' = 0.
Proof.
  induction rounds as [|k IH]; intros s failed s' I E; cbn [handshake_loop] in E.
  - injection E as _ <-. apply I.
  - destruct (Z.ltb_spec (hs_len s) (WEBSOCKETS_MAX_HANDSHAKE_LEN - 1)) as [L|_];
      [|injection E as _ <-; apply I].
    destruct (handshake_step s) as [x s1] eqn:St.
    destruct (handshake_step_no_version _ _ _ I L St) as (V & N).
    destruct x; [eapply IH; [apply N; reflexivity | exact E] | |];
      injection E as _ <-; exact V.
Qed.

End NoVersion.

Section Refusals.

Variable digestsha1 : list Z -> list Z.
Variable b64_ntop : list Z -> Z -> Z * list Z.
Variable cap : nat.

(** X14.  A request in which no bytes read as the header name
    "Sec-WebSocket-Version: " (in any case) is refused: the handshake
    returns FALSE, sends nothing, and leaves the client without a session.
    The request is what the connection delivers up to the first read that
    fails; [buf] is the block of 4096 bytes that [malloc] has given. *)
Theorem request_without_version_is_refused buf response accept_block e reads write_ok cl
    scheme :
  length buf = Z.to_nat WEBSOCKETS_MAX_HANDSHAKE_LEN ->
  mentions "sec-websocket-version: " (bytes_before_stop reads) = false ->
  exists cl' unread,
    webSocketsHandshake digestsha1 b64_ntop cap (Some buf) (Some response) accept_block e
      reads write_ok cl scheme = HsReturn false cl' unread
    /\ written cl' = written cl /\ wsctx_of cl' = wsctx_of cl.
Proof.
  intros B M. unfold webSocketsHandshake.
  destruct (handshake_loop _ _) as [failed s] eqn:L.
  assert (V : hs_sec_ws_version s = 0).
  { eapply (handshake_loop_no_version _ M); [|exact L].
    unfold no_version_yet, WEBSOCKETS_MAX_HANDSHAKE_LEN. hsimpl.
    repeat split; try lia; try exact B. exists []. reflexivity. }
  destruct failed.
  - eexists _, _. split; [reflexivity|]. split; reflexivity.
  - unfold handshake_reply. rewrite V. cbn [Z.eqb].
    eexists _, _. split; [reflexivity|]. split; reflexivity.
Qed.

End Refusals.


(** *** Strings in the buffer *)

Lemma cstring_map_seq (f : nat -> Z) (v : list Z) : forall a n,
  (forall i, (i < length v)%nat -> f (a + i)%nat = nth i v 0) ->
  f (a + length v)%nat = 0 ->
  (length v < n)%nat ->
  forallb (fun b => negb (b =? 0)) v = true ->
  cstring (map f (seq a n)) = v.
Proof.
  induction v as [|x v IH]; intros a n Hv H0 Hn Nz.
  - destruct n as [|n]; [cbn [length] in Hn; lia|].
    cbn [seq map cstring]. cbn [length] in H0. rewrite Nat.add_0_r in H0.
    rewrite H0. reflexivity.
  - destruct n as [|n]; [lia|]. cbn [length] in *.
    cbn [forallb] in Nz. apply andb_true_iff in Nz. destruct Nz as (Nx & Nz).
    cbn [seq map cstring].
    pose proof (Hv 0%nat ltac:(lia)) as H. rewrite Nat.add_0_r in H. cbn [nth] in H.
    rewrite H. destruct (x =? 0); [discriminate|]. f_equal.
    apply IH; try lia; try assumption.
    + intros i Hi. replace (S a + i)%nat with (a + S i)%nat by lia.
      rewrite Hv by lia. reflexivity.
    + replace (S a + length v)%nat with (a + S (length v))%nat by lia. exact H0.
Qed.

Lemma stored_cstring_at (buf v : list Z) (p : Z) :
  stored buf p v -> 0 <= p -> p + Z.of_nat (length v) < Z.of_nat (length buf) ->
  forallb (fun b => negb (b =? 0)) v = true ->
  cstring_at buf p = v.
Proof.
  intros (S1 & S2) H0 H1 Nz. unfold cstring_at, buf_read, ARRAYSIZE.
  apply cstring_map_seq; try assumption; try lia.
Qed.

Lemma stored_memcpy (buf v l : list Z) (p q : Z) :
  stored buf p v -> p + Z.of_nat (length v) < q -> stored (memcpy buf q l) p v.
Proof.
  intros (S1 & S2) H. split.
  - intros i Hi. rewrite buf_get_memcpy_out by lia. apply S1. exact Hi.
  - rewrite buf_get_memcpy_out by lia. exact S2.
Qed.

Lemma stored_buf_set (buf v : list Z) (p q b : Z) :
  stored buf p v -> p + Z.of_nat (length v) < q -> stored (buf_set buf q b) p v.
Proof.
  intros S H. change (buf_set buf q b) with (memcpy buf q [b]).
  apply stored_memcpy; assumption.
Qed.

Lemma buf_get_buf_set (buf : list Z) (q b : Z) :
  0 <= q < Z.of_nat (length buf) -> buf_get (buf_set buf q b) q = b.
Proof.
  intros H.
  pose proof (buf_get_memcpy_last buf [] q b ltac:(lia) ltac:(cbn [length]; lia)) as G.
  cbn [app length memcpy] in G. rewrite Z.add_0_r in G. exact G.
Qed.

(** A line [name ++ value ++ trailer] that has been read to [buf + len],
    and the NUL that the loop puts on the first byte of the trailer. *)
Lemma stored_value (buf name value trailer : list Z) (len : Z) :
  0 <= len ->
  len + Z.of_nat (length (name ++ value ++ trailer)) <= Z.of_nat (length buf) ->
  trailer <> [] ->
  stored
    (buf_set (memcpy buf len (name ++ value ++ trailer))
       (len + Z.of_nat (length name) + Z.of_nat (length value)) 0)
    (len + Z.of_nat (length name)) value.
Proof.
  intros H0 H1 Ht. rewrite !length_app in H1.
  assert (0 < length trailer)%nat by (destruct trailer; [congruence | cbn; lia]).
  split.
  - intros i Hi.
    change (buf_set ?b ?q 0) with (memcpy b q [0]).
    rewrite buf_get_memcpy_out by lia.
    rewrite buf_get_memcpy_in by (rewrite ?length_app; lia).
    replace (Z.to_nat (len + Z.of_nat (length name) + Z.of_nat i - len))
      with (length name + i)%nat by lia.
    rewrite app_nth2 by lia. rewrite app_nth1 by lia. f_equal. lia.
  - rewrite <- Z.add_assoc. rewrite Z.add_assoc. apply buf_get_buf_set.
    rewrite memcpy_length. lia.
Qed.

(** *** The tests on the header names *)

Lemma strncasecmp_eq_false_mono k : forall a b n,
  strncasecmp_eq a b k = false -> (k <= n)%nat -> strncasecmp_eq a b n = false.
Proof.
  induction k as [|k IH]; intros a b n E L; [discriminate|].
  destruct n as [|n]; [lia|]. cbn [strncasecmp_eq] in *.
  destruct a as [|x a]; [reflexivity|]. destruct b as [|y b]; [reflexivity|].
  destruct (tolower x =? tolower y); [|reflexivity].
  destruct (x =? 0); [discriminate|]. apply (IH _ _ _ E). lia.
Qed.

Lemma strncmp_eq_false_mono k : forall a b n,
  strncmp_eq a b k = false -> (k <= n)%nat -> strncmp_eq a b n = false.
Proof.
  induction k as [|k IH]; intros a b n E L; [discriminate|].
  destruct n as [|n]; [lia|]. cbn [strncmp_eq] in *.
  destruct a as [|x a]; [reflexivity|]. destruct b as [|y b]; [reflexivity|].
  destruct (x =? y); [|reflexivity].
  destruct (x =? 0); [discriminate|]. apply (IH _ _ _ E). lia.
Qed.

Lemma strncmp_eq_prefix n : forall a x y z,
  (n <= length x)%nat -> strncmp_eq a (x ++ y) n = strncmp_eq a (x ++ z) n.
Proof.
  induction n as [|k IH]; intros a x y z L; [reflexivity|].
  destruct x as [|b x]; [cbn [length] in L; lia|].
  cbn [app strncmp_eq]. destruct a as [|c a]; [reflexivity|].
  destruct (c =? b); [|reflexivity].
  destruct (c =? 0); [reflexivity|]. apply IH. cbn [length] in L. lia.
Qed.

Lemma min_cases (a b : Z) : (a < b /\ min a b = a) \/ (b <= a /\ min a b = b).
Proof. unfold min. destruct (Z.ltb_spec a b); [left | right]; split; auto. Qed.

(** The line starts with [pfx], and the name differs from it. *)
Lemma header_test_false a pfx x llen K :
  strncasecmp_eq a pfx (Nat.min (Z.to_nat K) (length pfx)) = false ->
  Z.of_nat (length pfx) <= llen ->
  strncasecmp_eq a (pfx ++ x) (Z.to_nat (min llen K)) = false.
Proof.
  intros E L.
  apply (strncasecmp_eq_false_mono (Nat.min (Z.to_nat K) (length pfx))).
  - rewrite (strncasecmp_eq_prefix _ a pfx x []) by lia. rewrite app_nil_r. exact E.
  - destruct (min_cases llen K) as [(_ & ->) | (_ & ->)]; lia.
Qed.

(** The line starts with [pfx], which has the name. *)
Lemma header_test_true a pfx x llen K :
  strncasecmp_eq a pfx (Z.to_nat K) = true ->
  (Z.to_nat K <= length pfx)%nat -> Z.of_nat (length pfx) <= llen -> 0 <= K ->
  strncasecmp_eq a (pfx ++ x) (Z.to_nat (min llen K)) = true.
Proof.
  intros E L1 L2 L3.
  destruct (min_cases llen K) as [(? & _) | (_ & ->)]; [lia|].
  rewrite (strncasecmp_eq_prefix _ a pfx x []) by lia. rewrite app_nil_r. exact E.
Qed.

Lemma get_test_false a pfx x llen K :
  strncmp_eq a pfx (Nat.min (Z.to_nat K) (length pfx)) = false ->
  Z.of_nat (length pfx) <= llen ->
  strncmp_eq a (pfx ++ x) (Z.to_nat (min llen K)) = false.
Proof.
  intros E L.
  apply (strncmp_eq_false_mono (Nat.min (Z.to_nat K) (length pfx))).
  - rewrite (strncmp_eq_prefix _ a pfx x []) by lia. rewrite app_nil_r. exact E.
  - destruct (min_cases llen K) as [(_ & ->) | (_ & ->)]; lia.
Qed.

Lemma get_test_true a pfx x llen K :
  strncmp_eq a pfx (Z.to_nat K) = true ->
  (Z.to_nat K <= length pfx)%nat -> Z.of_nat (length pfx) <= llen -> 0 <= K ->
  strncmp_eq a (pfx ++ x) (Z.to_nat (min llen K)) = true.
Proof.
  intros E L1 L2 L3.
  destruct (min_cases llen K) as [(? & _) | (_ & ->)]; [lia|].
  rewrite (strncmp_eq_prefix _ a pfx x []) by lia. rewrite app_nil_r. exact E.
Qed.

Ltac side := first [vm_compute; reflexivity | cbn; lia].

Ltac header_tests :=
  repeat first
    [ rewrite get_test_true by side
    | rewrite get_test_false by side
    | rewrite header_test_true by side
    | rewrite header_test_false by side ];
  rewrite ?andb_false_r, ?andb_true_r; cbn iota.

Section HeaderKinds.

Variables (t : hs_vars) (llen : Z) (x : list Z).

Lemma handshake_header_on_get :
  buf_from (hs_buf t) (hs_linestart t) = bytes_of_string "GET " ++ x -> 16 <= llen ->
  handshake_header t llen
  = let s := hs_nul (hs_len t - 11) (hs_set_path (Some (hs_linestart t + 4)) t) in
    hs_set_wspath (Some (string_of_bytes (cstring_at (hs_buf s) (hs_linestart t + 4)))) s.
Proof.
  intros E L. unfold handshake_header. cbn zeta. rewrite E.
  destruct (Z.geb_spec llen 16); [|lia]. header_tests. reflexivity.
Qed.

Lemma handshake_header_on_host :
  buf_from (hs_buf t) (hs_linestart t) = bytes_of_string "Host: " ++ x -> 6 <= llen ->
  handshake_header t llen
  = hs_nul (hs_len t - 2) (hs_set_host (Some (hs_linestart t + 6)) t).
Proof.
  intros E L. unfold handshake_header. cbn zeta. rewrite E. header_tests. reflexivity.
Qed.

Lemma handshake_header_on_origin :
  buf_from (hs_buf t) (hs_linestart t) = bytes_of_string "Origin: " ++ x -> 8 <= llen ->
  handshake_header t llen
  = hs_nul (hs_len t - 2) (hs_set_origin (Some (hs_linestart t + 8)) t).
Proof.
  intros E L. unfold handshake_header. cbn zeta. rewrite E. header_tests. reflexivity.
Qed.

Lemma handshake_header_on_protocol :
  buf_from (hs_buf t) (hs_linestart t) = bytes_of_string "Sec-WebSocket-Protocol: " ++ x ->
  24 <= llen ->
  handshake_header t llen
  = hs_nul (hs_len t - 2) (hs_set_protocol (Some (hs_linestart t + 24)) t).
Proof.
  intros E L. unfold handshake_header. cbn zeta. rewrite E. header_tests. reflexivity.
Qed.

Lemma handshake_header_on_key :
  buf_from (hs_buf t) (hs_linestart t) = bytes_of_string "Sec-WebSocket-Key: " ++ x ->
  19 <= llen ->
  handshake_header t llen
  = hs_nul (hs_len t - 2) (hs_set_sec_ws_key (Some (hs_linestart t + 19)) t).
Proof.
  intros E L. unfold handshake_header. cbn zeta. rewrite E. header_tests. reflexivity.
Qed.

Lemma handshake_header_on_version :
  buf_from (hs_buf t) (hs_linestart t) = bytes_of_string "Sec-WebSocket-Version: " ++ x ->
  23 <= llen ->
  handshake_header t llen
  = hs_nul (hs_len t - 2)
      (hs_set_sec_ws_version
         (to_char (strtol (buf_from (hs_buf t) (hs_linestart t + 23)))) t).
Proof.
  intros E L. unfold handshake_header. cbn zeta. rewrite E. header_tests. reflexivity.
Qed.

End HeaderKinds.

(** *** One line of the request after the other *)

Ltac hsg :=
  cbn [hs_buf hs_len hs_linestart hs_path hs_host hs_origin hs_protocol hs_key1 hs_key2
       hs_key3 hs_sec_ws_origin hs_sec_ws_key hs_sec_ws_version hs_wspath hs_errno
       hs_reads hs_set_buf hs_set_len hs_set_linestart hs_set_path hs_set_host
       hs_set_origin hs_set_protocol hs_set_key1 hs_set_key2 hs_set_key3
       hs_set_sec_ws_origin hs_set_sec_ws_key hs_set_sec_ws_version hs_set_wspath
       hs_set_io hs_nul fst snd].

Ltac hs_fields := apply hs_vars_eq; hsg; try reflexivity.

Lemma buf_from_memcpy (buf line : list Z) (L : Z) (k : nat) :
  0 <= L -> L + Z.of_nat (length line) <= Z.of_nat (length buf) ->
  (k <= length line)%nat ->
  buf_from (memcpy buf L line) (L + Z.of_nat k)
  = skipn k line ++ skipn (Z.to_nat L + length line) buf.
Proof.
  intros H0 H1 Hk. unfold buf_from. destruct (Z.ltb_spec (L + Z.of_nat k) 0); [lia|].
  rewrite memcpy_slice by lia.
  rewrite skipn_app, length_firstn.
  rewrite skipn_all2 by (rewrite length_firstn; lia). cbn [app].
  replace (Z.to_nat (L + Z.of_nat k) - Nat.min (Z.to_nat L) (length buf))%nat with k by lia.
  rewrite skipn_app. f_equal.
  replace (k - length line)%nat with 0%nat by lia. reflexivity.
Qed.

Lemma header_line_length name value :
  length (header_line name value) = (length name + length value + 4)%nat.
Proof.
  unfold header_line. rewrite !length_app. cbn [length bytes_of_string]. 
  change (length (bytes_of_string ": ")) with 2%nat.
  change (length (bytes_of_string crlf)) with 2%nat. lia.
Qed.

Lemma request_line_length path :
  length (request_line path) = (length path + 15)%nat.
Proof.
  unfold request_line. rewrite !length_app.
  change (length (bytes_of_string "GET ")) with 4%nat.
  change (length (bytes_of_string (" HTTP/1.1" ++ crlf))) with 11%nat. lia.
Qed.

Lemma is_value_no_nul v :
  is_value v = true -> forallb (fun b => negb (b =? 0)) v = true.
Proof.
  unfold is_value. rewrite !forallb_forall. intros H b Hb.
  specialize (H b Hb). apply andb_true_iff in H. tauto.
Qed.

Lemma is_value_no_newline v :
  is_value v = true -> Forall (fun b => b <> 10) v.
Proof.
  unfold is_value. rewrite forallb_forall. intros H. apply Forall_forall. intros b Hb.
  specialize (H b Hb). apply andb_true_iff in H. destruct H as (_ & H).
  destruct (Z.eqb_spec b 10); [discriminate | assumption].
Qed.

Lemma digits_value_stop (r x : list Z) : forall acc,
  forallb isdigit r = true -> digits_value acc (r ++ 13 :: x) = digits_value acc r.
Proof.
  induction r as [|d r IH]; intros acc H; [reflexivity|].
  cbn [forallb] in H. apply andb_true_iff in H. destruct H as (Hd & Hr).
  cbn [app digits_value]. rewrite Hd. apply IH. exact Hr.
Qed.

Lemma isdigit_cases (d : Z) :
  isdigit d = true ->
  d = 48 \/ d = 49 \/ d = 50 \/ d = 51 \/ d = 52 \/ d = 53 \/ d = 54 \/ d = 55
  \/ d = 56 \/ d = 57.
Proof.
  unfold isdigit. intros H. apply andb_true_iff in H. destruct H as (A & B).
  apply Z.leb_le in A. apply Z.leb_le in B. lia.
Qed.

(** The number stops at the CR that ends the line. *)
Lemma strtol_number (ver x : list Z) :
  is_number ver = true -> strtol (ver ++ 13 :: x) = strtol ver.
Proof.
  unfold is_number. destruct ver as [|d r]; [discriminate|]. intros H.
  cbn [forallb] in H. apply andb_true_iff in H. destruct H as (Hd & Hr).
  pose proof (digits_value_stop r x) as S.
  destruct (isdigit_cases d Hd) as [->|[->|[->|[->|[->|[->|[->|[->|[->| ->]]]]]]]]];
    unfold strtol; cbn [app skip_space];
    repeat match goal with
           | |- context [isspace ?d] => change (isspace d) with false
           end;
    cbn iota; cbn [digits_value];
    repeat match goal with
           | |- context [isdigit ?d] => change (isdigit d) with true
           end;
    cbn iota; rewrite S by exact Hr; reflexivity.
Qed.

Lemma is_number_is_value (ver : list Z) : is_number ver = true -> is_value ver = true.
Proof.
  unfold is_number, is_value. destruct ver as [|d r]; [discriminate|].
  rewrite !forallb_forall. intros H b Hb. specialize (H b Hb).
  destruct (isdigit_cases b H) as [->|[->|[->|[->|[->|[->|[->|[->|[->| ->]]]]]]]]];
    reflexivity.
Qed.

Section Lines.

Variables (B : list Z) (L : Z).
Variables (pa ho og pr k1 k2 k3 so sk : option Z) (sv : Z) (wp : option string).
Variables (er : errno_t) (rd : list read_event).

Hypothesis L_pos : 0 <= L.

Lemma line_done_get path :
  L + Z.of_nat (length (request_line path)) <= Z.of_nat (length B) ->
  is_value path = true -> path <> [] ->
  line_done (mk_hs B L L pa ho og pr k1 k2 k3 so sk sv wp er rd) (request_line path)
  = mk_hs (buf_set (memcpy B L (request_line path))
             (L + Z.of_nat (length (request_line path)) - 11) 0)
      (L + Z.of_nat (length (request_line path)))
      (L + Z.of_nat (length (request_line path)))
      (Some (L + 4)) ho og pr k1 k2 k3 so sk sv (Some (string_of_bytes path)) er rd.
Proof.
  intros HB Hv Hn. unfold line_done. cbn zeta. hsg.
  assert (1 <= length path)%nat by (destruct path; [congruence | cbn; lia]).
  pose proof (request_line_length path) as Ll.
  rewrite (handshake_header_on_get _ _
             (path ++ bytes_of_string (" HTTP/1.1" ++ crlf)
              ++ skipn (Z.to_nat L + length (request_line path)) B)).
  - cbn zeta. hs_fields. f_equal. f_equal.
    apply stored_cstring_at.
    + pose proof (stored_value B (bytes_of_string "GET ") path
                    (bytes_of_string (" HTTP/1.1" ++ crlf)) L L_pos HB
                    ltac:(discriminate)) as S.
      change (Z.of_nat (length (bytes_of_string "GET "))) with 4 in S.
      fold (request_line path) in S.
      replace (L + Z.of_nat (length (request_line path)) - 11)
        with (L + 4 + Z.of_nat (length path)) by lia.
      exact S.
    + lia.
    + rewrite buf_set_length, memcpy_length. lia.
    + apply is_value_no_nul. exact Hv.
  - hsg. pose proof (buf_from_memcpy B (request_line path) L 0 L_pos HB ltac:(lia)) as E.
    rewrite Z.add_0_r in E. rewrite E. cbn [skipn]. unfold request_line.
    rewrite <- !app_assoc. reflexivity.
  - hsg. lia.
Qed.

Lemma line_done_host v :
  L + Z.of_nat (length (header_line (bytes_of_string "Host") v)) <= Z.of_nat (length B) ->
  line_done (mk_hs B L L pa ho og pr k1 k2 k3 so sk sv wp er rd)
    (header_line (bytes_of_string "Host") v)
  = mk_hs (buf_set (memcpy B L (header_line (bytes_of_string "Host") v))
             (L + Z.of_nat (length (header_line (bytes_of_string "Host") v)) - 2) 0)
      (L + Z.of_nat (length (header_line (bytes_of_string "Host") v)))
      (L + Z.of_nat (length (header_line (bytes_of_string "Host") v)))
      pa (Some (L + 6)) og pr k1 k2 k3 so sk sv wp er rd.
Proof.
  intros HB. unfold line_done. cbn zeta. hsg.
  pose proof (header_line_length (bytes_of_string "Host") v) as Ll.
  change (length (bytes_of_string "Host")) with 4%nat in Ll.
  rewrite (handshake_header_on_host _ _
             (v ++ bytes_of_string crlf
              ++ skipn (Z.to_nat L + length (header_line (bytes_of_string "Host") v)) B)).
  - hs_fields.
  - hsg. pose proof (buf_from_memcpy B (header_line (bytes_of_string "Host") v) L 0 L_pos HB
                       ltac:(lia)) as E.
    rewrite Z.add_0_r in E. rewrite E. cbn [skipn]. unfold header_line.
    rewrite <- !app_assoc. reflexivity.
  - hsg. lia.
Qed.

Lemma line_done_origin v :
  L + Z.of_nat (length (header_line (bytes_of_string "Origin") v)) <= Z.of_nat (length B) ->
  line_done (mk_hs B L L pa ho og pr k1 k2 k3 so sk sv wp er rd)
    (header_line (bytes_of_string "Origin") v)
  = mk_hs (buf_set (memcpy B L (header_line (bytes_of_string "Origin") v))
             (L + Z.of_nat (length (header_line (bytes_of_string "Origin") v)) - 2) 0)
      (L + Z.of_nat (length (header_line (bytes_of_string "Origin") v)))
      (L + Z.of_nat (length (header_line (bytes_of_string "Origin") v)))
      pa ho (Some (L + 8)) pr k1 k2 k3 so sk sv wp er rd.
Proof.
  intros HB. unfold line_done. cbn zeta. hsg.
  pose proof (header_line_length (bytes_of_string "Origin") v) as Ll.
  change (length (bytes_of_string "Origin")) with 6%nat in Ll.
  rewrite (handshake_header_on_origin _ _
             (v ++ bytes_of_string crlf
              ++ skipn (Z.to_nat L + length (header_line (bytes_of_string "Origin") v)) B)).
  - hs_fields.
  - hsg. pose proof (buf_from_memcpy B (header_line (bytes_of_string "Origin") v) L 0 L_pos HB
                       ltac:(lia)) as E.
    rewrite Z.add_0_r in E. rewrite E. cbn [skipn]. unfold header_line.
    rewrite <- !app_assoc. reflexivity.
  - hsg. lia.
Qed.

Lemma line_done_protocol v :
  L + Z.of_nat (length (header_line (bytes_of_string "Sec-WebSocket-Protocol") v)) <= Z.of_nat (length B) ->
  line_done (mk_hs B L L pa ho og pr k1 k2 k3 so sk sv wp er rd)
    (header_line (bytes_of_string "Sec-WebSocket-Protocol") v)
  = mk_hs (buf_set (memcpy B L (header_line (bytes_of_string "Sec-WebSocket-Protocol") v))
             (L + Z.of_nat (length (header_line (bytes_of_string "Sec-WebSocket-Protocol") v)) - 2) 0)
      (L + Z.of_nat (length (header_line (bytes_of_string "Sec-WebSocket-Protocol") v)))
      (L + Z.of_nat (length (header_line (bytes_of_string "Sec-WebSocket-Protocol") v)))
      pa ho og (Some (L + 24)) k1 k2 k3 so sk sv wp er rd.
Proof.
  intros HB. unfold line_done. cbn zeta. hsg.
  pose proof (header_line_length (bytes_of_string "Sec-WebSocket-Protocol") v) as Ll.
  change (length (bytes_of_string "Sec-WebSocket-Protocol")) with 22%nat in Ll.
  rewrite (handshake_header_on_protocol _ _
             (v ++ bytes_of_string crlf
              ++ skipn (Z.to_nat L + length (header_line (bytes_of_string "Sec-WebSocket-Protocol") v)) B)).
  - hs_fields.
  - hsg. pose proof (buf_from_memcpy B (header_line (bytes_of_string "Sec-WebSocket-Protocol") v) L 0 L_pos HB
                       ltac:(lia)) as E.
    rewrite Z.add_0_r in E. rewrite E. cbn [skipn]. unfold header_line.
    rewrite <- !app_assoc. reflexivity.
  - hsg. lia.
Qed.

Lemma line_done_key v :
  L + Z.of_nat (length (header_line (bytes_of_string "Sec-WebSocket-Key") v)) <= Z.of_nat (length B) ->
  line_done (mk_hs B L L pa ho og pr k1 k2 k3 so sk sv wp er rd)
    (header_line (bytes_of_string "Sec-WebSocket-Key") v)
  = mk_hs (buf_set (memcpy B L (header_line (bytes_of_string "Sec-WebSocket-Key") v))
             (L + Z.of_nat (length (header_line (bytes_of_string "Sec-WebSocket-Key") v)) - 2) 0)
      (L + Z.of_nat (length (header_line (bytes_of_string "Sec-WebSocket-Key") v)))
      (L + Z.of_nat (length (header_line (bytes_of_string "Sec-WebSocket-Key") v)))
      pa ho og pr k1 k2 k3 so (Some (L + 19)) sv wp er rd.
Proof.
  intros HB. unfold line_done. cbn zeta. hsg.
  pose proof (header_line_length (bytes_of_string "Sec-WebSocket-Key") v) as Ll.
  change (length (bytes_of_string "Sec-WebSocket-Key")) with 17%nat in Ll.
  rewrite (handshake_header_on_key _ _
             (v ++ bytes_of_string crlf
              ++ skipn (Z.to_nat L + length (header_line (bytes_of_string "Sec-WebSocket-Key") v)) B)).
  - hs_fields.
  - hsg. pose proof (buf_from_memcpy B (header_line (bytes_of_string "Sec-WebSocket-Key") v) L 0 L_pos HB
                       ltac:(lia)) as E.
    rewrite Z.add_0_r in E. rewrite E. cbn [skipn]. unfold header_line.
    rewrite <- !app_assoc. reflexivity.
  - hsg. lia.
Qed.

Lemma line_done_version ver :
  is_number ver = true ->
  L + Z.of_nat (length (header_line (bytes_of_string "Sec-WebSocket-Version") ver))
  <= Z.of_nat (length B) ->
  line_done (mk_hs B L L pa ho og pr k1 k2 k3 so sk sv wp er rd)
    (header_line (bytes_of_string "Sec-WebSocket-Version") ver)
  = mk_hs (buf_set (memcpy B L (header_line (bytes_of_string "Sec-WebSocket-Version") ver))
             (L + Z.of_nat (length (header_line (bytes_of_string "Sec-WebSocket-Version")
                                      ver)) - 2) 0)
      (L + Z.of_nat (length (header_line (bytes_of_string "Sec-WebSocket-Version") ver)))
      (L + Z.of_nat (length (header_line (bytes_of_string "Sec-WebSocket-Version") ver)))
      pa ho og pr k1 k2 k3 so sk (to_char (strtol ver)) wp er rd.
Proof.
  intros Hn HB. unfold line_done. cbn zeta. hsg.
  pose proof (header_line_length (bytes_of_string "Sec-WebSocket-Version") ver) as Ll.
  change (length (bytes_of_string "Sec-WebSocket-Version")) with 21%nat in Ll.
  set (line := header_line (bytes_of_string "Sec-WebSocket-Version") ver) in *.
  rewrite (handshake_header_on_version _ _
             (ver ++ bytes_of_string crlf ++ skipn (Z.to_nat L + length line) B)).
  - hs_fields. f_equal.
    pose proof (buf_from_memcpy B line L 23 L_pos HB ltac:(lia)) as E.
    change (Z.of_nat 23) with 23 in E. rewrite E.
    change (skipn 23 line) with (ver ++ bytes_of_string crlf).
    rewrite <- app_assoc. apply strtol_number. exact Hn.
  - hsg. pose proof (buf_from_memcpy B line L 0 L_pos HB ltac:(lia)) as E.
    rewrite Z.add_0_r in E. rewrite E. cbn [skipn]. unfold line, header_line.
    rewrite <- !app_assoc. reflexivity.
  - hsg. lia.
Qed.

End Lines.

Lemma framed_line (pfx v sfx : list Z) :
  forallb (fun b => negb (b =? 10)) pfx = true ->
  forallb (fun b => negb (b =? 10)) sfx = true ->
  is_value v = true -> (2 <= length pfx)%nat ->
  Forall (fun b => b <> 10) (pfx ++ v ++ sfx)
  /\ pfx ++ v ++ sfx <> [] /\ pfx ++ v ++ sfx <> [13].
Proof.
  intros Hp Hs Hv Hl.
  assert (F : forall l, forallb (fun b => negb (b =? 10)) l = true
                        -> Forall (fun b => b <> 10) l).
  { intros l H. apply Forall_forall. intros b Hb. rewrite forallb_forall in H.
    specialize (H b Hb). destruct (Z.eqb_spec b 10); [discriminate | assumption]. }
  split; [|split].
  - apply Forall_app. split; [auto|]. apply Forall_app. split; [|auto].
    apply is_value_no_newline. exact Hv.
  - destruct pfx as [|a [|b p]]; cbn [length] in Hl; try lia. discriminate.
  - destruct pfx as [|a [|b p]]; cbn [length] in Hl; try lia. discriminate.
Qed.

Section Loop.

Variables (B : list Z) (L : Z).
Variables (pa ho og pr k1 k2 k3 so sk : option Z) (sv : Z) (wp : option string).
Variables (er : errno_t).

Hypothesis L_pos : 0 <= L.

Lemma loop_line (l : list Z) (rounds : nat) (rest : list read_event) :
  Forall (fun b => b <> 10) l /\ l <> [] /\ l <> [13] ->
  L + Z.of_nat (length (l ++ [10])) <= WEBSOCKETS_MAX_HANDSHAKE_LEN - 1 ->
  L + Z.of_nat (length (l ++ [10])) <= Z.of_nat (length B) ->
  handshake_loop (length (l ++ [10]) + rounds)
    (mk_hs B L L pa ho og pr k1 k2 k3 so sk sv wp er (delivers (l ++ [10]) ++ rest))
  = handshake_loop rounds
      (line_done (mk_hs B L L pa ho og pr k1 k2 k3 so sk sv wp er rest) (l ++ [10])).
Proof.
  intros (F & N1 & N2) H1 H2. rewrite length_app in *. cbn [length] in *.
  replace (length l + 1 + rounds)%nat with (length l + S rounds)%nat by lia.
  rewrite (handshake_loop_one_line rounds l _ rest); hsg;
    try reflexivity; try assumption; lia.
Qed.

(** The empty line, when key1 has not been seen. *)
Lemma loop_blank (rounds : nat) (rest : list read_event) :
  L + 2 <= WEBSOCKETS_MAX_HANDSHAKE_LEN - 1 -> L + 2 <= Z.of_nat (length B) ->
  handshake_loop (S (S rounds))
    (mk_hs B L L pa ho og pr None k2 k3 so sk sv wp er
       (delivers (bytes_of_string crlf) ++ rest))
  = (false,
     mk_hs (buf_set (memcpy B L (bytes_of_string crlf)) (L + 2) 0) (L + 2) L
       pa ho og pr None k2 k3 so sk sv wp er rest).
Proof.
  unfold WEBSOCKETS_MAX_HANDSHAKE_LEN. intros H1 H2.
  change (delivers (bytes_of_string crlf) ++ rest)
    with (ReadByte 13 :: ReadByte 10 :: rest).
  change (bytes_of_string crlf) with [13; 10].
  cbn [handshake_loop]. hsg. unfold WEBSOCKETS_MAX_HANDSHAKE_LEN.
  destruct (Z.ltb_spec L (4096 - 1)); [|lia].
  unfold handshake_step at 1. hsg. cbn [rfbReadExact]. hsg.
  change (1 <=? 0) with false. cbn iota.
  destruct (Z.geb_spec (L + 1 - L) 2); [lia|]. cbn [andb]. cbn iota. hsg.
  destruct (Z.ltb_spec (L + 1) (4096 - 1)); [|lia].
  unfold handshake_step. hsg. cbn [rfbReadExact]. hsg.
  change (1 <=? 0) with false. cbn iota.
  destruct (Z.geb_spec (L + 1 + 1 - L) 2); [|lia]. cbn [andb].
  replace (L + 1 + 1 - 1) with (L + 1) by lia.
  change (memcpy (memcpy B L [13]) (L + 1) [10]) with (memcpy B L [13; 10]).
  rewrite (buf_get_memcpy_in [13; 10]) by (cbn [length]; lia).
  replace (Z.to_nat (L + 1 - L)) with 1%nat by lia. cbn [nth].
  change (10 =? 10) with true. cbn iota.
  replace (L + 1 + 1 - L =? 2) with true by (symmetry; apply Z.eqb_eq; lia).
  pose proof (buf_from_memcpy B [13; 10] L 0 L_pos ltac:(cbn [length]; lia)
                ltac:(cbn [length]; lia)) as E.
  rewrite Z.add_0_r in E. rewrite E. cbn [skipn app andb].
  change (strncmp_eq (literal crlf) (13 :: 10 :: skipn (Z.to_nat L + length [13; 10]) B) 2)
    with true.
  cbn iota. cbn [is_set andb]. cbn iota. f_equal. hs_fields.
  - f_equal. lia.
  - lia.
Qed.

Lemma loop_line_of (line l : list Z) (rounds : nat) (rest : list read_event) :
  line = l ++ [10] ->
  Forall (fun b => b <> 10) l /\ l <> [] /\ l <> [13] ->
  L + Z.of_nat (length line) <= WEBSOCKETS_MAX_HANDSHAKE_LEN - 1 ->
  L + Z.of_nat (length line) <= Z.of_nat (length B) ->
  handshake_loop (length line + rounds)
    (mk_hs B L L pa ho og pr k1 k2 k3 so sk sv wp er (delivers line ++ rest))
  = handshake_loop rounds
      (line_done (mk_hs B L L pa ho og pr k1 k2 k3 so sk sv wp er rest) line).
Proof.
  intros ->. apply loop_line.
Qed.

Lemma header_line_split name v :
  header_line name v = ((name ++ bytes_of_string ": ") ++ v ++ [13]) ++ [10].
Proof.
  unfold header_line. rewrite <- !app_assoc. reflexivity.
Qed.

Lemma header_line_framed name v :
  forallb (fun b => negb (b =? 10)) (name ++ bytes_of_string ": ") = true ->
  is_value v = true ->
  Forall (fun b => b <> 10) ((name ++ bytes_of_string ": ") ++ v ++ [13])
  /\ (name ++ bytes_of_string ": ") ++ v ++ [13] <> []
  /\ (name ++ bytes_of_string ": ") ++ v ++ [13] <> [13].
Proof.
  intros Hn Hv. apply framed_line; try assumption; try reflexivity.
  rewrite length_app. cbn [length bytes_of_string]. 
  change (length (bytes_of_string ": ")) with 2%nat. lia.
Qed.

Lemma loop_get path rounds rest :
  is_value path = true -> path <> [] ->
  L + Z.of_nat (length (request_line path)) <= WEBSOCKETS_MAX_HANDSHAKE_LEN - 1 ->
  L + Z.of_nat (length (request_line path)) <= Z.of_nat (length B) ->
  handshake_loop (length (request_line path) + rounds)
    (mk_hs B L L pa ho og pr k1 k2 k3 so sk sv wp er (delivers (request_line path) ++ rest))
  = handshake_loop rounds
      (mk_hs (buf_set (memcpy B L (request_line path))
                (L + Z.of_nat (length (request_line path)) - 11) 0)
         (L + Z.of_nat (length (request_line path)))
         (L + Z.of_nat (length (request_line path)))
         (Some (L + 4)) ho og pr k1 k2 k3 so sk sv (Some (string_of_bytes path)) er rest).
Proof.
  intros Hv Hn H1 H2.
  rewrite (loop_line_of (request_line path)
             (bytes_of_string "GET " ++ path ++ bytes_of_string " HTTP/1.1" ++ [13]));
    try assumption.
  - rewrite line_done_get by assumption. reflexivity.
  - unfold request_line. rewrite <- !app_assoc. reflexivity.
  - apply framed_line; try assumption; try reflexivity. cbn. lia.
Qed.

Lemma loop_host v rounds rest :
  is_value v = true ->
  L + Z.of_nat (length (header_line (bytes_of_string "Host") v)) <= WEBSOCKETS_MAX_HANDSHAKE_LEN - 1 ->
  L + Z.of_nat (length (header_line (bytes_of_string "Host") v)) <= Z.of_nat (length B) ->
  handshake_loop (length (header_line (bytes_of_string "Host") v) + rounds)
    (mk_hs B L L pa ho og pr k1 k2 k3 so sk sv wp er
       (delivers (header_line (bytes_of_string "Host") v) ++ rest))
  = handshake_loop rounds
      (mk_hs (buf_set (memcpy B L (header_line (bytes_of_string "Host") v))
                (L + Z.of_nat (length (header_line (bytes_of_string "Host") v)) - 2) 0)
         (L + Z.of_nat (length (header_line (bytes_of_string "Host") v)))
         (L + Z.of_nat (length (header_line (bytes_of_string "Host") v)))
         pa (Some (L + 6)) og pr k1 k2 k3 so sk sv wp er rest).
Proof.
  intros Hv H1 H2.
  rewrite (loop_line_of (header_line (bytes_of_string "Host") v) _ rounds rest (header_line_split _ v));
    try assumption.
  - rewrite line_done_host by assumption. reflexivity.
  - apply header_line_framed; [reflexivity | assumption].
Qed.

Lemma loop_origin v rounds rest :
  is_value v = true ->
  L + Z.of_nat (length (header_line (bytes_of_string "Origin") v)) <= WEBSOCKETS_MAX_HANDSHAKE_LEN - 1 ->
  L + Z.of_nat (length (header_line (bytes_of_string "Origin") v)) <= Z.of_nat (length B) ->
  handshake_loop (length (header_line (bytes_of_string "Origin") v) + rounds)
    (mk_hs B L L pa ho og pr k1 k2 k3 so sk sv wp er
       (delivers (header_line (bytes_of_string "Origin") v) ++ rest))
  = handshake_loop rounds
      (mk_hs (buf_set (memcpy B L (header_line (bytes_of_string "Origin") v))
                (L + Z.of_nat (length (header_line (bytes_of_string "Origin") v)) - 2) 0)
         (L + Z.of_nat (length (header_line (bytes_of_string "Origin") v)))
         (L + Z.of_nat (length (header_line (bytes_of_string "Origin") v)))
         pa ho (Some (L + 8)) pr k1 k2 k3 so sk sv wp er rest).
Proof.
  intros Hv H1 H2.
  rewrite (loop_line_of (header_line (bytes_of_string "Origin") v) _ rounds rest (header_line_split _ v));
    try assumption.
  - rewrite line_done_origin by assumption. reflexivity.
  - apply header_line_framed; [reflexivity | assumption].
Qed.

Lemma loop_protocol v rounds rest :
  is_value v = true ->
  L + Z.of_nat (length (header_line (bytes_of_string "Sec-WebSocket-Protocol") v)) <= WEBSOCKETS_MAX_HANDSHAKE_LEN - 1 ->
  L + Z.of_nat (length (header_line (bytes_of_string "Sec-WebSocket-Protocol") v)) <= Z.of_nat (length B) ->
  handshake_loop (length (header_line (bytes_of_string "Sec-WebSocket-Protocol") v) + rounds)
    (mk_hs B L L pa ho og pr k1 k2 k3 so sk sv wp er
       (delivers (header_line (bytes_of_string "Sec-WebSocket-Protocol") v) ++ rest))
  = handshake_loop rounds
      (mk_hs (buf_set (memcpy B L (header_line (bytes_of_string "Sec-WebSocket-Protocol") v))
                (L + Z.of_nat (length (header_line (bytes_of_string "Sec-WebSocket-Protocol") v)) - 2) 0)
         (L + Z.of_nat (length (header_line (bytes_of_string "Sec-WebSocket-Protocol") v)))
         (L + Z.of_nat (length (header_line (bytes_of_string "Sec-WebSocket-Protocol") v)))
         pa ho og (Some (L + 24)) k1 k2 k3 so sk sv wp er rest).
Proof.
  intros Hv H1 H2.
  rewrite (loop_line_of (header_line (bytes_of_string "Sec-WebSocket-Protocol") v) _ rounds rest (header_line_split _ v));
    try assumption.
  - rewrite line_done_protocol by assumption. reflexivity.
  - apply header_line_framed; [reflexivity | assumption].
Qed.

Lemma loop_key v rounds rest :
  is_value v = true ->
  L + Z.of_nat (length (header_line (bytes_of_string "Sec-WebSocket-Key") v)) <= WEBSOCKETS_MAX_HANDSHAKE_LEN - 1 ->
  L + Z.of_nat (length (header_line (bytes_of_string "Sec-WebSocket-Key") v)) <= Z.of_nat (length B) ->
  handshake_loop (length (header_line (bytes_of_string "Sec-WebSocket-Key") v) + rounds)
    (mk_hs B L L pa ho og pr k1 k2 k3 so sk sv wp er
       (delivers (header_line (bytes_of_string "Sec-WebSocket-Key") v) ++ rest))
  = handshake_loop rounds
      (mk_hs (buf_set (memcpy B L (header_line (bytes_of_string "Sec-WebSocket-Key") v))
                (L + Z.of_nat (length (header_line (bytes_of_string "Sec-WebSocket-Key") v)) - 2) 0)
         (L + Z.of_nat (length (header_line (bytes_of_string "Sec-WebSocket-Key") v)))
         (L + Z.of_nat (length (header_line (bytes_of_string "Sec-WebSocket-Key") v)))
         pa ho og pr k1 k2 k3 so (Some (L + 19)) sv wp er rest).
Proof.
  intros Hv H1 H2.
  rewrite (loop_line_of (header_line (bytes_of_string "Sec-WebSocket-Key") v) _ rounds rest (header_line_split _ v));
    try assumption.
  - rewrite line_done_key by assumption. reflexivity.
  - apply header_line_framed; [reflexivity | assumption].
Qed.

Lemma loop_version ver rounds rest :
  is_number ver = true ->
  L + Z.of_nat (length (header_line (bytes_of_string "Sec-WebSocket-Version") ver)) <= WEBSOCKETS_MAX_HANDSHAKE_LEN - 1 ->
  L + Z.of_nat (length (header_line (bytes_of_string "Sec-WebSocket-Version") ver)) <= Z.of_nat (length B) ->
  handshake_loop (length (header_line (bytes_of_string "Sec-WebSocket-Version") ver) + rounds)
    (mk_hs B L L pa ho og pr k1 k2 k3 so sk sv wp er
       (delivers (header_line (bytes_of_string "Sec-WebSocket-Version") ver) ++ rest))
  = handshake_loop rounds
      (mk_hs (buf_set (memcpy B L (header_line (bytes_of_string "Sec-WebSocket-Version") ver))
                (L + Z.of_nat (length (header_line (bytes_of_string "Sec-WebSocket-Version") ver)) - 2) 0)
         (L + Z.of_nat (length (header_line (bytes_of_string "Sec-WebSocket-Version") ver)))
         (L + Z.of_nat (length (header_line (bytes_of_string "Sec-WebSocket-Version") ver)))
         pa ho og pr k1 k2 k3 so sk (to_char (strtol ver)) wp er rest).
Proof.
  intros Hn H1 H2.
  rewrite (loop_line_of (header_line (bytes_of_string "Sec-WebSocket-Version") ver) _ rounds rest (header_line_split _ ver));
    try assumption.
  - rewrite line_done_version by assumption. reflexivity.
  - apply header_line_framed; [reflexivity | apply is_number_is_value; assumption].
Qed.

End Loop.

(** *** A request for version 13 *)

Lemma bytes_of_string_length (s : string) :
  length (bytes_of_string s) = String.length s.
Proof.
  unfold bytes_of_string. rewrite length_map.
  induction s as [|c s IH]; cbn; congruence.
Qed.

(** A header that has been read to [buf + L], and its value. *)
Lemma stored_header (B : list Z) (L k : Z) (name : string) (v : list Z) :
  0 <= L ->
  L + Z.of_nat (length (header_line (bytes_of_string name) v)) <= Z.of_nat (length B) ->
  k = Z.of_nat (String.length name) + 2 ->
  stored
    (buf_set (memcpy B L (header_line (bytes_of_string name) v))
       (L + Z.of_nat (length (header_line (bytes_of_string name) v)) - 2) 0)
    (L + k) v.
Proof.
  intros H0 H1 ->. rewrite header_line_length in *. rewrite bytes_of_string_length in *.
  unfold header_line. rewrite app_assoc.
  pose proof (stored_value B (bytes_of_string name ++ bytes_of_string ": ") v
                (bytes_of_string crlf) L H0) as S.
  rewrite !length_app, bytes_of_string_length in S.
  change (length (bytes_of_string ": ")) with 2%nat in S.
  change (length (bytes_of_string crlf)) with 2%nat in S.
  specialize (S ltac:(lia) ltac:(discriminate)).
  replace (L + Z.of_nat (String.length name + length v + 4) - 2)
    with (L + Z.of_nat (String.length name + 2) + Z.of_nat (length v)) by lia.
  replace (L + (Z.of_nat (String.length name) + 2))
    with (L + Z.of_nat (String.length name + 2)) by lia.
  exact S.
Qed.

Lemma delivers_app (a b : list Z) : delivers (a ++ b) = delivers a ++ delivers b.
Proof. apply map_app. Qed.

Ltac buf_lengths := repeat (rewrite buf_set_length || rewrite memcpy_length).

Ltac line_side :=
  first [ assumption
        | unfold WEBSOCKETS_MAX_HANDSHAKE_LEN in *; buf_lengths; lia ].

(** The request line and the four headers that every such request has. *)
Lemma loop_hybi_headers (buf path host origin ver proto : list Z) (wp : option string)
    (e : errno_t) :
  length buf = Z.to_nat WEBSOCKETS_MAX_HANDSHAKE_LEN ->
  is_value path = true -> path <> [] ->
  is_value host = true -> is_value origin = true -> is_number ver = true ->
  is_value proto = true ->
  let headers :=
    request_line path
    ++ header_line (bytes_of_string "Host") host
    ++ header_line (bytes_of_string "Origin") origin
    ++ header_line (bytes_of_string "Sec-WebSocket-Version") ver
    ++ header_line (bytes_of_string "Sec-WebSocket-Protocol") proto in
  Z.of_nat (length headers) <= WEBSOCKETS_MAX_HANDSHAKE_LEN - 1 ->
  exists B hp op pp,
    length B = length buf
    /\ stored B pp proto
    /\ 0 <= pp /\ pp + Z.of_nat (length proto) < Z.of_nat (length headers)
    /\ forall rounds rest,
         handshake_loop (length headers + rounds)
           (mk_hs buf 0 0 None None None None None None None None None 0 wp e
              (delivers headers ++ rest))
         = handshake_loop rounds
             (mk_hs B (Z.of_nat (length headers)) (Z.of_nat (length headers))
                (Some 4) (Some hp) (Some op) (Some pp) None None None None None
                (to_char (strtol ver))
                (Some (string_of_bytes path)) e rest).
Proof.
  intros HB Vp Np Vh Vo Vn Vr headers HL. subst headers.
  pose proof (request_line_length path) as E1.
  pose proof (header_line_length (bytes_of_string "Host") host) as E2.
  pose proof (header_line_length (bytes_of_string "Origin") origin) as E3.
  pose proof (header_line_length (bytes_of_string "Sec-WebSocket-Protocol") proto) as E5.
  change (length (bytes_of_string "Host")) with 4%nat in E2.
  change (length (bytes_of_string "Origin")) with 6%nat in E3.
  change (length (bytes_of_string "Sec-WebSocket-Protocol")) with 22%nat in E5.
  pose proof (header_line_length (bytes_of_string "Sec-WebSocket-Version") ver) as E4.
  change (length (bytes_of_string "Sec-WebSocket-Version")) with 21%nat in E4.
  rewrite !length_app in *.
  unfold WEBSOCKETS_MAX_HANDSHAKE_LEN in HB, HL.
  eexists _, _, _, _.
  split; [|split; [|split; [|split]]]; cycle 4.
  - intros rounds rest.
    rewrite !delivers_app, <- !app_assoc, <- !Nat.add_assoc.
    rewrite loop_get by line_side.
    rewrite loop_host by line_side.
    rewrite loop_origin by line_side.
    rewrite loop_version by line_side.
    rewrite loop_protocol by line_side.
    f_equal. hs_fields; try (f_equal; lia); try lia.
  - buf_lengths. reflexivity.
  - apply stored_header; [lia | buf_lengths; lia | reflexivity].
  - lia.
  - lia.
Qed.

Lemma stored_after (B v l : list Z) (p q r : Z) :
  stored B p v -> p + Z.of_nat (length v) < q -> q < r ->
  stored (buf_set (memcpy B q l) r 0) p v.
Proof.
  intros S H1 H2. apply stored_buf_set; [|lia]. apply stored_memcpy; assumption.
Qed.

Section Accept.

Variable digestsha1 : list Z -> list Z.
Variable b64_ntop : list Z -> Z -> Z * list Z.
Variable cap : nat.

(** The lines of the request, and the loop variables after them. *)
Lemma loop_hybi_lines (buf path host origin ver proto key : list Z) (wp : option string)
    (e : errno_t) :
  length buf = Z.to_nat WEBSOCKETS_MAX_HANDSHAKE_LEN ->
  is_value path = true -> path <> [] ->
  is_value host = true -> is_value origin = true -> is_number ver = true ->
  is_value proto = true ->
  is_value key = true ->
  Z.of_nat (length (hybi_headers path host origin ver proto (Some key)))
  <= WEBSOCKETS_MAX_HANDSHAKE_LEN - 1 ->
  exists B hp op pp kp,
    length B = length buf
    /\ stored B pp proto /\ stored B kp key
    /\ 0 <= pp /\ 0 <= kp
    /\ pp + Z.of_nat (length proto)
       < Z.of_nat (length (hybi_headers path host origin ver proto (Some key)))
    /\ kp + Z.of_nat (length key)
       < Z.of_nat (length (hybi_headers path host origin ver proto (Some key)))
    /\ forall rounds rest,
         handshake_loop
           (length (hybi_headers path host origin ver proto (Some key)) + rounds)
           (mk_hs buf 0 0 None None None None None None None None None 0 wp e
              (delivers (hybi_headers path host origin ver proto (Some key)) ++ rest))
         = handshake_loop rounds
             (mk_hs B (Z.of_nat (length (hybi_headers path host origin ver proto (Some key))))
                (Z.of_nat (length (hybi_headers path host origin ver proto (Some key))))
                (Some 4) (Some hp) (Some op) (Some pp) None None None None (Some kp)
                (to_char (strtol ver))
                (Some (string_of_bytes path)) e rest).
Proof.
  intros HB Vp Np Vh Vo Vn Vr Vk HL.
  set (headers :=
         request_line path
         ++ header_line (bytes_of_string "Host") host
         ++ header_line (bytes_of_string "Origin") origin
         ++ header_line (bytes_of_string "Sec-WebSocket-Version") ver
         ++ header_line (bytes_of_string "Sec-WebSocket-Protocol") proto).
  assert (Req : hybi_headers path host origin ver proto (Some key)
                = headers ++ header_line (bytes_of_string "Sec-WebSocket-Key") key).
  { unfold hybi_headers, headers. rewrite <- !app_assoc. reflexivity. }
  rewrite Req in *. rewrite !length_app in *.
  pose proof (header_line_length (bytes_of_string "Sec-WebSocket-Key") key) as Ek.
  change (length (bytes_of_string "Sec-WebSocket-Key")) with 17%nat in Ek.
  unfold WEBSOCKETS_MAX_HANDSHAKE_LEN in HL.
  destruct (loop_hybi_headers buf path host origin ver proto wp e HB Vp Np Vh Vo Vn Vr
              ltac:(fold headers; unfold WEBSOCKETS_MAX_HANDSHAKE_LEN; lia))
    as (B & hp & op & pp & LB & SB & P0 & P1 & Loop).
  fold headers in P1, Loop.
  unfold WEBSOCKETS_MAX_HANDSHAKE_LEN in HB.
  eexists _, hp, op, pp, _.
  split; [|split; [|split; [|split; [|split; [|split; [|split]]]]]]; cycle 7.
  - intros rounds rest.
    rewrite !delivers_app, <- !app_assoc, <- !Nat.add_assoc. rewrite Loop.
    rewrite loop_key by line_side.
    f_equal. hs_fields; try (f_equal; lia); try lia.
  - buf_lengths. exact LB.
  - apply stored_after; [exact SB | lia | lia].
  - apply stored_header; [lia | line_side | reflexivity].
  - lia.
  - lia.
  - lia.
  - lia.
Qed.

(** What the handshake makes of the loop variables such a request
    leaves. *)
Lemma reply_to_hybi (B response accept_block : list Z) (len ls hp op pp kp sv : Z)
    (path proto key : list Z) (e : errno_t) (rest : list read_event) (write_ok : bool)
    (cl : rfbClient) :
  sv <> 0 -> cstring_at B pp = proto -> cstring_at B kp = key ->
  handshake_reply digestsha1 b64_ntop cap response accept_block write_ok cl
    (mk_hs B len ls (Some 4) (Some hp) (Some op) (Some pp) None None None None (Some kp)
       sv (Some (string_of_bytes path)) e rest)
  = let accept :=
      cstring (webSocketsGenSha1Key digestsha1 b64_ntop accept_block SZ_ACCEPT key) in
    let text := hybi_reply accept proto in
    let reply :=
      WriteExact
        (memcpy response 0
           (firstn (Z.to_nat (WEBSOCKETS_MAX_HANDSHAKE_LEN - 1)) text ++ [0]))
        (Z.of_nat (length text)) in
    if write_ok
    then
      HsReturn true
        (mk_client (peeks cl) (ssl_init_ok cl) (written cl ++ [reply])
           (Some (new_session cap (fst (select_protocol (Some (string_of_bytes proto))))))
           (Some (string_of_bytes path)))
        rest
    else
      HsReturn false
        (mk_client (peeks cl) (ssl_init_ok cl) (written cl ++ [reply]) (wsctx_of cl)
           (Some (string_of_bytes path)))
        rest.
Proof.
  intros Nz Cp Ck. unfold handshake_reply. hsg.
  destruct (Z.eqb_spec sv 0); [contradiction|].
  cbn [option_map is_set andb orb negb].
  rewrite Cp, Ck. unfold hybi_reply.
  destruct (select_protocol (Some (string_of_bytes proto))) as [base64 protocol].
  cbn [fst snd]. destruct write_ok; reflexivity.
Qed.

(** X15.  A request for a version whose number, taken as a [char], is
    not 0 (13, and as well 8 or 99) is accepted: when the connection
    delivers the request line with a path that is not empty, the headers
    Host, Origin, Sec-WebSocket-Version, Sec-WebSocket-Protocol and
    Sec-WebSocket-Key (values without NUL and newline, at most 4095 bytes
    with the empty line) and the empty line, the handshake sends one
    reply, the 101 response with the accept string made from the key and
    the GUID and with the protocol chosen from the client's list, and
    [cl->wspath] is the path of the request.  When the reply has been
    sent it returns TRUE and the client has a new session whose base64
    flag follows that choice; when sending fails it returns FALSE and the
    client has no new session.  What the connection delivers after the
    empty line is left unread.  The blocks are as [malloc] and the stack
    give them, and the call that makes the accept string leaves a NUL in
    [accept]. *)
Theorem handshake_accepts_hybi_request (buf response accept_block : list Z) (e : errno_t)
    (rest : list read_event) (write_ok : bool) (cl : rfbClient) (scheme : string)
    (path host origin ver proto key : list Z) :
  length buf = Z.to_nat WEBSOCKETS_MAX_HANDSHAKE_LEN ->
  length response = Z.to_nat WEBSOCKETS_MAX_HANDSHAKE_LEN ->
  length accept_block = Z.to_nat SZ_ACCEPT ->
  existsb (Z.eqb 0) (webSocketsGenSha1Key digestsha1 b64_ntop accept_block SZ_ACCEPT key)
  = true ->
  is_value path = true -> path <> [] ->
  is_value host = true -> is_value origin = true -> is_number ver = true ->
  to_char (strtol ver) <> 0 ->
  is_value proto = true ->
  is_value key = true ->
  Z.of_nat (length (hybi_request path host origin ver proto (Some key)))
  <= WEBSOCKETS_MAX_HANDSHAKE_LEN - 1 ->
  webSocketsHandshake digestsha1 b64_ntop cap (Some buf) (Some response) accept_block e
    (delivers (hybi_request path host origin ver proto (Some key)) ++ rest) write_ok cl scheme
  = let accept :=
      cstring (webSocketsGenSha1Key digestsha1 b64_ntop accept_block SZ_ACCEPT key) in
    let text := hybi_reply accept proto in
    let reply :=
      WriteExact
        (memcpy response 0
           (firstn (Z.to_nat (WEBSOCKETS_MAX_HANDSHAKE_LEN - 1)) text ++ [0]))
        (Z.of_nat (length text)) in
    if write_ok
    then
      HsReturn true
        (mk_client (peeks cl) (ssl_init_ok cl) (written cl ++ [reply])
           (Some (new_session cap (fst (select_protocol (Some (string_of_bytes proto))))))
           (Some (string_of_bytes path)))
        rest
    else
      HsReturn false
        (mk_client (peeks cl) (ssl_init_ok cl) (written cl ++ [reply]) (wsctx_of cl)
           (Some (string_of_bytes path)))
        rest.
Proof.
  intros HB _ _ _ Vp Np Vh Vo Vn Nz Vr Vk HL.
  unfold hybi_request in *. rewrite length_app in HL.
  change (length (bytes_of_string crlf)) with 2%nat in HL.
  unfold WEBSOCKETS_MAX_HANDSHAKE_LEN in HL.
  destruct (loop_hybi_lines buf path host origin ver proto key (wspath cl) e HB Vp Np Vh Vo Vn Vr
              Vk ltac:(unfold WEBSOCKETS_MAX_HANDSHAKE_LEN; lia))
    as (B & hp & op & pp & kp & LB & Sp & Sk & P0 & K0 & P1 & K1 & Loop).
  set (lines := hybi_headers path host origin ver proto (Some key)) in *.
  unfold webSocketsHandshake.
  replace (Z.to_nat WEBSOCKETS_MAX_HANDSHAKE_LEN)
    with (length lines + S (S (4096 - length lines - 2)))%nat
    by (unfold WEBSOCKETS_MAX_HANDSHAKE_LEN; lia).
  rewrite delivers_app, <- app_assoc. rewrite Loop.
  unfold WEBSOCKETS_MAX_HANDSHAKE_LEN in HB.
  rewrite loop_blank by line_side.
  cbn iota. apply reply_to_hybi; [exact Nz| |].
  - apply stored_cstring_at; [|lia|buf_lengths; lia|apply is_value_no_nul; exact Vr].
    apply stored_after; [exact Sp | lia | lia].
  - apply stored_cstring_at; [|lia|buf_lengths; lia|apply is_value_no_nul; exact Vk].
    apply stored_after; [exact Sk | lia | lia].
Qed.

(** The connection has nothing more in time. *)
Lemma loop_timeout (B : list Z) (L ls : Z) (pa ho og pr k1 k2 k3 so sk : option Z)
    (sv : Z) (wp : option string) (er : errno_t) (rounds : nat) :
  exists er',
    handshake_loop rounds (mk_hs B L ls pa ho og pr k1 k2 k3 so sk sv wp er [])
    = (false, mk_hs B L ls pa ho og pr k1 k2 k3 so sk sv wp er' []).
Proof.
  destruct rounds as [|rounds]; [exists er; reflexivity|].
  cbn [handshake_loop]. hsg. destruct (L <? _); [|exists er; reflexivity].
  exists ETIMEDOUT. reflexivity.
Qed.

(** X16.  A timeout ends the request as the empty line does: when the
    connection delivers the lines of such a request, with the key, and
    then nothing in time, without the empty line, the handshake replies
    and returns as it does for the complete request. *)
Theorem handshake_accepts_request_cut_by_timeout (buf response accept_block : list Z)
    (e : errno_t) (write_ok : bool) (cl : rfbClient) (scheme : string)
    (path host origin ver proto key : list Z) :
  length buf = Z.to_nat WEBSOCKETS_MAX_HANDSHAKE_LEN ->
  length response = Z.to_nat WEBSOCKETS_MAX_HANDSHAKE_LEN ->
  length accept_block = Z.to_nat SZ_ACCEPT ->
  existsb (Z.eqb 0) (webSocketsGenSha1Key digestsha1 b64_ntop accept_block SZ_ACCEPT key)
  = true ->
  is_value path = true -> path <> [] ->
  is_value host = true -> is_value origin = true -> is_number ver = true ->
  to_char (strtol ver) <> 0 ->
  is_value proto = true ->
  is_value key = true ->
  Z.of_nat (length (hybi_headers path host origin ver proto (Some key)))
  <= WEBSOCKETS_MAX_HANDSHAKE_LEN - 1 ->
  webSocketsHandshake digestsha1 b64_ntop cap (Some buf) (Some response) accept_block e
    (delivers (hybi_headers path host origin ver proto (Some key))) write_ok cl scheme
  = let accept :=
      cstring (webSocketsGenSha1Key digestsha1 b64_ntop accept_block SZ_ACCEPT key) in
    let text := hybi_reply accept proto in
    let reply :=
      WriteExact
        (memcpy response 0
           (firstn (Z.to_nat (WEBSOCKETS_MAX_HANDSHAKE_LEN - 1)) text ++ [0]))
        (Z.of_nat (length text)) in
    if write_ok
    then
      HsReturn true
        (mk_client (peeks cl) (ssl_init_ok cl) (written cl ++ [reply])
           (Some (new_session cap (fst (select_protocol (Some (string_of_bytes proto))))))
           (Some (string_of_bytes path)))
        []
    else
      HsReturn false
        (mk_client (peeks cl) (ssl_init_ok cl) (written cl ++ [reply]) (wsctx_of cl)
           (Some (string_of_bytes path)))
        [].
Proof.
  intros HB _ _ _ Vp Np Vh Vo Vn Nz Vr Vk HL.
  unfold WEBSOCKETS_MAX_HANDSHAKE_LEN in HL.
  destruct (loop_hybi_lines buf path host origin ver proto key (wspath cl) e HB Vp Np Vh Vo Vn Vr
              Vk ltac:(unfold WEBSOCKETS_MAX_HANDSHAKE_LEN; lia))
    as (B & hp & op & pp & kp & LB & Sp & Sk & P0 & K0 & P1 & K1 & Loop).
  set (lines := hybi_headers path host origin ver proto (Some key)) in *.
  unfold webSocketsHandshake.
  replace (Z.to_nat WEBSOCKETS_MAX_HANDSHAKE_LEN)
    with (length lines + (4096 - length lines))%nat
    by (unfold WEBSOCKETS_MAX_HANDSHAKE_LEN; lia).
  rewrite <- (app_nil_r (delivers lines)). rewrite Loop.
  unfold WEBSOCKETS_MAX_HANDSHAKE_LEN in HB.
  match goal with
  | |- context [handshake_loop ?r (mk_hs ?b ?l ?ls ?pa ?ho ?og ?pr ?k1 ?k2 ?k3 ?so ?sk ?sv
                                     ?wp ?er [])] =>
      destruct (loop_timeout b l ls pa ho og pr k1 k2 k3 so sk sv wp er r) as (er' & ->)
  end.
  cbn iota. apply reply_to_hybi; [exact Nz| |].
  - apply stored_cstring_at; [exact Sp|lia|lia|apply is_value_no_nul; exact Vr].
  - apply stored_cstring_at; [exact Sk|lia|lia|apply is_value_no_nul; exact Vk].
Qed.

(** X17.  A request that has the request line and the headers Host,
    Origin, Sec-WebSocket-Version (a number that is not 0 as a [char]) and
    Sec-WebSocket-Protocol but no header Sec-WebSocket-Key is not refused:
    the handshake goes on
    to make the accept string, and [webSocketsGenSha1Key] passes the null
    pointer [sec_ws_key] to [strlen]; what the call does is not defined. *)
Theorem handshake_without_key_is_undefined (buf response accept_block : list Z)
    (e : errno_t) (rest : list read_event) (write_ok : bool) (cl : rfbClient)
    (scheme : string) (path host origin ver proto : list Z) :
  length buf = Z.to_nat WEBSOCKETS_MAX_HANDSHAKE_LEN ->
  is_value path = true -> path <> [] ->
  is_value host = true -> is_value origin = true -> is_number ver = true ->
  to_char (strtol ver) <> 0 ->
  is_value proto = true ->
  Z.of_nat (length (hybi_request path host origin ver proto None))
  <= WEBSOCKETS_MAX_HANDSHAKE_LEN - 1 ->
  webSocketsHandshake digestsha1 b64_ntop cap (Some buf) (Some response) accept_block e
    (delivers (hybi_request path host origin ver proto None) ++ rest) write_ok cl scheme
  = HsUndefined.
Proof.
  intros HB Vp Np Vh Vo Vn Nz Vr HL.
  set (headers :=
         request_line path
         ++ header_line (bytes_of_string "Host") host
         ++ header_line (bytes_of_string "Origin") origin
         ++ header_line (bytes_of_string "Sec-WebSocket-Version") ver
         ++ header_line (bytes_of_string "Sec-WebSocket-Protocol") proto).
  assert (Req : hybi_request path host origin ver proto None
                = headers ++ bytes_of_string crlf).
  { unfold hybi_request, hybi_headers, headers. rewrite <- !app_assoc. reflexivity. }
  rewrite Req in *. rewrite !length_app in HL.
  change (length (bytes_of_string crlf)) with 2%nat in HL.
  unfold WEBSOCKETS_MAX_HANDSHAKE_LEN in HL.
  destruct (loop_hybi_headers buf path host origin ver proto (wspath cl) e HB Vp Np Vh Vo Vn Vr
              ltac:(fold headers; unfold WEBSOCKETS_MAX_HANDSHAKE_LEN; lia))
    as (B & hp & op & pp & LB & SB & P0 & P1 & Loop).
  fold headers in P1, Loop.
  unfold webSocketsHandshake.
  replace (Z.to_nat WEBSOCKETS_MAX_HANDSHAKE_LEN)
    with (length headers + S (S (4096 - length headers - 2)))%nat
    by (unfold WEBSOCKETS_MAX_HANDSHAKE_LEN; lia).
  rewrite !delivers_app, <- !app_assoc. rewrite Loop.
  unfold WEBSOCKETS_MAX_HANDSHAKE_LEN in HB.
  rewrite loop_blank by line_side.
  cbn iota. unfold handshake_reply. hsg.
  destruct (Z.eqb_spec (to_char (strtol ver)) 0); [contradiction|].
  cbn [option_map is_set andb orb negb].
  destruct (select_protocol _) as [base64 protocol]. reflexivity.
Qed.

(** X18.  The version is the number in the header Sec-WebSocket-Version
    converted to [char], and 0 stands for the Hixie protocol: such a
    request whose version number is a multiple of 256 (0, 256, 512) is
    refused, with or without a key.  The handshake returns FALSE, sends
    nothing and leaves the client without a new session; [cl->wspath] is
    the path of the request. *)
Theorem handshake_refuses_version_0_as_char (buf response accept_block : list Z)
    (e : errno_t) (rest : list read_event) (write_ok : bool) (cl : rfbClient)
    (scheme : string) (path host origin ver proto : list Z) (key : option (list Z)) :
  length buf = Z.to_nat WEBSOCKETS_MAX_HANDSHAKE_LEN ->
  is_value path = true -> path <> [] ->
  is_value host = true -> is_value origin = true -> is_number ver = true ->
  to_char (strtol ver) = 0 ->
  is_value proto = true ->
  match key with Some k => is_value k | None => true end = true ->
  Z.of_nat (length (hybi_request path host origin ver proto key))
  <= WEBSOCKETS_MAX_HANDSHAKE_LEN - 1 ->
  webSocketsHandshake digestsha1 b64_ntop cap (Some buf) (Some response) accept_block e
    (delivers (hybi_request path host origin ver proto key) ++ rest) write_ok cl scheme
  = HsReturn false
      (mk_client (peeks cl) (ssl_init_ok cl) (written cl) (wsctx_of cl)
         (Some (string_of_bytes path)))
      rest.
Proof.
  intros HB Vp Np Vh Vo Vn Ze Vr Vk HL.
  unfold hybi_request in *. rewrite length_app in HL.
  change (length (bytes_of_string crlf)) with 2%nat in HL.
  unfold WEBSOCKETS_MAX_HANDSHAKE_LEN in HL.
  destruct key as [key|].
  - destruct (loop_hybi_lines buf path host origin ver proto key (wspath cl) e HB Vp Np Vh
                Vo Vn Vr Vk ltac:(unfold WEBSOCKETS_MAX_HANDSHAKE_LEN; lia))
      as (B & hp & op & pp & kp & LB & _ & _ & _ & _ & _ & _ & Loop).
    set (lines := hybi_headers path host origin ver proto (Some key)) in *.
    unfold webSocketsHandshake.
    replace (Z.to_nat WEBSOCKETS_MAX_HANDSHAKE_LEN)
      with (length lines + S (S (4096 - length lines - 2)))%nat
      by (unfold WEBSOCKETS_MAX_HANDSHAKE_LEN; lia).
    rewrite delivers_app, <- app_assoc. rewrite Loop.
    unfold WEBSOCKETS_MAX_HANDSHAKE_LEN in HB.
    rewrite loop_blank by line_side.
    cbn iota. unfold handshake_reply. hsg. rewrite Ze. reflexivity.
  - set (headers :=
           request_line path
           ++ header_line (bytes_of_string "Host") host
           ++ header_line (bytes_of_string "Origin") origin
           ++ header_line (bytes_of_string "Sec-WebSocket-Version") ver
           ++ header_line (bytes_of_string "Sec-WebSocket-Protocol") proto).
    assert (Req : hybi_headers path host origin ver proto None = headers).
    { unfold hybi_headers, headers. rewrite app_nil_r. reflexivity. }
    rewrite Req in *.
    destruct (loop_hybi_headers buf path host origin ver proto (wspath cl) e HB Vp Np Vh Vo
                Vn Vr ltac:(fold headers; unfold WEBSOCKETS_MAX_HANDSHAKE_LEN; lia))
      as (B & hp & op & pp & LB & _ & _ & _ & Loop).
    fold headers in Loop.
    unfold webSocketsHandshake.
    replace (Z.to_nat WEBSOCKETS_MAX_HANDSHAKE_LEN)
      with (length headers + S (S (4096 - length headers - 2)))%nat
      by (unfold WEBSOCKETS_MAX_HANDSHAKE_LEN; lia).
    rewrite delivers_app, <- app_assoc. rewrite Loop.
    unfold WEBSOCKETS_MAX_HANDSHAKE_LEN in HB.
    rewrite loop_blank by line_side.
    cbn iota. unfold handshake_reply. hsg. rewrite Ze. reflexivity.
Qed.

End Accept.

(** *** Scenarios *)

Lemma handshake_loop_by_lines_witness :
  handshake_loop (length (bytes_of_lines sample_lines) + 2)
    (handshake_start (fresh_block 4096)
       (delivers (bytes_of_lines sample_lines) ++ [ReadByte 13; ReadByte 10]))
  = handshake_loop 2
      (fold_left line_done (map (fun l => l ++ [10]) sample_lines)
         (hs_set_io (EOTHER 0) [ReadByte 13; ReadByte 10]
            (handshake_start (fresh_block 4096)
               (delivers (bytes_of_lines sample_lines) ++ [ReadByte 13; ReadByte 10])))).
Proof.
  apply (handshake_loop_by_lines sample_lines 2
           (handshake_start (fresh_block 4096)
              (delivers (bytes_of_lines sample_lines) ++ [ReadByte 13; ReadByte 10]))
           [ReadByte 13; ReadByte 10]).
  - vm_compute. reflexivity.
  - reflexivity.
  - reflexivity.
  - vm_compute. discriminate.
  - vm_compute. discriminate.
  - vm_compute. discriminate.
Defined.

Lemma handshake_takes_at_most_4103_reads_witness :
  exists taken,
    delivers sample_request ++ [ReadByte 1; ReadByte 2] = taken ++ [ReadByte 1; ReadByte 2]
    /\ (length taken <= 4103)%nat.
Proof.
  eapply (handshake_takes_at_most_4103_reads digest_first20 ntop_copy 64
            (Some (fresh_block 4096)) (Some (fresh_block 4096)) (fresh_block 29)
            (EOTHER 0) (delivers sample_request ++ [ReadByte 1; ReadByte 2]) true
            new_client "ws"%string).
  vm_compute. reflexivity.
Defined.

Lemma request_without_version_is_refused_witness :
  exists cl' unread,
    webSocketsHandshake digest_first20 ntop_copy 64 (Some (fresh_block 4096))
      (Some (fresh_block 4096)) (fresh_block 29) (EOTHER 0)
      (delivers request_without_version) true new_client "ws"%string
    = HsReturn false cl' unread
    /\ written cl' = written new_client /\ wsctx_of cl' = wsctx_of new_client.
Proof.
  apply (request_without_version_is_refused digest_first20 ntop_copy 64
           (fresh_block 4096) (fresh_block 4096) (fresh_block 29) (EOTHER 0)
           (delivers request_without_version) true new_client "ws"%string).
  - reflexivity.
  - vm_compute. reflexivity.
Defined.

Lemma handshake_accepts_hybi_request_witness :
  webSocketsHandshake digest_first20 ntop_copy 64 (Some (fresh_block 4096))
    (Some (fresh_block 4096)) (fresh_block 29) (EOTHER 0)
    (delivers
       (hybi_request (bytes_of_string "/websockify") (bytes_of_string "example.com:5900")
          (bytes_of_string "http://example.com") (bytes_of_string "13")
          (bytes_of_string "base64, binary") (Some sample_key))
     ++ [ReadByte 1; ReadByte 2])
    true new_client "ws"%string
  = let accept :=
      cstring (webSocketsGenSha1Key digest_first20 ntop_copy (fresh_block 29) SZ_ACCEPT
                 sample_key) in
    let text := hybi_reply accept (bytes_of_string "base64, binary") in
    let reply :=
      WriteExact
        (memcpy (fresh_block 4096) 0
           (firstn (Z.to_nat (WEBSOCKETS_MAX_HANDSHAKE_LEN - 1)) text ++ [0]))
        (Z.of_nat (length text)) in
    HsReturn true
      (mk_client (peeks new_client) (ssl_init_ok new_client)
         (written new_client ++ [reply])
         (Some (new_session 64
                  (fst (select_protocol
                          (Some (string_of_bytes (bytes_of_string "base64, binary")))))))
         (Some (string_of_bytes (bytes_of_string "/websockify"))))
      [ReadByte 1; ReadByte 2].
Proof.
  apply (handshake_accepts_hybi_request digest_first20 ntop_copy 64 (fresh_block 4096)
           (fresh_block 4096) (fresh_block 29) (EOTHER 0) [ReadByte 1; ReadByte 2] true
           new_client "ws"%string (bytes_of_string "/websockify")
           (bytes_of_string "example.com:5900") (bytes_of_string "http://example.com")
           (bytes_of_string "13") (bytes_of_string "base64, binary") sample_key);
    try reflexivity; try discriminate.
Defined.

Lemma handshake_accepts_request_cut_by_timeout_witness :
  webSocketsHandshake digest_first20 ntop_copy 64 (Some (fresh_block 4096))
    (Some (fresh_block 4096)) (fresh_block 29) (EOTHER 0)
    (delivers
       (hybi_headers (bytes_of_string "/websockify") (bytes_of_string "example.com:5900")
          (bytes_of_string "http://example.com") (bytes_of_string "8")
          (bytes_of_string "base64") (Some sample_key)))
    true new_client "ws"%string
  = let accept :=
      cstring (webSocketsGenSha1Key digest_first20 ntop_copy (fresh_block 29) SZ_ACCEPT
                 sample_key) in
    let text := hybi_reply accept (bytes_of_string "base64") in
    let reply :=
      WriteExact
        (memcpy (fresh_block 4096) 0
           (firstn (Z.to_nat (WEBSOCKETS_MAX_HANDSHAKE_LEN - 1)) text ++ [0]))
        (Z.of_nat (length text)) in
    HsReturn true
      (mk_client (peeks new_client) (ssl_init_ok new_client)
         (written new_client ++ [reply])
         (Some (new_session 64
                  (fst (select_protocol
                          (Some (string_of_bytes (bytes_of_string "base64")))))))
         (Some (string_of_bytes (bytes_of_string "/websockify"))))
      [].
Proof.
  apply (handshake_accepts_request_cut_by_timeout digest_first20 ntop_copy 64
           (fresh_block 4096) (fresh_block 4096) (fresh_block 29) (EOTHER 0) true
           new_client "ws"%string (bytes_of_string "/websockify")
           (bytes_of_string "example.com:5900") (bytes_of_string "http://example.com")
           (bytes_of_string "8") (bytes_of_string "base64") sample_key);
    try reflexivity; try discriminate.
Defined.

Lemma handshake_without_key_is_undefined_witness :
  webSocketsHandshake digest_first20 ntop_copy 64 (Some (fresh_block 4096))
    (Some (fresh_block 4096)) (fresh_block 29) (EOTHER 0)
    (delivers
       (hybi_request (bytes_of_string "/websockify") (bytes_of_string "example.com:5900")
          (bytes_of_string "http://example.com") (bytes_of_string "13")
          (bytes_of_string "binary") None))
    true new_client "ws"%string
  = HsUndefined.
Proof.
  apply (handshake_without_key_is_undefined digest_first20 ntop_copy 64 (fresh_block 4096)
           (fresh_block 4096) (fresh_block 29) (EOTHER 0) [] true new_client "ws"%string
           (bytes_of_string "/websockify") (bytes_of_string "example.com:5900")
           (bytes_of_string "http://example.com") (bytes_of_string "13")
           (bytes_of_string "binary"));
    try reflexivity; try discriminate.
Defined.

Lemma handshake_refuses_version_0_as_char_witness :
  webSocketsHandshake digest_first20 ntop_copy 64 (Some (fresh_block 4096))
    (Some (fresh_block 4096)) (fresh_block 29) (EOTHER 0)
    (delivers
       (hybi_request (bytes_of_string "/websockify") (bytes_of_string "example.com:5900")
          (bytes_of_string "http://example.com") (bytes_of_string "256")
          (bytes_of_string "binary") (Some sample_key))
     ++ [ReadByte 1; ReadByte 2])
    true new_client "ws"%string
  = HsReturn false
      (mk_client (peeks new_client) (ssl_init_ok new_client) (written new_client)
         (wsctx_of new_client) (Some (string_of_bytes (bytes_of_string "/websockify"))))
      [ReadByte 1; ReadByte 2].
Proof.
  apply (handshake_refuses_version_0_as_char digest_first20 ntop_copy 64
           (fresh_block 4096) (fresh_block 4096) (fresh_block 29) (EOTHER 0)
           [ReadByte 1; ReadByte 2] true new_client "ws"%string
           (bytes_of_string "/websockify") (bytes_of_string "example.com:5900")
           (bytes_of_string "http://example.com") (bytes_of_string "256")
           (bytes_of_string "binary") (Some sample_key));
    try reflexivity; try discriminate.
Defined.


(** ** Frames that share a read, and reads that fail *)

(** C1.  Not every masked frame is delivered as its payload.
    [readHeader] asks the socket for all that is missing of the longest
    header, 14 bytes, and counts what it gets beyond the header as
    payload of the frame.  Two BINARY frames of one byte each, fed byte
    by byte, come out as their two payload bytes; fed in one piece, the
    first call counts 8 bytes of payload for a frame that has 1, the
    count of what remains wraps around, the next read finds the socket
    empty, and the decoder is reset: nothing is delivered.  One byte
    behind a frame in the same read is enough to lose the frame.  A frame
    is lost as well when a read fails while bytes of it are outstanding
    (as with EAGAIN, when they have not arrived yet). *)
Theorem C1_frames_in_one_read_are_lost :
  recv_output b64_pton_none 40 (new_session 64 false) 100
    (socket_with (bytewise two_short_frames)) = [97; 98]
  /\ recv_output b64_pton_none 40 (new_session 64 false) 100
       (socket_with (one_chunk two_short_frames)) = []
  /\ (let '(r, _, c, w) :=
        decode_switch b64_pton_none (new_session 64 false) (repeat 0 100%nat) 100
          (socket_with (one_chunk two_short_frames)) in
      r = -1 /\ errno w = EAGAIN /\ sock w = [] /\ state (dec c) = WS_STATE_ERR
      /\ payloadLen (header (dec c)) = 1 /\ nReadPayload (dec c) = 8
      /\ remaining (dec c) = 2 ^ 64 - 7)
  /\ recv_output b64_pton_none 40 (new_session 64 false) 100
       (socket_with (one_chunk frame_hello)) = [72; 101; 108; 108; 111]
  /\ recv_output b64_pton_none 40 (new_session 64 false) 100
       (socket_with (one_chunk (frame_hello ++ [0x82]))) = []
  /\ recv_output b64_pton_none 40 (new_session 64 false) 100
       (socket_with (chunks [firstn 8 frame_hello; skipn 8 frame_hello]))
     = [72; 101; 108; 108; 111]
  /\ recv_output b64_pton_none 40 (new_session 64 false) 100
       (socket_with (chunks [firstn 8 frame_hello] ++ [Fails EAGAIN]
                     ++ chunks [skipn 8 frame_hello])) = [].
Proof. vm_compute. repeat split. Qed.

(** ** The ERR state *)

Section Errors.

Variable b64_pton : list Z -> Z -> Z * list Z.

(** What a read leaves: the errno of a failure is EAGAIN (nothing there)
    or that of the event on the socket; otherwise errno is as before; and
    no failure appears on the socket that was not there. *)
Lemma lowerRead_errno w len ret bytes w1 :
  lowerRead w len = (ret, bytes, w1) ->
  (ret = -1 /\ (errno w1 = EAGAIN \/ In (Fails (errno w1)) (sock w)))
  \/ (0 <= ret /\ errno w1 = errno w
      /\ forall e, In (Fails e) (sock w1) -> In (Fails e) (sock w)).
Proof.
  unfold lowerRead. destruct (sock w) as [|[b bs|e|] s] eqn:Hs; intros E; inv_pair; rsimpl.
  - left. auto.
  - right. split; [lia|]. split; [reflexivity|]. intros e.
    destruct (skipn _ _); cbn [rest_chunk In].
    + intros H. right. exact H.
    + intros [H|H]; [discriminate | right; exact H].
  - left. split; [reflexivity|]. right. left. reflexivity.
  - right. split; [lia|]. split; [reflexivity|]. intros e H. right. exact H.
Qed.

(** The ways [readHeader] ends in ERR. *)
Lemma readHeader_ERR d w np d' w' sr' np' :
  readHeader d w (-1) np = (WS_STATE_ERR, d', w', sr', np') ->
  (sr' = 0 /\ errno w' = errno w)
  \/ (sr' = -1
      /\ (errno w' = EPROTO \/ errno w' = EAGAIN \/ In (Fails (errno w')) (sock w))).
Proof.
  unfold readHeader, readHeader_length, readHeader_complete, err_cleanup_state,
    err_cleanup_state_sock_closed, ret_header_pending.
  cbn zeta. destruct (lowerRead _ _) as [[ret bytes] w1] eqn:LR.
  apply lowerRead_errno in LR. rsimpl.
  repeat break_if; intros H; inv_pair; rsimpl; auto.
  - destruct LR as [(_ & [E|E]) | (Hr & _)]; auto. lia.
  - destruct LR as [(Hr & _) | (_ & E & _)]; auto. lia.
Qed.

(** When [readHeader] goes on, its read has delivered. *)
Lemma readHeader_goes_on d w np d' w' sr' np' :
  readHeader d w (-1) np = (WS_STATE_DECODING_DATA_NEEDED, d', w', sr', np') ->
  sr' = -1 /\ errno w' = errno w
  /\ forall e, In (Fails e) (sock w') -> In (Fails e) (sock w).
Proof.
  unfold readHeader, readHeader_length, readHeader_complete, err_cleanup_state,
    err_cleanup_state_sock_closed, ret_header_pending.
  cbn zeta. destruct (lowerRead _ _) as [[ret bytes] w1] eqn:LR.
  apply lowerRead_errno in LR. rsimpl.
  repeat break_if; intros H; inv_pair; rsimpl;
    (destruct LR as [(Hr & _) | (_ & E & F)]; [lia | auto]).
Qed.

(** The payload step ends in ERR on a failed internal check only. *)
Lemma readAndDecode_payload_ERR wsctx dst len w sockRet nInBuf bufsize n dst' c' r w' :
  state (dec wsctx) <> WS_STATE_ERR ->
  readAndDecode_payload b64_pton wsctx dst len w sockRet nInBuf bufsize n
  = (WS_STATE_ERR, dst', c', r, w') ->
  dst' = dst /\ r = -1 /\ errno w' = EIO.
Proof.
  intros Hst. unfold readAndDecode_payload. cbn zeta.
  fold (payload_counted (dec wsctx) n).
  pose proof (payload_counted_state (dec wsctx) n) as P.
  set (d0 := payload_counted (dec wsctx) n) in *. clearbody d0.
  destruct (_ <? 0); [intros E; inv_pair; auto|].
  destruct (unmask d0 _) as [d4 ok] eqn:U.
  pose proof (unmask_fields _ _ _ _ U) as (G1 & _).
  destruct ok; cbn [negb]; [|intros E; inv_pair; auto].
  destruct (_ =? WS_OPCODE_CLOSE).
  - destruct (wsFrameComplete d4); intros E; inv_pair.
  - match goal with
    | |- context [returnData dst len ?c sockRet w] =>
        pose proof (decode_by_opcode_fields b64_pton d4 (writePos d0 - (n + carrylen d0 + nInBuf))
                      (n + carrylen d0 + nInBuf - carrylen d4) bufsize) as (D1 & _);
        assert (Hc : state c = state d0) by (rsimpl; congruence);
        destruct (returnData dst len c sockRet w) as [[[[s1 dst1] c1] r1] w1] eqn:RD
    end.
    intros E; inv_pair.
    destruct (returnData_state _ _ _ _ _ _ _ _ _ _ RD)
      as [(Hs & _) | [Hs | [Hs | (Hs & _ & _)]]]; try discriminate Hs.
    exfalso. rewrite Hc in Hs. destruct P as [P | P]; rewrite P in Hs;
      [discriminate | auto].
Qed.

(** The ways [readAndDecode] ends in ERR. *)
Lemma readAndDecode_ERR wsctx dst len w sockRet nInBuf dst' c' r w' :
  state (dec wsctx) <> WS_STATE_ERR ->
  readAndDecode b64_pton wsctx dst len w sockRet nInBuf
  = (WS_STATE_ERR, dst', c', r, w') ->
  dst' = dst
  /\ ((r = 0 /\ errno w' = errno w)
      \/ (r = -1
          /\ (errno w' = EIO \/ errno w' = EAGAIN \/ In (Fails (errno w')) (sock w)))).
Proof.
  intros Hst. unfold readAndDecode. cbn zeta.
  destruct (_ >? 0).
  - destruct (lowerRead _ _) as [[n bytes] w1] eqn:LR.
    apply lowerRead_errno in LR.
    destruct (Z.eqb_spec (-1) n).
    { intros E; inv_pair. split; [reflexivity|]. right.
      destruct LR as [(_ & [E|E]) | (Hr & _)]; auto. lia. }
    destruct (Z.eqb_spec n 0).
    { intros E; inv_pair. split; [reflexivity|]. left.
      destruct LR as [(Hr & _) | (_ & E & _)]; auto. lia. }
    intros E. apply readAndDecode_payload_ERR in E; [|exact Hst].
    destruct E as (-> & -> & E). auto.
  - intros E. apply readAndDecode_payload_ERR in E; [|exact Hst].
    destruct E as (-> & -> & E). auto.
Qed.

(** The ways the switch ends in ERR. *)
Lemma decode_switch_ERR wsctx dst len w r dst' c' w' :
  waiting_state (state (dec wsctx)) ->
  decode_switch b64_pton wsctx dst len w = (r, dst', c', w') ->
  state (dec c') = WS_STATE_ERR ->
  dst' = dst
  /\ ((r = 0 /\ errno w' = errno w)
      \/ (r = -1
          /\ (errno w' = EPROTO \/ errno w' = EIO \/ errno w' = EAGAIN
              \/ In (Fails (errno w')) (sock w)))).
Proof.
  intros Hw. unfold decode_switch. cbn zeta.
  destruct Hw as [Hs | [Hs | [Hs | Hs]]]; rewrite Hs.
  - destruct (readHeader _ _ _ _) as [[[[s d] w2] r2] n2] eqn:RH.
    destruct (readHeader_states _ _ _ _ _ _ _ _ _ RH) as [E|[E|E]]; subst s.
    + intros E HE; inv_pair. split; [reflexivity|].
      apply readHeader_ERR in RH. destruct RH as [H | (H1 & [H|[H|H]])]; auto 6.
    + intros E HE; inv_pair. rsimpl. discriminate HE.
    + apply readHeader_goes_on in RH. destruct RH as (-> & Ee & Hf).
      destruct (readAndDecode _ _ _ _ _ _ _) as [[[[s' dd] cc] rr] ww] eqn:RD.
      intros E HE; inv_pair. rsimpl. subst s'.
      apply readAndDecode_ERR in RD; [|rsimpl; discriminate].
      destruct RD as (-> & [(H1 & H2) | (H1 & [H|[H|H]])]); (split; [reflexivity|]).
      * left. split; [exact H1 | congruence].
      * auto 6.
      * auto 6.
      * right. split; [exact H1|]. right. right. right. apply Hf. exact H.
  - destruct (returnData _ _ _ _ _) as [[[[s' dd] cc] rr] ww] eqn:RD.
    intros E HE; inv_pair. rsimpl. subst s'.
    destruct (returnData_state _ _ _ _ _ _ _ _ _ _ RD)
      as [(H & _) | [H | [H | (H & _ & _)]]]; try discriminate H.
    rewrite Hs in H. discriminate H.
  - destruct (readAndDecode _ _ _ _ _ _ _) as [[[[s' dd] cc] rr] ww] eqn:RD.
    intros E HE; inv_pair. rsimpl. subst s'.
    apply readAndDecode_ERR in RD; [|rewrite Hs; discriminate].
    destruct RD as (-> & [(H1 & H2) | (H1 & [H|[H|H]])]); auto 8.
  - destruct (readAndDecode _ _ _ _ _ _ _) as [[[[s' dd] cc] rr] ww] eqn:RD.
    intros E HE; inv_pair. rsimpl. subst s'.
    apply readAndDecode_ERR in RD; [|rewrite Hs; discriminate].
    destruct RD as (-> & [(H1 & H2) | (H1 & [H|[H|H]])]); auto 8.
Qed.

(** C3, as the code has it.  ERR is not a state a call leaves the
    decoder in, and it is not terminal.  When the switch of a call ends
    in ERR - the call being entered in one of the four states a call
    leaves behind - the single point of return cleans the context up
    completely: the state is HEADER_PENDING, no header byte, payload
    count, carried byte or decoded byte is kept, and the continuation
    opcode is INVALID; so the next call starts with a new header.  The
    destination is as it was.  The call returns 0 or -1: with 0, errno is
    as it was; with -1, errno is EPROTO, EIO, EAGAIN, or that of a
    failure of the socket. *)
Theorem C3_ERR_is_reset wsctx dst len w r dst' wsctx' w' sr sd sc sw :
  waiting_state (state (dec wsctx)) ->
  decode_switch b64_pton wsctx dst len w = (sr, sd, sc, sw) ->
  _webSocketsDecode b64_pton wsctx dst len w = (r, dst', wsctx', w') ->
  state (dec wsctx') <> WS_STATE_ERR
  /\ (state (dec sc) = WS_STATE_ERR ->
      dst' = dst
      /\ dec wsctx' = wsDecodeCleanupComplete (dec sc)
      /\ state (dec wsctx') = WS_STATE_DECODING_HEADER_PENDING
      /\ nDone (header (dec wsctx')) = 0 /\ nReadPayload (dec wsctx') = 0
      /\ carrylen (dec wsctx') = 0 /\ readlen (dec wsctx') = 0
      /\ continuation_opcode (dec wsctx') = WS_OPCODE_INVALID
      /\ ((r = 0 /\ errno w' = errno w)
          \/ (r = -1
              /\ (errno w' = EPROTO \/ errno w' = EIO \/ errno w' = EAGAIN
                  \/ In (Fails (errno w')) (sock w))))).
Proof.
  intros Hw SW. unfold _webSocketsDecode. rewrite SW.
  intros H; inv_pair. rsimpl. split; [apply decode_spor_state|].
  intros HE. destruct (decode_switch_ERR _ _ _ _ _ _ _ _ Hw SW HE) as (-> & Hr).
  unfold decode_spor. rewrite HE. rsimpl. auto 10.
Qed.

End Errors.

Lemma C3_ERR_is_reset_witness :
  (let w0 := socket_with (one_chunk frame_unmasked) in
   let sw := decode_switch b64_pton_none (new_session 32 false) [7; 7; 7; 7] 4 w0 in
   let res := _webSocketsDecode b64_pton_none (new_session 32 false) [7; 7; 7; 7] 4 w0 in
   state (dec (snd (fst sw))) = WS_STATE_ERR
   /\ fst (fst (fst res)) = -1 /\ errno (snd res) = EPROTO
   /\ snd (fst (fst res)) = [7; 7; 7; 7]
   /\ state (dec (snd (fst res))) = WS_STATE_DECODING_HEADER_PENDING
   /\ nDone (header (dec (snd (fst res)))) = 0
   /\ continuation_opcode (dec (snd (fst res))) = WS_OPCODE_INVALID)
  /\ (let w0 := socket_with [Closed] in
      let sw := decode_switch b64_pton_none (new_session 32 false) [7; 7; 7; 7] 4 w0 in
      let res :=
        _webSocketsDecode b64_pton_none (new_session 32 false) [7; 7; 7; 7] 4 w0 in
      state (dec (snd (fst sw))) = WS_STATE_ERR
      /\ fst (fst (fst res)) = 0 /\ errno (snd res) = errno w0
      /\ snd (fst (fst res)) = [7; 7; 7; 7]
      /\ state (dec (snd (fst res))) = WS_STATE_DECODING_HEADER_PENDING).
Proof.
  cbv zeta.
  assert (Hw : waiting_state (state (dec (new_session 32 false)))) by (left; reflexivity).
  split.
  - set (w0 := socket_with (one_chunk frame_unmasked)).
    set (sw := decode_switch _ _ _ _ _).
    set (res := _webSocketsDecode _ _ _ _ _).
    assert (E1 : decode_switch b64_pton_none (new_session 32 false) [7; 7; 7; 7] 4 w0
                 = (fst (fst (fst sw)), snd (fst (fst sw)), snd (fst sw), snd sw))
      by (vm_compute; reflexivity).
    assert (E2 : _webSocketsDecode b64_pton_none (new_session 32 false) [7; 7; 7; 7] 4 w0
                 = (fst (fst (fst res)), snd (fst (fst res)), snd (fst res), snd res))
      by (vm_compute; reflexivity).
    pose proof (C3_ERR_is_reset b64_pton_none (new_session 32 false) [7; 7; 7; 7] 4 w0
                  (fst (fst (fst res))) (snd (fst (fst res))) (snd (fst res)) (snd res)
                  (fst (fst (fst sw))) (snd (fst (fst sw))) (snd (fst sw)) (snd sw)
                  Hw E1 E2) as (_ & P).
    assert (HE : state (dec (snd (fst sw))) = WS_STATE_ERR) by reflexivity.
    destruct (P HE) as (P1 & _ & P3 & P4 & _ & _ & _ & P8 & _).
    repeat split; try assumption; reflexivity.
  - set (w0 := socket_with [Closed]).
    set (sw := decode_switch _ _ _ _ _).
    set (res := _webSocketsDecode _ _ _ _ _).
    assert (E1 : decode_switch b64_pton_none (new_session 32 false) [7; 7; 7; 7] 4 w0
                 = (fst (fst (fst sw)), snd (fst (fst sw)), snd (fst sw), snd sw))
      by (vm_compute; reflexivity).
    assert (E2 : _webSocketsDecode b64_pton_none (new_session 32 false) [7; 7; 7; 7] 4 w0
                 = (fst (fst (fst res)), snd (fst (fst res)), snd (fst res), snd res))
      by (vm_compute; reflexivity).
    pose proof (C3_ERR_is_reset b64_pton_none (new_session 32 false) [7; 7; 7; 7] 4 w0
                  (fst (fst (fst res))) (snd (fst (fst res))) (snd (fst res)) (snd res)
                  (fst (fst (fst sw))) (snd (fst (fst sw))) (snd (fst sw)) (snd sw)
                  Hw E1 E2) as (_ & P).
    assert (HE : state (dec (snd (fst sw))) = WS_STATE_ERR) by reflexivity.
    destruct (P HE) as (P1 & _ & P3 & _).
    repeat split; try assumption; reflexivity.
Defined.

(** ** The Base64 flag and TEXT frames *)

(** C4, as the code has it.  The decoder does not consult the Base64 flag
    of the session: a call of the emulated recv returns the same, writes
    the same to the destination and leaves the same decoding context and
    world whatever the flag is.  The payload of a TEXT frame is always
    decoded: in the payload step ([n] bytes read, [toDecode] bytes to
    unmask with those carried over and those read with the header) the
    bytes are unmasked; [toReturn] is [toDecode] when the frame is
    complete and the whole groups of four, [4 * (toDecode >> 2)],
    otherwise; a NUL is written at [data + toReturn]; [b64_pton] decodes
    the C string at [data], in place; [readlen] becomes what [b64_pton]
    returns, the write position goes back to the start of the payload,
    and [returnData] hands over what is there. *)
Theorem C4_base64_flag_is_not_consulted (b64_pton : list Z -> Z -> Z * list Z)
    (wsctx : ws_ctx_t) (dst : list Z) (len : Z) (w : world)
    (sockRet nInBuf bufsize n : Z) :
  (forall b,
     _webSocketsDecode b64_pton (mk_ctx (dec wsctx) b) dst len w
     = (let '(r, dst', c, w') := _webSocketsDecode b64_pton wsctx dst len w in
        (r, dst', mk_ctx (dec c) b, w')))
  /\ (opcode (header (dec wsctx)) = WS_OPCODE_TEXT_FRAME ->
      0 <= n + carrylen (dec wsctx) + nInBuf ->
      3 <= ARRAYSIZE (carryBuf (dec wsctx)) ->
      let toDecode := n + carrylen (dec wsctx) + nInBuf in
      let complete :=
        ws_state_eqb (state (payload_counted (dec wsctx) n))
          WS_STATE_DECODING_FRAME_COMPLETE in
      let d4 := fst (unmask (payload_counted (dec wsctx) n) toDecode) in
      let datap := writePos (dec wsctx) + n - toDecode in
      let toReturn := if complete then toDecode else 4 * Z.shiftr toDecode 2 in
      let buf := buf_set (codeBufDecode d4) (datap + toReturn) 0 in
      let res := b64_pton (cstring_at buf datap) bufsize in
      let d5 :=
        set_readPos datap
          (set_writePos (payloadStart d4)
             (set_readlen (fst res)
                (set_codeBufDecode (memcpy buf datap (snd res)) d4))) in
      readAndDecode_payload b64_pton wsctx dst len w sockRet nInBuf bufsize n
      = (let '(s, dst', d6, r, w') := returnData dst len d5 sockRet w in
         (s, dst', mk_ctx d6 (base64 wsctx), r, w'))).
Proof.
  split.
  - intros b. destruct wsctx as [d b0]. apply webSocketsDecode_flag.
  - intros Hop Ht Hc. cbn zeta.
    rewrite (readAndDecode_payload_data b64_pton wsctx dst len w sockRet nInBuf bufsize n
               Ht Hc) by (rewrite Hop; discriminate).
    cbn zeta.
    pose proof (payload_counted_fields (dec wsctx) n) as (F1 & _).
    destruct (unmask (payload_counted (dec wsctx) n) _) as [d4 ok] eqn:U. cbn [fst].
    pose proof (unmask_fields _ _ _ _ U) as (_ & G2 & _).
    pose proof (unmask_carrylen _ _ _ _ U) as Hcl.
    assert (Htr : n + carrylen (dec wsctx) + nInBuf - carrylen d4
                  = if ws_state_eqb (state (payload_counted (dec wsctx) n))
                         WS_STATE_DECODING_FRAME_COMPLETE
                    then n + carrylen (dec wsctx) + nInBuf
                    else 4 * Z.shiftr (n + carrylen (dec wsctx) + nInBuf) 2).
    { rewrite Hcl. destruct (ws_state_eqb _ _); lia. }
    rewrite Htr.
    unfold decode_by_opcode. rewrite G2, F1, Hop.
    change (WS_OPCODE_TEXT_FRAME =? WS_OPCODE_TEXT_FRAME) with true. cbn iota. rsimpl.
    destruct (b64_pton _ _) as [r out]. reflexivity.
Qed.

(** The call on a new session that finds [frame_text_QUJD] on the socket
    comes to the payload step with the context
    [after_header frame_text_QUJD]. *)
Lemma QUJD_step_is_reached :
  decode_switch b64_pton_ref (new_session 32 false) [7; 7; 7; 7] 4
    (socket_with (one_chunk frame_text_QUJD))
  = (let '(s, dst, c, r, w) :=
       readAndDecode_payload b64_pton_ref (after_header frame_text_QUJD) [7; 7; 7; 7] 4
         (socket_with []) (-1) 4 21 0 in
     (r, dst, mk_ctx (set_state s (dec c)) (base64 c), w)).
Proof. vm_compute. reflexivity. Qed.

Lemma C4_base64_flag_is_not_consulted_witness :
  let wsctx := after_header frame_text_QUJD in
  let d4 := fst (unmask (payload_counted (dec wsctx) 0) 4) in
  let buf := buf_set (codeBufDecode d4) 10 0 in
  let res := b64_pton_ref (cstring_at buf 6) 21 in
  let d5 :=
    set_readPos 6
      (set_writePos (payloadStart d4)
         (set_readlen (fst res) (set_codeBufDecode (memcpy buf 6 (snd res)) d4))) in
  buf_read (codeBufDecode d4) 6 4 = bytes_of_string "QUJD"
  /\ res = (3, bytes_of_string "ABC")
  /\ readAndDecode_payload b64_pton_ref wsctx [7; 7; 7; 7] 4 (socket_with []) (-1) 4 21 0
     = (let '(s, dst', d6, r, w') := returnData [7; 7; 7; 7] 4 d5 (-1) (socket_with []) in
        (s, dst', mk_ctx d6 (base64 wsctx), r, w'))
  /\ (let '(s, dst', _, r, _) :=
        readAndDecode_payload b64_pton_ref wsctx [7; 7; 7; 7] 4 (socket_with []) (-1)
          4 21 0 in
      s = WS_STATE_DECODING_FRAME_COMPLETE /\ r = 3 /\ dst' = [65; 66; 67; 7]).
Proof.
  cbv zeta.
  pose proof (C4_base64_flag_is_not_consulted b64_pton_ref (after_header frame_text_QUJD)
                [7; 7; 7; 7] 4 (socket_with []) (-1) 4 21 0) as (_ & P).
  assert (H1 : opcode (header (dec (after_header frame_text_QUJD))) = WS_OPCODE_TEXT_FRAME)
    by reflexivity.
  assert (H2 : 0 <= 0 + carrylen (dec (after_header frame_text_QUJD)) + 4)
    by (vm_compute; discriminate).
  assert (H3 : 3 <= ARRAYSIZE (carryBuf (dec (after_header frame_text_QUJD))))
    by (vm_compute; discriminate).
  specialize (P H1 H2 H3). cbv zeta in P.
  split; [vm_compute; reflexivity|]. split; [vm_compute; reflexivity|].
  split; [exact P|]. vm_compute. repeat split.
Defined.

(** ** Fragmented messages *)

Section Fragments.

Variable b64_pton : list Z -> Z -> Z * list Z.

Lemma readHeader_length_keeps d w sr np s d' w' sr' np' :
  readHeader_length d w sr np = (s, d', w', sr', np') ->
  s <> WS_STATE_ERR ->
  continuation_opcode d' = continuation_opcode d
  /\ fin (header d') = fin (header d) /\ opcode (header d') = opcode (header d).
Proof.
  unfold readHeader_length, readHeader_complete, err_cleanup_state,
    err_cleanup_state_sock_closed, ret_header_pending.
  cbn zeta. rsimpl.
  repeat break_if; intros H Hs; inv_pair; rsimpl; auto; contradiction.
Qed.

Lemma returnData_keeps dst len c nW w s dst' c' r w' :
  returnData dst len c nW w = (s, dst', c', r, w') ->
  continuation_opcode c' = continuation_opcode c /\ header c' = header c.
Proof.
  unfold returnData. repeat break_if; intros H; inv_pair; rsimpl; auto.
Qed.

Lemma readAndDecode_payload_keeps wsctx dst len w sockRet nInBuf bufsize n
    s dst' c' r w' :
  readAndDecode_payload b64_pton wsctx dst len w sockRet nInBuf bufsize n
  = (s, dst', c', r, w') ->
  continuation_opcode (dec c') = continuation_opcode (dec wsctx)
  /\ header (dec c') = header (dec wsctx).
Proof.
  unfold readAndDecode_payload. cbn zeta.
  fold (payload_counted (dec wsctx) n).
  pose proof (payload_counted_fields (dec wsctx) n) as (F1 & _ & _ & _ & _ & F6 & _).
  set (d0 := payload_counted (dec wsctx) n) in *. clearbody d0.
  destruct (_ <? 0); [intros E; inv_pair; rsimpl; auto|].
  destruct (unmask d0 _) as [d4 ok] eqn:U.
  pose proof (unmask_fields _ _ _ _ U) as (_ & G2 & _ & _ & G5 & _).
  destruct ok; cbn [negb]; [|intros E; inv_pair; rsimpl; split; congruence].
  destruct (_ =? WS_OPCODE_CLOSE).
  - destruct (wsFrameComplete d4); intros E; inv_pair; rsimpl; split; congruence.
  - match goal with
    | |- context [returnData dst len ?c sockRet w] =>
        pose proof (decode_by_opcode_fields b64_pton d4 (writePos d0 - (n + carrylen d0 + nInBuf))
                      (n + carrylen d0 + nInBuf - carrylen d4) bufsize)
          as (_ & D2 & _ & _ & D5 & _);
        assert (Hc : continuation_opcode c = continuation_opcode d0 /\ header c = header d0)
          by (rsimpl; split; [rewrite D5; exact G5 | rewrite D2; exact G2]);
        destruct (returnData dst len c sockRet w) as [[[[s1 dst1] c1] r1] w1] eqn:RD
    end.
    apply returnData_keeps in RD. destruct RD as (R1 & R2), Hc as (H1 & H2).
    intros E; inv_pair. rsimpl. split; congruence.
Qed.

Lemma readAndDecode_keeps wsctx dst len w sockRet nInBuf s dst' c' r w' :
  readAndDecode b64_pton wsctx dst len w sockRet nInBuf = (s, dst', c', r, w') ->
  continuation_opcode (dec c') = continuation_opcode (dec wsctx)
  /\ header (dec c') = header (dec wsctx).
Proof.
  unfold readAndDecode. cbn zeta.
  destruct (_ >? 0).
  - destruct (lowerRead _ _) as [[n bytes] w1].
    destruct (-1 =? n); [intros E; inv_pair; rsimpl; auto|].
    destruct (n =? 0); [intros E; inv_pair; rsimpl; auto|].
    intros E. apply readAndDecode_payload_keeps in E. exact E.
  - intros E. apply readAndDecode_payload_keeps in E. exact E.
Qed.

(** C5, as the code has it.  In the call whose header read makes the
    second header byte available (however the bytes of the header have
    arrived), [readHeader] refuses the frame on account of fragmentation
    (-1, EPROTO, decoder reset) in two cases only: a control frame with
    the FIN bit clear, and a CONT frame while no fragmented message is
    open.  Every other header goes on to the parsing of the length.  So a
    fresh data frame (an opcode that is neither CONT nor a control
    opcode, as TEXT and BINARY) is not a protocol error while a
    fragmented message is open: the call does what it would do with any
    other opcode remembered, or none, and the frame replaces the
    remembered opcode: after the call it is the opcode of the frame when
    its FIN bit is clear, and INVALID when the bit is set or the switch
    of the call has ended in ERR. *)
Theorem C5_fresh_data_frame_accepted wsctx dst len w ret bytes w1
    r dst' wsctx' w' sr sd sc sw :
  state (dec wsctx) = WS_STATE_DECODING_HEADER_PENDING ->
  lowerRead w (WSHLENMAX - nDone (header (dec wsctx))) = (ret, bytes, w1) ->
  0 < ret -> 2 <= nDone (header (dec wsctx)) + ret ->
  decode_switch b64_pton wsctx dst len w = (sr, sd, sc, sw) ->
  _webSocketsDecode b64_pton wsctx dst len w = (r, dst', wsctx', w') ->
  let buf := memcpy (codeBufDecode (dec wsctx)) (nDone (header (dec wsctx))) bytes in
  let b0 := buf_get buf 0 in
  let opc := Z.land b0 15 in
  let fin_bit := Z.shiftr (Z.land b0 128) 7 in
  let co := continuation_opcode (dec wsctx) in
  let control := negb (0 =? Z.land opc 8) in
  let remembered := if fin_bit =? 0 then opc else WS_OPCODE_INVALID in
  let d1 :=
    upd_header (set_fin fin_bit)
      (upd_header (set_opcode opc)
         (upd_header (set_data 0)
            (upd_header (set_nDone (nDone (header (dec wsctx)) + ret))
               (set_codeBufDecode buf (dec wsctx))))) in
  readHeader (dec wsctx) w (-1) 0
  = (if (control && (fin_bit =? 0))
        || (negb control && (opc =? WS_OPCODE_CONTINUATION) && (co =? WS_OPCODE_INVALID))
     then err_cleanup_state d1 (set_errno EPROTO w1) 0
     else
       readHeader_length
         (if control then d1
          else if opc =? WS_OPCODE_CONTINUATION then upd_header (set_opcode co) d1
          else set_continuation_opcode remembered d1) w1 (-1) 0)
  /\ (control = false -> opc <> WS_OPCODE_CONTINUATION ->
      (forall co',
         _webSocketsDecode b64_pton
           (mk_ctx (set_continuation_opcode co' (dec wsctx)) (base64 wsctx)) dst len w
         = (r, dst', wsctx', w'))
      /\ continuation_opcode (dec wsctx')
         = (if ws_state_eqb (state (dec sc)) WS_STATE_ERR then WS_OPCODE_INVALID
            else remembered)).
Proof.
  intros Hst LR Hpos H2 SW WD buf b0 opc fin_bit co control remembered d1.
  pose proof (readHeader_parse (dec wsctx) w (-1) 0 ret bytes w1 LR Hpos H2) as RP.
  cbn zeta in RP. fold buf b0 opc fin_bit control d1 in RP.
  split.
  - rewrite RP. fold co.
    destruct control; cbn [negb andb orb].
    + destruct (fin_bit =? 0); reflexivity.
    + destruct (opc =? WS_OPCODE_CONTINUATION); cbn [andb]; [reflexivity|].
      unfold remembered. destruct (fin_bit =? 0); reflexivity.
  - intros Hc Ho.
    destruct (Z.eqb_spec opc WS_OPCODE_CONTINUATION) as [|_]; [contradiction|].
    rewrite Hc in RP.
    assert (RP' : readHeader (dec wsctx) w (-1) 0
                  = readHeader_length (set_continuation_opcode remembered d1) w1 (-1) 0).
    { rewrite RP. unfold remembered. destruct (fin_bit =? 0); reflexivity. }
    clear RP. split.
    + intros co'. rewrite <- WD.
      assert (RH : readHeader (set_continuation_opcode co' (dec wsctx)) w (-1) 0
                   = readHeader (dec wsctx) w (-1) 0).
      { rewrite RP'.
        pose proof (readHeader_parse (set_continuation_opcode co' (dec wsctx)) w (-1) 0
                      ret bytes w1 LR Hpos H2) as RQ.
        cbn zeta in RQ. rsimpl. fold buf b0 opc fin_bit control in RQ.
        rewrite Hc in RQ.
        destruct (Z.eqb_spec opc WS_OPCODE_CONTINUATION) as [|_]; [contradiction|].
        rewrite RQ. unfold remembered. destruct (fin_bit =? 0); reflexivity. }
      unfold _webSocketsDecode, decode_switch. rsimpl. rewrite Hst. cbn zeta.
      rewrite RH. reflexivity.
    + revert WD. unfold _webSocketsDecode. rewrite SW. intros WD; inv_pair. rsimpl.
      revert SW. unfold decode_switch. cbn zeta. rewrite Hst, RP'.
      destruct (readHeader_length _ _ _ _) as [[[[s d] w2] r2] n2] eqn:RL.
      pose proof (readHeader_length_keeps _ _ _ _ _ _ _ _ _ RL) as K.
      unfold d1 in K. rsimpl.
      assert (RS : s = WS_STATE_ERR \/ s = WS_STATE_DECODING_HEADER_PENDING
                   \/ s = WS_STATE_DECODING_DATA_NEEDED).
      { eapply readHeader_states. exact RP'. }
      destruct RS as [-> | [-> | ->]].
      * intros E; inv_pair. reflexivity.
      * intros E; inv_pair. rsimpl. unfold decode_spor. rsimpl.
        destruct K as (K1 & _); [discriminate|]. exact K1.
      * destruct K as (K1 & K2 & K3); [discriminate|].
        destruct (readAndDecode _ _ _ _ _ _ _) as [[[[s' dd] cc] rr] ww] eqn:RD.
        apply readAndDecode_keeps in RD. rsimpl. destruct RD as (R1 & R2).
        intros E; inv_pair. rsimpl. unfold decode_spor. rsimpl.
        destruct s'; cbn [ws_state_eqb]; rsimpl; try (rewrite R1; exact K1);
          [|reflexivity].
        unfold isControlFrame. rewrite R2, K2, K3. fold control. rewrite Hc.
        cbn [negb andb]. unfold remembered in *.
        destruct (fin_bit =? 0); cbn [negb andb]; rsimpl;
          [rewrite R1; exact K1 | reflexivity].
Qed.

End Fragments.

Lemma C5_fresh_data_frame_accepted_witness :
  let wsctx := fst fragment_open in
  let w := snd fragment_open in
  let res := _webSocketsDecode b64_pton_none wsctx [7; 7; 7; 7] 4 w in
  continuation_opcode (dec wsctx) = WS_OPCODE_BINARY_FRAME
  /\ nDone (header (dec wsctx)) = 1
  /\ _webSocketsDecode b64_pton_none
       (mk_ctx (set_continuation_opcode WS_OPCODE_INVALID (dec wsctx)) (base64 wsctx))
       [7; 7; 7; 7] 4 w
     = (fst (fst (fst res)), snd (fst (fst res)), snd (fst res), snd res)
  /\ fst (fst (fst res)) = -1 /\ errno (snd res) = EAGAIN
  /\ continuation_opcode (dec (snd (fst res))) = WS_OPCODE_TEXT_FRAME.
Proof.
  cbv zeta.
  set (wsctx := fst fragment_open). set (w := snd fragment_open).
  set (sw := decode_switch b64_pton_none wsctx [7; 7; 7; 7] 4 w).
  set (res := _webSocketsDecode b64_pton_none wsctx [7; 7; 7; 7] 4 w).
  assert (H1 : state (dec wsctx) = WS_STATE_DECODING_HEADER_PENDING) by reflexivity.
  assert (H2 : lowerRead w (WSHLENMAX - nDone (header (dec wsctx)))
               = (1, [132], snd (lowerRead w 13))) by (vm_compute; reflexivity).
  assert (H3 : 0 < 1) by lia.
  assert (H4 : 2 <= nDone (header (dec wsctx)) + 1) by (vm_compute; discriminate).
  assert (E1 : decode_switch b64_pton_none wsctx [7; 7; 7; 7] 4 w
               = (fst (fst (fst sw)), snd (fst (fst sw)), snd (fst sw), snd sw))
    by (vm_compute; reflexivity).
  assert (E2 : _webSocketsDecode b64_pton_none wsctx [7; 7; 7; 7] 4 w
               = (fst (fst (fst res)), snd (fst (fst res)), snd (fst res), snd res))
    by (vm_compute; reflexivity).
  pose proof (C5_fresh_data_frame_accepted b64_pton_none wsctx [7; 7; 7; 7] 4 w
                1 [132] (snd (lowerRead w 13))
                (fst (fst (fst res))) (snd (fst (fst res))) (snd (fst res)) (snd res)
                (fst (fst (fst sw))) (snd (fst (fst sw))) (snd (fst sw)) (snd sw)
                H1 H2 H3 H4 E1 E2) as (_ & P).
  cbv zeta in P.
  assert (Hc : negb (0 =? Z.land (Z.land (buf_get (memcpy (codeBufDecode (dec wsctx))
                       (nDone (header (dec wsctx))) [132]) 0) 15) 8) = false)
    by (vm_compute; reflexivity).
  assert (Ho : Z.land (buf_get (memcpy (codeBufDecode (dec wsctx))
                  (nDone (header (dec wsctx))) [132]) 0) 15 <> WS_OPCODE_CONTINUATION)
    by (vm_compute; discriminate).
  destruct (P Hc Ho) as (P1 & P2).
  split; [reflexivity|]. split; [reflexivity|].
  split; [exact (P1 WS_OPCODE_INVALID)|].
  split; [vm_compute; reflexivity|]. split; [vm_compute; reflexivity|].
  rewrite P2. vm_compute. reflexivity.
Defined.

(** ** CLOSE frames *)

Section Close.

Variable b64_pton : list Z -> Z -> Z * list Z.









End Close.



